(** * MathTeacherAgent: the interactive session controller

    A shallow embedding of the TypeScript sources of the tutoring front end
    (graders of [ValidationActions.tsx], the sliding-window limiter of
    [utils/validation.ts], the interruption classifier of
    [DemoInterruptionManager.tsx], the tool context provider and the
    [NumberLine] demonstration player; then the validator of
    [utils/validation.ts] with its patterns, the logger, the completion
    handler of the tool display, the validation action, the message
    monitor of the interruption manager and the manual mode of the
    number line), followed by the properties of the specification that
    were checked against it (Part II) and by further properties of the
    code (Part III).

    Conventions of the embedding.
    - A JavaScript string is a [string]; a character stands for one code
      unit in the range 0..255.  Text literals of the sources are kept as
      they are written (their non-ASCII glyphs are carried as bytes and are
      never inspected by the code; the signs [×] and [÷], which the
      validator does inspect, are the code units 215 and 247 there).
    - The numbers of the graders are IEEE-754 binary64 values, [spec_float]
      at precision 53; [of_Z] is the number nearest to an integer.
    - The integers handled by the number line component (clicked positions,
      operands, counters) are held in [Z].  This is what the component
      computes as long as they are safe integers, below 2^53 in absolute
      value, where the arithmetic of JavaScript numbers is exact; the
      properties of the number line are stated for such operands.
      Millisecond clocks are [Z].
    - [throw] is the [Throw] constructor of [outcome]; React state is an
      explicit record, a render is the snapshot captured by the closures it
      creates, and timers are an explicit queue. *)

From Stdlib Require Import ZArith NArith String Ascii List Bool Lia.
From Stdlib Require Import DecimalString DecimalN DecimalPos DecimalFacts.
From Stdlib Require Import Floats.SpecFloat.
From Stdlib Require Import Sorted.
From stdpp Require Import base option list strings gmap.

Local Open Scope string_scope.
Local Open Scope Z_scope.

(* ===================================================================== *)
(** * Part I: the embedding                                               *)
(* ===================================================================== *)

(** ** JavaScript primitives used by the sources *)

Module JS.

(** Results of functions that may [throw]. *)
Inductive outcome (A : Type) : Type :=
| Ok (a : A)
| Throw (msg : string).
Arguments Ok {A} a.
Arguments Throw {A} msg.

Definition code (c : ascii) : N := N_of_ascii c.

(** The class [\d]. *)
Definition is_digit (c : ascii) : bool :=
  (48 <=? code c)%N && (code c <=? 57)%N.

(** The class [\s] (and the characters removed by [trim]). *)
Definition is_space (c : ascii) : bool :=
  existsb (N.eqb (code c)) [9; 10; 11; 12; 13; 32; 160]%N.

Fixpoint all_chars (p : ascii -> bool) (s : string) : bool :=
  match s with
  | EmptyString => true
  | String c r => p c && all_chars p r
  end.

(** [s.startsWith(w)]. *)
Definition startsWith (s w : string) : bool := String.prefix w s.

(** [s.includes(w)]. *)
Fixpoint includes (s w : string) : bool :=
  String.prefix w s ||
  match s with
  | EmptyString => false
  | String _ r => includes r w
  end.

Fixpoint trimStart (s : string) : string :=
  match s with
  | EmptyString => EmptyString
  | String c r => if is_space c then trimStart r else s
  end.

Fixpoint trimEnd (s : string) : string :=
  match s with
  | EmptyString => EmptyString
  | String c r =>
      match trimEnd r with
      | EmptyString => if is_space c then EmptyString else String c EmptyString
      | r' => String c r'
      end
  end.

(** [s.trim()]. *)
Definition trim (s : string) : string := trimEnd (trimStart s).

Definition lower_char (c : ascii) : ascii :=
  let n := code c in
  if ((65 <=? n) && (n <=? 90))%N
     || ((192 <=? n) && (n <=? 222) && negb (n =? 215))%N
  then ascii_of_N (n + 32)
  else c.

(** [s.toLowerCase()]. *)
Fixpoint toLowerCase (s : string) : string :=
  match s with
  | EmptyString => EmptyString
  | String c r => String (lower_char c) (toLowerCase r)
  end.

(** [s.replace(w, "")] with a string pattern: the first occurrence of
    [w] is removed. *)
Fixpoint remove_first (w s : string) : string :=
  if String.prefix w s then substring (String.length w) (String.length s - String.length w) s
  else match s with
       | EmptyString => EmptyString
       | String c r => String c (remove_first w r)
       end.

(** Decimal rendering of an integer, as in a template literal. *)
Definition showN (n : N) : string := NilZero.string_of_uint (N.to_uint n).
Definition showZ (z : Z) : string := NilZero.string_of_int (Z.to_int z).

Definition digit_value (c : ascii) : Z := Z.of_N (code c) - 48.

Fixpoint parse_digits (s : string) (acc : Z) : Z :=
  match s with
  | EmptyString => acc
  | String c r => parse_digits r (10 * acc + digit_value c)
  end.

(** The integer written by a run of decimal digits. *)
Definition digits_value (digits : string) : Z := parse_digits digits 0.

(** *** Numbers: IEEE-754 binary64 *)

Definition number : Type := spec_float.
Definition prec : Z := 53.
Definition emax : Z := 1024.

Definition NaN : number := S754_nan.
Definition num_add : number -> number -> number := SFadd prec emax.
Definition num_sub : number -> number -> number := SFsub prec emax.
Definition num_mul : number -> number -> number := SFmul prec emax.
Definition num_div : number -> number -> number := SFdiv prec emax.
(** [Math.abs] *)
Definition num_abs : number -> number := SFabs.
(** Unary minus *)
Definition num_opp : number -> number := SFopp.
(** [<], [<=] and [===] on numbers *)
Definition num_lt : number -> number -> bool := SFltb.
Definition num_le : number -> number -> bool := SFleb.
Definition num_eq : number -> number -> bool := SFeqb.

(** The number nearest to an integer, ties going to the even mantissa;
    it is infinite from 2^1024 - 2^970 on. *)
Definition of_Z (z : Z) : number := binary_normalize prec emax z 0 false.

(** [parseInt] on a captured run of decimal digits: the number nearest
    to the integer they write (all the digits count; the language leaves
    those after the twentieth to the implementation). *)
Definition parseInt (digits : string) : number := of_Z (digits_value digits).

(** The number nearest to [(-1)^neg * m * 10^e], for a natural [m]. *)
Definition of_decimal (neg : bool) (m e : Z) : number :=
  if m =? 0 then S754_zero neg
  else if 0 <=? e then
    binary_normalize prec emax ((if neg then - m else m) * 10 ^ e) 0 false
  else
    let '(q, e', l) := SFdiv_core_binary prec emax m 0 (10 ^ (- e)) 0 in
    binary_round_aux prec emax neg q e' l.

(** The longest run of digits at the head of [s], and what follows it. *)
Fixpoint span_digits (s : string) : string * string :=
  match s with
  | String c r =>
      if is_digit c then let '(d, r') := span_digits r in (String c d, r')
      else (EmptyString, s)
  | EmptyString => (EmptyString, EmptyString)
  end.

Definition take_sign (s : string) : bool * string :=
  match s with
  | String "-" r => (true, r)
  | String "+" r => (false, r)
  | _ => (false, s)
  end.

(** The exponent part [e], [e+] or [e-] followed by digits; 0 when the
    text does not continue with one. *)
Definition exponent_part (s : string) : Z :=
  match s with
  | String c r =>
      if (Ascii.eqb c "e" || Ascii.eqb c "E")%char then
        let '(neg, r1) := take_sign r in
        let '(d, _) := span_digits r1 in
        match d with
        | EmptyString => 0
        | _ => if neg then - parse_digits d 0 else parse_digits d 0
        end
      else 0
  | EmptyString => 0
  end.

(** [parseFloat]: leading white space is skipped, the longest prefix that
    is a decimal literal is converted, and the answer is [NaN] when there
    is none.  It never throws. *)
Definition parseFloat (input : string) : number :=
  let '(neg, s) := take_sign (trimStart input) in
  if startsWith s "Infinity" then S754_infinity neg
  else
    let '(ip, r1) := span_digits s in
    let '(fp, r2) :=
      match r1 with
      | String "." r => span_digits r
      | _ => (EmptyString, r1)
      end in
    match ip ++ fp with
    | EmptyString => NaN
    | digits =>
        of_decimal neg (parse_digits digits 0)
                   (exponent_part r2 - Z.of_nat (String.length fp))
    end.

(** The literal [0.01]. *)
Definition num_0_01 : number := Eval vm_compute in of_decimal false 1 (-2).

End JS.

(** ** Regular expressions of the sources

    The patterns used for problem texts are sequences of character
    classes, each taken once, one or more times, or zero or more times.
    Matching is greedy with backtracking and [search] returns the captures
    of the leftmost match, as [String.prototype.match] does without the
    [g] flag. *)

Module Regex.

Inductive quant := Once | Many0 | Many1.

Record item := Item { cls : ascii -> bool; rep : quant; captured : bool }.

Section Matcher.
Context {R : Type}.

(** Greedy repetition of a class: [m] is what was consumed so far. *)
Fixpoint repeat_class (p : ascii -> bool) (s m : string)
         (k : string -> string -> option R) : option R :=
  match s with
  | String c r =>
      if p c then
        match repeat_class p r (m ++ String c EmptyString) k with
        | Some x => Some x
        | None => k m s
        end
      else k m s
  | EmptyString => k m s
  end.
End Matcher.

Definition keep (it : item) (m : string) (caps : list string) : list string :=
  if captured it then caps ++ [m] else caps.

Fixpoint match_here (its : list item) (s : string) (caps : list string)
  : option (list string) :=
  match its with
  | [] => Some caps
  | it :: rest =>
      match rep it with
      | Once =>
          match s with
          | String c r =>
              if cls it c then match_here rest r (keep it (String c EmptyString) caps)
              else None
          | EmptyString => None
          end
      | Many0 =>
          repeat_class (cls it) s EmptyString
            (fun m r => match_here rest r (keep it m caps))
      | Many1 =>
          match s with
          | String c r =>
              if cls it c then
                repeat_class (cls it) r (String c EmptyString)
                  (fun m r' => match_here rest r' (keep it m caps))
              else None
          | EmptyString => None
          end
      end
  end.

(** Leftmost match: the capture groups, in order. *)
Fixpoint search (its : list item) (s : string) : option (list string) :=
  match match_here its s [] with
  | Some caps => Some caps
  | None =>
      match s with
      | EmptyString => None
      | String _ r => search its r
      end
  end.

(** The class [p] cannot consume the next character of [s]. *)
Definition stops (p : ascii -> bool) (s : string) : Prop :=
  match s with
  | EmptyString => True
  | String c _ => p c = false
  end.

Definition one_of (cs : list ascii) (c : ascii) : bool :=
  existsb (Ascii.eqb c) cs.

(** [/(\d+)\s*([+\-])\s*(\d+)/] *)
Definition step_problem : list item :=
  [ Item JS.is_digit Many1 true; Item JS.is_space Many0 false;
    Item (one_of ["+"; "-"]%char) Once true;
    Item JS.is_space Many0 false; Item JS.is_digit Many1 true ].

(** [/(\d+)\s*([+\-*\/])\s*(\d+)/] *)
Definition practice_problem : list item :=
  [ Item JS.is_digit Many1 true; Item JS.is_space Many0 false;
    Item (one_of ["+"; "-"; "*"; "/"]%char) Once true;
    Item JS.is_space Many0 false; Item JS.is_digit Many1 true ].

(** [/(\d+)\s*[+\-]\s*(\d+)/] *)
Definition demo_problem : list item :=
  [ Item JS.is_digit Many1 true; Item JS.is_space Many0 false;
    Item (one_of ["+"; "-"]%char) Once false;
    Item JS.is_space Many0 false; Item JS.is_digit Many1 true ].

End Regex.

(** ** ValidationActions.tsx: the graders *)

Module ValidationActions.
Import JS.

(** The object returned by a grader; a field the object literal does not
    have is [None], and so is a [null] mistake type. *)
Record ValidationResult (num : Type) := {
  result : string;
  is_correct : bool;
  feedback : string;
  hint : string;
  mistake_type : option string;
  guidance_level : string;
  problem_completed : option bool;
  final_answer : option num;
  remaining_steps : option num;
  correct_answer : option num
}.
Arguments result {num}. Arguments is_correct {num}.
Arguments feedback {num}. Arguments hint {num}.
Arguments mistake_type {num}. Arguments guidance_level {num}.
Arguments problem_completed {num}. Arguments final_answer {num}.
Arguments remaining_steps {num}. Arguments correct_answer {num}.

(** The [validation_data] of a number-line step: the steps taken and
    the proposed step are numbers. *)
Record StepData := {
  current_steps : list number;
  proposed_step : number
}.

(** [operator === '+' ? x : y] *)
Definition if_plus {A} (operator : string) (x y : A) : A :=
  if String.eqb operator "+" then x else y.

(** The [validation_data] of a practice answer. *)
Record PracticeData := {
  user_input : string;
  step_number : Z
}.

(** A call of [parseFloat] inside [try]: the call returns normally on
    every string. *)
Definition call_parseFloat (s : string) : outcome number := Ok (parseFloat s).

Section Graders.

(** The rendering of a number inside a template literal
    ([Number.prototype.toString]) is left as a parameter. *)
Variable toString : number -> string.

Definition validateNumberLineStep (problem operation : string)
           (validation_data : StepData) : outcome (ValidationResult number) :=
  let current_steps := current_steps validation_data in
  let proposed_step := proposed_step validation_data in
  match Regex.search Regex.step_problem problem with
  | Some [m1; m2; m3] =>
      let firstNum := parseInt m1 in
      let operator := m2 in
      let secondNum := parseInt m3 in
      (* [last] is [None] exactly when [current_steps.length === 0] *)
      match last current_steps with
      | None =>
          (* First step validation *)
          if num_eq proposed_step firstNum then
            Ok {| result := "correct"; is_correct := true;
                  feedback := "Perfect! You started at " ++ toString firstNum
                              ++ ". Now let's count "
                              ++ if_plus operator "forward" "backward" ++ "!";
                  hint := "Great start! Next, click on "
                          ++ toString
                               (num_add firstNum
                                  (if_plus operator (of_Z 1) (of_Z (-1))))
                          ++ ".";
                  mistake_type := None; guidance_level := "encouraging";
                  problem_completed := None; final_answer := None;
                  remaining_steps := None; correct_answer := None |}
          else
            Ok {| result := "incorrect"; is_correct := false;
                  feedback := "Let's start at the first number: "
                              ++ toString firstNum;
                  hint := "Click on " ++ toString firstNum
                          ++ " to begin the problem.";
                  mistake_type := Some "wrong_starting_number";
                  guidance_level := "specific";
                  problem_completed := None; final_answer := None;
                  remaining_steps := None; correct_answer := None |}
      | Some lastPosition =>
          (* Subsequent step validation *)
          let expectedNext :=
            num_add lastPosition (if_plus operator (of_Z 1) (of_Z (-1))) in
          let stepsTaken :=
            num_sub (of_Z (Z.of_nat (length current_steps))) (of_Z 1) in
          if num_eq proposed_step expectedNext then
            let remainingSteps :=
              num_sub (num_sub secondNum stepsTaken) (of_Z 1) in
            if num_le remainingSteps (of_Z 0) then
              (* Problem completed! *)
              let finalAnswer :=
                num_add firstNum
                  (if_plus operator secondNum (num_opp secondNum)) in
              Ok {| result := "correct"; is_correct := true;
                    feedback := "🎉 Fantastic! You solved " ++ problem ++ " = "
                                ++ toString finalAnswer ++ "!";
                    hint := "Excellent work! You completed the problem step by step.";
                    mistake_type := None; guidance_level := "celebration";
                    problem_completed := Some true;
                    final_answer := Some finalAnswer;
                    remaining_steps := None; correct_answer := None |}
            else
              Ok {| result := "correct"; is_correct := true;
                    feedback := "Great! Keep going - " ++ toString remainingSteps
                                ++ " more step"
                                ++ (if num_lt (of_Z 1) remainingSteps
                                    then "s" else "") ++ ".";
                    hint := "Perfect! Now click on "
                            ++ toString
                                 (num_add expectedNext
                                    (if_plus operator (of_Z 1) (of_Z (-1))))
                            ++ ".";
                    mistake_type := None; guidance_level := "encouraging";
                    problem_completed := None; final_answer := None;
                    remaining_steps := Some remainingSteps;
                    correct_answer := None |}
          else
            (* Analyze the mistake *)
            if String.eqb operator "+" && num_lt expectedNext proposed_step then
              Ok {| result := "incorrect"; is_correct := false;
                    feedback := "Slow down! Let's count one step at a time.";
                    hint := "Try clicking on " ++ toString expectedNext
                            ++ " instead of " ++ toString proposed_step ++ ".";
                    mistake_type := Some "skipping_numbers";
                    guidance_level := "gentle";
                    problem_completed := None; final_answer := None;
                    remaining_steps := None; correct_answer := None |}
            else if String.eqb operator "+" && num_lt proposed_step lastPosition then
              Ok {| result := "incorrect"; is_correct := false;
                    feedback := "For addition, we count forward (to the right)!";
                    hint := "Click on " ++ toString expectedNext
                            ++ " to continue counting forward.";
                    mistake_type := Some "wrong_direction";
                    guidance_level := "specific";
                    problem_completed := None; final_answer := None;
                    remaining_steps := None; correct_answer := None |}
            else
              let direction := if_plus operator "forward" "backward" in
              Ok {| result := "incorrect"; is_correct := false;
                    feedback := "Not quite! Let's count " ++ direction
                                ++ " one number at a time.";
                    hint := "Click on " ++ toString expectedNext ++ " to continue.";
                    mistake_type := Some "incorrect_sequence";
                    guidance_level := "helpful";
                    problem_completed := None; final_answer := None;
                    remaining_steps := None; correct_answer := None |}
      end
  | _ => Throw "Could not parse math problem"
  end.

Definition validatePracticeStep (problem operation : string)
           (validation_data : PracticeData) : outcome (ValidationResult number) :=
  let user_input := user_input validation_data in
  let step_number := step_number validation_data in
  if String.eqb user_input "" || String.eqb (trim user_input) "" then
    Ok {| result := "needs_guidance"; is_correct := false;
          feedback := "Please enter your answer to continue.";
          hint := "Take your time and think about the problem step by step.";
          mistake_type := None; guidance_level := "gentle";
          problem_completed := None; final_answer := None;
          remaining_steps := None; correct_answer := None |}
  else
    (* Parse user input *)
    match call_parseFloat (trim user_input) with
    | Throw _ =>
        Ok {| result := "incorrect"; is_correct := false;
              feedback := "Please enter a valid number.";
              hint := "Make sure you're entering just the number, like '8' or '12'.";
              mistake_type := Some "invalid_input"; guidance_level := "specific";
              problem_completed := None; final_answer := None;
              remaining_steps := None; correct_answer := None |}
    | Ok userAnswer =>
        (* Calculate correct answer *)
        match Regex.search Regex.practice_problem problem with
        | Some [m1; m2; m3] =>
            let firstNum := parseFloat m1 in
            let operator := m2 in
            let secondNum := parseFloat m3 in
            let switch : outcome number :=
              if String.eqb operator "+" then Ok (num_add firstNum secondNum)
              else if String.eqb operator "-" then Ok (num_sub firstNum secondNum)
              else if String.eqb operator "*" then Ok (num_mul firstNum secondNum)
              else if String.eqb operator "/" then Ok (num_div firstNum secondNum)
              else Throw ("Unknown operator: " ++ operator) in
            match switch with
            | Throw msg => Throw msg
            | Ok correctAnswer =>
                (* Check if answer is correct *)
                if num_lt (num_abs (num_sub userAnswer correctAnswer)) num_0_01 then
                  Ok {| result := "correct"; is_correct := true;
                        feedback := "🎉 Excellent! " ++ problem ++ " = "
                                    ++ toString correctAnswer;
                        hint := "Great job! You solved it correctly!";
                        mistake_type := None; guidance_level := "celebration";
                        problem_completed := None; final_answer := None;
                        remaining_steps := None;
                        correct_answer := Some correctAnswer |}
                (* Analyze common mistakes *)
                else if String.eqb operator "+"
                        && (num_eq userAnswer firstNum || num_eq userAnswer secondNum) then
                  Ok {| result := "incorrect"; is_correct := false;
                        feedback := "You entered one of the numbers from the problem. For addition, we need to add them together!";
                        hint := "Try adding " ++ toString firstNum ++ " + "
                                ++ toString secondNum ++ ". What do you get?";
                        mistake_type := Some "not_adding";
                        guidance_level := "specific";
                        problem_completed := None; final_answer := None;
                        remaining_steps := None; correct_answer := None |}
                else
                  Ok {| result := "incorrect"; is_correct := false;
                        feedback := "Not quite right. The correct answer is "
                                    ++ toString correctAnswer ++ ".";
                        hint := "Try working through " ++ problem ++ " step by step.";
                        mistake_type := Some "incorrect_calculation";
                        guidance_level :=
                          if step_number =? 1 then "gentle" else "specific";
                        problem_completed := None; final_answer := None;
                        remaining_steps := None;
                        correct_answer := Some correctAnswer |}
            end
        | _ => Throw "Could not parse math problem"
        end
    end.

End Graders.

End ValidationActions.


(** ** utils/validation.ts: the sliding-window limiter

    The static field [calls] is threaded explicitly; [Date.now()] is the
    argument [now]. *)

Module FrontendRateLimiter.
Local Open Scope list_scope.

Definition MAX_CALLS : nat := 5.
Definition WINDOW_MS : Z := 30000.

(** [this.calls.filter(timestamp => now - timestamp < this.WINDOW_MS)] *)
Definition clean (now : Z) (calls : list Z) : list Z :=
  List.filter (fun timestamp => now - timestamp <? WINDOW_MS) calls.

(** Returns the answer and the new value of [calls]. *)
Definition isAllowed (now : Z) (calls : list Z) : bool * list Z :=
  let calls := clean now calls in
  if (MAX_CALLS <=? length calls)%nat then (false, calls)
  else (true, calls ++ [now]).

Definition getRemainingCalls (now : Z) (calls : list Z) : Z * list Z :=
  let calls := clean now calls in
  (Z.max 0 (Z.of_nat MAX_CALLS - Z.of_nat (length calls)), calls).

(** The values [calls] can take: empty when the class is loaded, then
    whatever the two methods leave behind. *)
Inductive reachable : list Z -> Prop :=
| reach_init : reachable []
| reach_isAllowed now calls :
    reachable calls -> reachable (snd (isAllowed now calls))
| reach_getRemainingCalls now calls :
    reachable calls -> reachable (snd (getRemainingCalls now calls)).

(** Answers of successive [isAllowed()] calls made at the given times. *)
Fixpoint answers (times : list Z) (calls : list Z) : list bool :=
  match times with
  | [] => []
  | now :: rest =>
      let '(ok, calls') := isAllowed now calls in ok :: answers rest calls'
  end.

End FrontendRateLimiter.

(** ** DemoInterruptionManager.tsx: the interruption classifier *)

Module DemoInterruptionManager.
Import JS.

(** Demo-related keywords that should NOT trigger interruption *)
Definition DEMO_KEYWORDS : list string :=
  [ "continue"; "resume"; "next step"; "keep going";
    "proceed"; "go on"; "demo"; "demonstration";
    "show me"; "let me see"; "continue demo" ].

(** Question/interruption indicators *)
Definition QUESTION_INDICATORS : list string :=
  [ "what"; "how"; "why"; "when"; "where"; "who";
    "can you"; "could you"; "would you"; "will you";
    "explain"; "tell me"; "help me"; "?" ].

(** The alternatives of
    [/^(what|how|why|when|where|who|can|could|would|will|is|are|do|does)\s/i]. *)
Definition QUESTION_WORDS : list string :=
  [ "what"; "how"; "why"; "when"; "where"; "who"; "can"; "could";
    "would"; "will"; "is"; "are"; "do"; "does" ].

(** The character of [s] at index [n] is white space. *)
Definition space_at (n : nat) (s : string) : bool :=
  match String.get n s with
  | Some c => is_space c
  | None => false
  end.

(** [test] of the anchored pattern above; the [i] flag compares letters
    without regard to case. *)
Definition startsWithQuestionWord (s : string) : bool :=
  existsb (fun w => startsWith (toLowerCase s) w && space_at (String.length w) s)
          QUESTION_WORDS.

Definition isUserQuery (message : string) : bool :=
  let lowerMessage := trim (toLowerCase message) in
  (* Skip very short messages *)
  if (String.length lowerMessage <? 3)%nat then false
  else
    (* Check if it's a demo continuation request *)
    let isDemoContinuation :=
      existsb (fun keyword => includes lowerMessage keyword) DEMO_KEYWORDS in
    if isDemoContinuation then false
    else
      (* Check if it's a question or request *)
      let isQuestion :=
        existsb (fun indicator => includes lowerMessage indicator)
                QUESTION_INDICATORS in
      (* Or if it contains question mark *)
      let hasQuestionMark := includes lowerMessage "?" in
      (* Or if it starts with common question words *)
      let startsWithQuestion := startsWithQuestionWord lowerMessage in
      isQuestion || hasQuestionMark || startsWithQuestion.

End DemoInterruptionManager.

(** ** The demonstration state shared by the tool context and the number line *)

Module Demo.

Record DemoState := {
  currentStep : Z;
  nextStepDelay : Z;
  pauseReason : option string;
  resumeAt : option Z
}.

End Demo.

(** ** NumberLine: the demonstration player

    Only the state that the demonstration reads or writes is kept (the
    manual-mode validation state is left out).  A render is the [State]
    it was computed from: the closures it creates read that snapshot,
    while [setX] calls update the current state, functional updates
    ([setX(prev => ...)]) reading the current value.  The updates made by
    one callback are applied together and followed by a render.  Effects
    run after the render, in the order of the source, when their
    dependencies have changed.  [Date.now()] and the time at which a timer
    fires are explicit arguments.  Callbacks received as props are
    recorded in the [log]. *)

Module NumberLine.
Import JS.

Record Props := {
  problem : string;
  operation : string;
  demoMode : bool;
  (** which optional callbacks were passed *)
  sendIntermediateMessage : bool;
  onDemoPause : bool;
  onDemoResume : bool;
  onDemoComplete : bool
}.

Record State := {
  selectedNumber : option Z;
  steps : list Z;
  demoStep : Z;
  demoExplanation : string;
  isDemoComplete : bool;
  messageHistory : list string;
  isDemoPaused : bool;
  pauseReason : string;
  savedDemoState : option Demo.DemoState;
  resumeRequested : bool
}.

Definition initialState : State :=
  {| selectedNumber := None; steps := []; demoStep := 0;
     demoExplanation := ""; isDemoComplete := false; messageHistory := [];
     isDemoPaused := false; pauseReason := ""; savedDemoState := None;
     resumeRequested := false |}.

(** Calls of the callbacks received as props. *)
Inductive event :=
| Sent (message : string)
| DemoPause (currentState : Demo.DemoState)
| DemoResume
| Answer (result : Z) (messageHistory : list string)
| DemoComplete.

(** The functions passed to [setTimeout], with the values they close over. *)
Inductive callback :=
| SetDemoStep (n : Z)
| Farewell (result : Z) (messageHistory : list string)
| Complete (result : Z) (messageHistory : list string)
| ResumeAt (step : Z).

Record timer := { id : nat; due : Z; action : callback }.

Record instance := {
  props : Props;
  state : State;
  (** the render whose [pauseDemo] and [resumeDemo] are held by
      [window.__numberLineDemoControl] *)
  control : option State;
  (** the render of the last run of the demo effect, and its [timeoutId] *)
  demoRender : option State;
  timeoutId : option nat;
  timers : list timer;
  nextId : nat;
  log : list event
}.

Definition with_state (f : State -> State) (i : instance) : instance :=
  {| props := props i; state := f (state i); control := control i;
     demoRender := demoRender i; timeoutId := timeoutId i;
     timers := timers i; nextId := nextId i; log := log i |}.

Definition emit (e : event) (i : instance) : instance :=
  {| props := props i; state := state i; control := control i;
     demoRender := demoRender i; timeoutId := timeoutId i;
     timers := timers i; nextId := nextId i;
     log := (log i ++ [e])%list |}.

(** [setTimeout(f, delay)] called at time [now]; the identifier is kept in
    [timeoutId] when the source assigns it. *)
Definition setTimeout (keep : bool) (f : callback) (now delay : Z) (i : instance)
  : instance :=
  {| props := props i; state := state i; control := control i;
     demoRender := demoRender i;
     timeoutId := if keep then Some (nextId i) else timeoutId i;
     timers := (timers i ++ [{| id := nextId i; due := now + delay; action := f |}])%list;
     nextId := S (nextId i); log := log i |}.

(** The cleanup of the demo effect: [if (timeoutId) clearTimeout(timeoutId)]. *)
Definition cleanup (i : instance) : instance :=
  {| props := props i; state := state i; control := control i;
     demoRender := demoRender i; timeoutId := None;
     timers := match timeoutId i with
               | Some n => List.filter (fun t => negb (Nat.eqb (id t) n)) (timers i)
               | None => timers i
               end;
     nextId := nextId i; log := log i |}.

Definition register_control (s : State) (i : instance) : instance :=
  {| props := props i; state := state i; control := Some s;
     demoRender := demoRender i; timeoutId := timeoutId i;
     timers := timers i; nextId := nextId i; log := log i |}.

Definition record_demo_render (s : State) (i : instance) : instance :=
  {| props := props i; state := state i; control := control i;
     demoRender := Some s; timeoutId := timeoutId i;
     timers := timers i; nextId := nextId i; log := log i |}.

(** State setters. *)
Definition setSelectedNumber v (s : State) : State :=
  {| selectedNumber := v; steps := steps s; demoStep := demoStep s;
     demoExplanation := demoExplanation s; isDemoComplete := isDemoComplete s;
     messageHistory := messageHistory s; isDemoPaused := isDemoPaused s;
     pauseReason := pauseReason s; savedDemoState := savedDemoState s;
     resumeRequested := resumeRequested s |}.
Definition setSteps (f : list Z -> list Z) (s : State) : State :=
  {| selectedNumber := selectedNumber s; steps := f (steps s); demoStep := demoStep s;
     demoExplanation := demoExplanation s; isDemoComplete := isDemoComplete s;
     messageHistory := messageHistory s; isDemoPaused := isDemoPaused s;
     pauseReason := pauseReason s; savedDemoState := savedDemoState s;
     resumeRequested := resumeRequested s |}.
Definition setDemoStep v (s : State) : State :=
  {| selectedNumber := selectedNumber s; steps := steps s; demoStep := v;
     demoExplanation := demoExplanation s; isDemoComplete := isDemoComplete s;
     messageHistory := messageHistory s; isDemoPaused := isDemoPaused s;
     pauseReason := pauseReason s; savedDemoState := savedDemoState s;
     resumeRequested := resumeRequested s |}.
Definition setDemoExplanation v (s : State) : State :=
  {| selectedNumber := selectedNumber s; steps := steps s; demoStep := demoStep s;
     demoExplanation := v; isDemoComplete := isDemoComplete s;
     messageHistory := messageHistory s; isDemoPaused := isDemoPaused s;
     pauseReason := pauseReason s; savedDemoState := savedDemoState s;
     resumeRequested := resumeRequested s |}.
Definition setIsDemoComplete v (s : State) : State :=
  {| selectedNumber := selectedNumber s; steps := steps s; demoStep := demoStep s;
     demoExplanation := demoExplanation s; isDemoComplete := v;
     messageHistory := messageHistory s; isDemoPaused := isDemoPaused s;
     pauseReason := pauseReason s; savedDemoState := savedDemoState s;
     resumeRequested := resumeRequested s |}.
Definition setMessageHistory (f : list string -> list string) (s : State) : State :=
  {| selectedNumber := selectedNumber s; steps := steps s; demoStep := demoStep s;
     demoExplanation := demoExplanation s; isDemoComplete := isDemoComplete s;
     messageHistory := f (messageHistory s); isDemoPaused := isDemoPaused s;
     pauseReason := pauseReason s; savedDemoState := savedDemoState s;
     resumeRequested := resumeRequested s |}.
Definition setIsDemoPaused v (s : State) : State :=
  {| selectedNumber := selectedNumber s; steps := steps s; demoStep := demoStep s;
     demoExplanation := demoExplanation s; isDemoComplete := isDemoComplete s;
     messageHistory := messageHistory s; isDemoPaused := v;
     pauseReason := pauseReason s; savedDemoState := savedDemoState s;
     resumeRequested := resumeRequested s |}.
Definition setPauseReason v (s : State) : State :=
  {| selectedNumber := selectedNumber s; steps := steps s; demoStep := demoStep s;
     demoExplanation := demoExplanation s; isDemoComplete := isDemoComplete s;
     messageHistory := messageHistory s; isDemoPaused := isDemoPaused s;
     pauseReason := v; savedDemoState := savedDemoState s;
     resumeRequested := resumeRequested s |}.
Definition setSavedDemoState v (s : State) : State :=
  {| selectedNumber := selectedNumber s; steps := steps s; demoStep := demoStep s;
     demoExplanation := demoExplanation s; isDemoComplete := isDemoComplete s;
     messageHistory := messageHistory s; isDemoPaused := isDemoPaused s;
     pauseReason := pauseReason s; savedDemoState := v;
     resumeRequested := resumeRequested s |}.
Definition setResumeRequested v (s : State) : State :=
  {| selectedNumber := selectedNumber s; steps := steps s; demoStep := demoStep s;
     demoExplanation := demoExplanation s; isDemoComplete := isDemoComplete s;
     messageHistory := messageHistory s; isDemoPaused := isDemoPaused s;
     pauseReason := pauseReason s; savedDemoState := savedDemoState s;
     resumeRequested := v |}.

(** Parse the problem to get numbers.  The operands are held as the
    integers their digits write, which [parseInt] returns as they are
    while they are below 2^53. *)
Record Numbers := { firstNumber : Z; secondNumber : Z; operator : string }.

Definition parseNumbers (problem : string) : option Numbers :=
  if String.eqb problem "" then None
  else
    match Regex.search Regex.demo_problem problem with
    | Some [m1; m2] =>
        Some {| firstNumber := digits_value m1; secondNumber := digits_value m2;
                operator := if includes problem "+" then "+" else "-" |}
    | _ => None
    end.

(** [useMemo(() => parseNumbers(problem), [problem])] *)
Definition numbers (p : Props) : option Numbers := parseNumbers (problem p).

Definition pin : string := "📍 ".

(** Helper function to send message and collect it in history *)
Definition sendAndCollectMessage (message : string) (i : instance) : instance :=
  let cleanMessage := remove_first pin message in
  let i := with_state (setMessageHistory (fun prev => (prev ++ [cleanMessage])%list)) i in
  if sendIntermediateMessage (props i) then emit (Sent message) i else i.

(** *** Demo control functions *)

(** [pauseDemo(reason)] as created by the render [snap], called at time
    [now].  The re-render that follows the state updates is [commit],
    passed as [rerender]. *)
Definition pauseDemo (rerender : instance -> instance) (snap : State)
           (now : Z) (reason : string) (i : instance) : instance :=
  if negb (demoMode (props i)) || isDemoComplete snap then i
  else
    let currentState :=
      {| Demo.currentStep := demoStep snap;
         Demo.nextStepDelay := if demoStep snap =? 0 then 2000 else 1200;
         Demo.pauseReason := Some reason;
         Demo.resumeAt := Some now |} in
    let i := with_state (setIsDemoPaused true) i in
    let i := with_state (setPauseReason reason) i in
    let i := with_state (setSavedDemoState (Some currentState)) i in
    let i := if onDemoPause (props i) then emit (DemoPause currentState) i else i in
    (* Send pause notification *)
    let i := sendAndCollectMessage ("📍 🛑 Demo paused - " ++ reason) i in
    rerender i.

(** [resumeDemo()] as created by the render [snap]. *)
Definition resumeDemo (rerender : instance -> instance) (snap : State)
           (now : Z) (i : instance) : instance :=
  match savedDemoState snap with
  | None => i
  | Some saved =>
      let i := with_state (setIsDemoPaused false) i in
      let i := with_state (setPauseReason "") i in
      let i := with_state (setResumeRequested true) i in
      let i := if onDemoResume (props i) then emit DemoResume i else i in
      (* Send resume notification *)
      let i := sendAndCollectMessage "📍 ▶️ Demo resuming..." i in
      (* Continue from where we left off *)
      let i := setTimeout false (ResumeAt (Demo.currentStep saved)) now 500 i in
      rerender i
  end.

(** *** Effects *)

(** Expose pause/resume functions for external control; dependencies
    [[isDemoPaused, demoStep]]. *)
Definition controlEffect (s : State) (i : instance) : instance :=
  match control i with
  | Some c =>
      if Bool.eqb (isDemoPaused c) (isDemoPaused s) && (demoStep c =? demoStep s)
      then i else register_control s i
  | None => register_control s i
  end.

(** Send initial instruction when component first loads; runs once. *)
Definition initialInstructionEffect (i : instance) : instance :=
  match numbers (props i) with
  | Some n =>
      if sendIntermediateMessage (props i) then
        if demoMode (props i) then
          sendAndCollectMessage "📍 Watch as I demonstrate the solution step by step!" i
        else
          sendAndCollectMessage ("📍 Click on " ++ showZ (firstNumber n) ++ " to start!") i
      else i
  | None => i
  end.

(** The body of the demo mode effect, for the render [s], run at [now]. *)
Definition runDemo (now : Z) (s : State) (i : instance) : instance :=
  match numbers (props i) with
  | None => i
  | Some n =>
      (* Don't run demo if paused, complete, or resuming *)
      if negb (demoMode (props i)) || isDemoComplete s || isDemoPaused s
         || resumeRequested s then i
      else
        let firstNumber := firstNumber n in
        let secondNumber := secondNumber n in
        let operator := operator n in
        let plus := String.eqb operator "+" in
        if demoStep s =? 0 then
          (* Step 1: Highlight starting number *)
          let message := "Let's start at " ++ showZ firstNumber ++ "! 👈" in
          let i := with_state (setDemoExplanation message) i in
          let i := with_state (setSelectedNumber (Some firstNumber)) i in
          let i := with_state (setSteps (fun _ => [firstNumber])) i in
          let i := sendAndCollectMessage (pin ++ message) i in
          setTimeout true (SetDemoStep 1) now 2000 i
        else if demoStep s <=? secondNumber then
          (* Step 2-N: Move step by step *)
          let direction := if plus then 1 else -1 in
          let nextPosition := firstNumber + direction * demoStep s in
          let message :=
            if demoStep s =? 1 then
              "Now let's " ++ (if plus then "add" else "subtract") ++ " "
              ++ showZ secondNumber ++ " step by step..."
            else
              "Step " ++ showZ (demoStep s) ++ ": Moving to "
              ++ showZ nextPosition ++ "... "
              ++ (if plus then "➡️" else "⬅️") in
          let i := with_state (setDemoExplanation message) i in
          let i := with_state (setSteps (fun prev => (prev ++ [nextPosition])%list)) i in
          let i := sendAndCollectMessage (pin ++ message) i in
          setTimeout true (SetDemoStep (demoStep s + 1)) now 1200 i
        else
          (* Final step: Show result *)
          let result :=
            if plus then firstNumber + secondNumber
            else firstNumber - secondNumber in
          let finalMessage :=
            "🎉 Done! " ++ showZ firstNumber ++ " " ++ operator ++ " "
            ++ showZ secondNumber ++ " = " ++ showZ result in
          let i := with_state (setDemoExplanation finalMessage) i in
          let i := with_state (setIsDemoComplete true) i in
          let i := sendAndCollectMessage (pin ++ finalMessage) i in
          (* Auto-submit the answer and call completion callback *)
          setTimeout false (Farewell result (messageHistory s)) now 2000 i
  end.

Definition same_demo_deps (r s : State) : bool :=
  (demoStep r =? demoStep s) && Bool.eqb (isDemoComplete r) (isDemoComplete s)
  && Bool.eqb (isDemoPaused r) (isDemoPaused s)
  && Bool.eqb (resumeRequested r) (resumeRequested s).

(** Demo mode effect; dependencies [[demoMode, demoStep, numbers,
    isDemoComplete, isDemoPaused, resumeRequested]]. *)
Definition demoEffect (now : Z) (s : State) (i : instance) : instance :=
  let stale :=
    match demoRender i with
    | Some r => negb (same_demo_deps r s)
    | None => true
    end in
  if stale then runDemo now s (record_demo_render s (cleanup i)) else i.

(** The effects of one render; [first] is the render of the mount. *)
Definition effects (first : bool) (now : Z) (i : instance) : instance :=
  let s := state i in
  let i := controlEffect s i in
  let i := if first then initialInstructionEffect i else i in
  demoEffect now s i.

(** The renders that follow a state update: the effects of the first one
    may update the state once more, the next one settles. *)
Definition commit (now : Z) (i : instance) : instance :=
  effects false now (effects false now i).

Definition init (p : Props) : instance :=
  {| props := p; state := initialState; control := None; demoRender := None;
     timeoutId := None; timers := []; nextId := 1; log := [] |}.

(** The component is mounted at time [now]. *)
Definition mount (p : Props) (now : Z) : instance :=
  effects false now (effects true now (init p)).

(** *** Timers *)

(** The pending timer that fires first. *)
Fixpoint earliest (ts : list timer) : option timer :=
  match ts with
  | [] => None
  | t :: rest =>
      match earliest rest with
      | Some t' => if due t' <? due t then Some t' else Some t
      | None => Some t
      end
  end.

Definition drop_timer (n : nat) (i : instance) : instance :=
  {| props := props i; state := state i; control := control i;
     demoRender := demoRender i; timeoutId := timeoutId i;
     timers := List.filter (fun t => negb (Nat.eqb (id t) n)) (timers i);
     nextId := nextId i; log := log i |}.

Definition run_callback (f : callback) (now : Z) (i : instance) : instance :=
  match f with
  | SetDemoStep n => commit now (with_state (setDemoStep n) i)
  | Farewell result history =>
      (* Add final completion message *)
      let i := sendAndCollectMessage
                 ("📍 ✅ Great job! We successfully solved " ++ problem (props i)
                  ++ " and got " ++ showZ result ++ "!") i in
      (* Small delay to ensure final message is sent before completion *)
      commit now (setTimeout false (Complete result history) now 500 i)
  | Complete result history =>
      let i := emit (Answer result history) i in
      if onDemoComplete (props i) then emit DemoComplete i else i
  | ResumeAt step =>
      let i := with_state (setResumeRequested false) i in
      commit now (with_state (setDemoStep step) i)
  end.

(** The next timer fires, at its due time. *)
Definition tick (i : instance) : instance :=
  match earliest (timers i) with
  | Some t => run_callback (action t) (due t) (drop_timer (id t) i)
  | None => i
  end.

(** *** External control through [window.__numberLineDemoControl] *)

Definition control_pause (now : Z) (reason : string) (i : instance) : instance :=
  match control i with
  | Some snap => pauseDemo (commit now) snap now reason i
  | None => i
  end.

Definition control_resume (now : Z) (i : instance) : instance :=
  match control i with
  | Some snap => resumeDemo (commit now) snap now i
  | None => i
  end.

End NumberLine.

(** ** ToolContext: the tool context provider

    The provider state is a record; [window.__numberLineDemoControl] is the
    mounted number line, if any.  Callbacks are named by numbers. *)

Module ToolContext.
Import JS.

(** Tool types that can be displayed in the sidebar *)
Inductive ToolType :=
| number_line | demonstrate_number_line | practice_problem | calculator.

Definition type_text (t : ToolType) : string :=
  match t with
  | number_line => "number_line"
  | demonstrate_number_line => "demonstrate_number_line"
  | practice_problem => "practice_problem"
  | calculator => "calculator"
  end.

(** Tool configuration interface *)
Record ToolConfig := {
  type : ToolType;
  props : gmap string string;
  respond : nat;
  sendIntermediateMessage : option nat;
  onDemoPause : option nat;
  onDemoResume : option nat
}.

Record State := {
  activeToolConfig : option ToolConfig;
  demoState : option Demo.DemoState;
  isDemoPaused : bool;
  isChatBlocked : bool;
  toolCompletionCallbacks : gmap string nat
}.

Record world := {
  ctx : State;
  numberLineDemoControl : option NumberLine.instance
}.

Definition initial : world :=
  {| ctx := {| activeToolConfig := None; demoState := None;
               isDemoPaused := false; isChatBlocked := false;
               toolCompletionCallbacks := ∅ |};
     numberLineDemoControl := None |}.

Definition with_ctx (f : State -> State) (w : world) : world :=
  {| ctx := f (ctx w); numberLineDemoControl := numberLineDemoControl w |}.

Definition with_control (f : NumberLine.instance -> NumberLine.instance)
           (w : world) : world :=
  {| ctx := ctx w; numberLineDemoControl := f <$> numberLineDemoControl w |}.

Definition setActiveToolConfig v (c : State) : State :=
  {| activeToolConfig := v; demoState := demoState c;
     isDemoPaused := isDemoPaused c; isChatBlocked := isChatBlocked c;
     toolCompletionCallbacks := toolCompletionCallbacks c |}.
Definition setDemoState v (c : State) : State :=
  {| activeToolConfig := activeToolConfig c; demoState := v;
     isDemoPaused := isDemoPaused c; isChatBlocked := isChatBlocked c;
     toolCompletionCallbacks := toolCompletionCallbacks c |}.
Definition setIsDemoPaused v (c : State) : State :=
  {| activeToolConfig := activeToolConfig c; demoState := demoState c;
     isDemoPaused := v; isChatBlocked := isChatBlocked c;
     toolCompletionCallbacks := toolCompletionCallbacks c |}.
Definition setIsChatBlocked v (c : State) : State :=
  {| activeToolConfig := activeToolConfig c; demoState := demoState c;
     isDemoPaused := isDemoPaused c; isChatBlocked := v;
     toolCompletionCallbacks := toolCompletionCallbacks c |}.
Definition update_callbacks (f : gmap string nat -> gmap string nat) (c : State)
  : State :=
  {| activeToolConfig := activeToolConfig c; demoState := demoState c;
     isDemoPaused := isDemoPaused c; isChatBlocked := isChatBlocked c;
     toolCompletionCallbacks := f (toolCompletionCallbacks c) |}.

Definition setActiveTool (config : option ToolConfig) (w : world) : world :=
  with_ctx (setActiveToolConfig config) w.

Definition clearActiveTool (w : world) : world :=
  let w := with_ctx (setActiveToolConfig None) w in
  let w := with_ctx (setDemoState None) w in
  with_ctx (setIsDemoPaused false) w.

(** [activeToolConfig?.type.includes('demonstrate')] *)
Definition demonstrates (config : option ToolConfig) : bool :=
  match config with
  | Some c => includes (type_text (type c)) "demonstrate"
  | None => false
  end.

(** Demo control functions *)
Definition pauseDemo (now : Z) (reason : option string) (w : world) : world :=
  let reason := default "User query" reason in
  if negb (demonstrates (activeToolConfig (ctx w))) then w
  else
    let w := with_ctx (setIsDemoPaused true) w in
    (* Use global control if available *)
    with_control (NumberLine.control_pause now reason) w.

Definition resumeDemo (now : Z) (w : world) : world :=
  match demoState (ctx w) with
  | None => w
  | Some _ =>
      let w := with_ctx (setIsDemoPaused false) w in
      (* Use global control if available *)
      with_control (NumberLine.control_resume now) w
  end.

Definition getDemoState (w : world) : option Demo.DemoState := demoState (ctx w).

(** Non-blocking tool management *)
Definition setChatBlocked (blocked : bool) (w : world) : world :=
  with_ctx (setIsChatBlocked blocked) w.

Definition registerToolCompletion (toolId : string) (callback : nat) (w : world)
  : world :=
  with_ctx (update_callbacks (fun m => <[toolId := callback]> m)) w.

Definition unregisterToolCompletion (toolId : string) (w : world) : world :=
  with_ctx (update_callbacks (fun m => delete toolId m)) w.

(** What can happen to the provider and to the number line it controls:
    the operations of the context, the mounting and unmounting of a
    number line by the tool renderer, its timers, and the direct use of
    the global control by the chat layer. *)
Inductive operation :=
| SetActiveTool (config : option ToolConfig)
| ClearActiveTool
| PauseDemo (now : Z) (reason : option string)
| ResumeDemo (now : Z)
| SetChatBlocked (blocked : bool)
| RegisterToolCompletion (toolId : string) (callback : nat)
| UnregisterToolCompletion (toolId : string)
| MountNumberLine (p : NumberLine.Props) (now : Z)
| UnmountNumberLine
| TimerFires
| ControlPause (now : Z) (reason : string)
| ControlResume (now : Z).

Definition apply (w : world) (op : operation) : world :=
  match op with
  | SetActiveTool config => setActiveTool config w
  | ClearActiveTool => clearActiveTool w
  | PauseDemo now reason => pauseDemo now reason w
  | ResumeDemo now => resumeDemo now w
  | SetChatBlocked blocked => setChatBlocked blocked w
  | RegisterToolCompletion toolId callback => registerToolCompletion toolId callback w
  | UnregisterToolCompletion toolId => unregisterToolCompletion toolId w
  | MountNumberLine p now =>
      {| ctx := ctx w; numberLineDemoControl := Some (NumberLine.mount p now) |}
  | UnmountNumberLine => {| ctx := ctx w; numberLineDemoControl := None |}
  | TimerFires => with_control NumberLine.tick w
  | ControlPause now reason => with_control (NumberLine.control_pause now reason) w
  | ControlResume now => with_control (NumberLine.control_resume now) w
  end.

Definition run (ops : list operation) : world := fold_left apply ops initial.

Definition is_pause (op : operation) : bool :=
  match op with
  | PauseDemo _ _ | ControlPause _ _ => true
  | _ => false
  end.

End ToolContext.
(** ** Vocabulary of the specification *)

Module Spec.
Import JS.

(** The two operators of a number-line problem. *)
Inductive operator := Add | Sub.

Definition op_text (o : operator) : string :=
  match o with Add => "+" | Sub => "-" end.

(** The problem text ["a op b"]. *)
Definition problem_text (a : N) (o : operator) (b : N) : string :=
  showN a ++ " " ++ op_text o ++ " " ++ showN b.

(** [a op b] *)
Definition apply_op (o : operator) (a b : Z) : Z :=
  match o with Add => a + b | Sub => a - b end.

(** The neighbour of [x] in the direction of the operator. *)
Definition next_of (o : operator) (x : Z) : Z := apply_op o x 1.

(** A safe integer: below 2^53 in absolute value.  Up to there every
    integer is a JavaScript number, and the sums, differences and
    comparisons of the code are exact. *)
Definition safe (z : Z) : Prop := Z.abs z < 2 ^ 53.

(** The operands and the result of ["a op b"] are safe integers. *)
Definition safe_problem (a b : N) (o : operator) : Prop :=
  safe (Z.of_N a) /\ safe (Z.of_N b)
  /\ safe (apply_op o (Z.of_N a) (Z.of_N b)).

(** The steps taken are safe integers, and so is their count (an array
    has fewer than 2^32 entries). *)
Definition safe_steps (steps : list Z) : Prop :=
  Forall safe steps /\ safe (Z.of_nat (length steps)).

(** The integer part of a number (0 when the number is not finite). *)
Definition integer_part (x : number) : Z :=
  match x with
  | S754_finite s m e => cond_Zopp s (Z.shiftl (Z.pos m) e)
  | _ => 0
  end.

(** A rendering of numbers that is the decimal text on integers. *)
Definition decimal (x : number) : string := showZ (integer_part x).

(** The sequential-step property in the wording of the specification,
    read on safe integers: the completion and remaining-step clauses
    speak of every accepted step, the very first one included. *)
Definition step_progression_as_written : Prop :=
  forall (toString : number -> string) (a b : N) (o : operator)
         (operation : string) (steps : list Z) (p : Z),
  safe_problem a b o -> safe_steps steps -> safe p ->
  exists v,
    ValidationActions.validateNumberLineStep toString
      (problem_text a o b) operation
      {| ValidationActions.current_steps := map of_Z steps;
         ValidationActions.proposed_step := of_Z p |} = Ok v
    /\ (steps = [] ->
        (ValidationActions.is_correct v = true <-> p = Z.of_N a)
        /\ (p <> Z.of_N a ->
            ValidationActions.result v = "incorrect"
            /\ ValidationActions.mistake_type v = Some "wrong_starting_number"))
    /\ (forall l, last steps = Some l ->
        (ValidationActions.is_correct v = true <-> p = next_of o l))
    /\ (ValidationActions.is_correct v = true ->
        Z.of_nat (length steps) = Z.of_N b ->
        ValidationActions.result v = "correct"
        /\ ValidationActions.problem_completed v = Some true
        /\ ValidationActions.final_answer v
           = Some (of_Z (apply_op o (Z.of_N a) (Z.of_N b))))
    /\ (ValidationActions.is_correct v = true ->
        Z.of_nat (length steps) < Z.of_N b ->
        ValidationActions.result v = "correct"
        /\ ValidationActions.remaining_steps v
           = Some (of_Z (Z.of_N b - Z.of_nat (length steps)))).

(** The quota query in the wording of the specification: it leaves the
    recorded timestamps as they are. *)
Definition remaining_pure_as_written : Prop :=
  forall (now : Z) (calls : list Z),
    FrontendRateLimiter.reachable calls ->
    snd (FrontendRateLimiter.getRemainingCalls now calls) = calls.

(** [w] occurs in [s]. *)
Definition contains (s w : string) : Prop :=
  exists pre post, s = pre ++ w ++ post.




(** A word that [toLowerCase] and [trim] leave as it is. *)
Definition plain_word (w : string) : bool :=
  negb (String.eqb w "") && String.eqb (toLowerCase w) w
  && String.eqb (trimStart w) w && String.eqb (trimEnd w) w.

(** [|u - c| < 0.01], computed as the code does, in binary64. *)
Definition within_tolerance (u c : number) : Prop :=
  num_lt (num_abs (num_sub u c)) num_0_01 = true.

(** The result of the operation named by the operator text. *)
Definition computed_result (op : string) (x y : number) : number :=
  if String.eqb op "+" then num_add x y
  else if String.eqb op "-" then num_sub x y
  else if String.eqb op "*" then num_mul x y
  else num_div x y.

(** The answer is blank: empty, or white space only. *)
Definition blank (input : string) : Prop := input = "" \/ trim input = "".



(** No pause was ever recorded: neither the current state of the number
    line nor the render held by the global control has a saved state. *)
Definition never_paused (i : NumberLine.instance) : Prop :=
  NumberLine.savedDemoState (NumberLine.state i) = None
  /\ forall c, NumberLine.control i = Some c -> NumberLine.savedDemoState c = None.

(** The effects are up to date: the global control and the demo effect
    come from renders that agree with the current state on their
    dependencies. *)
Definition settled (i : NumberLine.instance) : Prop :=
  (exists c, NumberLine.control i = Some c
     /\ NumberLine.isDemoPaused c = NumberLine.isDemoPaused (NumberLine.state i)
     /\ NumberLine.demoStep c = NumberLine.demoStep (NumberLine.state i))
  /\ (exists r, NumberLine.demoRender i = Some r
       /\ NumberLine.same_demo_deps r (NumberLine.state i) = true).

(** No pause state is stored anywhere: not in the provider, not in the
    number line under global control. *)
Definition unpaused_world (w : ToolContext.world) : Prop :=
  ToolContext.demoState (ToolContext.ctx w) = None
  /\ forall i, ToolContext.numberLineDemoControl w = Some i -> never_paused i.

(** Pausing twice in the wording of the specification: once the number
    line is paused, a further pause leaves the saved state as it is and
    emits nothing. *)
Definition pause_idempotent_as_written : Prop :=
  forall (p : NumberLine.Props) (mounted : Z) (ticks : nat)
         (now1 : Z) (reason1 : string) (now2 : Z) (reason2 : string),
    let i1 := NumberLine.control_pause now1 reason1
                (Nat.iter ticks NumberLine.tick (NumberLine.mount p mounted)) in
    NumberLine.isDemoPaused (NumberLine.state i1) = true ->
    let i2 := NumberLine.control_pause now2 reason2 i1 in
    NumberLine.savedDemoState (NumberLine.state i2)
    = NumberLine.savedDemoState (NumberLine.state i1)
    /\ NumberLine.log i2 = NumberLine.log i1.

(** *** The demonstration of [a op b], as the specification describes it *)

Definition direction (o : operator) : Z :=
  match o with Add => 1 | Sub => -1 end.

(** The narration message of tick [k]: the start message, one message
    per step, then the final message. *)
Definition narration_message (a b : N) (o : operator) (k : Z) : string :=
  if k =? 0 then "Let's start at " ++ showZ (Z.of_N a) ++ "! 👈"
  else if k <=? Z.of_N b then
    if k =? 1 then
      "Now let's " ++ match o with Add => "add" | Sub => "subtract" end ++ " "
      ++ showZ (Z.of_N b) ++ " step by step..."
    else
      "Step " ++ showZ k ++ ": Moving to "
      ++ showZ (Z.of_N a + direction o * k) ++ "... "
      ++ match o with Add => "➡️" | Sub => "⬅️" end
  else
    "🎉 Done! " ++ showZ (Z.of_N a) ++ " " ++ op_text o ++ " "
    ++ showZ (Z.of_N b) ++ " = " ++ showZ (apply_op o (Z.of_N a) (Z.of_N b)).

(** The [b + 2] messages from the start message through the final one. *)
Definition narration (a b : N) (o : operator) : list string :=
  map (fun k => narration_message a b o (Z.of_nat k)) (seq 0 (N.to_nat b + 2)).

Definition opening : string := "Watch as I demonstrate the solution step by step!".

Definition closing (a b : N) (o : operator) : string :=
  "✅ Great job! We successfully solved " ++ problem_text a o b ++ " and got "
  ++ showZ (apply_op o (Z.of_N a) (Z.of_N b)) ++ "!".

(** A demonstration of ["a op b"] wired to a message sink, as the chat
    layer mounts it. *)
Definition demo_props (a b : N) (o : operator) (onPause onResume onComplete : bool)
  : NumberLine.Props :=
  {| NumberLine.problem := problem_text a o b;
     NumberLine.operation := match o with Add => "addition" | Sub => "subtraction" end;
     NumberLine.demoMode := true;
     NumberLine.sendIntermediateMessage := true;
     NumberLine.onDemoPause := onPause;
     NumberLine.onDemoResume := onResume;
     NumberLine.onDemoComplete := onComplete |}.

(** The message as it is sent to the chat. *)
Definition sent (m : string) : NumberLine.event := NumberLine.Sent (NumberLine.pin ++ m).

Section DemoRun.
Variables (a b : N) (o : operator) (onPause onResume onComplete : bool) (now : Z).

(** The history after the opening message and [k] narration messages. *)
Definition history (k : nat) : list string :=
  opening :: map (fun j => narration_message a b o (Z.of_nat j)) (seq 0 k).

Definition path (k : nat) : list Z :=
  map (fun j => Z.of_N a + direction o * Z.of_nat j) (seq 0 k).

(** The render in which [demoStep] is [k]. *)
Definition rendered (k : nat) : NumberLine.State :=
  {| NumberLine.selectedNumber := match k with O => None | S _ => Some (Z.of_N a) end;
     NumberLine.steps := path k;
     NumberLine.demoStep := Z.of_nat k;
     NumberLine.demoExplanation :=
       match k with O => "" | S j => narration_message a b o (Z.of_nat j) end;
     NumberLine.isDemoComplete := false;
     NumberLine.messageHistory := match k with O => [] | S _ => history k end;
     NumberLine.isDemoPaused := false;
     NumberLine.pauseReason := "";
     NumberLine.savedDemoState := None;
     NumberLine.resumeRequested := false |}.

(** The state once the effect of tick [k] has run. *)
Definition narrated (k : nat) (complete : bool) (extra : list string)
  : NumberLine.State :=
  {| NumberLine.selectedNumber := Some (Z.of_N a);
     NumberLine.steps := path (if complete then k else S k);
     NumberLine.demoStep := Z.of_nat k;
     NumberLine.demoExplanation := narration_message a b o (Z.of_nat k);
     NumberLine.isDemoComplete := complete;
     NumberLine.messageHistory := (history (S k) ++ extra)%list;
     NumberLine.isDemoPaused := false;
     NumberLine.pauseReason := "";
     NumberLine.savedDemoState := None;
     NumberLine.resumeRequested := false |}.

(** The number line after tick [k] of the moves. *)
Definition moving (k : nat) : NumberLine.instance :=
  {| NumberLine.props := demo_props a b o onPause onResume onComplete;
     NumberLine.state := narrated k false [];
     NumberLine.control := Some (rendered k);
     NumberLine.demoRender := Some (rendered k);
     NumberLine.timeoutId := Some (S k);
     NumberLine.timers :=
       [ {| NumberLine.id := S k;
            NumberLine.due := now + 2000 + 1200 * Z.of_nat k;
            NumberLine.action := NumberLine.SetDemoStep (Z.of_nat k + 1) |} ];
     NumberLine.nextId := S (S k);
     NumberLine.log := map sent (history (S k)) |}.

(** The number line once the demonstration is complete; [stage] counts
    the timers that fired since. *)
Definition completed (stage : nat) : NumberLine.instance :=
  let n := S (N.to_nat b) in
  let result := apply_op o (Z.of_N a) (Z.of_N b) in
  let finished := now + 2000 + 1200 * Z.of_N b in
  {| NumberLine.props := demo_props a b o onPause onResume onComplete;
     NumberLine.state :=
       narrated n true (match stage with O => [] | _ => [closing a b o] end);
     NumberLine.control := Some (rendered n);
     NumberLine.demoRender := Some (narrated n true []);
     NumberLine.timeoutId := None;
     NumberLine.timers :=
       match stage with
       | O => [ {| NumberLine.id := S n; NumberLine.due := finished + 2000;
                   NumberLine.action := NumberLine.Farewell result (history n) |} ]
       | S O => [ {| NumberLine.id := S (S n); NumberLine.due := finished + 2500;
                     NumberLine.action := NumberLine.Complete result (history n) |} ]
       | _ => []
       end;
     NumberLine.nextId := match stage with O => S (S n) | _ => S (S (S n)) end;
     NumberLine.log :=
       (map sent (history (S n))
        ++ match stage with
           | O => []
           | S O => [sent (closing a b o)]
           | _ => sent (closing a b o)
                  :: NumberLine.Answer result (history n)
                  :: if onComplete then [NumberLine.DemoComplete] else []
           end)%list |}.

End DemoRun.

End Spec.

(** ** Regular expressions of [utils/validation.ts]

    The validator uses anchors, alternatives, lazy repetition and the [g]
    flag.  A pattern is a term of [re]; [run] is the backtracking matcher
    of the language (alternatives in order, greedy repetition trying one
    more round first, lazy repetition trying the rest first, a round that
    consumes nothing being given up), [exec] finds the leftmost match at
    or after an index.  A pattern with the [g] flag keeps the index
    [lastIndex] from one [test] to the next.

    In this part the characters [×] and [÷] are inspected by the code:
    they are the code units 215 and 247. *)

Module RegExp.
Import JS.

Inductive re :=
| Eps
| Chr (p : ascii -> bool)
| Seq (r1 r2 : re)
| Alt (r1 r2 : re)
| Star (greedy : bool) (r : re)
| Bos
| Eos.

(** [r+] *)
Definition plus (r : re) : re := Seq r (Star true r).

(** [r*] *)
Definition star (r : re) : re := Star true r.

(** A character, as written and under the [i] flag.  Only the letters
    A-Z and a-z are folded onto each other: no other code unit below 256
    has an upper-case form in that range. *)
Definition chr (x : ascii) : re := Chr (Ascii.eqb x).

Definition fold_case (c : ascii) : ascii :=
  if ((65 <=? code c) && (code c <=? 90))%N then ascii_of_N (code c + 32) else c.

Definition chr_i (x : ascii) : re :=
  Chr (fun c => Ascii.eqb (fold_case c) (fold_case x)).

Fixpoint lit (w : string) : re :=
  match w with
  | EmptyString => Eps
  | String c EmptyString => chr c
  | String c r => Seq (chr c) (lit r)
  end.

Fixpoint lit_i (w : string) : re :=
  match w with
  | EmptyString => Eps
  | String c EmptyString => chr_i c
  | String c r => Seq (chr_i c) (lit_i r)
  end.

Fixpoint seq (rs : list re) : re :=
  match rs with
  | [] => Eps
  | [r] => r
  | r :: rest => Seq r (seq rest)
  end.

Fixpoint alt (rs : list re) : re :=
  match rs with
  | [] => Eps
  | [r] => r
  | r :: rest => Alt r (alt rest)
  end.

(** The class [.]: any character but a line terminator. *)
Definition dot (c : ascii) : bool := negb ((code c =? 10)%N || (code c =? 13)%N).

(** The class [\w]. *)
Definition is_word (c : ascii) : bool :=
  let n := code c in
  ((48 <=? n) && (n <=? 57) || (65 <=? n) && (n <=? 90)
   || (97 <=? n) && (n <=? 122) || (n =? 95))%N.

Definition one_of (cs : list ascii) (c : ascii) : bool :=
  existsb (Ascii.eqb c) cs.

Section Matcher.
Context {R : Type}.

(** The rounds of a repetition whose body is matched by [body]: at most
    [n] more of them, each consuming at least one character. *)
Fixpoint rounds (body : nat -> string -> (nat -> string -> option R) -> option R)
         (greedy : bool) (k : nat -> string -> option R)
         (n : nat) (i : nat) (s : string) {struct n} : option R :=
  let more :=
    match n with
    | O => None
    | S n' =>
        body i s
             (fun i' s' =>
                if (String.length s' <? String.length s)%nat
                then rounds body greedy k n' i' s' else None)
    end in
  if greedy then
    match more with
    | Some x => Some x
    | None => k i s
    end
  else
    match k i s with
    | Some x => Some x
    | None => more
    end.

(** [run r i s k]: match [r] at index [i], where [s] is the text from
    [i] on, and hand the index and the text that follow the match to
    [k]; the first success in backtracking order is the answer.  A
    repetition makes at most one round per character left. *)
Fixpoint run (r : re) (i : nat) (s : string)
         (k : nat -> string -> option R) {struct r} : option R :=
  match r with
  | Eps => k i s
  | Chr p =>
      match s with
      | String c s' => if p c then k (S i) s' else None
      | EmptyString => None
      end
  | Seq r1 r2 => run r1 i s (fun i' s' => run r2 i' s' k)
  | Alt r1 r2 =>
      match run r1 i s k with
      | Some x => Some x
      | None => run r2 i s k
      end
  | Star greedy body => rounds (run body) greedy k (String.length s) i s
  | Bos => if (i =? 0)%nat then k i s else None
  | Eos =>
      match s with
      | EmptyString => k i s
      | String _ _ => None
      end
  end.

End Matcher.

(** The leftmost match at or after index [i], [s] being the text from
    [i] on: where it starts, where it ends and the text that follows. *)
Fixpoint exec (r : re) (i : nat) (s : string) : option (nat * nat * string) :=
  match run r i s (fun j rest => Some (j, rest)) with
  | Some (j, rest) => Some (i, j, rest)
  | None =>
      match s with
      | EmptyString => None
      | String _ s' => exec r (S i) s'
      end
  end.

(** The text from index [n] on. *)
Fixpoint skip (n : nat) (s : string) : string :=
  match n, s with
  | S n', String _ s' => skip n' s'
  | _, _ => s
  end.

(** The first [n] characters. *)
Fixpoint take (n : nat) (s : string) : string :=
  match n, s with
  | S n', String c s' => String c (take n' s')
  | _, _ => EmptyString
  end.

(** [r.test(s)] for a pattern without the [g] flag. *)
Definition test (r : re) (s : string) : bool :=
  match exec r 0 s with
  | Some _ => true
  | None => false
  end.

(** [r.test(s)] for a pattern with the [g] flag whose [lastIndex] is
    [lastIndex]: the answer and the new [lastIndex].  The search starts
    at [lastIndex]; a match leaves the index at its end, a failure
    resets it. *)
Definition test_g (r : re) (lastIndex : nat) (s : string) : bool * nat :=
  if (String.length s <? lastIndex)%nat then (false, O)
  else
    match exec r lastIndex (skip lastIndex s) with
    | Some (_, e, _) => (true, e)
    | None => (false, O)
    end.

(** [s.replace(r, by)] for a pattern with the [g] flag and a replacement
    text without [$]: every match, from left to right, none overlapping
    the one before; after an empty match the search moves on by one
    character.  [s] is the text from index [i] on. *)
Fixpoint replace_from (fuel : nat) (r : re) (by_ : string) (i : nat) (s : string)
  : string :=
  match fuel with
  | O => s
  | S fuel' =>
      match exec r i s with
      | None => s
      | Some (b, e, rest) =>
          let kept := take (b - i) s in
          if (b <? e)%nat then kept ++ by_ ++ replace_from fuel' r by_ e rest
          else
            match rest with
            | EmptyString => kept ++ by_
            | String c rest' =>
                kept ++ by_ ++ String c (replace_from fuel' r by_ (S e) rest')
            end
      end
  end.

Definition replace_all (r : re) (by_ : string) (s : string) : string :=
  replace_from (S (String.length s)) r by_ O s.

(** [(s.match(r) || []).length] for a pattern with the [g] flag. *)
Fixpoint count_from (fuel : nat) (r : re) (i : nat) (s : string) : nat :=
  match fuel with
  | O => O
  | S fuel' =>
      match exec r i s with
      | None => O
      | Some (b, e, rest) =>
          if (b <? e)%nat then S (count_from fuel' r e rest)
          else
            match rest with
            | EmptyString => 1%nat
            | String _ rest' => S (count_from fuel' r (S e) rest')
            end
      end
  end.

Definition count_matches (r : re) (s : string) : nat :=
  count_from (S (String.length s)) r O s.

End RegExp.

(** ** utils/validation.ts: the validator of tool responses

    The patterns of [DANGEROUS_PATTERNS] are created once and carry the
    [g] flag: the [lastIndex] of each is state shared by all calls, kept
    here as a list of indexes, one per pattern, threaded through the
    functions.  An [answer] of type [any] is a number, a string, or a
    value of another type, of which only [typeof] and the text it
    converts to are kept.  The rendering of a number inside a template
    literal is a parameter, as for the graders. *)

Module FrontendValidator.
Import JS RegExp.

Record ValidationResult (D : Type) := {
  isValid : bool;
  errors : list string;
  warnings : list string;
  sanitizedData : option D
}.
Arguments isValid {D}. Arguments errors {D}.
Arguments warnings {D}. Arguments sanitizedData {D}.

Definition MAX_PROBLEM_LENGTH : nat := 100.
Definition MAX_ANSWER_VALUE : number := Eval vm_compute in of_decimal false 1000000 0.

Definition times : ascii := ascii_of_nat 215.
Definition divide : ascii := ascii_of_nat 247.
Definition double_quote : ascii := ascii_of_nat 34.

Definition digits : re := plus (Chr is_digit).
Definition spaces : re := star (Chr is_space).

(** The character class of [MATH_PATTERN]: digits, white space and
    the signs + - * / ( ) × ÷ . = ? *)
Definition math_char (c : ascii) : bool :=
  is_digit c || is_space c
  || one_of ["+"; "-"; "*"; "/"; "("; ")"; times; divide; "."; "="; "?"]%char c.

(** The operator class of the equation patterns: + - * / × ÷ *)
Definition operator_char : ascii -> bool :=
  one_of ["+"; "-"; "*"; "/"; times; divide]%char.

(** One or more characters of that class, from the start of the text
    to its end. *)
Definition MATH_PATTERN : re := seq [Bos; plus (Chr math_char); Eos].

Definition MATH_EQUATION_PATTERNS : list re :=
  [ (* "5 + 3 = ?" *)
    seq [Bos; digits; spaces; Chr operator_char; spaces; digits; spaces;
         chr "="; spaces; chr "?"; Eos];
    (* "5 + 3" *)
    seq [Bos; digits; spaces; Chr operator_char; spaces; digits; Eos];
    (* "5 + 3 = 8" *)
    seq [Bos; digits; spaces; Chr operator_char; spaces; digits; spaces;
         chr "="; spaces; digits; Eos];
    (* "? = 5 + 3" *)
    seq [Bos; chr "?"; spaces; chr "="; spaces; digits; spaces;
         Chr operator_char; spaces; digits; Eos] ].

(** [/<script[^>]*>.*?<\/script>/gi] *)
Definition script_element : re :=
  seq [lit_i "<script"; star (Chr (fun c => negb (Ascii.eqb c ">")));
       chr_i ">"; Star false (Chr dot); lit_i "</script>"].

Definition DANGEROUS_PATTERNS : list re :=
  [ script_element;
    (* /javascript:/gi *)
    lit_i "javascript:";
    (* /on\w+\s*=/gi *)
    seq [lit_i "on"; plus (Chr is_word); spaces; chr_i "="];
    (* a quote character or a semicolon, white space, an SQL keyword;
       flags gi *)
    seq [Chr (one_of ["'"; double_quote; "`"; ";"]%char); spaces;
         alt [lit_i "SELECT"; lit_i "INSERT"; lit_i "UPDATE"; lit_i "DELETE";
              lit_i "DROP"; lit_i "UNION"]];
    (* /--/g, SQL comments *)
    lit "--";
    (* SQL block comments: slash star, any characters, star slash;
       flag g *)
    seq [lit "/*"; star (Chr dot); lit "*/"] ].

(** The [lastIndex] of every pattern when the class is loaded, and after
    a [replace], which leaves it at 0. *)
Definition fresh : list nat := map (fun _ => O) DANGEROUS_PATTERNS.

Definition show (n : nat) : string := showN (N.of_nat n).

(** Sanitize a string by removing potentially dangerous content *)
Definition sanitizeString (input : string) (maxLength : option nat)
           (lastIndexes : list nat) : outcome string * list nat :=
  let maxLength := default 500%nat maxLength in
  (* Length check *)
  if (maxLength <? String.length input)%nat then
    (Throw ("Input too long: " ++ show (String.length input) ++ " > "
            ++ show maxLength), lastIndexes)
  else
    (* Remove dangerous patterns *)
    let sanitized :=
      fold_left (fun sanitized pattern => replace_all pattern "" sanitized)
                DANGEROUS_PATTERNS input in
    (* HTML escape *)
    let sanitized := replace_all (chr "&") "&amp;" sanitized in
    let sanitized := replace_all (chr "<") "&lt;" sanitized in
    let sanitized := replace_all (chr ">") "&gt;" sanitized in
    let sanitized := replace_all (chr double_quote) "&quot;" sanitized in
    let sanitized := replace_all (chr "'") "&#x27;" sanitized in
    (Ok (trim sanitized), fresh).

(** The loop over [DANGEROUS_PATTERNS] that stops at the first pattern
    whose [test] succeeds; every pattern tested moves its [lastIndex]. *)
Fixpoint first_dangerous (patterns : list re) (lastIndexes : list nat)
         (cleaned : string) : bool * list nat :=
  match patterns, lastIndexes with
  | pattern :: patterns', lastIndex :: rest =>
      let '(found, lastIndex') := test_g pattern lastIndex cleaned in
      if found then (true, lastIndex' :: rest)
      else
        let '(later, rest') := first_dangerous patterns' rest cleaned in
        (later, lastIndex' :: rest')
  | _, _ => (false, lastIndexes)
  end.

Definition no_errors (errors : list string) : bool :=
  match errors with [] => true | _ => false end.

(** Validate and sanitize mathematical expressions.  On a string no
    statement of the [try] block throws. *)
Definition validateMathExpression (expression : string) (lastIndexes : list nat)
  : ValidationResult string * list nat :=
  (* Length check *)
  if (MAX_PROBLEM_LENGTH <? String.length expression)%nat then
    ({| isValid := false;
        errors := ["Expression too long: " ++ show (String.length expression)
                   ++ " > " ++ show MAX_PROBLEM_LENGTH];
        warnings := []; sanitizedData := None |}, lastIndexes)
  else
    (* Remove script tags only (allow math symbols) *)
    let cleaned := replace_all script_element "" expression in
    (* Normalize mathematical operators *)
    let cleaned := replace_all (chr divide) "/" (replace_all (chr times) "*" cleaned) in
    (* Check if it matches basic math pattern *)
    let isValidMath := test MATH_PATTERN cleaned in
    let isRecognizedMathFormat :=
      existsb (fun pattern => test pattern cleaned) MATH_EQUATION_PATTERNS in
    let errors :=
      if isValidMath then []
      else ["Invalid mathematical expression: " ++ expression] in
    (* Only check for dangerous patterns if it doesn't match recognized
       math formats *)
    let '(dangerous, lastIndexes) :=
      if negb isRecognizedMathFormat && isValidMath
      then first_dangerous DANGEROUS_PATTERNS lastIndexes cleaned
      else (false, lastIndexes) in
    let errors :=
      if dangerous
      then (errors ++ [("Potentially dangerous content detected in: "
                        ++ expression)%string])%list
      else errors in
    (* Check for balanced parentheses *)
    let openParens := count_matches (chr "(") cleaned in
    let closeParens := count_matches (chr ")") cleaned in
    let errors :=
      if (openParens =? closeParens)%nat then errors
      else (errors ++ ["Unbalanced parentheses in expression"])%list in
    ({| isValid := no_errors errors; errors := errors; warnings := [];
        sanitizedData := Some cleaned |}, lastIndexes).

Inductive value :=
| Num (x : number)
| Str (s : string)
| Other (type_of : string) (text : string).

Definition typeof (v : value) : string :=
  match v with
  | Num _ => "number"
  | Str _ => "string"
  | Other t _ => t
  end.

Definition isNaN (x : number) : bool :=
  match x with S754_nan => true | _ => false end.

Definition isFinite (x : number) : bool :=
  match x with S754_zero _ | S754_finite _ _ _ => true | _ => false end.

(** The value is truthy: neither a zero nor [NaN]. *)
Definition nonzero (x : number) : bool :=
  match x with S754_zero _ | S754_nan => false | _ => true end.

(** The [sanitizedData] of [validateToolResponse]. *)
Record ToolResponse := {
  method : string;
  problem : string;
  answer : value
}.

Section Rendering.
Variable toString : number -> string.

(** The text of a value inside a template literal. *)
Definition text_of (v : value) : string :=
  match v with
  | Num x => toString x
  | Str s => s
  | Other _ t => t
  end.

(** Validate numeric answers *)
Definition validateNumericAnswer (answer : value) (lastIndexes : list nat)
  : ValidationResult number * list nat :=
  let checked (numericAnswer : number) (lastIndexes : list nat) :=
    (* Check reasonable bounds *)
    let errors :=
      if num_lt MAX_ANSWER_VALUE (num_abs numericAnswer)
      then ["Answer out of reasonable bounds: " ++ toString numericAnswer]
      else [] in
    (* Check for infinite or NaN values *)
    let errors :=
      if isFinite numericAnswer then errors
      else (errors ++ [("Invalid numeric value: "
                        ++ toString numericAnswer)%string])%list in
    ({| isValid := no_errors errors; errors := errors; warnings := [];
        sanitizedData := Some numericAnswer |}, lastIndexes) in
  match answer with
  | Num x => checked x lastIndexes
  | Str s =>
      match sanitizeString s (Some 20%nat) lastIndexes with
      | (Throw message, lastIndexes) =>
          ({| isValid := false; errors := ["Validation error: " ++ message];
              warnings := []; sanitizedData := None |}, lastIndexes)
      | (Ok sanitized, lastIndexes) =>
          let numericAnswer := parseFloat sanitized in
          if isNaN numericAnswer then
            ({| isValid := false; errors := ["Cannot convert to number: " ++ s];
                warnings := []; sanitizedData := None |}, lastIndexes)
          else checked numericAnswer lastIndexes
      end
  | Other t _ =>
      ({| isValid := false; errors := ["Invalid answer type: " ++ t];
          warnings := []; sanitizedData := None |}, lastIndexes)
  end.

(** Validate tool response data before sending to backend *)
Definition validateToolResponse (method problem : string) (answer : value)
           (lastIndexes : list nat) : ValidationResult ToolResponse * list nat :=
  (* Validate method *)
  let validMethods := ["number_line"; "practice"; "calculator"] in
  let warnings :=
    if existsb (String.eqb method) validMethods then []
    else ["Unknown method: " ++ method] in
  (* Validate problem *)
  let '(problemValidation, lastIndexes) :=
    validateMathExpression problem lastIndexes in
  let errors :=
    if isValid problemValidation then [] else errors problemValidation in
  (* Validate answer *)
  let '(answerValidation, lastIndexes) :=
    validateNumericAnswer answer lastIndexes in
  let errors :=
    if isValid answerValidation then errors
    else (errors ++ FrontendValidator.errors answerValidation)%list in
  ({| isValid := no_errors errors; errors := errors;
      warnings := (warnings ++ FrontendValidator.warnings problemValidation
                   ++ FrontendValidator.warnings answerValidation)%list;
      sanitizedData :=
        Some {| method := method;
                (* problemValidation.sanitizedData || problem *)
                problem := match sanitizedData problemValidation with
                           | Some cleaned =>
                               if String.eqb cleaned "" then problem else cleaned
                           | None => problem
                           end;
                (* answerValidation.sanitizedData || answer *)
                answer := match sanitizedData answerValidation with
                          | Some x => if nonzero x then Num x else answer
                          | None => answer
                          end |} |}, lastIndexes).

(** Create a secure response message for the agent *)
Definition createSecureResponseMessage (method problem : string) (answer : value)
           (lastIndexes : list nat) : outcome string * list nat :=
  let '(validation, lastIndexes) :=
    validateToolResponse method problem answer lastIndexes in
  if negb (isValid validation) then
    (Throw ("Validation failed: " ++ String.concat ", " (errors validation)),
     lastIndexes)
  else
    match sanitizedData validation with
    | Some {| method := cleanMethod; problem := cleanProblem;
              answer := cleanAnswer |} =>
        let cleanAnswer := text_of cleanAnswer in
        (Ok ("TOOL_COMPLETION: I used the " ++ cleanMethod ++ " to solve "
             ++ cleanProblem ++ " and got " ++ cleanAnswer ++ "! [METHOD: "
             ++ cleanMethod ++ "] [ANSWER: " ++ cleanAnswer ++ "] [PROBLEM: "
             ++ cleanProblem ++ "]"), lastIndexes)
    | None =>
        (* not reached: [validateToolResponse] always fills the field *)
        (Throw "Cannot destructure property 'method' of 'validation.sanitizedData' as it is undefined.",
         lastIndexes)
    end.

End Rendering.

End FrontendValidator.

(** ** ToolDisplay: the completion of a tool

    [handleToolResponse], with the limiter, the validator state and the
    calls of [alert] and of the tool's [respond] made explicit.  [now] is
    the clock read by [isAllowed()], [later] the one read by
    [getRemainingCalls()].  The answer handed over by a tool is a number
    (the three tools pass one) or a text; on such data the logger calls
    copy their argument and return, and they are left out. *)

Module ToolDisplay.
Import JS.

Inductive event :=
| Alert (message : string)
| Respond (message : string).

(** The answer of a tool. *)
Inductive answer :=
| Number (x : number)
| Text (s : string).

Definition value_of (a : answer) : FrontendValidator.value :=
  match a with
  | Number x => FrontendValidator.Num x
  | Text s => FrontendValidator.Str s
  end.

Record world := {
  calls : list Z;
  lastIndexes : list nat;
  out : list event
}.

Section Rendering.
Variable toString : number -> string.

Definition handleToolResponse (now later : Z) (method problem : string)
           (answer : answer)
           (messageHistory : option (list string)) (w : world) : world :=
  (* Check rate limiting *)
  let '(allowed, calls) := FrontendRateLimiter.isAllowed now (calls w) in
  if negb allowed then
    let '(_, calls) := FrontendRateLimiter.getRemainingCalls later calls in
    {| calls := calls; lastIndexes := lastIndexes w;
       out := (out w
               ++ [Alert "Please wait a moment before submitting another answer."])%list |}
  else
    (* Handle message history vs simple responses differently *)
    match messageHistory with
    | Some (_ :: _) =>
        (* Call respond() with minimal completion signal *)
        {| calls := calls; lastIndexes := lastIndexes w;
           out := (out w ++ [Respond "✅"])%list |}
    | _ =>
        match FrontendValidator.createSecureResponseMessage
                toString method problem (value_of answer) (lastIndexes w) with
        | (Ok responseMessage, lastIndexes) =>
            (* Send response but keep the tool visible *)
            {| calls := calls; lastIndexes := lastIndexes;
               out := (out w ++ [Respond responseMessage])%list |}
        | (Throw _, lastIndexes) =>
            (* Provide fallback response *)
            let fallbackMessage :=
              "I got " ++ FrontendValidator.text_of toString (value_of answer)
              ++ " for " ++ problem in
            {| calls := calls; lastIndexes := lastIndexes;
               out := (out w ++ [Respond fallbackMessage])%list |}
        end
    end.

End Rendering.

End ToolDisplay.

(** ** Arrays *)

Module JSArray.

(** [l.slice(start)]: a negative [start] counts from the end. *)
Definition slice_from {A} (start : Z) (l : list A) : list A :=
  let len := Z.of_nat (length l) in
  let from := if start <? 0 then Z.max (len + start) 0 else Z.min start len in
  drop (Z.to_nat from) l.

(** [l.findIndex(p)] *)
Fixpoint findIndex {A} (p : A -> bool) (l : list A) : Z :=
  match l with
  | [] => -1
  | x :: rest =>
      if p x then 0
      else let i := findIndex p rest in if i <? 0 then -1 else i + 1
  end.

End JSArray.

(** ** FrontendLogger: the front-end logger

    The field [logs] is threaded explicitly and the time stamp of an
    entry is an argument.  The [data] logged along with an event is any
    JavaScript value: its type, its truthiness and the copy made by
    [JSON.parse(JSON.stringify(data))], which may throw, are parameters.
    The echo on the console is left out. *)

Module FrontendLogger.
Import JS JSArray.
Local Open Scope list_scope.

Inductive Level := Info | Warn | Error | Debug.

Section Logger.
Variable any : Type.
Variable truthy : any -> bool.
Variable json_copy : any -> outcome any.

Record LogEntry := {
  timestamp : string;
  level : Level;
  component : string;
  event : string;
  data : option any
}.

Definition maxLogs : nat := 1000.

Definition addLog (now : string) (level : Level) (component event : string)
           (data : option any) (logs : list LogEntry)
  : outcome (list LogEntry) :=
  (* data ? JSON.parse(JSON.stringify(data)) : undefined *)
  let copied : outcome (option any) :=
    match data with
    | Some d =>
        if truthy d then
          match json_copy d with
          | Ok d' => Ok (Some d')
          | Throw message => Throw message
          end
        else Ok None
    | None => Ok None
    end in
  match copied with
  | Throw message => Throw message
  | Ok copied =>
      let entry :=
        {| timestamp := now; level := level; component := component;
           event := event; data := copied |} in
      let logs := logs ++ [entry] in
      (* Keep only the most recent logs *)
      Ok (if (maxLogs <? length logs)%nat
          then slice_from (- Z.of_nat maxLogs) logs
          else logs)
  end.

Definition info := fun now => addLog now Info.
Definition warn := fun now => addLog now Warn.
Definition error := fun now => addLog now Error.
Definition debug := fun now => addLog now Debug.

(** Get recent logs for debugging; [count] defaults to 50. *)
Definition getRecentLogs (count : option Z) (logs : list LogEntry)
  : list LogEntry :=
  slice_from (- default 50 count) logs.

(** Clear all logs *)
Definition clearLogs (logs : list LogEntry) : list LogEntry := [].

(** Get logs filtered by component *)
Definition getLogsByComponent (name : string) (logs : list LogEntry)
  : list LogEntry :=
  List.filter (fun log => String.eqb (component log) name) logs.

(** Get logs filtered by event type *)
Definition getLogsByEvent (name : string) (logs : list LogEntry)
  : list LogEntry :=
  List.filter (fun log => includes (event log) name) logs.

End Logger.

End FrontendLogger.

(** ** ValidationActions.tsx: dispatch, callbacks and the action handler

    [validation_data] has the shape sent by one of the three tools, or
    none of their fields.  A field that is read and not there is
    [undefined]: an undefined answer or expression is falsy like the
    empty text, an undefined [current_steps] has no [length].  The
    registry [validationCallbacks] and the set [pendingValidations] are
    explicit; callbacks are named by numbers, they are state setters of
    the components and return normally; their calls are recorded.  The
    logger calls, whose data are texts and the arguments of the action,
    received as JSON, return normally and are left out.  The handler is
    split where it awaits the result. *)

Module ValidationFlow.
Import JS ValidationActions.

Inductive validation_data :=
| StepInput (d : StepData)
| PracticeInput (d : PracticeData)
| CalculatorInput (expression : string)
| NoInput.

(** The object returned by a grader. *)
Inductive validation :=
| OnLine (v : ValidationResult number)
| OnAnswer (v : ValidationResult number).

Definition result_of (r : validation) : string :=
  match r with OnLine v => result v | OnAnswer v => result v end.
Definition is_correct_of (r : validation) : bool :=
  match r with OnLine v => is_correct v | OnAnswer v => is_correct v end.
Definition feedback_of (r : validation) : string :=
  match r with OnLine v => feedback v | OnAnswer v => feedback v end.
Definition mistake_type_of (r : validation) : option string :=
  match r with OnLine v => mistake_type v | OnAnswer v => mistake_type v end.

(** Calculator step validation *)
Definition validateCalculatorStep (validation_data : validation_data)
  : ValidationResult number :=
  let expression :=
    match validation_data with
    | CalculatorInput expression => expression
    | _ => ""
    end in
  if String.eqb expression "" || String.eqb (trim expression) "" then
    {| result := "correct"; is_correct := true;
       feedback := "Ready to calculate!";
       hint := "Enter your first number to get started.";
       mistake_type := None; guidance_level := "gentle";
       problem_completed := None; final_answer := None;
       remaining_steps := None; correct_answer := None |}
  else
    (* Simple validation for now *)
    {| result := "correct"; is_correct := true;
       feedback := "Looking good! Your calculation is on track.";
       hint := "Continue with your calculation.";
       mistake_type := None; guidance_level := "encouraging";
       problem_completed := None; final_answer := None;
       remaining_steps := None; correct_answer := None |}.

Definition on_line (r : outcome (ValidationResult number)) : outcome validation :=
  match r with Ok v => Ok (OnLine v) | Throw message => Throw message end.

Definition on_answer (r : outcome (ValidationResult number)) : outcome validation :=
  match r with Ok v => Ok (OnAnswer v) | Throw message => Throw message end.

Section Rendering.
Variable toString : number -> string.

(** Local validation processing, once the delay has passed. *)
Definition processValidationLocally (tool_type problem operation : string)
           (validation_data : validation_data) : outcome validation :=
  if String.eqb tool_type "number_line" then
    match validation_data with
    | StepInput d => on_line (validateNumberLineStep toString problem operation d)
    | _ =>
        match Regex.search Regex.step_problem problem with
        | Some _ => Throw "Cannot read properties of undefined (reading 'length')"
        | None => Throw "Could not parse math problem"
        end
    end
  else if String.eqb tool_type "practice_problem" then
    on_answer
      (validatePracticeStep toString problem operation
         match validation_data with
         | PracticeInput d => d
         | _ => {| user_input := ""; step_number := 0 |}
         end)
  else if String.eqb tool_type "calculator" then
    Ok (OnLine (validateCalculatorStep validation_data))
  else Throw ("Unknown tool type: " ++ tool_type).

Record world := {
  validationCallbacks : gmap string nat;
  pendingValidations : gset string;
  (** the calls of the callbacks, in order *)
  called : list (nat * validation)
}.

Definition empty : world :=
  {| validationCallbacks := ∅; pendingValidations := ∅; called := [] |}.

Definition key (tool_type problem : string) : string :=
  tool_type ++ "_" ++ problem.

(** Register a callback for validation results *)
Definition registerCallback (tool_type problem : string) (callback : nat)
           (w : world) : world :=
  {| validationCallbacks := <[key tool_type problem := callback]> (validationCallbacks w);
     pendingValidations := pendingValidations w; called := called w |}.

(** Unregister a callback *)
Definition unregisterCallback (tool_type problem : string) (w : world) : world :=
  {| validationCallbacks := delete (key tool_type problem) (validationCallbacks w);
     pendingValidations := pendingValidations w; called := called w |}.

(** Find and call the appropriate callback *)
Definition call_back (tool_type problem : string) (r : validation) (w : world)
  : world :=
  match validationCallbacks w !! key tool_type problem with
  | Some callback =>
      {| validationCallbacks := validationCallbacks w;
         pendingValidations := pendingValidations w;
         called := (called w ++ [(callback, r)])%list |}
  | None => w
  end.

(** Trigger validation manually: what happens after the delay. *)
Definition triggerValidation (tool_type problem operation : string)
           (validation_data : validation_data) (w : world)
  : outcome validation * world :=
  match processValidationLocally tool_type problem operation validation_data with
  | Ok r => (Ok r, call_back tool_type problem r w)
  | Throw message => (Throw message, w)
  end.

Definition fallbackResult : validation :=
  OnLine {| result := "needs_guidance"; is_correct := false;
            feedback := "I'm having trouble validating that step. Let's keep going!";
            hint := "Continue with the next step in your learning.";
            mistake_type := Some "validation_error"; guidance_level := "gentle";
            problem_completed := None; final_answer := None;
            remaining_steps := None; correct_answer := None |}.

Definition validationId (tool_type problem : string) (now : Z) : string :=
  tool_type ++ "_" ++ problem ++ "_" ++ showZ now.

(** The handler of [validate_learning_step], called at [now], up to the
    point where it awaits the result: the validation is marked as
    pending. *)
Definition handler_begin (now : Z) (tool_type problem : string) (w : world)
  : world :=
  {| validationCallbacks := validationCallbacks w;
     pendingValidations := {[ validationId tool_type problem now ]} ∪ pendingValidations w;
     called := called w |}.

(** The rest of the handler, for the call made at [now]: the text it
    returns and the state it leaves. *)
Definition handler_end (now : Z) (tool_type problem operation : string)
           (validation_data : validation_data) (w : world) : string * world :=
  match processValidationLocally tool_type problem operation validation_data with
  | Ok validationResult =>
      (* Remove from pending *)
      let w :=
        {| validationCallbacks := validationCallbacks w;
           pendingValidations :=
             pendingValidations w ∖ {[ validationId tool_type problem now ]};
           called := called w |} in
      ("Validation completed: " ++ feedback_of validationResult,
       call_back tool_type problem validationResult w)
  | Throw _ =>
      (* Provide fallback validation result *)
      ("Validation completed with fallback guidance",
       call_back tool_type problem fallbackResult w)
  end.

(** A call of the handler with nothing happening while it waits. *)
Definition handler (now : Z) (tool_type problem operation : string)
           (validation_data : validation_data) (w : world) : string * world :=
  handler_end now tool_type problem operation validation_data
              (handler_begin now tool_type problem w).

End Rendering.

End ValidationFlow.

(** ** DemoInterruptionManager.tsx: watching the chat

    A chat message is kept with the fields the manager reads; [content]
    is [None] when it is missing or not a string, [createdAt] is the time
    value of the creation date, when there is one.  [stateRef.current] is
    the record [State].  An effect pass is what the two effects on
    [messages] do after a render in which [messages] or [isActive] has
    changed; the calls of [onInterruption] and [onResume] are returned. *)

Module InterruptionMonitor.
Import JS JSArray DemoInterruptionManager.

Record Message := {
  id : string;
  role : string;
  content : option string;
  createdAt : option Z
}.

Record State := {
  isMonitoring : bool;
  lastProcessedMessageId : option string;
  isDemoActive : bool;
  pendingQueries : list string;
  isNonBlockingMode : bool;
  lastMessageTimestamp : Z
}.

(** The value of the reference when the manager is mounted, at [now]. *)
Definition initial (now : Z) : State :=
  {| isMonitoring := false; lastProcessedMessageId := None;
     isDemoActive := false; pendingQueries := [];
     isNonBlockingMode := true; lastMessageTimestamp := now |}.

Inductive event :=
| Interruption (userMessage : string)
| Resume.

(** A string content that is not empty. *)
Definition text_content (msg : Message) : option string :=
  match content msg with
  | Some c => if String.eqb c "" then None else Some c
  | None => None
  end.

(** The filter of new user messages. *)
Definition is_new_user_message (st : State) (msg : Message) : bool :=
  String.eqb (role msg) "user"
  && bool_decide (is_Some (text_content msg))
  && match createdAt msg with
     | Some t => lastMessageTimestamp st <? t
     | None => true
     end.

(** The first message of the list that is a user query. *)
Fixpoint first_query (msgs : list Message) : option (Message * string) :=
  match msgs with
  | [] => None
  | message :: rest =>
      let content := default "" (content message) in
      if isUserQuery content then Some (message, content)
      else first_query rest
  end.

Definition detectInterruption (isActive : bool) (now : Z)
           (newMessages : list Message) (st : State) : State * option event :=
  if negb isActive || negb (isMonitoring st) then (st, None)
  else
    (* Find new user messages since last check *)
    let lastProcessedIndex :=
      match lastProcessedMessageId st with
      | Some last =>
          if String.eqb last "" then -1
          else findIndex (fun msg => String.eqb (id msg) last) newMessages
      | None => -1
      end in
    let candidateMessages :=
      if isNonBlockingMode st then newMessages
      else slice_from (lastProcessedIndex + 1) newMessages in
    let newUserMessages := List.filter (is_new_user_message st) candidateMessages in
    match last newUserMessages with
    | None => (st, None)
    | Some lastMessage =>
        (* Check if any new message is a user query *)
        let '(st, raised) :=
          match first_query newUserMessages with
          | Some (message, content) =>
              ({| isMonitoring := isMonitoring st;
                  lastProcessedMessageId := Some (id message);
                  isDemoActive := isDemoActive st;
                  pendingQueries := (pendingQueries st ++ [content])%list;
                  isNonBlockingMode := isNonBlockingMode st;
                  lastMessageTimestamp := now |},
               Some (Interruption content))
          | None => (st, None)
          end in
        (* Update timestamp tracking *)
        ({| isMonitoring := isMonitoring st;
            lastProcessedMessageId := Some (id lastMessage);
            isDemoActive := isDemoActive st;
            pendingQueries := pendingQueries st;
            isNonBlockingMode := isNonBlockingMode st;
            lastMessageTimestamp := now |}, raised)
    end.

(** The manager: the reference, and whether the last run of the
    monitoring effect left a cleanup behind. *)
Record manager := {
  ref : State;
  monitoring_cleanup : bool
}.

Definition mounted (now : Z) : manager :=
  {| ref := initial now; monitoring_cleanup := false |}.

Definition set_monitoring (monitoring active : bool) (st : State) : State :=
  {| isMonitoring := monitoring;
     lastProcessedMessageId := lastProcessedMessageId st;
     isDemoActive := active;
     pendingQueries := pendingQueries st;
     isNonBlockingMode := isNonBlockingMode st;
     lastMessageTimestamp := lastMessageTimestamp st |}.

(** Monitor messages for interruptions: the cleanup of the previous run,
    then the effect. *)
Definition monitorEffect (isActive : bool) (now : Z) (messages : list Message)
           (m : manager) : manager * option event :=
  let st := ref m in
  let st := if monitoring_cleanup m then set_monitoring false false st else st in
  if negb isActive then
    ({| ref := set_monitoring false (isDemoActive st) st;
        monitoring_cleanup := false |}, None)
  else
    let st := set_monitoring true true st in
    (* Check current messages *)
    let '(st, raised) := detectInterruption isActive now messages st in
    ({| ref := st; monitoring_cleanup := true |}, raised).

(** Look for resume indicators in recent messages *)
Definition hasResumeRequest (messages : list Message) : bool :=
  existsb
    (fun msg =>
       String.eqb (role msg) "user"
       && match text_content msg with
          | Some content =>
              existsb (fun keyword => includes (toLowerCase content) keyword)
                      DEMO_KEYWORDS
          | None => false
          end)
    (slice_from (-3) messages).

(** Handle resume requests *)
Definition resumeEffect (isActive : bool) (messages : list Message)
           (m : manager) : manager * option event :=
  if negb isActive then (m, None)
  else
    let st := ref m in
    if hasResumeRequest messages
       && negb (bool_decide (pendingQueries st = []))
    then
      ({| ref := {| isMonitoring := isMonitoring st;
                    lastProcessedMessageId := lastProcessedMessageId st;
                    isDemoActive := isDemoActive st;
                    pendingQueries := [];
                    isNonBlockingMode := isNonBlockingMode st;
                    lastMessageTimestamp := lastMessageTimestamp st |};
          monitoring_cleanup := monitoring_cleanup m |}, Some Resume)
    else (m, None).

Definition events (e : option event) : list event :=
  match e with Some x => [x] | None => [] end.

(** The effects of a render in which [messages] or [isActive] changed. *)
Definition pass (isActive : bool) (now : Z) (messages : list Message)
           (m : manager) : manager * list event :=
  let '(m, raised) := monitorEffect isActive now messages m in
  let '(m, resumed) := resumeEffect isActive messages m in
  (m, (events raised ++ events resumed)%list).

End InterruptionMonitor.

(** ** NumberLine: the manual mode

    The number line with [demoMode] off, where the learner clicks the
    numbers.  The state kept is what the click handler, the validation
    callback and the buttons read or write.  No effect depends on that
    state, so a render is the state it was computed from, and a handler
    reads the state of the render in which it was created: [snap].  The
    handler of a click waits for [ValidationUtils.triggerValidation],
    which resolves 200 ms later; what it does then is the callback
    [Validated], which carries the render of the click.  The number line
    is the only component registered for its problem, so the callback
    that [triggerValidation] finds is its own.  The sequence of expected
    positions built for the validator, which does not read it, is left
    out.  Calls of [sendIntermediateMessage] and [onAnswer] are recorded
    in the [log]. *)

Module ManualLine.
Import JS ValidationActions.

Record Props := {
  problem : string;
  operation : string;
  (** whether the optional callback was passed *)
  sendIntermediateMessage : bool
}.

Record State := {
  selectedNumber : option Z;
  steps : list Z;
  currentStep : Z;
  messageHistory : list string;
  validationInProgress : bool;
  stepFeedback : string;
  lastValidationResult : option (ValidationResult number);
  validatedSteps : gset Z;
  showValidationFeedback : bool
}.

Definition initialState : State :=
  {| selectedNumber := None; steps := []; currentStep := 0;
     messageHistory := []; validationInProgress := false; stepFeedback := "";
     lastValidationResult := None; validatedSteps := ∅;
     showValidationFeedback := false |}.

(** Calls of the callbacks received as props. *)
Inductive event :=
| Sent (message : string)
| Answer (answer : Z) (messageHistory : list string).

(** The functions passed to [setTimeout], and the rest of a click
    handler, with the values they close over. *)
Inductive callback :=
| Validated (snap : State) (num : Z)
| HideFeedback
| Excellent (n : NumberLine.Numbers) (sign : string) (num : Z)
            (messageHistory : list string)
| CallOnAnswer (answer : Z) (messageHistory : list string).

Record timer := { id : nat; due : Z; action : callback }.

Record instance := {
  props : Props;
  state : State;
  timers : list timer;
  nextId : nat;
  log : list event
}.

Definition with_state (f : State -> State) (i : instance) : instance :=
  {| props := props i; state := f (state i); timers := timers i;
     nextId := nextId i; log := log i |}.

Definition emit (e : event) (i : instance) : instance :=
  {| props := props i; state := state i; timers := timers i;
     nextId := nextId i; log := (log i ++ [e])%list |}.

(** [setTimeout(f, delay)] called at time [now]. *)
Definition setTimeout (f : callback) (now delay : Z) (i : instance) : instance :=
  {| props := props i; state := state i;
     timers := (timers i ++ [{| id := nextId i; due := now + delay; action := f |}])%list;
     nextId := S (nextId i); log := log i |}.

(** State setters. *)
Definition setSelectedNumber v (s : State) : State :=
  {| selectedNumber := v; steps := steps s; currentStep := currentStep s;
     messageHistory := messageHistory s;
     validationInProgress := validationInProgress s;
     stepFeedback := stepFeedback s;
     lastValidationResult := lastValidationResult s;
     validatedSteps := validatedSteps s;
     showValidationFeedback := showValidationFeedback s |}.
Definition setSteps v (s : State) : State :=
  {| selectedNumber := selectedNumber s; steps := v; currentStep := currentStep s;
     messageHistory := messageHistory s;
     validationInProgress := validationInProgress s;
     stepFeedback := stepFeedback s;
     lastValidationResult := lastValidationResult s;
     validatedSteps := validatedSteps s;
     showValidationFeedback := showValidationFeedback s |}.
Definition setCurrentStep v (s : State) : State :=
  {| selectedNumber := selectedNumber s; steps := steps s; currentStep := v;
     messageHistory := messageHistory s;
     validationInProgress := validationInProgress s;
     stepFeedback := stepFeedback s;
     lastValidationResult := lastValidationResult s;
     validatedSteps := validatedSteps s;
     showValidationFeedback := showValidationFeedback s |}.
Definition setMessageHistory (f : list string -> list string) (s : State) : State :=
  {| selectedNumber := selectedNumber s; steps := steps s;
     currentStep := currentStep s;
     messageHistory := f (messageHistory s);
     validationInProgress := validationInProgress s;
     stepFeedback := stepFeedback s;
     lastValidationResult := lastValidationResult s;
     validatedSteps := validatedSteps s;
     showValidationFeedback := showValidationFeedback s |}.
Definition setValidationInProgress v (s : State) : State :=
  {| selectedNumber := selectedNumber s; steps := steps s;
     currentStep := currentStep s;
     messageHistory := messageHistory s;
     validationInProgress := v;
     stepFeedback := stepFeedback s;
     lastValidationResult := lastValidationResult s;
     validatedSteps := validatedSteps s;
     showValidationFeedback := showValidationFeedback s |}.
Definition setStepFeedback v (s : State) : State :=
  {| selectedNumber := selectedNumber s; steps := steps s;
     currentStep := currentStep s;
     messageHistory := messageHistory s;
     validationInProgress := validationInProgress s;
     stepFeedback := v;
     lastValidationResult := lastValidationResult s;
     validatedSteps := validatedSteps s;
     showValidationFeedback := showValidationFeedback s |}.
Definition setLastValidationResult v (s : State) : State :=
  {| selectedNumber := selectedNumber s; steps := steps s;
     currentStep := currentStep s;
     messageHistory := messageHistory s;
     validationInProgress := validationInProgress s;
     stepFeedback := stepFeedback s;
     lastValidationResult := v;
     validatedSteps := validatedSteps s;
     showValidationFeedback := showValidationFeedback s |}.
Definition setValidatedSteps (f : gset Z -> gset Z) (s : State) : State :=
  {| selectedNumber := selectedNumber s; steps := steps s;
     currentStep := currentStep s;
     messageHistory := messageHistory s;
     validationInProgress := validationInProgress s;
     stepFeedback := stepFeedback s;
     lastValidationResult := lastValidationResult s;
     validatedSteps := f (validatedSteps s);
     showValidationFeedback := showValidationFeedback s |}.
Definition setShowValidationFeedback v (s : State) : State :=
  {| selectedNumber := selectedNumber s; steps := steps s;
     currentStep := currentStep s;
     messageHistory := messageHistory s;
     validationInProgress := validationInProgress s;
     stepFeedback := stepFeedback s;
     lastValidationResult := lastValidationResult s;
     validatedSteps := validatedSteps s;
     showValidationFeedback := v |}.

(** [useMemo(() => parseNumbers(problem), [problem])] *)
Definition numbers (p : Props) : option NumberLine.Numbers :=
  NumberLine.parseNumbers (problem p).

(** Helper function to send message and collect it in history *)
Definition sendAndCollectMessage (message : string) (i : instance) : instance :=
  let cleanMessage := remove_first NumberLine.pin message in
  let i := with_state (setMessageHistory (fun prev => (prev ++ [cleanMessage])%list)) i in
  if sendIntermediateMessage (props i) then emit (Sent message) i else i.

(** [remaining > 1 ? 's' : ''] *)
Definition plural (remaining : Z) : string := if 1 <? remaining then "s" else "".

(** Send initial instruction when component first loads *)
Definition mount (p : Props) : instance :=
  let i := {| props := p; state := initialState; timers := []; nextId := 1;
              log := [] |} in
  match numbers p with
  | Some n =>
      if sendIntermediateMessage p then
        sendAndCollectMessage
          ("📍 Click on " ++ showZ (NumberLine.firstNumber n) ++ " to start!") i
      else i
  | None => i
  end.

(** [handleNumberClick(num)] of the render [snap], from the validation
    of the step on: [now] is the time at which it goes on. *)
Definition proceed (n : NumberLine.Numbers) (snap : State) (num now : Z)
           (i : instance) : instance :=
  let operation := operation (props i) in
  match selectedNumber snap with
  | None =>
      (* First click - select starting number *)
      if num =? NumberLine.firstNumber n then
        let i := with_state (setSelectedNumber (Some num)) i in
        let i := with_state (setSteps [num]) i in
        let i := with_state (setCurrentStep 1) i in
        (* Send immediate message for first selection *)
        let remaining := NumberLine.secondNumber n in
        let message :=
          "Great! Now count "
          ++ (if String.eqb operation "addition" then "forward" else "backward")
          ++ " " ++ showZ remaining ++ " more step" ++ plural remaining in
        sendAndCollectMessage ("📍 " ++ message) i
      else
        (* Wrong starting number - validation will handle feedback *)
        i
  | Some _ =>
      (* Subsequent clicks - build the path; with no step so far
         [lastStep] is [undefined] and neither comparison holds *)
      match last (steps snap) with
      | None => i
      | Some lastStep =>
          if String.eqb operation "addition" && (num =? lastStep + 1) then
            let newSteps := (steps snap ++ [num])%list in
            let i := with_state (setSteps newSteps) i in
            (* Send immediate progress message (only if not validation
               feedback is showing) *)
            let i :=
              if negb (showValidationFeedback snap) then
                let remaining :=
                  NumberLine.secondNumber n - (Z.of_nat (length newSteps) - 1) in
                if 0 <? remaining then
                  let message :=
                    "Great! Now count forward " ++ showZ remaining
                    ++ " more step" ++ plural remaining in
                  sendAndCollectMessage ("📍 " ++ message) i
                else sendAndCollectMessage "📍 You did it! 🎉" i
              else i in
            if Z.of_nat (length newSteps) - 1 =? NumberLine.secondNumber n then
              (* Completed the addition *)
              setTimeout (Excellent n "+" num (messageHistory snap)) now 500 i
            else i
          else if String.eqb operation "subtraction" && (num =? lastStep - 1) then
            let newSteps := (steps snap ++ [num])%list in
            let i := with_state (setSteps newSteps) i in
            let i :=
              if negb (showValidationFeedback snap) then
                let remaining :=
                  NumberLine.secondNumber n - (Z.of_nat (length newSteps) - 1) in
                if 0 <? remaining then
                  let message :=
                    "Great! Now count backward " ++ showZ remaining
                    ++ " more step" ++ plural remaining in
                  sendAndCollectMessage ("📍 " ++ message) i
                else sendAndCollectMessage "📍 You did it! 🎉" i
              else i in
            if Z.of_nat (length newSteps) - 1 =? NumberLine.secondNumber n then
              (* Completed the subtraction *)
              setTimeout (Excellent n "-" num (messageHistory snap)) now 500 i
            else i
          else
            (* Wrong step - validation will handle feedback *)
            i
      end
  end.

(** A click on [num] at time [now]: [handleNumberClick] up to the point
    where [validateStep] waits for the validation. *)
Definition click (now num : Z) (i : instance) : instance :=
  let snap := state i in
  match numbers (props i) with
  | None => i
  | Some _ =>
      if validationInProgress snap then i
      else
        let i := with_state (setValidationInProgress true) i in
        let i := with_state (setShowValidationFeedback false) i in
        setTimeout (Validated snap num) now 200 i
  end.

Section Rendering.

(** The rendering of a number inside a template literal, a parameter of
    the grader. *)
Variable toString : number -> string.

(** The validation of the click made in the render [snap] returns, at
    [now]: the callback registered for the results, the end of
    [validateStep] and the rest of [handleNumberClick].  The positions
    are handed to the grader as the numbers they are. *)
Definition validated (snap : State) (num now : Z) (i : instance) : instance :=
  match numbers (props i) with
  | None => i
  | Some n =>
      match validateNumberLineStep toString
              (problem (props i)) (operation (props i))
              {| current_steps := map of_Z (steps snap);
                 proposed_step := of_Z num |} with
      | Ok result =>
          (* the callback of the validation results *)
          let i := with_state (setLastValidationResult (Some result)) i in
          let i := with_state (setStepFeedback (feedback result)) i in
          let i := with_state (setShowValidationFeedback true) i in
          let i := with_state (setValidationInProgress false) i in
          (* Auto-hide feedback after 3 seconds for positive results *)
          let i := if is_correct result then setTimeout HideFeedback now 3000 i
                   else i in
          (* Mark this step as validated if correct *)
          if is_correct result then
            let i := with_state (setValidatedSteps (fun prev => prev ∪ {[num]})) i in
            proceed n snap num now i
          else
            (* Invalid step - validation feedback will be shown
               automatically *)
            i
      | Throw _ =>
          let i := with_state (setValidationInProgress false) i in
          let i :=
            with_state
              (setStepFeedback
                 "I'm having trouble validating that step. Let's keep going!") i in
          let i := with_state (setShowValidationFeedback true) i in
          (* Allow progression on validation error *)
          let i := with_state (setValidatedSteps (fun prev => prev ∪ {[num]})) i in
          proceed n snap num now i
      end
  end.

(** [handleReset] *)
Definition reset (i : instance) : instance :=
  let i := with_state (setSelectedNumber None) i in
  let i := with_state (setSteps []) i in
  let i := with_state (setCurrentStep 0) i in
  (* Clear validation state *)
  let i := with_state (setValidatedSteps (fun _ => ∅)) i in
  let i := with_state (setShowValidationFeedback false) i in
  let i := with_state (setStepFeedback "") i in
  with_state (setLastValidationResult None) i.

(** The button that submits the last position, shown when there is more
    than one step. *)
Definition submit (now : Z) (i : instance) : instance :=
  let snap := state i in
  if (1 <? length (steps snap))%nat then
    match last (steps snap) with
    | Some finalAnswer =>
        let i :=
          sendAndCollectMessage
            ("📍 ✅ Great! You chose " ++ showZ finalAnswer
             ++ " as your final answer!") i in
        setTimeout (CallOnAnswer finalAnswer (messageHistory snap)) now 300 i
    | None => i
    end
  else i.

(** The button that closes the feedback, shown with it once the
    validation is over. *)
Definition dismiss (i : instance) : instance :=
  let snap := state i in
  if showValidationFeedback snap && negb (String.eqb (stepFeedback snap) "")
     && negb (validationInProgress snap)
  then with_state (setShowValidationFeedback false) i
  else i.

(** *** Timers *)

(** The pending timer that fires first. *)
Fixpoint earliest (ts : list timer) : option timer :=
  match ts with
  | [] => None
  | t :: rest =>
      match earliest rest with
      | Some t' => if due t' <? due t then Some t' else Some t
      | None => Some t
      end
  end.

Definition drop_timer (n : nat) (i : instance) : instance :=
  {| props := props i; state := state i;
     timers := List.filter (fun t => negb (Nat.eqb (id t) n)) (timers i);
     nextId := nextId i; log := log i |}.

Definition run_callback (f : callback) (now : Z) (i : instance) : instance :=
  match f with
  | Validated snap num => validated snap num now i
  | HideFeedback => with_state (setShowValidationFeedback false) i
  | Excellent n sign num history =>
      let i :=
        sendAndCollectMessage
          ("📍 ✅ Excellent! You successfully solved "
           ++ showZ (NumberLine.firstNumber n) ++ " " ++ sign ++ " "
           ++ showZ (NumberLine.secondNumber n) ++ " = " ++ showZ num ++ "!") i in
      setTimeout (CallOnAnswer num history) now 300 i
  | CallOnAnswer answer history => emit (Answer answer history) i
  end.

(** The next timer fires, at its due time. *)
Definition tick (i : instance) : instance :=
  match earliest (timers i) with
  | Some t => run_callback (action t) (due t) (drop_timer (id t) i)
  | None => i
  end.

(** What the learner and the clock can do. *)
Inductive move :=
| Click (now num : Z)
| Reset
| Submit (now : Z)
| Dismiss
| Fire.

Definition perform (i : instance) (m : move) : instance :=
  match m with
  | Click now num => click now num i
  | Reset => reset i
  | Submit now => submit now i
  | Dismiss => dismiss i
  | Fire => tick i
  end.

End Rendering.

End ManualLine.

(** ** Vocabulary of the further properties *)

(** *** Runs of the logger *)

Module LoggerRuns.
Import JS FrontendLogger.

Section WithData.
Context {any : Type}.
Variable truthy : any -> bool.
Variable json_copy : any -> outcome any.

(** What is logged for [data]: nothing for a falsy value, its copy
    otherwise; [None] when the copy throws. *)
Definition stored (data : option any) : option (option any) :=
  match data with
  | Some d =>
      if truthy d then
        match json_copy d with
        | Ok d' => Some (Some d')
        | Throw _ => None
        end
      else Some None
  | None => Some None
  end.

(** The arguments of a call of [addLog]. *)
Record call := {
  at_time : string;
  with_level : Level;
  from : string;
  about : string;
  carrying : option any
}.

(** Successive calls, from the log [logs]; a call that throws leaves the
    log as it was. *)
Fixpoint addLogs (calls : list call) (logs : list (LogEntry any))
  : list (LogEntry any) :=
  match calls with
  | [] => logs
  | c :: rest =>
      match addLog any truthy json_copy (at_time c) (with_level c) (from c)
                   (about c) (carrying c) logs with
      | Ok logs' => addLogs rest logs'
      | Throw _ => addLogs rest logs
      end
  end.

(** The entries that a sequence of calls records. *)
Fixpoint recorded (calls : list call) : list (LogEntry any) :=
  match calls with
  | [] => []
  | c :: rest =>
      match stored (carrying c) with
      | Some d =>
          {| timestamp := at_time c; level := with_level c; component := from c;
             event := about c; data := d |} :: recorded rest
      | None => recorded rest
      end
  end.

End WithData.

Arguments call any : clear implicits.
Arguments Build_call {any}.

End LoggerRuns.

(** *** Texts and patterns *)

Module TextSpec.
Import JS RegExp.

(** The class of the first character of every match of a pattern that
    opens with a character. *)
Fixpoint head_class (r : re) : option (ascii -> bool) :=
  match r with
  | Chr p => Some p
  | Seq r1 _ => head_class r1
  | _ => None
  end.

(** No character of [s] is in the class [p]. *)
Definition free_of (p : ascii -> bool) (s : string) : bool :=
  all_chars (fun c => negb (p c)) s.

(** Every character of [s] that is in [p] is replaced by [by_]. *)
Fixpoint subst_class (p : ascii -> bool) (by_ : string) (s : string) : string :=
  match s with
  | EmptyString => EmptyString
  | String c r => if p c then by_ ++ subst_class p by_ r else String c (subst_class p by_ r)
  end.

(** The number of characters of [s] that are in [p]. *)
Fixpoint count_class (p : ascii -> bool) (s : string) : nat :=
  match s with
  | EmptyString => O
  | String c r => if p c then S (count_class p r) else count_class p r
  end.

End TextSpec.

(** *** Validated expressions *)

Module ValidatorSpec.
Import JS RegExp FrontendValidator.

(** The characters of a validated expression: digits, white space and
    the signs + - * / ( ) . = ? *)
Definition plain_math_char (c : ascii) : bool :=
  is_digit c || is_space c
  || one_of ["+"; "-"; "*"; "/"; "("; ")"; "."; "="; "?"]%char c.

(** The operator as [validateMathExpression] normalizes it. *)
Definition normalized (c : ascii) : ascii :=
  if Ascii.eqb c times then "*"%char
  else if Ascii.eqb c divide then "/"%char
  else c.

(** The text [d1 w1 op w2 d2]: two operands around an operator, with
    optional white space. *)
Definition binary_problem (d1 w1 : string) (op : ascii) (w2 d2 : string)
  : string :=
  d1 ++ w1 ++ String op (w2 ++ d2).

(** The characters of a text such as [12--7]: digits and the minus
    sign. *)
Definition dash_or_digit (c : ascii) : bool := is_digit c || Ascii.eqb c "-".

(** Two texts around two minus signs. *)
Definition dashed (d1 d2 : string) : string := d1 ++ "--" ++ d2.

End ValidatorSpec.

(** *** Tool responses *)

Module ResponseSpec.
Import JS FrontendValidator.

(** The number is finite and its absolute value does not exceed
    [MAX_ANSWER_VALUE], as the code tests it. *)
Definition acceptable (x : number) : Prop :=
  isFinite x = true /\ num_lt MAX_ANSWER_VALUE (num_abs x) = false.

(** The text of the completion message. *)
Definition completion_message (method problem answer : string) : string :=
  "TOOL_COMPLETION: I used the " ++ method ++ " to solve " ++ problem
  ++ " and got " ++ answer ++ "! [METHOD: " ++ method ++ "] [ANSWER: "
  ++ answer ++ "] [PROBLEM: " ++ problem ++ "]".

(** The text of the fallback response. *)
Definition fallback_message (answer problem : string) : string :=
  "I got " ++ answer ++ " for " ++ problem.

End ResponseSpec.

(** *** Passes of the interruption manager *)

Module MonitorSpec.
Import InterruptionMonitor.

(** The events of successive effect passes while the demonstration is
    active: a render is the time of its effects and the messages it
    shows. *)
Fixpoint passes (renders : list (Z * list Message)) (m : manager)
  : list (list event) :=
  match renders with
  | [] => []
  | (now, messages) :: rest =>
      let '(m', raised) := pass true now messages m in
      raised :: passes rest m'
  end.

(** The pass opens with an interruption. *)
Definition interrupts (raised : list event) : Prop :=
  exists userMessage rest, raised = Interruption userMessage :: rest.

End MonitorSpec.

(** *** Admissions of the limiter *)

Module LimiterSpec.
Import FrontendRateLimiter.
Local Open Scope list_scope.

(** The times, among those of successive [isAllowed()] calls, at which
    the answer was yes. *)
Fixpoint admitted (times : list Z) (calls : list Z) : list Z :=
  match times with
  | [] => []
  | now :: rest =>
      let '(ok, calls') := isAllowed now calls in
      if ok then now :: admitted rest calls' else admitted rest calls'
  end.

(** The times that lie in the [WINDOW_MS] milliseconds from [t] on. *)
Definition within (t : Z) (times : list Z) : list Z :=
  List.filter (fun now => (t <=? now) && (now <? t + WINDOW_MS)) times.

End LimiterSpec.

(** *** A demonstration that is paused and resumed *)

Module PauseSpec.
Import JS NumberLine Spec.
Local Open Scope list_scope.

Definition pause_message (reason : string) : string :=
  ("🛑 Demo paused - " ++ reason)%string.

Definition resume_message : string := "▶️ Demo resuming...".

Section PausedRun.
Variables (a b : N) (o : operator) (onPause onResume onComplete : bool).
Variables (now paused_at resumed_at : Z) (reason : string).

(** What a pause requested after tick [k] saves. *)
Definition saved (k : nat) : Demo.DemoState :=
  {| Demo.currentStep := Z.of_nat k;
     Demo.nextStepDelay := if Z.of_nat k =? 0 then 2000 else 1200;
     Demo.pauseReason := Some reason;
     Demo.resumeAt := Some paused_at |}.

(** The state from the pause on: [resumed] tells whether the resumption
    was requested, [resuming] whether its timer is still pending, [extra]
    are the messages collected since the pause message, [path'] is the
    path shown. *)
Definition interrupted (k : nat) (resumed resuming : bool)
           (extra : list string) (path' : list Z) : State :=
  {| selectedNumber := Some (Z.of_N a);
     steps := path';
     demoStep := Z.of_nat k;
     demoExplanation := narration_message a b o (Z.of_nat k);
     isDemoComplete := false;
     messageHistory := history a b o (S k) ++ pause_message reason :: extra;
     isDemoPaused := negb resumed;
     NumberLine.pauseReason := if resumed then "" else reason;
     savedDemoState := Some (saved k);
     resumeRequested := resuming |}.

Definition pause_events (k : nat) : list event :=
  map sent (history a b o (S k))
  ++ (if onPause then [DemoPause (saved k)] else [])
  ++ [sent (pause_message reason)].

Definition resume_events (k : nat) : list event :=
  pause_events k ++ (if onResume then [DemoResume] else [])
  ++ [sent resume_message].

(** The number line paused after tick [k]: no timer is left. *)
Definition paused (k : nat) : instance :=
  {| props := demo_props a b o onPause onResume onComplete;
     state := interrupted k false false [] (path a o (S k));
     control := Some (interrupted k false false [] (path a o (S k)));
     demoRender := Some (interrupted k false false [] (path a o (S k)));
     timeoutId := None;
     timers := [];
     nextId := S (S k);
     log := pause_events k |}.

(** The number line once its resumption is requested. *)
Definition resuming (k : nat) : instance :=
  {| props := demo_props a b o onPause onResume onComplete;
     state := interrupted k true true [resume_message] (path a o (S k));
     control := Some (interrupted k true true [resume_message] (path a o (S k)));
     demoRender :=
       Some (interrupted k true true [resume_message] (path a o (S k)));
     timeoutId := None;
     timers := [ {| id := S (S k); due := resumed_at + 500;
                    action := ResumeAt (Z.of_nat k) |} ];
     nextId := S (S (S k));
     log := resume_events k |}.

(** The positions once the demonstration is going on. *)
Definition path_again (k : nat) : list Z :=
  match k with
  | O => [Z.of_N a]
  | S _ => path a o (S k) ++ [Z.of_N a + direction o * Z.of_nat k]
  end.

(** The number line when the resumption timer has fired. *)
Definition resumed (k : nat) : instance :=
  {| props := demo_props a b o onPause onResume onComplete;
     state :=
       interrupted k true false
         [resume_message; narration_message a b o (Z.of_nat k)] (path_again k);
     control := Some (interrupted k true true [resume_message] (path a o (S k)));
     demoRender :=
       Some (interrupted k true false [resume_message] (path a o (S k)));
     timeoutId := Some (S (S (S k)));
     timers := [ {| id := S (S (S k));
                    due := resumed_at + 500
                           + (if Z.of_nat k =? 0 then 2000 else 1200);
                    action := SetDemoStep (Z.of_nat k + 1) |} ];
     nextId := S (S (S (S k)));
     log := resume_events k ++ [sent (narration_message a b o (Z.of_nat k))] |}.

End PausedRun.

End PauseSpec.

(** *** What can happen to a mounted number line *)

Module DemoControl.
Import NumberLine.

Inductive move :=
| Fire
| Pause (now : Z) (reason : string)
| Resume (now : Z).

Definition perform (i : instance) (m : move) : instance :=
  match m with
  | Fire => tick i
  | Pause now reason => control_pause now reason i
  | Resume now => control_resume now i
  end.

(** The calls that hand the result over. *)
Definition reports (e : event) : bool :=
  match e with
  | Answer _ _ | DemoComplete => true
  | _ => false
  end.

Definition resumption (t : timer) : bool :=
  match action t with
  | ResumeAt _ => true
  | _ => false
  end.

(** The number line has shown nothing and reported nothing, and no timer
    of the demonstration is pending. *)
Definition idle (i : instance) : Prop :=
  numbers (props i) = None
  /\ forallb resumption (timers i) = true
  /\ existsb reports (log i) = false
  /\ steps (state i) = []
  /\ selectedNumber (state i) = None
  /\ isDemoComplete (state i) = false.

(** Neither [+] nor [-]. *)
Definition no_sign (c : ascii) : bool :=
  negb (Regex.one_of ["+"; "-"]%char c).

End DemoControl.

(** *** The number line in manual mode *)

Module ManualSpec.
Import JS ManualLine Spec.

(** The [operation] that goes with an operator. *)
Definition operation_of (o : operator) : string :=
  match o with Add => "addition" | Sub => "subtraction" end.

(** A number line in manual mode on ["a op b"]. *)
Definition manual_props (a b : N) (o : operator) (operation : string)
           (send : bool) : Props :=
  {| problem := problem_text a o b; operation := operation;
     sendIntermediateMessage := send |}.

(** The progress message when [remaining] steps are left. *)
Definition progress (o : operator) (remaining : Z) : string :=
  if 0 <? remaining then
    "Great! Now count " ++ match o with Add => "forward" | Sub => "backward" end
    ++ " " ++ showZ remaining ++ " more step" ++ plural remaining
  else "You did it! 🎉".

(** The message of the completion. *)
Definition excellent (a b : N) (o : operator) (num : Z) : string :=
  "✅ Excellent! You successfully solved " ++ showZ (Z.of_N a) ++ " "
  ++ op_text o ++ " " ++ showZ (Z.of_N b) ++ " = " ++ showZ num ++ "!".

(** The call of the message sink, when there is one. *)
Definition sent_if (send : bool) (m : string) : list event :=
  if send then [Sent (NumberLine.pin ++ m)] else [].

Definition is_answer (e : event) : bool :=
  match e with Answer _ _ => true | Sent _ => false end.

(** Nothing is selected, or the start [a] alone. *)
Definition at_most_started (a : N) (s : State) : Prop :=
  (selectedNumber s = None /\ steps s = [])
  \/ (selectedNumber s = Some (Z.of_N a) /\ steps s = [Z.of_N a]).

(** A pending validation of a safe integer clicked in a render that is
    at most started, or the timer that hides the feedback. *)
Definition harmless (a : N) (t : timer) : Prop :=
  match action t with
  | Validated snap num => at_most_started a snap /\ safe num
  | HideFeedback => True
  | _ => False
  end.

(** The number clicked is a safe integer. *)
Definition safe_click (m : move) : Prop :=
  match m with
  | Click _ num => safe num
  | _ => True
  end.

(** The number line is stuck at the start of the problem, whose first
    operand is a safe integer. *)
Definition stuck (a b : N) (o : operator) (i : instance) : Prop :=
  numbers (props i)
  = Some {| NumberLine.firstNumber := Z.of_N a;
            NumberLine.secondNumber := Z.of_N b;
            NumberLine.operator := op_text o |}
  /\ problem (props i) = problem_text a o b
  /\ operation (props i) <> operation_of o
  /\ at_most_started a (state i)
  /\ Forall (harmless a) (timers i)
  /\ existsb is_answer (log i) = false
  /\ safe (Z.of_N a).

End ManualSpec.
(* ===================================================================== *)
(** * Part II: properties                                                 *)
(* ===================================================================== *)

(** ** Strings, digits and the problem patterns *)

Module StringFacts.
Import JS.
Local Arguments String.append !_ _ / : simpl nomatch.

Lemma append_nil_r (s : string) : s ++ "" = s.
Proof. induction s as [|c s IH]; simpl; [done | by rewrite IH]. Qed.

Lemma append_assoc (s1 s2 s3 : string) : (s1 ++ s2) ++ s3 = s1 ++ (s2 ++ s3).
Proof. induction s1 as [|c s1 IH]; simpl; [done | by rewrite IH]. Qed.

Lemma digits_of_uint (d : Decimal.uint) :
  all_chars is_digit (NilEmpty.string_of_uint d) = true.
Proof. induction d; simpl; auto. Qed.

Lemma uint_text_nonempty (d : Decimal.uint) :
  d <> Decimal.Nil -> NilEmpty.string_of_uint d <> "".
Proof. destruct d; simpl; congruence. Qed.

Lemma to_uint_nonnil (n : N) : N.to_uint n <> Decimal.Nil.
Proof. destruct n; simpl; [discriminate | apply Unsigned.to_uint_nonnil]. Qed.

Lemma showN_unfold (n : N) : showN n = NilEmpty.string_of_uint (N.to_uint n).
Proof.
  unfold showN, NilZero.string_of_uint.
  pose proof (to_uint_nonnil n). destruct (N.to_uint n); congruence.
Qed.

Lemma showN_digits (n : N) : all_chars is_digit (showN n) = true.
Proof. rewrite showN_unfold. apply digits_of_uint. Qed.

Lemma showN_nonempty (n : N) : showN n <> "".
Proof. rewrite showN_unfold. apply uint_text_nonempty, to_uint_nonnil. Qed.

Lemma parse_digits_pos (d : Decimal.uint) (acc : positive) :
  parse_digits (NilEmpty.string_of_uint d) (Z.pos acc) = Z.pos (Pos.of_uint_acc d acc).
Proof.
  revert acc. induction d; intros acc; simpl; try done;
    rewrite <- IHd; f_equal; unfold digit_value; simpl; lia.
Qed.

Lemma parse_digits_zero (d : Decimal.uint) :
  parse_digits (NilEmpty.string_of_uint d) 0 = Z.of_N (Pos.of_uint d).
Proof.
  induction d; simpl; try done;
    match goal with
    | |- parse_digits _ ?z = _ =>
        let z' := eval vm_compute in z in change z with z'
    end; by rewrite parse_digits_pos.
Qed.

Lemma digits_value_showN (n : N) : digits_value (showN n) = Z.of_N n.
Proof.
  unfold digits_value. rewrite showN_unfold, parse_digits_zero.
  f_equal. apply DecimalN.Unsigned.of_to.
Qed.

Lemma prefix_spec w s : String.prefix w s = true <-> exists post, s = w ++ post.
Proof.
  revert s. induction w as [|c w IH]; intros s.
  - split; [intros _; by exists s | by destruct s].
  - destruct s as [|d s]; simpl.
    + split; [done | intros [? H]; discriminate].
    + destruct (ascii_dec c d) as [-> | Hne].
      * rewrite IH. split; intros [post H]; exists post; congruence.
      * split; [done | intros [post H]; congruence].
Qed.

Lemma substring_all s : substring 0 (String.length s) s = s.
Proof. induction s as [|c s IH]; simpl; [done | by rewrite IH]. Qed.

Lemma substring_skip w s n :
  substring (String.length w) n (w ++ s) = substring 0 n s.
Proof. induction w as [|c w IH]; simpl; [done | exact IH]. Qed.

Lemma length_append w s :
  String.length (w ++ s) = (String.length w + String.length s)%nat.
Proof. induction w as [|c w IH]; simpl; [done | by rewrite IH]. Qed.

Lemma remove_first_unfold w s :
  remove_first w s
  = if String.prefix w s
    then substring (String.length w) (String.length s - String.length w) s
    else match s with
         | EmptyString => EmptyString
         | String c r => String c (remove_first w r)
         end.
Proof. by destruct s. Qed.

(** Removing the first occurrence of a prefix removes that prefix. *)
Lemma remove_first_prefix w s : remove_first w (w ++ s) = s.
Proof.
  assert (String.prefix w (w ++ s) = true) as Hpre
      by (apply prefix_spec; by exists s).
  assert (substring (String.length w)
            (String.length (w ++ s) - String.length w) (w ++ s) = s) as Hsub.
  { rewrite substring_skip, length_append.
    replace (String.length w + String.length s - String.length w)%nat
      with (String.length s) by lia.
    apply substring_all. }
  by rewrite remove_first_unfold, Hpre.
Qed.

End StringFacts.

Module RegexFacts.
Import JS Regex StringFacts.
Local Arguments String.append !_ _ / : simpl nomatch.

Lemma repeat_class_greedy {R} p s1 s2 m (k : string -> string -> option R) r :
  all_chars p s1 = true -> stops p s2 ->
  k (m ++ s1) s2 = Some r ->
  repeat_class p (s1 ++ s2) m k = Some r.
Proof.
  revert m. induction s1 as [|c s1 IH]; intros m Hall Hstop Hk.
  - rewrite append_nil_r in Hk. simpl.
    destruct s2 as [|c r2]; simpl in *; [done | by rewrite Hstop].
  - simpl in Hall. apply andb_prop in Hall as [Hc Hall].
    simpl. rewrite Hc, (IH (m ++ String c "")); [done.. |].
    by rewrite append_assoc.
Qed.

Lemma match_here_once it rest c s caps :
  rep it = Once -> cls it c = true ->
  match_here (it :: rest) (String c s) caps
  = match_here rest s (keep it (String c "") caps).
Proof. intros Hrep Hc. simpl. by rewrite Hrep, Hc. Qed.

Lemma match_here_many0 it rest s1 s2 caps r :
  rep it = Many0 -> all_chars (cls it) s1 = true -> stops (cls it) s2 ->
  match_here rest s2 (keep it s1 caps) = Some r ->
  match_here (it :: rest) (s1 ++ s2) caps = Some r.
Proof.
  intros Hrep Hall Hstop Hk. simpl. rewrite Hrep.
  by apply repeat_class_greedy.
Qed.

Lemma match_here_many1 it rest s1 s2 caps r :
  rep it = Many1 -> s1 <> "" -> all_chars (cls it) s1 = true ->
  stops (cls it) s2 ->
  match_here rest s2 (keep it s1 caps) = Some r ->
  match_here (it :: rest) (s1 ++ s2) caps = Some r.
Proof.
  intros Hrep Hne Hall Hstop Hk. destruct s1 as [|c s1]; [done |].
  simpl in Hall. apply andb_prop in Hall as [Hc Hall].
  simpl. rewrite Hrep, Hc. by apply repeat_class_greedy.
Qed.

Lemma search_here its s caps :
  match_here its s [] = Some caps -> search its s = Some caps.
Proof. intros H. destruct s; simpl; by rewrite H. Qed.

Lemma digit_not_space c : is_digit c = true -> is_space c = false.
Proof.
  unfold is_digit, is_space. intros [H1 H2]%andb_prop.
  apply N.leb_le in H1, H2. simpl.
  repeat match goal with
         | |- context [N.eqb ?a ?b] =>
             destruct (N.eqb_spec a b); [lia |]
         end.
  done.
Qed.

Lemma stops_space_digits d s :
  d <> "" -> all_chars is_digit d = true -> stops is_space (d ++ s).
Proof.
  destruct d as [|c d]; [done |]. simpl. intros _ [Hc _]%andb_prop.
  by apply digit_not_space.
Qed.

(** A text made of two digit runs around an operator character, with
    optional white space on both sides of it, is matched from its first
    character and the captures are the two runs (and the operator when
    it is captured). *)
Lemma match_here_problem (it_op : item) d1 w1 oc w2 d2 :
  rep it_op = Once -> cls it_op oc = true ->
  is_digit oc = false -> is_space oc = false ->
  d1 <> "" -> all_chars is_digit d1 = true ->
  d2 <> "" -> all_chars is_digit d2 = true ->
  all_chars is_space w1 = true -> all_chars is_space w2 = true ->
  match_here
    [ Item is_digit Many1 true; Item is_space Many0 false; it_op;
      Item is_space Many0 false; Item is_digit Many1 true ]
    (d1 ++ w1 ++ String oc (w2 ++ d2)) []
  = Some (keep it_op (String oc "") [d1] ++ [d2])%list.
Proof.
  intros Hrep Hcls Hnd Hns Hd1 Hall1 Hd2 Hall2 Hw1 Hw2.
  rewrite <- (append_nil_r d2) at 1.
  apply match_here_many1; [done.. | |].
  { destruct w1 as [|c w1]; simpl; [done |].
    simpl in Hw1. apply andb_prop in Hw1 as [Hc _].
    destruct (is_digit c) eqn:E; [|done].
    apply digit_not_space in E. congruence. }
  apply match_here_many0; [done.. | simpl; done |].
  rewrite match_here_once by done.
  apply match_here_many0; [done.. | by apply stops_space_digits |].
  apply match_here_many1; [done.. | simpl; done |].
  simpl. unfold keep at 1 3 4 5. simpl. done.
Qed.

(** What a successful match tells about the text. *)

Lemma repeat_class_inv {R} p s m (k : string -> string -> option R) r :
  repeat_class p s m k = Some r -> exists m' s', k m' s' = Some r.
Proof.
  revert m. induction s as [|c s IH]; intros m; simpl; [by eauto |].
  destruct (p c); [| by eauto].
  destruct (repeat_class p s (m ++ String c "") k) eqn:E; [| by eauto].
  intros [= ->]. by apply IH in E.
Qed.

Lemma search_inv its s caps :
  search its s = Some caps -> exists s', match_here its s' [] = Some caps.
Proof.
  induction s as [|c s IH]; simpl.
  - destruct (match_here its "" []) eqn:E; [| done]. intros [= ->]. by eauto.
  - destruct (match_here its (String c s) []) eqn:E; [intros [= ->]; by eauto |].
    exact IH.
Qed.

(** The three captures of a problem pattern: the middle one is a single
    character of the operator class. *)
Lemma search_problem_operator (ops : list ascii) problem caps :
  search [ Item is_digit Many1 true; Item is_space Many0 false;
           Item (one_of ops) Once true;
           Item is_space Many0 false; Item is_digit Many1 true ] problem
  = Some caps ->
  exists m1 oc m3, caps = [m1; String oc ""; m3] /\ one_of ops oc = true.
Proof.
  intros (s & H)%search_inv.
  cbn [match_here rep cls] in H.
  destruct s as [|c s]; [done |]. destruct (is_digit c); [| done].
  apply repeat_class_inv in H as (m1 & s1 & H). unfold keep in H; cbn in H.
  apply repeat_class_inv in H as (w1 & s2 & H).
  destruct s2 as [|oc s2]; [done |]. destruct (one_of ops oc) eqn:Hoc; [| done].
  apply repeat_class_inv in H as (w2 & s3 & H).
  destruct s3 as [|d s3]; [done |]. destruct (is_digit d); [| done].
  apply repeat_class_inv in H as (m3 & s4 & [= <-]).
  by exists m1, oc, m3.
Qed.

End RegexFacts.

(** ** Numbers: integers up to 2^53 are exact *)

Module NumberFacts.
Import JS Spec StringFacts.

Lemma digits_log2 (p : positive) : Z.pos (digits2_pos p) = Z.log2 (Z.pos p) + 1.
Proof.
  induction p as [p IH | p IH |]; cbn [digits2_pos]; try reflexivity.
  - rewrite Pos2Z.inj_succ, IH. cbn [Z.log2]. destruct p; cbn; lia.
  - rewrite Pos2Z.inj_succ, IH. cbn [Z.log2]. destruct p; cbn; lia.
Qed.

Lemma digits_bounds (p : positive) :
  2 ^ (Z.pos (digits2_pos p) - 1) <= Z.pos p < 2 ^ Z.pos (digits2_pos p).
Proof.
  rewrite digits_log2.
  replace (Z.log2 (Z.pos p) + 1 - 1) with (Z.log2 (Z.pos p)) by lia.
  pose proof (Z.log2_spec (Z.pos p) ltac:(lia)) as H.
  replace (Z.log2 (Z.pos p) + 1) with (Z.succ (Z.log2 (Z.pos p))) by lia.
  exact H.
Qed.

Lemma digits_unique (p : positive) (d : Z) :
  2 ^ (d - 1) <= Z.pos p < 2 ^ d -> Z.pos (digits2_pos p) = d.
Proof.
  intros H. rewrite digits_log2.
  assert (0 < d) as Hd.
  { destruct (Z.ltb_spec 0 d) as [|Hle]; [done |].
    assert (2 ^ d <= 1) by (destruct (Z.eqb_spec d 0) as [-> | ?];
      [done | rewrite Z.pow_neg_r by lia; lia]). lia. }
  rewrite (Z.log2_unique (Z.pos p) (d - 1)); [lia | lia |].
  replace (Z.succ (d - 1)) with d by lia. exact H.
Qed.

Lemma digits_shift (p : positive) (n : Z) :
  0 <= n -> Z.pos (digits2_pos (Z.to_pos (Z.pos p * 2 ^ n))) = Z.pos (digits2_pos p) + n.
Proof.
  intros Hn. apply digits_unique.
  assert (0 < 2 ^ n) by (apply Z.pow_pos_nonneg; lia).
  rewrite Z2Pos.id by lia.
  pose proof (digits_bounds p) as [Hlo Hhi].
  replace (Z.pos (digits2_pos p) + n - 1) with (Z.pos (digits2_pos p) - 1 + n) by lia.
  rewrite !Z.pow_add_r by lia. nia.
Qed.

Lemma iter_xO (m d : positive) : Z.pos (Pos.iter xO m d) = Z.pos m * 2 ^ Z.pos d.
Proof.
  induction d as [|d IH] using Pos.peano_ind.
  - cbn [Pos.iter]. lia.
  - rewrite Pos.iter_succ, Pos2Z.inj_succ, Z.pow_succ_r by lia.
    rewrite Pos2Z.inj_xO, IH. lia.
Qed.

Lemma shr_exact (d m : positive) :
  SpecFloat.iter_pos shr_1 d
    {| shr_m := Z.pos (Pos.iter xO m d); shr_r := false; shr_s := false |}
  = {| shr_m := Z.pos m; shr_r := false; shr_s := false |}.
Proof.
  revert m. induction d as [d IH | d IH |]; intros m; cbn [SpecFloat.iter_pos Pos.iter].
  - cbn [shr_1 orb]. by rewrite !IH.
  - by rewrite !IH.
  - reflexivity.
Qed.

(** A mantissa of 53 bits with an exponent in range: the number it is. *)
Lemma round_aux_canonical s (m : positive) (e : Z) :
  Z.pos (digits2_pos m) = 53 -> -1074 <= e <= 971 ->
  binary_round_aux prec emax s (Z.pos m) e loc_Exact = S754_finite s m e.
Proof.
  intros Hd He. unfold binary_round_aux, shr_fexp, fexp, emin, prec, emax.
  cbn [Zdigits2 shr_record_of_loc]. rewrite Hd.
  replace (Z.max (53 + e - 53) (3 - 1024 - 53) - e) with 0 by lia.
  cbn [shr shr_m loc_of_shr_record round_nearest_even Zdigits2 shr_record_of_loc].
  rewrite Hd.
  replace (Z.max (53 + e - 53) (3 - 1024 - 53) - e) with 0 by lia.
  cbn [shr shr_m].
  destruct (Z.leb_spec e (1024 - 53)); [done | lia].
Qed.

Lemma round_aux_shifted s (m : positive) (e n : Z) :
  Z.pos (digits2_pos m) = 53 -> -1074 <= e <= 971 -> 0 <= n ->
  binary_round_aux prec emax s (Z.pos (Z.to_pos (Z.pos m * 2 ^ n))) (e - n) loc_Exact
  = S754_finite s m e.
Proof.
  intros Hd He Hn. destruct n as [|d|d]; [| | lia].
  - rewrite Z.mul_1_r, Z.sub_0_r. cbn [Z.to_pos]. by apply round_aux_canonical.
  - unfold binary_round_aux, shr_fexp, fexp, emin, prec, emax.
    cbn [Zdigits2 shr_record_of_loc].
    rewrite digits_shift, Hd by lia.
    replace (Z.max (53 + Z.pos d + (e - Z.pos d) - 53) (3 - 1024 - 53) - (e - Z.pos d))
      with (Z.pos d) by lia.
    cbn [shr]. rewrite <- iter_xO, Pos2Z.id, shr_exact.
    replace (e - Z.pos d + Z.pos d) with e by lia.
    cbn [shr_m loc_of_shr_record round_nearest_even Zdigits2 shr_record_of_loc].
    rewrite Hd.
    replace (Z.max (53 + e - 53) (3 - 1024 - 53) - e) with 0 by lia.
    cbn [shr shr_m].
    destruct (Z.leb_spec e (1024 - 53)); [done | lia].
Qed.


(** The mantissa [M] with exponent [E] has the value of the 53-bit
    mantissa [m] with exponent [e]: rounding it gives that number. *)
Lemma round_exact s (M : positive) (E : Z) (m : positive) (e lo : Z) :
  Z.pos (digits2_pos m) = 53 -> -1074 <= e <= 971 -> lo <= E -> lo <= e ->
  Z.pos M * 2 ^ (E - lo) = Z.pos m * 2 ^ (e - lo) ->
  binary_round prec emax s M E = S754_finite s m e.
Proof.
  intros Hd He HE Hlo Hval.
  assert (0 < 2 ^ (E - lo) /\ 0 < 2 ^ (e - lo)) as [HpE Hpe]
      by (split; apply Z.pow_pos_nonneg; lia).
  destruct (Z.le_gt_cases E e) as [Hle | Hgt].
  - assert (Z.pos M = Z.pos m * 2 ^ (e - E)) as HM.
    { replace (e - lo) with ((e - E) + (E - lo)) in Hval by lia.
      rewrite Z.pow_add_r in Hval by lia.
      apply (Z.mul_cancel_r _ _ (2 ^ (E - lo))); lia. }
    assert (M = Z.to_pos (Z.pos m * 2 ^ (e - E))) as -> by (rewrite <- HM; done).
    clear Hval HM. remember (e - E) as n eqn:Hn.
    assert (E = e - n) as -> by lia. assert (0 <= n) as Hn0 by lia.
    clear HE HpE Hle Hn.
    unfold binary_round.
    replace (fexp prec emax
               (Z.pos (digits2_pos (Z.to_pos (Z.pos m * 2 ^ n))) + (e - n))) with e
      by (rewrite digits_shift, Hd by lia; unfold fexp, emin, prec, emax; lia).
    unfold shl_align. replace (e - (e - n)) with n by lia.
    destruct n as [|d|d]; [| | lia]; by apply round_aux_shifted.
  - assert (Z.pos m = Z.pos M * 2 ^ (E - e)) as Hm.
    { replace (E - lo) with ((E - e) + (e - lo)) in Hval by lia.
      rewrite Z.pow_add_r in Hval by lia.
      apply (Z.mul_cancel_r _ _ (2 ^ (e - lo))); lia. }
    unfold binary_round.
    assert (Z.pos (digits2_pos M) + (E - e) = 53) as HdM.
    { rewrite <- Hd, <- digits_shift by lia. by rewrite <- Hm. }
    replace (fexp prec emax (Z.pos (digits2_pos M) + E)) with e
      by (unfold fexp, emin, prec, emax; lia).
    unfold shl_align. destruct (e - E) as [|d|d] eqn:Hsub; [lia | lia |].
    assert (Pos.iter xO M d = m) as ->.
    { apply Pos2Z.inj. rewrite iter_xO, Hm. f_equal. f_equal. lia. }
    by apply round_aux_canonical.
Qed.

(** The number of an integer up to 2^53: a 53-bit mantissa and an
    exponent, with the value of the integer. *)
Lemma round_integer (w : positive) :
  Z.pos w <= 2 ^ 53 ->
  exists m e,
    Z.pos (digits2_pos m) = 53 /\ -52 <= e <= 1
    /\ Z.pos m * 2 ^ (e + 52) = Z.pos w * 2 ^ 52
    /\ forall s, binary_round prec emax s w 0 = S754_finite s m e.
Proof.
  intros Hw. pose proof (digits_bounds w) as [Hlo Hhi].
  set (d := Z.pos (digits2_pos w)) in *.
  assert (1 <= d) as Hd1 by (subst d; lia).
  assert (d <= 54) as Hd54.
  { destruct (Z.le_gt_cases d 54) as [|Hgt]; [done |].
    assert (2 ^ 54 <= 2 ^ (d - 1)) by (apply Z.pow_le_mono_r; lia). lia. }
  destruct (Z.le_gt_cases d 53) as [Hle | Hgt].
  - assert (0 < 2 ^ (53 - d)) as Hp by (apply Z.pow_pos_nonneg; lia).
    exists (Z.to_pos (Z.pos w * 2 ^ (53 - d))), (d - 53).
    assert (Z.pos (digits2_pos (Z.to_pos (Z.pos w * 2 ^ (53 - d)))) = 53) as Hdm
        by (rewrite digits_shift by lia; subst d; lia).
    assert (Z.pos (Z.to_pos (Z.pos w * 2 ^ (53 - d))) * 2 ^ (d - 53 + 52)
            = Z.pos w * 2 ^ 52) as Hval.
    { rewrite Z2Pos.id by lia. rewrite <- Z.mul_assoc, <- Z.pow_add_r by lia.
      do 2 f_equal. lia. }
    split; [done |]. split; [lia |]. split; [done |].
    intros s. apply (round_exact s w 0 _ _ (-52)); try lia.
    replace (d - 53 - -52) with (d - 53 + 52) by lia. by rewrite Hval.
  - assert (d = 54) as Hd by lia. rewrite Hd in Hlo.
    assert (Z.pos w = 2 ^ 53) as Hw53 by (change (54 - 1) with 53 in Hlo; lia).
    exists (Z.to_pos (2 ^ 52)), 1.
    split; [reflexivity |]. split; [lia |].
    split; [rewrite Hw53; reflexivity |].
    intros s. apply (round_exact s w 0 _ _ (-52));
      first [lia | reflexivity | (rewrite Hw53; reflexivity)].
Qed.


(** The shape of the number of an integer up to 2^53. *)
Lemma of_Z_cases (z : Z) :
  Z.abs z <= 2 ^ 53 ->
  (z = 0 /\ of_Z z = S754_zero false)
  \/ (z <> 0
      /\ exists m e,
           of_Z z = S754_finite (z <? 0) m e
           /\ Z.pos (digits2_pos m) = 53 /\ -52 <= e <= 1
           /\ Z.pos m * 2 ^ (e + 52) = Z.abs z * 2 ^ 52).
Proof.
  intros Hz. destruct z as [|w|w]; [by left | right | right].
  - split; [done |]. destruct (round_integer w) as (m & e & ? & ? & ? & H); [done |].
    exists m, e. by rewrite <- H.
  - split; [done |]. destruct (round_integer w) as (m & e & ? & ? & ? & H); [done |].
    exists m, e. by rewrite <- H.
Qed.

Lemma shl_align_fst (m : positive) (e e' : Z) :
  e' <= e -> Z.pos (fst (shl_align m e e')) = Z.pos m * 2 ^ (e - e').
Proof.
  intros He. unfold shl_align. destruct (e' - e) as [|d|d] eqn:Hsub; [| lia |].
  - replace (e - e') with 0 by lia. cbn [fst]. lia.
  - cbn [fst]. rewrite iter_xO. do 2 f_equal. lia.
Qed.

Lemma cond_Zopp_sign (z : Z) : cond_Zopp (z <? 0) (Z.abs z) = z.
Proof. unfold cond_Zopp. destruct (Z.ltb_spec z 0); lia. Qed.

(** Sums of integers are exact up to 2^53. *)
Lemma add_exact (x y : Z) :
  Z.abs x <= 2 ^ 53 -> Z.abs y <= 2 ^ 53 -> Z.abs (x + y) <= 2 ^ 53 ->
  num_add (of_Z x) (of_Z y) = of_Z (x + y).
Proof.
  intros Hx Hy Hw.
  destruct (of_Z_cases x Hx) as [[-> Ex] | (Hx0 & mx & ex & Ex & Hdx & Hex & Hvx)];
    destruct (of_Z_cases y Hy) as [[-> Ey] | (Hy0 & my & ey & Ey & Hdy & Hey & Hvy)].
  - reflexivity.
  - by rewrite Z.add_0_l, Ex, Ey.
  - by rewrite Z.add_0_r, Ex, Ey.
  - rewrite Ex, Ey. unfold num_add, SFadd.
    set (ez := Z.min ex ey).
    set (S := cond_Zopp (x <? 0) (Z.pos (fst (shl_align mx ex ez)))
              + cond_Zopp (y <? 0) (Z.pos (fst (shl_align my ey ez)))).
    assert (0 < 2 ^ (ez + 52) /\ 0 < 2 ^ (ex - ez) /\ 0 < 2 ^ (ey - ez))
      as (Hpz & Hpx & Hpy) by (repeat split; apply Z.pow_pos_nonneg; lia).
    assert (S * 2 ^ (ez + 52) = (x + y) * 2 ^ 52) as HS.
    { subst S. rewrite !shl_align_fst by lia.
      rewrite Z.mul_add_distr_r, Z.mul_add_distr_r.
      rewrite <- (cond_Zopp_sign x) at 2. rewrite <- (cond_Zopp_sign y) at 2.
      replace (ex + 52) with ((ex - ez) + (ez + 52)) in Hvx by lia.
      replace (ey + 52) with ((ey - ez) + (ez + 52)) in Hvy by lia.
      rewrite Z.pow_add_r in Hvx, Hvy by lia.
      unfold cond_Zopp. destruct (x <? 0), (y <? 0); lia. }
    clearbody S.
    destruct (of_Z_cases (x + y) Hw)
      as [[Hw0 Ew] | (Hw0 & mw & ew & Ew & Hdw & Hew & Hvw)].
    + rewrite Hw0 in *. assert (S = 0) as -> by nia. reflexivity.
    + rewrite Ew. destruct S as [|P|P]; [nia | |]; cbn [binary_normalize].
      * assert (0 < x + y) by nia.
        replace (x + y <? 0) with false by (symmetry; apply Z.ltb_ge; lia).
        apply (round_exact _ _ _ _ _ (-52)); try lia.
        replace (ez - -52) with (ez + 52) by lia.
        replace (ew - -52) with (ew + 52) by lia. lia.
      * assert (x + y < 0) by nia.
        replace (x + y <? 0) with true by (symmetry; apply Z.ltb_lt; lia).
        apply (round_exact _ _ _ _ _ (-52)); try lia.
        replace (ez - -52) with (ez + 52) by lia.
        replace (ew - -52) with (ew + 52) by lia. lia.
Qed.

Lemma opp_exact (z : Z) :
  z <> 0 -> Z.abs z <= 2 ^ 53 -> num_opp (of_Z z) = of_Z (- z).
Proof.
  intros Hz Hb. destruct z as [|w|w]; [done | |];
    destruct (round_integer w) as (m & e & _ & _ & _ & H); try done;
    change (- Z.pos w) with (Z.neg w); change (- Z.neg w) with (Z.pos w);
    unfold of_Z, binary_normalize; by rewrite !H.
Qed.

Lemma sub_add_opp (x y : number) : num_sub x y = num_add x (num_opp y).
Proof.
  unfold num_sub, num_add, num_opp.
  destruct x as [sx | sx | | sx mx ex], y as [sy | sy | | sy my ey];
    try reflexivity; by destruct sx, sy.
Qed.

(** Differences of integers are exact up to 2^53. *)
Lemma sub_exact (x y : Z) :
  Z.abs x <= 2 ^ 53 -> Z.abs y <= 2 ^ 53 -> Z.abs (x - y) <= 2 ^ 53 ->
  num_sub (of_Z x) (of_Z y) = of_Z (x - y).
Proof.
  intros Hx Hy Hw. rewrite sub_add_opp.
  destruct (Z.eq_dec y 0) as [-> | Hy0].
  - rewrite Z.sub_0_r.
    destruct (of_Z_cases x Hx) as [[-> Ex] | (Hx0 & mx & ex & Ex & _)];
      [reflexivity | by rewrite Ex].
  - rewrite opp_exact by done. rewrite add_exact; [f_equal; lia | lia..].
Qed.


Lemma compare_finite (x y : Z) (mx my : positive) (ex ey : Z) :
  0 < x -> 0 < y ->
  Z.pos (digits2_pos mx) = 53 -> Z.pos (digits2_pos my) = 53 ->
  -52 <= ex -> -52 <= ey ->
  Z.pos mx * 2 ^ (ex + 52) = x * 2 ^ 52 ->
  Z.pos my * 2 ^ (ey + 52) = y * 2 ^ 52 ->
  match ex ?= ey with
  | Lt => Lt
  | Gt => Gt
  | Eq => Pos.compare_cont Eq mx my
  end = (x ?= y).
Proof.
  intros Hx Hy Hdx Hdy Hex Hey Hvx Hvy.
  pose proof (digits_bounds mx) as [Hlx Hhx].
  pose proof (digits_bounds my) as [Hly Hhy].
  rewrite Hdx in Hlx, Hhx. rewrite Hdy in Hly, Hhy.
  change (53 - 1) with 52 in *.
  assert (0 < 2 ^ 52) as H52 by done.
  assert (0 < 2 ^ (ex + 52) /\ 0 < 2 ^ (ey + 52)) as [Hpx Hpy]
      by (split; apply Z.pow_pos_nonneg; lia).
  assert (forall a b : Z, -52 <= a -> a < b ->
            2 * 2 ^ (a + 52) <= 2 ^ (b + 52)) as Hstep.
  { intros a b Ha Hab. rewrite <- Z.pow_succ_r by lia.
    apply Z.pow_le_mono_r; lia. }
  symmetry. destruct (Z.compare_spec ex ey) as [-> | Hlt | Hgt].
  - change (Pos.compare_cont Eq mx my) with (Z.pos mx ?= Z.pos my).
    destruct (Z.compare_spec (Z.pos mx) (Z.pos my)) as [E | E | E].
    + apply Z.compare_eq_iff. rewrite E in Hvx. nia.
    + apply Z.compare_lt_iff. nia.
    + apply Z.compare_gt_iff. nia.
  - apply Z.compare_lt_iff. pose proof (Hstep ex ey Hex Hlt).
    change (2 ^ 53) with (2 * 2 ^ 52) in *. nia.
  - apply Z.compare_gt_iff. pose proof (Hstep ey ex Hey ltac:(lia)).
    change (2 ^ 53) with (2 * 2 ^ 52) in *. nia.
Qed.

(** Integers up to 2^53 compare as the numbers they are. *)
Lemma compare_exact (x y : Z) :
  Z.abs x <= 2 ^ 53 -> Z.abs y <= 2 ^ 53 ->
  SFcompare (of_Z x) (of_Z y) = Some (x ?= y).
Proof.
  intros Hx Hy.
  destruct (of_Z_cases x Hx) as [[-> Ex] | (Hx0 & mx & ex & Ex & Hdx & Hex & Hvx)];
    destruct (of_Z_cases y Hy) as [[-> Ey] | (Hy0 & my & ey & Ey & Hdy & Hey & Hvy)];
    rewrite ?Ex, ?Ey; cbn [SFcompare].
  - reflexivity.
  - f_equal. destruct (Z.ltb_spec y 0); symmetry;
      [apply Z.compare_gt_iff | apply Z.compare_lt_iff]; lia.
  - f_equal. destruct (Z.ltb_spec x 0); symmetry;
      [apply Z.compare_lt_iff | apply Z.compare_gt_iff]; lia.
  - f_equal. destruct (Z.ltb_spec x 0), (Z.ltb_spec y 0).
    + assert (match ex ?= ey with
              | Lt => Lt
              | Gt => Gt
              | Eq => Pos.compare_cont Eq mx my
              end = (- x ?= - y)) as Hc
          by (apply compare_finite;
              first [lia | done | (rewrite Hvx; f_equal; lia)
                    | (rewrite Hvy; f_equal; lia)]).
      rewrite Z.compare_opp in Hc. rewrite (Z.compare_antisym y x), <- Hc.
      by destruct (ex ?= ey).
    + symmetry. apply Z.compare_lt_iff. lia.
    + symmetry. apply Z.compare_gt_iff. lia.
    + apply compare_finite;
        first [lia | done | (rewrite Hvx; f_equal; lia)
              | (rewrite Hvy; f_equal; lia)].
Qed.

Lemma eq_exact (x y : Z) :
  Z.abs x <= 2 ^ 53 -> Z.abs y <= 2 ^ 53 -> num_eq (of_Z x) (of_Z y) = (x =? y).
Proof.
  intros Hx Hy. unfold num_eq, SFeqb. rewrite compare_exact by done.
  destruct (Z.compare_spec x y), (Z.eqb_spec x y); done || lia.
Qed.

Lemma lt_exact (x y : Z) :
  Z.abs x <= 2 ^ 53 -> Z.abs y <= 2 ^ 53 -> num_lt (of_Z x) (of_Z y) = (x <? y).
Proof.
  intros Hx Hy. unfold num_lt, SFltb. rewrite compare_exact by done.
  unfold Z.ltb. by destruct (x ?= y).
Qed.

Lemma le_exact (x y : Z) :
  Z.abs x <= 2 ^ 53 -> Z.abs y <= 2 ^ 53 -> num_le (of_Z x) (of_Z y) = (x <=? y).
Proof.
  intros Hx Hy. unfold num_le, SFleb. rewrite compare_exact by done.
  unfold Z.leb. by destruct (x ?= y).
Qed.

(** Different integers up to 2^53 are different numbers. *)
Lemma of_Z_inj (x y : Z) :
  Z.abs x <= 2 ^ 53 -> Z.abs y <= 2 ^ 53 -> of_Z x = of_Z y -> x = y.
Proof.
  intros Hx Hy E. apply Z.eqb_eq. rewrite <- eq_exact, E by done.
  rewrite eq_exact by done. apply Z.eqb_refl.
Qed.


Lemma safe_abs (z : Z) : safe z -> Z.abs z <= 2 ^ 53.
Proof. unfold safe. lia. Qed.

Lemma add_opp_exact (x y : Z) :
  Z.abs x <= 2 ^ 53 -> Z.abs y <= 2 ^ 53 -> Z.abs (x - y) <= 2 ^ 53 ->
  num_add (of_Z x) (num_opp (of_Z y)) = of_Z (x - y).
Proof. intros. rewrite <- sub_add_opp. by apply sub_exact. Qed.

Lemma parseInt_showN (n : N) : parseInt (showN n) = of_Z (Z.of_N n).
Proof. unfold parseInt. by rewrite digits_value_showN. Qed.

(** The integer part of the number of a safe integer is that integer. *)
Lemma integer_part_of_Z (z : Z) : Z.abs z <= 2 ^ 53 -> integer_part (of_Z z) = z.
Proof.
  intros Hz.
  destruct (of_Z_cases z Hz) as [[-> E] | (Hz0 & m & e & E & Hd & He & Hv)];
    rewrite E; [done |]. cbn [integer_part].
  assert (Z.shiftl (Z.pos m) e = Z.abs z) as ->.
  { destruct (Z.le_gt_cases 0 e) as [H0 | H0].
    - rewrite Z.shiftl_mul_pow2 by done.
      rewrite Z.pow_add_r, Z.mul_assoc in Hv by lia.
      apply (Z.mul_cancel_r _ _ (2 ^ 52)); [done | exact Hv].
    - rewrite Z.shiftl_div_pow2 by lia.
      assert (0 < 2 ^ (- e)) by (apply Z.pow_pos_nonneg; lia).
      assert (Z.pos m = Z.abs z * 2 ^ (- e)) as ->.
      { apply (Z.mul_cancel_r _ _ (2 ^ (e + 52))).
        - apply Z.pow_nonzero; lia.
        - rewrite Hv, <- Z.mul_assoc, <- Z.pow_add_r by lia. do 2 f_equal. lia. }
      apply Z.div_mul. lia. }
  apply cond_Zopp_sign.
Qed.

Lemma decimal_of_Z (z : Z) : Z.abs z <= 2 ^ 53 -> decimal (of_Z z) = showZ z.
Proof. intros Hz. unfold decimal. by rewrite integer_part_of_Z. Qed.

End NumberFacts.

(** ** The sequential-step grader *)

Module StepGraderFacts.
Import JS Regex StringFacts RegexFacts NumberFacts ValidationActions Spec.

Lemma search_step_problem a o b :
  search step_problem (problem_text a o b)
  = Some [showN a; op_text o; showN b].
Proof.
  apply search_here. unfold problem_text.
  pose proof (match_here_problem
                (Item (one_of ["+"; "-"]%char) Once true)
                (showN a) " "
                (match o with Add => "+" | Sub => "-" end)%char
                " " (showN b)) as H.
  destruct o; apply H; auto using showN_nonempty, showN_digits.
Qed.

Lemma if_plus_op {A} o (x y : A) :
  if_plus (op_text o) x y = match o with Add => x | Sub => y end.
Proof. by destruct o. Qed.

Lemma last_map {A B} (f : A -> B) (l : list A) :
  last (map f l) = option_map f (last l).
Proof.
  induction l as [|x [|y l] IH]; [done | done |].
  change (last (f x :: map f (y :: l)) = option_map f (last (y :: l))).
  by rewrite <- IH.
Qed.

Lemma last_safe (steps : list Z) (l : Z) :
  Forall safe steps -> last steps = Some l -> safe l.
Proof.
  intros Hall Hlast. rewrite List.Forall_forall in Hall. apply Hall.
  clear Hall. induction steps as [|x [|y r] IH]; [done | |].
  - injection Hlast as <-. by left.
  - right. by apply IH.
Qed.

(** The neighbour of a safe integer, as the grader computes it. *)
Lemma expected_next (o : operator) (l : Z) :
  safe l ->
  num_add (of_Z l) (match o with Add => of_Z 1 | Sub => of_Z (-1) end)
  = of_Z (next_of o l).
Proof.
  unfold safe, next_of, apply_op. intros Hl.
  destruct o; rewrite add_exact; first [done | lia | (f_equal; lia)].
Qed.

Section Rendering.
Variable toString : number -> string.

(** The verdict of the grader on safe integers. *)
Lemma validateNumberLineStep_safe
      (a b : N) (o : operator) (operation : string) (steps : list Z) (p : Z) :
  safe_problem a b o -> safe_steps steps -> safe p ->
  let taken := Z.of_nat (length steps) in
  let remaining := Z.of_N b - taken in
  exists v,
    validateNumberLineStep toString (problem_text a o b) operation
      {| current_steps := map of_Z steps; proposed_step := of_Z p |} = Ok v
    /\ is_correct v
       = match last steps with
         | None => p =? Z.of_N a
         | Some l => p =? next_of o l
         end
    /\ result v = (if is_correct v then "correct" else "incorrect")
    /\ (last steps = None ->
        problem_completed v = None /\ final_answer v = None
        /\ remaining_steps v = None
        /\ (is_correct v = false -> mistake_type v = Some "wrong_starting_number"))
    /\ (last steps <> None -> is_correct v = true ->
        if remaining <=? 0
        then problem_completed v = Some true
             /\ final_answer v = Some (of_Z (apply_op o (Z.of_N a) (Z.of_N b)))
             /\ remaining_steps v = None
        else problem_completed v = None /\ final_answer v = None
             /\ remaining_steps v = Some (of_Z remaining)).
Proof.
  intros (Ha & Hb & Hab) [Hsteps Hlen] Hp taken remaining.
  unfold safe in Ha, Hb, Hab, Hlen, Hp.
  unfold validateNumberLineStep.
  rewrite search_step_problem, !parseInt_showN, !if_plus_op.
  cbn [current_steps proposed_step]. rewrite last_map, length_map.
  destruct (last steps) as [l|] eqn:Hlast; cbn [option_map].
  - pose proof (last_safe steps l Hsteps Hlast) as Hl.
    rewrite expected_next by done. unfold safe in Hl.
    assert (1 <= taken) as Htaken
        by (subst taken; destruct steps; [done | cbn [length]; lia]).
    fold taken in Hlen |- *.
    assert (Z.abs (next_of o l) <= 2 ^ 53) as Hnext
        by (destruct o; unfold next_of, apply_op; lia).
    rewrite eq_exact by lia.
    rewrite (sub_exact taken 1) by lia.
    rewrite (sub_exact (Z.of_N b) (taken - 1)) by lia.
    rewrite (sub_exact (Z.of_N b - (taken - 1)) 1) by lia.
    replace (Z.of_N b - (taken - 1) - 1) with remaining by (subst remaining; lia).
    rewrite le_exact by (subst remaining; lia).
    assert (num_add (of_Z (Z.of_N a))
              match o with
              | Add => of_Z (Z.of_N b)
              | Sub => num_opp (of_Z (Z.of_N b))
              end = of_Z (apply_op o (Z.of_N a) (Z.of_N b))) as ->.
    { destruct o; unfold apply_op in *;
        [apply add_exact | apply add_opp_exact]; lia. }
    destruct (p =? next_of o l).
    + destruct (remaining <=? 0); eexists; (split; [reflexivity |]); cbn;
        repeat split; done.
    + destruct (String.eqb (op_text o) "+" && _);
        [| destruct (String.eqb (op_text o) "+" && _)];
        eexists; (split; [reflexivity |]); cbn; repeat split; done.
  - rewrite eq_exact by lia.
    destruct (p =? Z.of_N a); eexists; (split; [reflexivity |]); cbn;
      repeat split; done.
Qed.

(** Claim C1, amended: on every problem text ["a op b"] and on safe
    integers (operands, result, steps and proposed step below 2^53 in
    absolute value) the grader accepts the first step iff it is [a]
    (otherwise it reports [wrong_starting_number]); after at least one
    step it accepts iff the proposed step is the neighbour of the last
    step in the direction of the operator; an accepted step taken after
    at least one step reports completion with [final_answer = a op b]
    once [current_steps] holds [b] entries or more, and
    [remaining_steps = b - length] before that; the accepted first step
    carries neither field. *)
Theorem validateNumberLineStep_progression
        (a b : N) (o : operator) (operation : string)
        (steps : list Z) (p : Z) :
  safe_problem a b o -> safe_steps steps -> safe p ->
  exists v,
    validateNumberLineStep toString (problem_text a o b) operation
      {| current_steps := map of_Z steps; proposed_step := of_Z p |} = Ok v
    /\ (steps = [] ->
        (is_correct v = true <-> p = Z.of_N a)
        /\ (p = Z.of_N a ->
            result v = "correct"
            /\ problem_completed v = None /\ final_answer v = None
            /\ remaining_steps v = None)
        /\ (p <> Z.of_N a ->
            result v = "incorrect"
            /\ mistake_type v = Some "wrong_starting_number"))
    /\ (forall l, last steps = Some l ->
        (is_correct v = true <-> p = next_of o l)
        /\ (is_correct v = true ->
            Z.of_N b <= Z.of_nat (length steps) ->
            result v = "correct"
            /\ problem_completed v = Some true
            /\ final_answer v
               = Some (of_Z (apply_op o (Z.of_N a) (Z.of_N b))))
        /\ (is_correct v = true ->
            Z.of_nat (length steps) < Z.of_N b ->
            result v = "correct"
            /\ remaining_steps v
               = Some (of_Z (Z.of_N b - Z.of_nat (length steps))))).
Proof.
  intros Hab Hsteps Hp.
  destruct (validateNumberLineStep_safe a b o operation steps p Hab Hsteps Hp)
    as (v & Hv & Hc & Hr & Hfirst & Hnext).
  exists v. split; [exact Hv |]. split.
  - intros ->. cbn [last] in Hc, Hfirst.
    destruct (Hfirst eq_refl) as (Hcomp & Hfin & Hrem & Hwrong).
    rewrite Hr, Hc. destruct (Z.eqb_spec p (Z.of_N a)) as [E | E].
    + repeat split; done.
    + repeat split; try done. by apply Hwrong.
  - intros l Hlast. rewrite Hlast in Hc.
    assert (last steps <> None) as Hsome by (by rewrite Hlast).
    specialize (Hnext Hsome). rewrite Hr, Hc in *.
    destruct (Z.eqb_spec p (next_of o l)) as [E | E].
    + specialize (Hnext eq_refl).
      destruct (Z.leb_spec (Z.of_N b - Z.of_nat (length steps)) 0);
        destruct Hnext as (? & ? & ?); repeat split; try done; lia.
    + repeat split; done.
Qed.

(** Claim C6: after at least one step, a proposed step that differs from
    the expected next number is classified as [skipping_numbers] under
    [+] when it lies beyond the expected number, otherwise as
    [wrong_direction] under [+] when it lies before the last step, and
    as [incorrect_sequence] in every other case, in particular for every
    wrong step under [-]; each time the hint names the expected next
    number.  The comparisons are those of the code, on numbers; on safe
    integers they are the comparisons of the integers, the expected next
    number is the neighbour of the last step, and a step before the last
    one is never beyond the expected one. *)
Theorem validateNumberLineStep_mistakes
        (problem operation : string) (steps : list number) (p : number)
        (m1 operator m3 : string) (l : number) :
  search step_problem problem = Some [m1; operator; m3] ->
  last steps = Some l ->
  let expectedNext :=
    num_add l (if String.eqb operator "+" then of_Z 1 else of_Z (-1)) in
  num_eq p expectedNext = false ->
  exists v,
    validateNumberLineStep toString problem operation
      {| current_steps := steps; proposed_step := p |} = Ok v
    /\ result v = "incorrect" /\ is_correct v = false
    /\ (operator = "+" -> num_lt expectedNext p = true ->
        mistake_type v = Some "skipping_numbers"
        /\ hint v = "Try clicking on " ++ toString expectedNext
                    ++ " instead of " ++ toString p ++ ".")
    /\ (operator = "+" -> num_lt expectedNext p = false ->
        num_lt p l = true ->
        mistake_type v = Some "wrong_direction"
        /\ hint v = "Click on " ++ toString expectedNext
                    ++ " to continue counting forward.")
    /\ (~ (operator = "+" /\ num_lt expectedNext p = true) ->
        ~ (operator = "+" /\ num_lt p l = true) ->
        mistake_type v = Some "incorrect_sequence"
        /\ hint v = "Click on " ++ toString expectedNext ++ " to continue.")
    /\ (operator <> "+" ->
        mistake_type v = Some "incorrect_sequence"
        /\ hint v = "Click on " ++ toString expectedNext ++ " to continue.")
    /\ (forall y z : Z,
          safe y -> safe z -> l = of_Z y -> p = of_Z z ->
          let next := if String.eqb operator "+" then y + 1 else y - 1 in
          expectedNext = of_Z next /\ z <> next
          /\ (operator = "+" -> next < z ->
              mistake_type v = Some "skipping_numbers")
          /\ (operator = "+" -> z < y ->
              mistake_type v = Some "wrong_direction")
          /\ (~ (operator = "+" /\ next < z) -> ~ (operator = "+" /\ z < y) ->
              mistake_type v = Some "incorrect_sequence")).
Proof.
  intros Hparse Hlast expectedNext Hp.
  unfold validateNumberLineStep. rewrite Hparse.
  cbn [current_steps proposed_step]. rewrite Hlast.
  unfold if_plus. fold expectedNext. rewrite Hp.
  assert (forall y z : Z,
            safe y -> safe z -> l = of_Z y -> p = of_Z z ->
            let next := if String.eqb operator "+" then y + 1 else y - 1 in
            expectedNext = of_Z next /\ z <> next
            /\ num_lt expectedNext p = (next <? z)
            /\ num_lt p l = (z <? y)) as Hsafe.
  { intros y z Hy Hz -> -> next. unfold safe in Hy, Hz.
    assert (expectedNext = of_Z next) as E.
    { subst expectedNext next. destruct (String.eqb operator "+");
        rewrite add_exact; first [done | lia | (f_equal; lia)]. }
    assert (Z.abs next <= 2 ^ 53) as Hn
        by (subst next; destruct (String.eqb operator "+"); lia).
    split; [exact E |]. rewrite E in Hp |- *.
    rewrite eq_exact in Hp by lia. rewrite !lt_exact by lia.
    split; [by apply Z.eqb_neq |]. done. }
  destruct (String.eqb_spec operator "+") as [Hop | Hop].
  - rewrite !andb_true_l.
    destruct (num_lt expectedNext p) eqn:Hgt;
      [| destruct (num_lt p l) eqn:Hlt];
      eexists; (split; [reflexivity |]); cbn;
      (split; [done |]); (split; [done |]);
      do 4 (split; [intros; first [done | (exfalso; eauto)] |]);
      intros y z Hy Hz El Ep;
      destruct (Hsafe y z Hy Hz El Ep) as (E & Hne & Hgt' & Hlt');
      rewrite ?Hgt in Hgt'; rewrite ?Hlt in Hlt';
      (split; [exact E |]); (split; [exact Hne |]);
      repeat split; intros;
      first [ done
            | destruct (Z.ltb_spec (y + 1) z), (Z.ltb_spec z y);
              first [done | lia | (exfalso; eauto)] ].
  - rewrite !andb_false_l.
    eexists; (split; [reflexivity |]); cbn.
    (split; [done |]); (split; [done |]).
    do 4 (split; [intros; first [done | (exfalso; eauto)] |]).
    intros y z Hy Hz El Ep.
    destruct (Hsafe y z Hy Hz El Ep) as (E & Hne & _).
    (split; [exact E |]); (split; [exact Hne |]).
    repeat split; intros; first [done | tauto].
Qed.

(** Beyond the safe integers the arithmetic of the grader rounds: after
    the step 2^53 under [+], the step 2^53 is accepted again. *)
Example step_after_two_to_the_53 :
  exists v,
    validateNumberLineStep toString "5 + 3" "addition"
      {| current_steps := [of_Z (2 ^ 53)]; proposed_step := of_Z (2 ^ 53) |}
    = Ok v
    /\ is_correct v = true.
Proof.
  unfold validateNumberLineStep.
  change (search step_problem "5 + 3") with (Some ["5"; "+"; "3"]).
  cbn [current_steps proposed_step last if_plus String.eqb Ascii.eqb Bool.eqb].
  change (num_eq (of_Z (2 ^ 53)) (num_add (of_Z (2 ^ 53)) (of_Z 1))) with true.
  cbv iota.
  destruct (num_le _ _); eexists; (split; [reflexivity | done]).
Qed.

End Rendering.

(** Claim C1, as written, fails on the code: the first accepted step of
    ["5 + 3"] is taken with no prior step, hence before the last one,
    yet the object returned for it has no [remaining_steps] field. *)
Lemma step_progression_as_written_fails : ~ step_progression_as_written.
Proof.
  intros H.
  destruct (H decimal 5%N 3%N Add "addition" [] 5)
    as (v & Hv & _ & _ & _ & Hrem).
  - repeat split; reflexivity.
  - split; [constructor | reflexivity].
  - reflexivity.
  - unfold validateNumberLineStep in Hv.
    rewrite (search_step_problem 5 Add 3) in Hv.
    cbn [map current_steps proposed_step last] in Hv.
    change (num_eq (of_Z 5) (parseInt (showN 5))) with true in Hv.
    injection Hv as <-.
    destruct Hrem as [_ Hrem]; [done | done |]. discriminate Hrem.
Qed.

Lemma validateNumberLineStep_progression_witness :
  exists v,
    validateNumberLineStep decimal "5 + 3" "addition"
      {| current_steps := [of_Z 5]; proposed_step := of_Z 6 |} = Ok v
    /\ is_correct v = true /\ remaining_steps v = Some (of_Z 2).
Proof.
  destruct (validateNumberLineStep_progression decimal 5 3 Add "addition" [5] 6)
    as (v & Hv & _ & Hnext).
  - repeat split; reflexivity.
  - split; [repeat constructor | reflexivity].
  - reflexivity.
  - exists v. split; [exact Hv |].
    destruct (Hnext 5 eq_refl) as (Hiff & _ & Hrem).
    assert (is_correct v = true) as Hc by (by apply Hiff).
    split; [exact Hc |]. by apply Hrem.
Defined.

(** The scenarios of the specification: the second step of ["5 + 3"], and
    the first step of ["5 - 3"]. *)
Example step_scenarios :
  (exists v,
      validateNumberLineStep decimal "5 + 3" "addition"
        {| current_steps := [of_Z 5]; proposed_step := of_Z 6 |} = Ok v
      /\ result v = "correct" /\ remaining_steps v = Some (of_Z 2)
      /\ feedback v = "Great! Keep going - 2 more steps.")
  /\ (exists v,
        validateNumberLineStep decimal "5 - 3" "subtraction"
          {| current_steps := []; proposed_step := of_Z 5 |} = Ok v
        /\ result v = "correct").
Proof. split; eexists; (split; [vm_compute; reflexivity | done]). Qed.

Lemma validateNumberLineStep_mistakes_witness :
  exists v,
    validateNumberLineStep decimal "5 + 3" "addition"
      {| current_steps := [of_Z 5; of_Z 6]; proposed_step := of_Z 9 |} = Ok v
    /\ mistake_type v = Some "skipping_numbers"
    /\ hint v = "Try clicking on 7 instead of 9.".
Proof.
  destruct (validateNumberLineStep_mistakes decimal
              "5 + 3" "addition" [of_Z 5; of_Z 6] (of_Z 9) "5" "+" "3" (of_Z 6))
    as (v & Hv & _ & _ & Hskip & _);
    [reflexivity | reflexivity | reflexivity |].
  exists v. split; [exact Hv |]. apply Hskip; reflexivity.
Defined.

End StepGraderFacts.

(** ** The sliding-window limiter *)

Module RateLimiterFacts.
Import FrontendRateLimiter Spec.
Local Open Scope list_scope.

Lemma clean_length now calls : (length (clean now calls) <= length calls)%nat.
Proof. apply List.filter_length_le. Qed.

Lemma clean_full now calls :
  length (clean now calls) = length calls -> clean now calls = calls.
Proof.
  unfold clean. induction calls as [|t calls IH]; simpl; [done |].
  pose proof (List.filter_length_le (fun timestamp => now - timestamp <? WINDOW_MS) calls).
  destruct (now - t <? WINDOW_MS); simpl; intros Hlen; [| lia].
  f_equal. apply IH. lia.
Qed.

Lemma clean_idemp now calls : clean now (clean now calls) = clean now calls.
Proof.
  unfold clean. induction calls as [|t calls IH]; simpl; [done |].
  destruct (now - t <? WINDOW_MS) eqn:E; simpl; [by rewrite E, IH | done].
Qed.

Lemma reachable_bounded calls : reachable calls -> (length calls <= MAX_CALLS)%nat.
Proof.
  induction 1 as [| now calls _ IH | now calls _ IH]; simpl.
  - unfold MAX_CALLS. lia.
  - unfold isAllowed.
    destruct (Nat.leb_spec MAX_CALLS (length (clean now calls))); simpl.
    + pose proof (clean_length now calls). lia.
    + rewrite length_app. simpl. lia.
  - pose proof (clean_length now calls). lia.
Qed.

(** Claim C5, as written, fails on the code: asking for the quota thirty
    seconds after the only admission drops that admission from [calls]. *)
Lemma remaining_pure_as_written_fails : ~ remaining_pure_as_written.
Proof.
  intros H.
  specialize (H 30000 [0] (reach_isAllowed 0 [] reach_init)).
  vm_compute in H. discriminate H.
Qed.

(** Claim C5, amended: a call is admitted iff fewer than 5 recorded
    admissions lie within the trailing 30000 ms, stale timestamps being
    dropped first, and an admitted call is recorded; a rejected call
    leaves the recorded timestamps unchanged; six calls made within one
    window, starting from no record, are answered yes five times and then
    no, and a later call made once the window of the first admission has
    elapsed is admitted again; [getRemainingCalls] reports
    [max 0 (5 - live)] and records nothing, its only effect on [calls]
    being the removal of the stale timestamps. *)
Theorem rate_limiter_window :
  (forall now calls, reachable calls ->
     let live := clean now calls in
     (fst (isAllowed now calls) = true <-> (length live < 5)%nat)
     /\ (fst (isAllowed now calls) = true ->
         snd (isAllowed now calls) = live ++ [now])
     /\ (fst (isAllowed now calls) = false ->
         snd (isAllowed now calls) = calls)
     /\ fst (getRemainingCalls now calls)
        = Z.max 0 (5 - Z.of_nat (length live))
     /\ snd (getRemainingCalls now calls) = live
     /\ (live = calls -> snd (getRemainingCalls now calls) = calls))
  /\ (forall t1 t2 t3 t4 t5 t6,
        t1 <= t2 <= t3 -> t3 <= t4 <= t5 -> t5 <= t6 < t1 + 30000 ->
        answers [t1; t2; t3; t4; t5; t6] []
        = [true; true; true; true; true; false]
        /\ forall t7, t6 <= t7 -> t1 + 30000 <= t7 ->
             answers [t1; t2; t3; t4; t5; t6; t7] []
             = [true; true; true; true; true; false; true]).
Proof.
  split.
  - intros now calls Hreach live.
    pose proof (reachable_bounded calls Hreach) as Hlen.
    pose proof (clean_length now calls) as Hcl.
    unfold isAllowed, getRemainingCalls, MAX_CALLS in *. fold live.
    destruct (Nat.leb_spec 5 (length live)) as [Hfull | Hfree]; simpl.
    + repeat split; try done; try lia.
      intros _. apply clean_full. unfold live in *. lia.
    + repeat split; try done; lia.
  - intros t1 t2 t3 t4 t5 t6 H12 H34 H56.
    assert (forall now t, t1 <= t -> t <= now -> now < t1 + 30000 ->
              (now - t <? WINDOW_MS) = true) as Hlive
        by (intros; apply Z.ltb_lt; unfold WINDOW_MS; lia).
    split.
    + unfold answers, isAllowed, clean, MAX_CALLS. simpl.
      repeat (rewrite ?Hlive by lia; simpl). done.
    + intros t7 H67 H17.
      assert ((t7 - t1 <? WINDOW_MS) = false) as Hstale
          by (apply Z.ltb_ge; unfold WINDOW_MS; lia).
      unfold answers, isAllowed, clean, MAX_CALLS. simpl.
      repeat (rewrite ?Hlive by lia; simpl).
      rewrite Hstale. simpl.
      destruct (t7 - t2 <? WINDOW_MS), (t7 - t3 <? WINDOW_MS),
        (t7 - t4 <? WINDOW_MS), (t7 - t5 <? WINDOW_MS); done.
Qed.

Lemma rate_limiter_window_witness :
  answers [0; 0; 0; 0; 0; 0; 30000] []
  = [true; true; true; true; true; false; true].
Proof.
  destruct rate_limiter_window as [_ H].
  destruct (H 0 0 0 0 0 0) as [_ H7]; [lia.. |].
  apply (H7 30000); lia.
Defined.

End RateLimiterFacts.

(** ** The interruption classifier *)

Module ClassifierFacts.
Import JS StringFacts DemoInterruptionManager Spec.
Local Arguments String.append !_ _ / : simpl nomatch.

Lemma includes_spec s w : includes s w = true <-> contains s w.
Proof.
  unfold contains. induction s as [|c s IH].
  - change (includes "" w) with (String.prefix w "" || false).
    rewrite orb_false_r, prefix_spec. split.
    + intros [post H]. by exists "", post.
    + intros (pre & post & H). destruct pre; [by exists post |].
      simpl in H. discriminate.
  - change (includes (String c s) w)
      with (String.prefix w (String c s) || includes s w).
    rewrite orb_true_iff, prefix_spec, IH. split.
    + intros [[post H] | (pre & post & H)].
      * by exists "", post.
      * exists (String c pre), post. simpl. by rewrite H.
    + intros (pre & post & H). destruct pre as [|d pre].
      * left. by exists post.
      * right. exists pre, post. simpl in H. congruence.
Qed.

Lemma contains_app_l s w pre : contains s w -> contains (pre ++ s) w.
Proof.
  intros (a & b & ->). exists (pre ++ a), b. by rewrite append_assoc.
Qed.


Lemma toLowerCase_app s t : toLowerCase (s ++ t) = toLowerCase s ++ toLowerCase t.
Proof. induction s as [|c s IH]; simpl; [done | by rewrite IH]. Qed.

Lemma lower_char_idemp c : lower_char (lower_char c) = lower_char c.
Proof. destruct c as [[] [] [] [] [] [] [] []]; reflexivity. Qed.

Lemma toLowerCase_idemp s : toLowerCase (toLowerCase s) = toLowerCase s.
Proof.
  induction s as [|c s IH]; simpl; [done | by rewrite lower_char_idemp, IH].
Qed.

Lemma trimStart_keeps pre w post :
  w <> "" -> trimStart w = w ->
  exists pre', trimStart (pre ++ w ++ post) = pre' ++ w ++ post.
Proof.
  intros Hne Hw. induction pre as [|c pre IH]; simpl.
  - exists "". simpl. destruct w as [|c w]; [done |]. simpl in *.
    destruct (is_space c) eqn:E; [| done].
    exfalso. clear -Hw. assert (String.length (trimStart w) <= String.length w)%nat as Hlen.
    { clear. induction w as [|d w IH]; simpl; [lia |]. destruct (is_space d); simpl; lia. }
    rewrite Hw in Hlen. simpl in Hlen. lia.
  - destruct (is_space c); [exact IH | by exists (String c pre)].
Qed.

Lemma trimEnd_cons_nonempty c r :
  trimEnd r <> "" -> trimEnd (String c r) = String c (trimEnd r).
Proof. simpl. by destruct (trimEnd r). Qed.

Lemma trimEnd_solid w post :
  w <> "" -> trimEnd w = w -> trimEnd (w ++ post) = w ++ trimEnd post.
Proof.
  induction w as [|c w IH]; [done |]. intros _ Hw.
  destruct w as [|d w].
  - simpl in *. destruct (is_space c); [done |]. by destruct (trimEnd post).
  - assert (trimEnd (String d w) = String d w) as Hdw.
    { change (trimEnd (String c (String d w)))
        with (match trimEnd (String d w) with
              | "" => if is_space c then "" else String c ""
              | r' => String c r'
              end) in Hw.
      destruct (trimEnd (String d w)); [| congruence].
      destruct (is_space c); discriminate. }
    change (String c (String d w) ++ post) with (String c (String d w ++ post)).
    rewrite trimEnd_cons_nonempty; rewrite IH; try done.
  Qed.

Lemma trimEnd_keeps pre w post :
  w <> "" -> trimEnd w = w ->
  exists post', trimEnd (pre ++ w ++ post) = pre ++ w ++ post'.
Proof.
  intros Hne Hw. exists (trimEnd post). induction pre as [|c pre IH].
  - change ("" ++ w ++ post) with (w ++ post).
    change ("" ++ w ++ trimEnd post) with (w ++ trimEnd post).
    by apply trimEnd_solid.
  - change (String c pre ++ w ++ post) with (String c (pre ++ w ++ post)).
    rewrite trimEnd_cons_nonempty; rewrite IH; [reflexivity |].
    destruct pre, w; simpl; congruence.
Qed.

Lemma plain_word_spec w :
  plain_word w = true ->
  w <> "" /\ toLowerCase w = w /\ trimStart w = w /\ trimEnd w = w.
Proof.
  unfold plain_word. rewrite !andb_true_iff, negb_true_iff, !String.eqb_eq.
  intros [[[Hne ?] ?] ?]. repeat split; try done.
  intros ->. discriminate.
Qed.

(** A plain word that occurs in a message still occurs in its trimmed
    lower-case content. *)
Lemma contains_content message w :
  plain_word w = true -> contains message w ->
  contains (trim (toLowerCase message)) w.
Proof.
  intros (Hne & Hlow & Hts & Hte)%plain_word_spec (pre & post & ->).
  rewrite !toLowerCase_app, Hlow. unfold trim.
  destruct (trimStart_keeps (toLowerCase pre) w (toLowerCase post) Hne Hts)
    as [pre' ->].
  destruct (trimEnd_keeps pre' w (toLowerCase post) Hne Hte) as [post' ->].
  by exists pre', post'.
Qed.













End ClassifierFacts.

(** ** The final-answer grader *)

Module PracticeGraderFacts.
Import JS Regex StringFacts RegexFacts ValidationActions Spec.

Section WithRendering.
Variable toString : number -> string.

Lemma blank_test input :
  String.eqb input "" || String.eqb (trim input) "" = true <-> blank input.
Proof. unfold blank. by rewrite orb_true_iff, !String.eqb_eq. Qed.

Lemma blank_test_false input :
  ~ blank input -> String.eqb input "" || String.eqb (trim input) "" = false.
Proof. rewrite <- blank_test. by destruct (_ || _). Qed.

Lemma practice_operator problem m1 op m3 :
  search practice_problem problem = Some [m1; op; m3] ->
  op = "+" \/ op = "-" \/ op = "*" \/ op = "/".
Proof.
  intros (m1' & oc & m3' & [= _ -> _] & Hoc)%search_problem_operator.
  unfold one_of in Hoc. simpl in Hoc.
  rewrite !orb_true_iff, !Ascii.eqb_eq in Hoc.
  destruct Hoc as [-> | [-> | [-> | [-> | ?]]]]; auto; done.
Qed.

Lemma nan_not_close c : num_lt (num_abs (num_sub NaN c)) num_0_01 = false.
Proof. by destruct c. Qed.

Lemma nan_not_equal x : num_eq NaN x = false.
Proof. by destruct x. Qed.

(** The grader answers every non-blank input on a parseable problem:
    the three possible objects, by the tests of the code. *)
Lemma validatePracticeStep_cases problem operation input step m1 op m3 :
  search practice_problem problem = Some [m1; op; m3] ->
  ~ blank input ->
  let u := parseFloat (trim input) in
  let x := parseFloat m1 in
  let y := parseFloat m3 in
  let c := computed_result op x y in
  exists v,
    validatePracticeStep toString problem operation
      {| user_input := input; step_number := step |} = Ok v
    /\ if num_lt (num_abs (num_sub u c)) num_0_01 then
         result v = "correct" /\ is_correct v = true
         /\ guidance_level v = "celebration" /\ correct_answer v = Some c
       else if String.eqb op "+" && (num_eq u x || num_eq u y) then
         result v = "incorrect" /\ is_correct v = false
         /\ mistake_type v = Some "not_adding" /\ correct_answer v = None
       else
         result v = "incorrect" /\ is_correct v = false
         /\ mistake_type v = Some "incorrect_calculation"
         /\ correct_answer v = Some c
         /\ guidance_level v = (if step =? 1 then "gentle" else "specific").
Proof.
  intros Hparse Hblank u x y c.
  unfold validatePracticeStep. cbn [user_input step_number].
  rewrite (blank_test_false _ Hblank), Hparse. unfold call_parseFloat.
  fold u x y.
  assert ((if String.eqb op "+" then Ok (num_add x y)
           else if String.eqb op "-" then Ok (num_sub x y)
           else if String.eqb op "*" then Ok (num_mul x y)
           else if String.eqb op "/" then Ok (num_div x y)
           else Throw ("Unknown operator: " ++ op)) = Ok c) as ->.
  { subst c. unfold computed_result.
    destruct (practice_operator _ _ _ _ Hparse) as [-> | [-> | [-> | ->]]];
      reflexivity. }
  destruct (num_lt (num_abs (num_sub u c)) num_0_01);
    [| destruct (String.eqb op "+" && (num_eq u x || num_eq u y))];
    eexists; (split; [reflexivity |]); cbn; done.
Qed.

(** Claim C4, against the code.  A blank answer gets [needs_guidance], as
    the claim says.  An answer that is not a number does not get
    [invalid_input]: [parseFloat] yields [NaN] where the code expects an
    exception, the answer is then graded like a wrong number and the
    object returned has mistake type [incorrect_calculation]; no input at
    all reaches the [invalid_input] object. *)
Theorem validatePracticeStep_unparseable_input :
  (forall problem operation input step,
      blank input ->
      exists v,
        validatePracticeStep toString problem operation
          {| user_input := input; step_number := step |} = Ok v
        /\ result v = "needs_guidance" /\ is_correct v = false)
  /\ (forall problem operation input step m1 op m3,
        search practice_problem problem = Some [m1; op; m3] ->
        ~ blank input -> parseFloat (trim input) = NaN ->
        exists v,
          validatePracticeStep toString problem operation
            {| user_input := input; step_number := step |} = Ok v
          /\ result v = "incorrect"
          /\ mistake_type v = Some "incorrect_calculation")
  /\ (exists v,
        validatePracticeStep toString "5 + 3" "addition"
          {| user_input := "abc"; step_number := 1 |} = Ok v
        /\ result v = "incorrect"
        /\ mistake_type v = Some "incorrect_calculation")
  /\ (forall problem operation data v,
        validatePracticeStep toString problem operation data = Ok v ->
        mistake_type v <> Some "invalid_input").
Proof.
  assert (forall problem operation input step m1 op m3,
        search practice_problem problem = Some [m1; op; m3] ->
        ~ blank input -> parseFloat (trim input) = NaN ->
        exists v,
          validatePracticeStep toString problem operation
            {| user_input := input; step_number := step |} = Ok v
          /\ result v = "incorrect"
          /\ mistake_type v = Some "incorrect_calculation") as Hnan.
  { intros problem operation input step m1 op m3 Hparse Hblank Hnan.
    destruct (validatePracticeStep_cases problem operation input step
                m1 op m3 Hparse Hblank) as (v & Hv & Hcases).
    rewrite Hnan, nan_not_close, !nan_not_equal, andb_false_r in Hcases.
    exists v. tauto. }
  split; [| split; [exact Hnan | split]].
  - intros problem operation input step Hblank%blank_test.
    unfold validatePracticeStep. cbn [user_input step_number].
    rewrite Hblank. eexists. split; [reflexivity | done].
  - apply (Hnan _ _ _ _ "5" "+" "3"); [reflexivity | | reflexivity].
    intros [H | H]; discriminate H.
  - intros problem operation [input step] v.
    unfold validatePracticeStep, call_parseFloat. cbn [user_input step_number].
    destruct (String.eqb input "" || String.eqb (trim input) "");
      [by intros [= <-] |].
    destruct (search practice_problem problem) as [[|m1 [|op [|m3 [|? ?]]]] |];
      try done.
    destruct (String.eqb op "+"), (String.eqb op "-"), (String.eqb op "*"),
      (String.eqb op "/"); try done;
      repeat match goal with
             | |- context [if ?b then _ else _] => destruct b
             end; by intros [= <-].
Qed.

(** Claim C7: on a parseable problem and a non-blank answer [u], the
    grader answers Correct (celebration, with [correct_answer]) iff
    [|u - c| < 0.01] for the computed result [c]; otherwise, under [+]
    only, an answer equal to one of the operands is Incorrect with
    [not_adding]; otherwise the answer is Incorrect with the generic
    mistake type and [correct_answer], the guidance being gentle at step
    1 and specific at any other step.  On ["12 / 4"], ["3"] is Correct
    with [correct_answer = 3] and ["8"] is Incorrect with
    [correct_answer = 3] and the generic mistake type. *)
Theorem validatePracticeStep_grading :
  (forall problem operation input step m1 op m3,
      search practice_problem problem = Some [m1; op; m3] ->
      ~ blank input ->
      let u := parseFloat (trim input) in
      let x := parseFloat m1 in
      let y := parseFloat m3 in
      let c := computed_result op x y in
      exists v,
        validatePracticeStep toString problem operation
          {| user_input := input; step_number := step |} = Ok v
        /\ (is_correct v = true <-> within_tolerance u c)
        /\ (within_tolerance u c ->
            result v = "correct" /\ guidance_level v = "celebration"
            /\ correct_answer v = Some c)
        /\ (~ within_tolerance u c -> op = "+" ->
            num_eq u x = true \/ num_eq u y = true ->
            result v = "incorrect" /\ mistake_type v = Some "not_adding")
        /\ (~ within_tolerance u c ->
            ~ (op = "+" /\ (num_eq u x = true \/ num_eq u y = true)) ->
            result v = "incorrect"
            /\ mistake_type v = Some "incorrect_calculation"
            /\ correct_answer v = Some c
            /\ (step = 1 -> guidance_level v = "gentle")
            /\ (step <> 1 -> guidance_level v = "specific")))
  /\ (exists v,
        validatePracticeStep toString "12 / 4" "division"
          {| user_input := "3"; step_number := 1 |} = Ok v
        /\ result v = "correct" /\ is_correct v = true
        /\ correct_answer v = Some (parseFloat "3"))
  /\ (exists v,
        validatePracticeStep toString "12 / 4" "division"
          {| user_input := "8"; step_number := 1 |} = Ok v
        /\ result v = "incorrect" /\ is_correct v = false
        /\ correct_answer v = Some (parseFloat "3")
        /\ mistake_type v = Some "incorrect_calculation").
Proof.
  split; [| split].
  - intros problem operation input step m1 op m3 Hparse Hblank u x y c.
    destruct (validatePracticeStep_cases problem operation input step
                m1 op m3 Hparse Hblank) as (v & Hv & Hcases).
    fold u x y c in Hcases. exists v. split; [exact Hv |].
    unfold within_tolerance.
    destruct (num_lt (num_abs (num_sub u c)) num_0_01).
    { destruct Hcases as (? & ? & ? & ?). repeat split; try done. }
    destruct (String.eqb_spec op "+") as [Hop | Hop]; cbn [andb] in Hcases;
      [destruct (num_eq u x) eqn:Hx, (num_eq u y) eqn:Hy; cbn [orb] in Hcases |].
    1-3: destruct Hcases as (? & Hno & ? & ?);
      (split; [by rewrite Hno |]); repeat split; try done; tauto.
    all: destruct Hcases as (? & Hno & ? & ? & Hg);
      (split; [by rewrite Hno |]);
      (split; [done |]); (split; [intros _ ?; tauto || intuition discriminate |]);
      intros _ _; repeat split; try done;
      [ intros ->; exact Hg
      | intros Hstep; apply Z.eqb_neq in Hstep; by rewrite Hstep in Hg ].
  - eexists. split; [vm_compute; reflexivity |]. cbn. done.
  - eexists. split; [vm_compute; reflexivity |]. cbn. done.
Qed.

End WithRendering.

(** The scenario of the calculator-free practice form: a wrong second
    attempt on ["7 + 4"] is graded with the generic mistake type and
    specific guidance. *)
Lemma validatePracticeStep_grading_witness :
  exists v,
    validatePracticeStep (fun _ => "") "7 + 4" "addition"
      {| user_input := " 12 "; step_number := 2 |} = Ok v
    /\ result v = "incorrect"
    /\ mistake_type v = Some "incorrect_calculation"
    /\ guidance_level v = "specific".
Proof.
  destruct (validatePracticeStep_grading (fun _ => "")) as [H _].
  destruct (H "7 + 4" "addition" " 12 " 2 "7" "+" "4")
    as (v & Hv & _ & _ & _ & Hgen).
  - reflexivity.
  - intros [E | E]; discriminate E.
  - exists v. split; [exact Hv |].
    destruct Hgen as (? & ? & _ & _ & Hs).
    + unfold within_tolerance. vm_compute. discriminate.
    + intros [_ [E | E]]; vm_compute in E; discriminate E.
    + repeat split; try done. apply Hs. lia.
Defined.

Lemma validatePracticeStep_unparseable_input_witness :
  exists v,
    validatePracticeStep (fun _ => "") "9 - 2" "subtraction"
      {| user_input := "seven"; step_number := 1 |} = Ok v
    /\ mistake_type v = Some "incorrect_calculation".
Proof.
  destruct (validatePracticeStep_unparseable_input (fun _ => ""))
    as (_ & H & _).
  destruct (H "9 - 2" "subtraction" "seven" 1 "9" "-" "2")
    as (v & Hv & _ & Hm).
  - reflexivity.
  - intros [E | E]; discriminate E.
  - reflexivity.
  - by exists v.
Defined.

End PracticeGraderFacts.

(** ** The tool context *)

Module ToolContextFacts.
Import ToolContext Spec.

Lemma apply_keeps_no_demoState w op :
  demoState (ctx w) = None -> demoState (ctx (apply w op)) = None.
Proof.
  intros H. destruct op; simpl; try done.
  - unfold pauseDemo. by destruct (negb _).
  - unfold resumeDemo. by rewrite H.
Qed.

Lemma fold_keeps_no_demoState ops w :
  demoState (ctx w) = None -> demoState (ctx (fold_left apply ops w)) = None.
Proof.
  revert w. induction ops as [|op ops IH]; intros w H; simpl; [done |].
  by apply IH, apply_keeps_no_demoState.
Qed.

(** The provider never stores a demo state. *)
Lemma run_no_demoState ops : demoState (ctx (run ops)) = None.
Proof. by apply fold_keeps_no_demoState. Qed.




End ToolContextFacts.

(** ** The demonstration player *)

Module NumberLineFacts.
Import JS NumberLine Spec.

(** What the building blocks leave untouched. *)

Lemma send_frame message i :
  let i' := sendAndCollectMessage message i in
  props i' = props i /\ control i' = control i /\ demoRender i' = demoRender i
  /\ timeoutId i' = timeoutId i /\ timers i' = timers i /\ nextId i' = nextId i
  /\ state i' = setMessageHistory
                  (fun prev => (prev ++ [remove_first pin message])%list) (state i)
  /\ log i' = (log i ++ if sendIntermediateMessage (props i)
                         then [Sent message] else [])%list.
Proof.
  unfold sendAndCollectMessage. simpl.
  destruct (sendIntermediateMessage (props i)); simpl; rewrite ?app_nil_r; done.
Qed.

Lemma runDemo_frame now s i :
  let i' := runDemo now s i in
  props i' = props i /\ control i' = control i /\ demoRender i' = demoRender i
  /\ savedDemoState (state i') = savedDemoState (state i)
  /\ isDemoPaused (state i') = isDemoPaused (state i)
  /\ demoStep (state i') = demoStep (state i)
  /\ resumeRequested (state i') = resumeRequested (state i)
  /\ pauseReason (state i') = pauseReason (state i).
Proof.
  unfold runDemo, sendAndCollectMessage.
  repeat case_match; simpl; done.
Qed.

Lemma runDemo_complete now s i :
  isDemoComplete s = true -> runDemo now s i = i.
Proof.
  intros H. unfold runDemo. rewrite H, orb_true_r. simpl. by case_match.
Qed.

Lemma runDemo_paused now s i :
  isDemoPaused s = true -> runDemo now s i = i.
Proof.
  intros H. unfold runDemo. rewrite H, orb_true_r. simpl. by case_match.
Qed.

(** The body of the demo effect completes the demo only from a render
    that is not complete, and the state it leaves is then complete. *)
Lemma runDemo_isDemoComplete now s i :
  isDemoComplete (state (runDemo now s i)) = isDemoComplete (state i)
  \/ (isDemoComplete s = false /\ isDemoComplete (state (runDemo now s i)) = true).
Proof.
  unfold runDemo, sendAndCollectMessage.
  destruct (isDemoComplete s) eqn:E; repeat case_match; simpl in *;
    first [by left | by right | by destruct (demoMode (props i))].
Qed.

Lemma controlEffect_frame s i :
  let i' := controlEffect s i in
  props i' = props i /\ state i' = state i /\ demoRender i' = demoRender i
  /\ timeoutId i' = timeoutId i /\ timers i' = timers i /\ nextId i' = nextId i
  /\ log i' = log i
  /\ (control i' = control i \/ control i' = Some s)
  /\ exists c, control i' = Some c /\ isDemoPaused c = isDemoPaused s
               /\ demoStep c = demoStep s.
Proof.
  unfold controlEffect. destruct (control i) as [c|] eqn:Hc; simpl.
  - destruct (Bool.eqb (isDemoPaused c) (isDemoPaused s)
              && (demoStep c =? demoStep s)) eqn:E; simpl.
    + apply andb_prop in E as [E1%eqb_prop E2%Z.eqb_eq].
      repeat split; auto. by exists c.
    + repeat split; auto. by exists s.
  - repeat split; auto. by exists s.
Qed.

Lemma same_demo_deps_refl s : same_demo_deps s s = true.
Proof.
  unfold same_demo_deps. by rewrite Z.eqb_refl, !eqb_reflx.
Qed.

Lemma same_demo_deps_eq r s :
  same_demo_deps r s = true <->
  demoStep r = demoStep s /\ isDemoComplete r = isDemoComplete s
  /\ isDemoPaused r = isDemoPaused s /\ resumeRequested r = resumeRequested s.
Proof.
  unfold same_demo_deps.
  rewrite !andb_true_iff, Z.eqb_eq, !eqb_true_iff. tauto.
Qed.

Lemma cleanup_frame i :
  props (cleanup i) = props i /\ state (cleanup i) = state i
  /\ control (cleanup i) = control i /\ log (cleanup i) = log i
  /\ nextId (cleanup i) = nextId i.
Proof. done. Qed.

(** A demo effect whose render agrees with the current one does nothing. *)
Lemma demoEffect_fresh now s i r :
  demoRender i = Some r -> same_demo_deps r s = true -> demoEffect now s i = i.
Proof. intros Hr Hs. unfold demoEffect. by rewrite Hr, Hs. Qed.

Lemma demoEffect_frame now s i :
  let i' := demoEffect now s i in
  props i' = props i /\ control i' = control i
  /\ savedDemoState (state i') = savedDemoState (state i)
  /\ isDemoPaused (state i') = isDemoPaused (state i)
  /\ demoStep (state i') = demoStep (state i)
  /\ resumeRequested (state i') = resumeRequested (state i)
  /\ (isDemoComplete (state i') = isDemoComplete (state i)
      \/ (isDemoComplete s = false /\ isDemoComplete (state i') = true))
  /\ (isDemoComplete s = true -> state i' = state i)
  /\ exists r, demoRender i' = Some r /\ same_demo_deps r s = true.
Proof.
  unfold demoEffect.
  destruct (match demoRender i with
            | Some r => negb (same_demo_deps r s)
            | None => true
            end) eqn:Hstale.
  - pose proof (runDemo_frame now s (record_demo_render s (cleanup i)))
      as (? & ? & Hr & ? & ? & ? & ? & ?).
    pose proof (runDemo_isDemoComplete now s (record_demo_render s (cleanup i))).
    repeat split; try done.
    + intros Hc. by rewrite runDemo_complete.
    + exists s. split; [by rewrite Hr | apply same_demo_deps_refl].
  - destruct (demoRender i) as [r|]; [| done].
    apply negb_false_iff in Hstale. repeat split; try done; auto. by exists r.
Qed.

Lemma initialInstruction_frame i :
  let i' := initialInstructionEffect i in
  props i' = props i /\ control i' = control i /\ demoRender i' = demoRender i
  /\ savedDemoState (state i') = savedDemoState (state i)
  /\ isDemoPaused (state i') = isDemoPaused (state i)
  /\ demoStep (state i') = demoStep (state i)
  /\ resumeRequested (state i') = resumeRequested (state i)
  /\ isDemoComplete (state i') = isDemoComplete (state i).
Proof.
  unfold initialInstructionEffect, sendAndCollectMessage.
  repeat case_match; done.
Qed.

(** One render keeps what was saved by a pause, and leaves the global
    control in the hands of a render that agrees with the state. *)
Lemma effects_never_paused first now i :
  never_paused i -> never_paused (effects first now i).
Proof.
  intros [Hs Hc]. unfold effects.
  set (i1 := controlEffect (state i) i).
  set (i2 := if first then initialInstructionEffect i1 else i1).
  pose proof (controlEffect_frame (state i) i) as (_ & Hst1 & _ & _ & _ & _ & _ & Hc1 & _).
  fold i1 in Hst1, Hc1.
  assert (savedDemoState (state i2) = None /\
          (control i2 = control i \/ control i2 = Some (state i))) as [Hs2 Hc2].
  { subst i2. destruct first.
    - pose proof (initialInstruction_frame i1) as (_ & -> & _ & -> & _).
      by rewrite Hst1.
    - by rewrite Hst1. }
  pose proof (demoEffect_frame now (state i) i2) as (_ & Hc3 & Hs3 & _).
  split.
  - by rewrite Hs3.
  - intros c. rewrite Hc3. destruct Hc2 as [-> | ->]; [apply Hc |].
    by intros [= <-].
Qed.

Lemma commit_never_paused now i : never_paused i -> never_paused (commit now i).
Proof. intros H. unfold commit. by do 2 apply effects_never_paused. Qed.

Lemma mount_never_paused p now : never_paused (mount p now).
Proof.
  unfold mount. do 2 apply effects_never_paused. by split.
Qed.

Lemma tick_never_paused i : never_paused i -> never_paused (tick i).
Proof.
  intros [Hs Hc]. unfold tick. destruct (earliest (timers i)) as [t|]; [| done].
  unfold run_callback, sendAndCollectMessage.
  repeat case_match; try apply commit_never_paused; by split.
Qed.

Lemma control_resume_never_paused now i :
  never_paused i -> control_resume now i = i.
Proof.
  intros [Hs Hc]. unfold control_resume, resumeDemo.
  destruct (control i) as [c|] eqn:E; [| done]. by rewrite (Hc c).
Qed.

End NumberLineFacts.

(** ** Resuming without a pause *)

Module ResumeFacts.
Import Spec.

Lemma with_control_id f w :
  (forall i, ToolContext.numberLineDemoControl w = Some i -> f i = i) ->
  ToolContext.with_control f w = w.
Proof.
  destruct w as [c [i|]]; unfold ToolContext.with_control; simpl; intros H;
    [by rewrite H | done].
Qed.

Lemma apply_unpaused w op :
  ToolContext.is_pause op = false ->
  unpaused_world w -> unpaused_world (ToolContext.apply w op).
Proof.
  intros Hop [Hd Hi].
  destruct op; try discriminate Hop; simpl; try (split; [done | exact Hi]).
  - unfold ToolContext.resumeDemo. rewrite Hd. by split.
  - split; [done |]. intros i [= <-]. apply NumberLineFacts.mount_never_paused.
  - by split.
  - split; [done |]. intros i.
    destruct w as [c [j|]]; simpl; [| done].
    intros [= <-]. apply NumberLineFacts.tick_never_paused. by apply Hi.
  - split; [done |]. intros i.
    destruct w as [c [j|]]; simpl; [| done].
    intros [= <-].
    rewrite NumberLineFacts.control_resume_never_paused; by apply Hi.
Qed.

Lemma fold_unpaused ops w :
  forallb (fun op => negb (ToolContext.is_pause op)) ops = true ->
  unpaused_world w -> unpaused_world (fold_left ToolContext.apply ops w).
Proof.
  revert w. induction ops as [|op ops IH]; intros w Hops Hw; simpl; [done |].
  simpl in Hops. apply andb_prop in Hops as [Hop%negb_true_iff Hops].
  by apply IH, apply_unpaused.
Qed.

(** Claim C9: resuming when no pause state was saved changes nothing, be
    it through the global control of the number line (no state field, no
    timer, no narration message) or through the tool context; and no
    pause state is saved as long as no pause was requested. *)
Theorem resume_without_saved_state :
  (forall now i,
      (forall c, NumberLine.control i = Some c ->
                 NumberLine.savedDemoState c = None) ->
      NumberLine.control_resume now i = i)
  /\ (forall now w,
        ToolContext.demoState (ToolContext.ctx w) = None ->
        ToolContext.resumeDemo now w = w)
  /\ (forall ops now,
        forallb (fun op => negb (ToolContext.is_pause op)) ops = true ->
        ToolContext.apply (ToolContext.run ops) (ToolContext.ResumeDemo now)
        = ToolContext.run ops
        /\ ToolContext.apply (ToolContext.run ops) (ToolContext.ControlResume now)
           = ToolContext.run ops).
Proof.
  split; [| split].
  - intros now i H. unfold NumberLine.control_resume, NumberLine.resumeDemo.
    destruct (NumberLine.control i) as [c|] eqn:E; [| done]. by rewrite (H c).
  - intros now w H. unfold ToolContext.resumeDemo. by rewrite H.
  - intros ops now Hops.
    assert (unpaused_world (ToolContext.run ops)) as [Hd Hi].
    { apply fold_unpaused; [done |]. by split. }
    split; simpl.
    + unfold ToolContext.resumeDemo. by rewrite Hd.
    + apply with_control_id. intros i Hin.
      apply NumberLineFacts.control_resume_never_paused. by apply Hi.
Qed.

Lemma resume_without_saved_state_witness :
  let p := {| NumberLine.problem := "4 + 2"; NumberLine.operation := "addition";
              NumberLine.demoMode := true;
              NumberLine.sendIntermediateMessage := true;
              NumberLine.onDemoPause := false; NumberLine.onDemoResume := false;
              NumberLine.onDemoComplete := true |} in
  let ops := [ToolContext.MountNumberLine p 0; ToolContext.TimerFires] in
  ToolContext.apply (ToolContext.run ops) (ToolContext.ControlResume 2500)
  = ToolContext.run ops.
Proof.
  intros p ops.
  destruct resume_without_saved_state as (_ & _ & H).
  apply (H ops 2500). reflexivity.
Defined.

End ResumeFacts.

(** ** Pausing a paused demonstration *)

Module PauseFacts.
Import JS NumberLine Spec StringFacts NumberLineFacts.

(** A settled instance is left as it is by a render. *)
Lemma effects_settled now i : settled i -> effects false now i = i.
Proof.
  intros [(c & Hc & Hp & Hd) (r & Hr & Hdeps)]. unfold effects, controlEffect.
  rewrite Hc, Hp, Hd, eqb_reflx, Z.eqb_refl. simpl.
  by apply (demoEffect_fresh _ _ _ r).
Qed.

Lemma commit_settled_id now i : settled i -> commit now i = i.
Proof.
  intros H. unfold commit. rewrite (effects_settled now i) by done.
  by apply effects_settled.
Qed.

(** Two renders settle the effects, on a mount as after a state update. *)
Lemma two_renders_settle first now i :
  settled (effects false now (effects first now i)).
Proof.
  set (i1 := effects first now i).
  assert (exists r1, demoRender i1 = Some r1
                     /\ same_demo_deps r1 (state i) = true
                     /\ (isDemoComplete (state i1) = isDemoComplete (state i)
                         \/ isDemoComplete (state i1) = true)
                     /\ isDemoPaused (state i1) = isDemoPaused (state i)
                     /\ demoStep (state i1) = demoStep (state i)
                     /\ resumeRequested (state i1) = resumeRequested (state i))
    as (r1 & Hr1 & Hdeps1 & Hcomp1 & Hp1 & Hd1 & Hrr1).
  { subst i1. unfold effects.
    set (i0 := controlEffect (state i) i).
    set (i2 := if first then initialInstructionEffect i0 else i0).
    pose proof (controlEffect_frame (state i) i) as (_ & Hst & _).
    fold i0 in Hst.
    assert (isDemoPaused (state i2) = isDemoPaused (state i)
            /\ demoStep (state i2) = demoStep (state i)
            /\ resumeRequested (state i2) = resumeRequested (state i)
            /\ isDemoComplete (state i2) = isDemoComplete (state i))
      as (Hp0 & Hd0 & Hrr0 & Hc0).
    { subst i2. destruct first; [| by rewrite Hst].
      pose proof (initialInstruction_frame i0)
        as (_ & _ & _ & _ & -> & -> & -> & ->).
      by rewrite Hst. }
    pose proof (demoEffect_frame now (state i) i2)
      as (_ & _ & _ & Hp & Hd & Hrr & Hcomp & _ & r & Hr & Hdeps).
    rewrite Hp0 in Hp. rewrite Hd0 in Hd. rewrite Hrr0 in Hrr.
    rewrite Hc0 in Hcomp. exists r. repeat split; try done.
    destruct Hcomp as [-> | [_ ->]]; auto. }
  unfold effects at 1.
  pose proof (controlEffect_frame (state i1) i1)
    as (_ & Hst & Hdr & _ & _ & _ & _ & _ & c & Hc & Hcp & Hcd).
  pose proof (demoEffect_frame now (state i1) (controlEffect (state i1) i1))
    as (_ & Hc2 & _ & Hp2 & Hd2 & Hrr2 & Hcomp2 & Hstable & r & Hr & Hdeps).
  rewrite Hst in Hp2, Hd2, Hrr2, Hcomp2, Hstable.
  assert (isDemoComplete
            (state (demoEffect now (state i1) (controlEffect (state i1) i1)))
          = isDemoComplete (state i1)) as Hcomp.
  { destruct Hcomp1 as [Hsame | Htrue].
    - rewrite (demoEffect_fresh _ _ _ r1); [by rewrite Hst | by rewrite Hdr |].
      apply same_demo_deps_eq in Hdeps1 as (? & ? & ? & ?).
      apply same_demo_deps_eq. repeat split; congruence.
    - by rewrite Hstable. }
  split.
  - exists c. rewrite Hc2, Hp2, Hd2. done.
  - exists r. split; [done |].
    apply same_demo_deps_eq in Hdeps as (? & ? & ? & ?).
    apply same_demo_deps_eq. repeat split; congruence.
Qed.

(** Every render sequence that follows a state update ends settled, and
    so does a mount: one more render would run no effect. *)
Lemma commit_settles now i : settled (commit now i).
Proof. apply two_renders_settle. Qed.

Lemma mount_settles p now : settled (mount p now).
Proof. apply two_renders_settle. Qed.

Lemma commit_stable now now' i :
  effects false now' (commit now i) = commit now i.
Proof. apply effects_settled, commit_settles. Qed.

(** Claim C3, as written, fails on the code: on the demonstration of
    ["4 + 2"], paused after its first tick, a second pause overwrites the
    reason and the time of the saved state and sends one more message. *)
Lemma pause_idempotent_as_written_fails : ~ pause_idempotent_as_written.
Proof.
  intros H.
  specialize (H {| problem := "4 + 2"; operation := "addition";
                   demoMode := true; sendIntermediateMessage := true;
                   onDemoPause := false; onDemoResume := false;
                   onDemoComplete := true |}
                0 1%nat 2500 "first" 2600 "second").
  vm_compute in H. destruct H as [H _]; [done |]. discriminate H.
Qed.

(** Claim C3, amended: a pause requested while the demonstration is
    already paused keeps it paused, leaves the demo step as it is and
    schedules no timer, but it is not a no-op: the saved state is written
    again, with the current demo step, the delay of that step (2000 ms at
    step 0, 1200 ms after it) and the reason and the time of this call,
    and one more pause message is sent and collected.  Only a number
    line that is not in demo mode, or whose demo is complete, ignores
    the call. *)
Theorem pauseDemo_when_paused (now : Z) (reason : string) (i : instance) (c : State) :
  settled i -> control i = Some c ->
  demoMode (props i) = true -> isDemoComplete c = false ->
  isDemoPaused (state i) = true ->
  let i' := control_pause now reason i in
  let saved :=
    {| Demo.currentStep := demoStep (state i);
       Demo.nextStepDelay := if demoStep (state i) =? 0 then 2000 else 1200;
       Demo.pauseReason := Some reason;
       Demo.resumeAt := Some now |} in
  savedDemoState (state i') = Some saved
  /\ isDemoPaused (state i') = true
  /\ pauseReason (state i') = reason
  /\ demoStep (state i') = demoStep (state i)
  /\ timers i' = timers i
  /\ messageHistory (state i')
     = (messageHistory (state i) ++ [("🛑 Demo paused - " ++ reason)%string])%list
  /\ log i'
     = (log i ++ (if onDemoPause (props i) then [DemoPause saved] else [])
              ++ (if sendIntermediateMessage (props i)
                  then [Sent ("📍 🛑 Demo paused - " ++ reason)%string]
                  else []))%list.
Proof.
  intros Hsettled Hc Hmode Hcomplete Hpaused i' saved.
  destruct Hsettled as [(c' & Hc' & Hcp & Hcd) (r & Hr & Hdeps)].
  assert (c' = c) as -> by congruence.
  subst i'. unfold control_pause, pauseDemo.
  rewrite Hc, Hmode, Hcomplete. cbn [negb orb]. rewrite Hcd. fold saved.
  change ("📍 🛑 Demo paused - " ++ reason)
    with (pin ++ ("🛑 Demo paused - " ++ reason)).
  unfold sendAndCollectMessage. rewrite remove_first_prefix.
  rewrite commit_settled_id.
  - cbn. destruct (onDemoPause (props i)); cbn;
      destruct (sendIntermediateMessage (props i)); cbn;
      rewrite <- ?app_assoc, ?app_nil_r; done.
  - apply same_demo_deps_eq in Hdeps as (? & ? & ? & ?).
    cbn. destruct (onDemoPause (props i)); cbn;
      destruct (sendIntermediateMessage (props i)); cbn;
      (split; [exists c | exists r]; cbn; repeat split; try done;
       first [congruence
             | apply same_demo_deps_eq; cbn; repeat split; congruence]).
Qed.

Lemma pauseDemo_when_paused_witness :
  let p := {| problem := "4 + 2"; operation := "addition"; demoMode := true;
              sendIntermediateMessage := true; onDemoPause := false;
              onDemoResume := false; onDemoComplete := true |} in
  let i := control_pause 2500 "first" (tick (mount p 0)) in
  savedDemoState (state (control_pause 2600 "second" i))
  = Some {| Demo.currentStep := 1; Demo.nextStepDelay := 1200;
            Demo.pauseReason := Some "second"; Demo.resumeAt := Some 2600 |}.
Proof.
  intros p i.
  lazymatch eval vm_compute in (control i) with
  | Some ?c =>
      assert (control i = Some c) as Hc by (vm_compute; reflexivity);
      destruct (pauseDemo_when_paused 2600 "second" i c) as [H _]
  end.
  - split; [eexists | eexists]; (split; [vm_compute; reflexivity |]);
      vm_compute; auto.
  - exact Hc.
  - reflexivity.
  - reflexivity.
  - vm_compute. reflexivity.
  - rewrite H. vm_compute. reflexivity.
Defined.

(** The step saved by the second pause is the current demo step, which
    need not be the step saved by the first: a resumption requested
    earlier fires while the demonstration is paused and moves the demo
    step back to the one it had saved. *)
Example pause_after_late_resume :
  let p := {| problem := "4 + 2"; operation := "addition"; demoMode := true;
              sendIntermediateMessage := true; onDemoPause := false;
              onDemoResume := false; onDemoComplete := true |} in
  let started :=
    tick (tick (control_resume 200 (control_pause 100 "a" (mount p 0)))) in
  let paused :=
    tick (control_pause 2900 "b" (control_resume 2800 started)) in
  isDemoPaused (state paused) = true
  /\ demoStep (state paused) = 0
  /\ savedDemoState (state paused)
     = Some {| Demo.currentStep := 1; Demo.nextStepDelay := 1200;
               Demo.pauseReason := Some "b"; Demo.resumeAt := Some 2900 |}
  /\ savedDemoState (state (control_pause 3400 "c" paused))
     = Some {| Demo.currentStep := 0; Demo.nextStepDelay := 2000;
               Demo.pauseReason := Some "c"; Demo.resumeAt := Some 3400 |}.
Proof. vm_compute. repeat split; reflexivity. Qed.

End PauseFacts.

(** ** A demonstration run *)

Module DemoRunFacts.
Import JS NumberLine Spec StringFacts RegexFacts NumberLineFacts.

Lemma includes_no_char s c :
  all_chars (fun d => negb (Ascii.eqb d c)) s = true ->
  includes s (String c "") = false.
Proof.
  induction s as [|d s IH]; simpl; [done |].
  intros [Hd Hs]%andb_prop. rewrite (IH Hs), orb_false_r.
  destruct (ascii_dec c d) as [-> | Hne]; [| done].
  by rewrite Ascii.eqb_refl in Hd.
Qed.

Lemma all_chars_app p s t :
  all_chars p (s ++ t) = all_chars p s && all_chars p t.
Proof.
  induction s as [|c s IH]; [done |].
  change (String c s ++ t) with (String c (s ++ t)). simpl.
  by rewrite IH, andb_assoc.
Qed.

Lemma all_chars_impl (p q : ascii -> bool) s :
  (forall c, p c = true -> q c = true) ->
  all_chars p s = true -> all_chars q s = true.
Proof.
  intros H. induction s as [|c s IH]; simpl; [done |].
  intros [Hc Hs]%andb_prop. by rewrite (H c Hc), IH.
Qed.

Lemma digit_not_plus c : is_digit c = true -> negb (Ascii.eqb c "+") = true.
Proof.
  unfold is_digit. intros [H1 _]%andb_prop. apply N.leb_le in H1.
  destruct (Ascii.eqb_spec c "+") as [-> | ?]; [| done].
  vm_compute in H1. done.
Qed.

Lemma includes_plus a o b :
  includes (problem_text a o b) "+" = match o with Add => true | Sub => false end.
Proof.
  destruct o.
  - apply ClassifierFacts.includes_spec. exists (showN a ++ " "), (" " ++ showN b).
    unfold problem_text. by rewrite !append_assoc.
  - apply includes_no_char. unfold problem_text.
    rewrite !all_chars_app.
    rewrite (all_chars_impl is_digit _ (showN a) digit_not_plus),
      (all_chars_impl is_digit _ (showN b) digit_not_plus)
      by apply showN_digits.
    reflexivity.
Qed.

(** The number line reads ["a op b"] as the operands [a] and [b] and the
    operator. *)
Lemma numbers_of_problem p a b o :
  problem p = problem_text a o b ->
  numbers p = Some {| firstNumber := Z.of_N a; secondNumber := Z.of_N b;
                      NumberLine.operator := op_text o |}.
Proof.
  intros Hp. unfold numbers, parseNumbers. rewrite Hp, includes_plus.
  assert (String.eqb (problem_text a o b) "" = false) as ->.
  { apply String.eqb_neq. unfold problem_text.
    pose proof (showN_nonempty a). destruct (showN a); [done | discriminate]. }
  assert (Regex.search Regex.demo_problem (problem_text a o b)
          = Some [showN a; showN b]) as ->.
  { apply search_here. unfold problem_text.
    pose proof (match_here_problem
                  (Regex.Item (Regex.one_of ["+"; "-"]%char) Regex.Once false)
                  (showN a) " "
                  (match o with Add => "+" | Sub => "-" end)%char
                  " " (showN b)) as H.
    destruct o; apply H; auto using showN_nonempty, showN_digits. }
  rewrite !digits_value_showN. by destruct o.
Qed.

(** *** The effects, case by case *)

Lemma controlEffect_none s i :
  control i = None -> controlEffect s i = register_control s i.
Proof. intros H. unfold controlEffect. by rewrite H. Qed.

Lemma controlEffect_changed s i c :
  control i = Some c -> demoStep c <> demoStep s ->
  controlEffect s i = register_control s i.
Proof.
  intros H Hne. unfold controlEffect. rewrite H.
  apply Z.eqb_neq in Hne. by rewrite Hne, andb_false_r.
Qed.

Lemma controlEffect_same s i c :
  control i = Some c -> isDemoPaused c = isDemoPaused s ->
  demoStep c = demoStep s -> controlEffect s i = i.
Proof.
  intros H Hp Hd. unfold controlEffect.
  by rewrite H, Hp, Hd, eqb_reflx, Z.eqb_refl.
Qed.

Lemma demoEffect_stale now s i :
  match demoRender i with
  | Some r => same_demo_deps r s = false
  | None => True
  end ->
  demoEffect now s i = runDemo now s (record_demo_render s (cleanup i)).
Proof.
  intros H. unfold demoEffect. destruct (demoRender i); [by rewrite H | done].
Qed.

Lemma send_pin m i :
  sendIntermediateMessage (props i) = true ->
  sendAndCollectMessage (pin ++ m) i
  = emit (Sent (pin ++ m))
      (with_state (setMessageHistory (fun prev => (prev ++ [m])%list)) i).
Proof.
  intros H. unfold sendAndCollectMessage. rewrite remove_first_prefix.
  cbn [props with_state]. by rewrite H.
Qed.

Section Playing.
Variables (a b : N) (o : operator).
Variables (now : Z) (s : State) (i : instance).
Hypothesis Hproblem : problem (props i) = problem_text a o b.
Hypothesis Hmode : demoMode (props i) = true.
Hypothesis Hsend : sendIntermediateMessage (props i) = true.
Hypothesis Hcomplete : isDemoComplete s = false.
Hypothesis Hpaused : isDemoPaused s = false.
Hypothesis Hresume : resumeRequested s = false.

Lemma initialInstruction_demo :
  initialInstructionEffect i = sendAndCollectMessage (pin ++ opening) i.
Proof.
  unfold initialInstructionEffect.
  by rewrite (numbers_of_problem _ a b o Hproblem), Hsend, Hmode.
Qed.

Lemma runDemo_playing :
  runDemo now s i
  = let k := demoStep s in
    let m := narration_message a b o k in
    if k =? 0 then
      setTimeout true (SetDemoStep 1) now 2000
        (sendAndCollectMessage (pin ++ m)
           (with_state (setSteps (fun _ => [Z.of_N a]))
              (with_state (setSelectedNumber (Some (Z.of_N a)))
                 (with_state (setDemoExplanation m) i))))
    else if k <=? Z.of_N b then
      setTimeout true (SetDemoStep (k + 1)) now 1200
        (sendAndCollectMessage (pin ++ m)
           (with_state
              (setSteps (fun prev => (prev ++ [Z.of_N a + direction o * k])%list))
              (with_state (setDemoExplanation m) i)))
    else
      setTimeout false
        (Farewell (apply_op o (Z.of_N a) (Z.of_N b)) (messageHistory s)) now 2000
        (sendAndCollectMessage (pin ++ m)
           (with_state (setIsDemoComplete true)
              (with_state (setDemoExplanation m) i))).
Proof.
  unfold runDemo.
  rewrite (numbers_of_problem _ a b o Hproblem), Hmode, Hcomplete, Hpaused,
    Hresume.
  cbn [negb orb firstNumber secondNumber NumberLine.operator].
  unfold narration_message.
  destruct (demoStep s =? 0); [done |].
  destruct (demoStep s <=? Z.of_N b); [by destruct (demoStep s =? 1), o | by destruct o].
Qed.

End Playing.

(** *** The run, tick by tick *)

Ltac run_effects :=
  cbv [init controlEffect sendAndCollectMessage setTimeout cleanup
       register_control record_demo_render with_state emit drop_timer
       setSelectedNumber setSteps setDemoStep setDemoExplanation
       setIsDemoComplete setMessageHistory setIsDemoPaused setPauseReason
       setSavedDemoState setResumeRequested initialState
       props state control demoRender timeoutId timers nextId log
       selectedNumber steps demoStep demoExplanation isDemoComplete
       messageHistory isDemoPaused NumberLine.pauseReason savedDemoState
       resumeRequested
       problem operation demoMode sendIntermediateMessage onDemoPause
       onDemoResume onDemoComplete demo_props
       id due action same_demo_deps
       Bool.eqb negb andb orb List.filter
       moving completed rendered narrated].

Section Run.
Variables (a b : N) (o : operator) (onPause onResume onComplete : bool) (now : Z).

Lemma history_S k :
  history a b o (S k)
  = (history a b o k ++ [narration_message a b o (Z.of_nat k)])%list.
Proof. unfold history. by rewrite seq_S, map_app. Qed.

Lemma path_S k :
  path a o (S k) = (path a o k ++ [Z.of_N a + direction o * Z.of_nat k])%list.
Proof. unfold path. by rewrite seq_S, map_app. Qed.

Lemma moving_settled k :
  settled (moving a b o onPause onResume onComplete now k).
Proof.
  split; eexists; (split; [reflexivity |]); [done |].
  by apply same_demo_deps_eq.
Qed.

(** Mounting the demonstration sends the opening message and the start
    message and arms the first timer. *)
Lemma mount_moving :
  mount (demo_props a b o onPause onResume onComplete) now
  = moving a b o onPause onResume onComplete now 0.
Proof.
  unfold mount.
  assert (effects true now (init (demo_props a b o onPause onResume onComplete))
          = moving a b o onPause onResume onComplete now 0) as ->.
  { unfold effects.
    rewrite controlEffect_none by reflexivity.
    rewrite (initialInstruction_demo a b o) by reflexivity.
    rewrite demoEffect_stale by (run_effects; exact I).
    rewrite (runDemo_playing a b o) by reflexivity.
    run_effects. rewrite !remove_first_prefix.
    change (0 =? 0) with true. cbv iota. cbn [app].
    unfold history, path. cbn [seq map Z.of_nat].
    rewrite Z.mul_0_r, !Z.add_0_r. reflexivity. }
  apply PauseFacts.effects_settled, moving_settled.
Qed.

(** A tick of the moves: the next step is narrated and the next timer is
    armed. *)
Lemma tick_moving k :
  (k < N.to_nat b)%nat ->
  tick (moving a b o onPause onResume onComplete now k)
  = moving a b o onPause onResume onComplete now (S k).
Proof.
  intros Hk. unfold tick.
  change (timers (moving a b o onPause onResume onComplete now k))
    with [ {| id := S k; due := now + 2000 + 1200 * Z.of_nat k;
              action := SetDemoStep (Z.of_nat k + 1) |} ].
  cbn [earliest action due id run_callback]. unfold commit.
  replace (Z.of_nat k + 1) with (Z.of_nat (S k)) by lia.
  set (t := now + 2000 + 1200 * Z.of_nat k).
  assert (effects false t
            (with_state (setDemoStep (Z.of_nat (S k)))
               (drop_timer (S k) (moving a b o onPause onResume onComplete now k)))
          = moving a b o onPause onResume onComplete now (S k)) as ->.
  { unfold effects.
    rewrite (controlEffect_changed _ _ (rendered a b o k))
      by (try reflexivity; run_effects; lia).
    rewrite demoEffect_stale.
    2:{ run_effects. apply andb_false_intro1, andb_false_intro1, andb_false_intro1.
        apply Z.eqb_neq. lia. }
    rewrite (runDemo_playing a b o) by reflexivity.
    run_effects. rewrite !remove_first_prefix, Nat.eqb_refl.
    assert ((Z.of_nat (S k) =? 0) = false) as -> by (apply Z.eqb_neq; lia).
    assert ((Z.of_nat (S k) <=? Z.of_N b) = true) as -> by (apply Z.leb_le; lia).
    cbv iota. cbn [negb app].
    rewrite !app_nil_r, (history_S (S k)), (path_S (S k)), map_app.
    subst t. unfold sent. cbn [map].
    replace (now + 2000 + 1200 * Z.of_nat k + 1200)
      with (now + 2000 + 1200 * Z.of_nat (S k)) by lia.
    reflexivity. }
  apply PauseFacts.effects_settled, moving_settled.
Qed.

(** The last tick: the final message is sent, the demo is complete and
    the closing timer is armed with the history of that render. *)
Lemma tick_last :
  tick (moving a b o onPause onResume onComplete now (N.to_nat b))
  = completed a b o onPause onResume onComplete now 0.
Proof.
  unfold tick.
  change (timers (moving a b o onPause onResume onComplete now (N.to_nat b)))
    with [ {| id := S (N.to_nat b); due := now + 2000 + 1200 * Z.of_nat (N.to_nat b);
              action := SetDemoStep (Z.of_nat (N.to_nat b) + 1) |} ].
  cbn [earliest action due id run_callback]. unfold commit.
  replace (Z.of_nat (N.to_nat b) + 1) with (Z.of_nat (S (N.to_nat b))) by lia.
  set (k := N.to_nat b).
  set (t := now + 2000 + 1200 * Z.of_nat k).
  assert (effects false t
            (with_state (setDemoStep (Z.of_nat (S k)))
               (drop_timer (S k) (moving a b o onPause onResume onComplete now k)))
          = {| props := demo_props a b o onPause onResume onComplete;
               state := narrated a b o (S k) true [];
               control := Some (rendered a b o (S k));
               demoRender := Some (rendered a b o (S k));
               timeoutId := None;
               timers := [ {| id := S (S k); due := t + 2000;
                              action := Farewell (apply_op o (Z.of_N a) (Z.of_N b))
                                          (history a b o (S k)) |} ];
               nextId := S (S (S k));
               log := map sent (history a b o (S (S k))) |}) as ->.
  { unfold effects.
    rewrite (controlEffect_changed _ _ (rendered a b o k))
      by (try reflexivity; run_effects; lia).
    rewrite demoEffect_stale.
    2:{ run_effects. apply andb_false_intro1, andb_false_intro1, andb_false_intro1.
        apply Z.eqb_neq. lia. }
    rewrite (runDemo_playing a b o) by reflexivity.
    run_effects. rewrite !remove_first_prefix, Nat.eqb_refl.
    assert ((Z.of_nat (S k) =? 0) = false) as -> by (apply Z.eqb_neq; lia).
    assert ((Z.of_nat (S k) <=? Z.of_N b) = false) as ->
        by (apply Z.leb_gt; subst k; lia).
    cbv iota. cbn [negb app].
    rewrite !app_nil_r, (history_S (S k)), map_app.
    unfold sent. cbn [map]. reflexivity. }
  unfold effects.
  rewrite (controlEffect_same _ _ (rendered a b o (S k))) by reflexivity.
  rewrite demoEffect_stale by (run_effects; by rewrite Z.eqb_refl).
  rewrite runDemo_complete by reflexivity.
  run_effects. subst t k.
  replace (now + 2000 + 1200 * Z.of_N b)
    with (now + 2000 + 1200 * Z.of_nat (N.to_nat b)) by lia.
  rewrite !app_nil_r. reflexivity.
Qed.

Lemma completed_settled stage :
  settled (completed a b o onPause onResume onComplete now stage).
Proof.
  split; eexists; (split; [reflexivity |]); [done |].
  by apply same_demo_deps_eq.
Qed.

(** Two seconds later the closing message is sent, and the completion
    timer is armed with the same history. *)
Lemma tick_completed_0 :
  tick (completed a b o onPause onResume onComplete now 0)
  = completed a b o onPause onResume onComplete now 1.
Proof.
  unfold tick. cbn [timers completed earliest action due id run_callback].
  change (String.append "📍 ✅ Great job! We successfully solved " ?x)
    with (pin ++ ("✅ Great job! We successfully solved " ++ x)).
  rewrite send_pin by reflexivity.
  rewrite PauseFacts.commit_settled_id.
  - run_effects. rewrite Nat.eqb_refl. cbn [negb app].
    rewrite !app_nil_r. unfold closing.
    replace (now + 2000 + 1200 * Z.of_N b + 2000 + 500)
      with (now + 2000 + 1200 * Z.of_N b + 2500) by lia.
    reflexivity.
  - split; eexists; (split; [reflexivity |]); [done |].
    by apply same_demo_deps_eq.
Qed.

(** Half a second later the completion callback receives the result and
    that history. *)
Lemma tick_completed_1 :
  tick (completed a b o onPause onResume onComplete now 1)
  = completed a b o onPause onResume onComplete now 2.
Proof.
  unfold tick. cbn [timers completed earliest action due id run_callback].
  run_effects. rewrite Nat.eqb_refl. cbn [negb].
  destruct onComplete; cbn [app]; rewrite <- !app_assoc; reflexivity.
Qed.

Lemma run_moving k :
  (k <= N.to_nat b)%nat ->
  Nat.iter k tick (mount (demo_props a b o onPause onResume onComplete) now)
  = moving a b o onPause onResume onComplete now k.
Proof.
  induction k as [|k IH]; intros Hk; simpl.
  - apply mount_moving.
  - rewrite IH by lia. apply tick_moving. lia.
Qed.

(** The whole run: [b + 3] timers fire and none is left. *)
Lemma run_completed :
  Nat.iter (N.to_nat b + 3) tick
           (mount (demo_props a b o onPause onResume onComplete) now)
  = completed a b o onPause onResume onComplete now 2.
Proof.
  replace (N.to_nat b + 3)%nat with (S (S (S (N.to_nat b)))) by lia.
  simpl. rewrite run_moving by lia.
  by rewrite tick_last, tick_completed_0, tick_completed_1.
Qed.

End Run.

Lemma narration_history a b o :
  narration a b o
  = (map (fun j => narration_message a b o (Z.of_nat j)) (seq 0 (S (N.to_nat b)))
     ++ [narration_message a b o (Z.of_nat (S (N.to_nat b)))])%list.
Proof.
  unfold narration.
  replace (N.to_nat b + 2)%nat with (S (S (N.to_nat b))) by lia.
  by rewrite (seq_S (S (N.to_nat b))), map_app.
Qed.

(** Claim C2, against the code.  With a message sink wired, the run of
    the demonstration of [a op b], for safe operands, sends an opening
    message, then the
    [b + 2] narration messages from the start message through the final
    message, one per tick, then a closing message, and calls the
    completion callback once, with the result [a op b].  The history the
    callback receives is not the narration of the run: it is the history
    of the render of the last tick, which lacks the final message and the
    closing message that the component has collected by then. *)
Theorem demo_run_narration
        (a b : N) (o : operator) (onPause onResume onComplete : bool) (now : Z) :
  safe_problem a b o ->
  let r := Nat.iter (N.to_nat b + 3) tick
             (mount (demo_props a b o onPause onResume onComplete) now) in
  let result := apply_op o (Z.of_N a) (Z.of_N b) in
  timers r = []
  /\ length (narration a b o) = (N.to_nat b + 2)%nat
  /\ head (narration a b o) = Some (narration_message a b o 0)
  /\ last (narration a b o) = Some (narration_message a b o (Z.of_N b + 1))
  /\ log r
     = (map sent (opening :: narration a b o ++ [closing a b o])
        ++ Answer result (opening :: removelast (narration a b o))
           :: if onComplete then [DemoComplete] else [])%list
  /\ messageHistory (state r)
     = (opening :: narration a b o ++ [closing a b o])%list
  /\ (opening :: removelast (narration a b o))%list <> messageHistory (state r).
Proof.
  intros _ r result. subst r. rewrite run_completed.
  assert (removelast (narration a b o)
          = map (fun j => narration_message a b o (Z.of_nat j))
                (seq 0 (S (N.to_nat b)))) as Hremove
      by (rewrite narration_history; apply removelast_last).
  assert (history a b o (S (S (N.to_nat b))) = opening :: narration a b o)
    as Hhistory.
  { unfold history, narration.
    by replace (N.to_nat b + 2)%nat with (S (S (N.to_nat b))) by lia. }
  cbn [timers log state messageHistory completed narrated].
  rewrite Hhistory, Hremove.
  split; [done |]. split; [unfold narration; by rewrite length_map, length_seq |].
  split; [unfold narration; by replace (N.to_nat b + 2)%nat
                              with (S (S (N.to_nat b))) by lia |].
  split.
  { rewrite narration_history, last_snoc. do 2 f_equal. lia. }
  split.
  { unfold history. cbn [map]. rewrite map_app. cbn [map app].
    rewrite <- !app_assoc. reflexivity. }
  split; [done |].
  intros Heq. apply (f_equal length) in Heq.
  unfold narration in Heq.
  rewrite !length_cons, length_app, !length_map, !length_seq in Heq.
  cbn [length] in Heq. rewrite ?length_map, ?length_seq in Heq. lia.
Qed.

Lemma demo_run_narration_witness :
  let r := Nat.iter 5 tick (mount (demo_props 4 2 Add false false true) 0) in
  log r
  = (map sent (opening :: narration 4 2 Add ++ [closing 4 2 Add])
     ++ [Answer 6 (opening :: removelast (narration 4 2 Add)); DemoComplete])%list
  /\ (opening :: removelast (narration 4 2 Add))%list <> messageHistory (state r).
Proof.
  destruct (demo_run_narration 4 2 Add false false true 0)
    as (_ & _ & _ & _ & Hlog & _ & Hdiff).
  - repeat split; reflexivity.
  - split; [exact Hlog | exact Hdiff].
Defined.

(** The run on ["4 + 2"]: six messages are sent and collected, four are
    handed to the completion callback. *)
Lemma demo_run_4_plus_2 :
  let r := Nat.iter 5 tick (mount (demo_props 4 2 Add false false true) 0) in
  log r
  = [ Sent "📍 Watch as I demonstrate the solution step by step!";
      Sent "📍 Let's start at 4! 👈";
      Sent "📍 Now let's add 2 step by step...";
      Sent "📍 Step 2: Moving to 6... ➡️";
      Sent "📍 🎉 Done! 4 + 2 = 6";
      Sent "📍 ✅ Great job! We successfully solved 4 + 2 and got 6!";
      Answer 6 [ "Watch as I demonstrate the solution step by step!";
                 "Let's start at 4! 👈";
                 "Now let's add 2 step by step...";
                 "Step 2: Moving to 6... ➡️" ];
      DemoComplete ]
  /\ messageHistory (state r)
     = [ "Watch as I demonstrate the solution step by step!";
         "Let's start at 4! 👈";
         "Now let's add 2 step by step...";
         "Step 2: Moving to 6... ➡️";
         "🎉 Done! 4 + 2 = 6";
         "✅ Great job! We successfully solved 4 + 2 and got 6!" ].
Proof. vm_compute. split; reflexivity. Qed.

End DemoRunFacts.

(* ===================================================================== *)
(** * Part III: further properties of the code                            *)
(* ===================================================================== *)

(** ** The logger *)

Module LoggerFacts.
Import JS JSArray FrontendLogger LoggerRuns.
Local Open Scope list_scope.

Lemma slice_from_last {A} (n : nat) (l : list A) :
  (0 < n)%nat -> slice_from (- Z.of_nat n) l = drop (length l - n) l.
Proof.
  intros Hn. unfold slice_from.
  destruct (Z.ltb_spec (- Z.of_nat n) 0) as [_ | ?]; [| lia].
  f_equal. lia.
Qed.

Lemma slice_from_zero {A} (l : list A) : slice_from 0 l = l.
Proof.
  unfold slice_from. simpl.
  replace (Z.to_nat (Z.min 0 (Z.of_nat (length l)))) with O by lia. done.
Qed.

Lemma drop_app_one {A} (l : list A) (x : A) (n : nat) :
  (n <= length l)%nat -> drop n (l ++ [x]) = drop n l ++ [x].
Proof. intros H. by rewrite drop_app_le. Qed.

Section WithData.
Context {any : Type}.
Variable truthy : any -> bool.
Variable json_copy : any -> outcome any.


(** One call of [addLog]: the entry is appended and the log cut back to
    its last [maxLogs] entries; a value that cannot be copied makes the
    call throw. *)
Lemma addLog_cases now lv c e data logs :
  match stored truthy json_copy data with
  | Some d =>
      addLog any truthy json_copy now lv c e data logs
      = Ok (drop (length logs + 1 - maxLogs)
                 (logs ++ [ {| timestamp := now; level := lv; component := c;
                               event := e; data := d |} ]))
  | None => exists message,
      addLog any truthy json_copy now lv c e data logs = Throw message
  end.
Proof.
  unfold addLog, stored.
  destruct data as [d|]; [destruct (truthy d); [destruct (json_copy d) |] |];
    try (by eexists);
    rewrite length_app; simpl;
    (destruct (Nat.ltb_spec maxLogs (length logs + 1)) as [Hlt | Hge];
     [ rewrite slice_from_last by (unfold maxLogs; lia);
       rewrite length_app; simpl; done
     | replace (length logs + 1 - maxLogs)%nat with O by lia; done ]).
Qed.

Lemma addLogs_window calls logs :
  (length logs <= maxLogs)%nat ->
  addLogs truthy json_copy calls logs
  = drop (length (logs ++ recorded truthy json_copy calls) - maxLogs)
         (logs ++ recorded truthy json_copy calls).
Proof.
  revert logs. induction calls as [|c calls IH]; intros logs Hlen; simpl.
  - rewrite app_nil_r. replace (length logs - maxLogs)%nat with O by lia. done.
  - pose proof (addLog_cases (at_time c) (with_level c) (from c) (about c)
                  (carrying c) logs) as H.
    destruct (stored truthy json_copy (carrying c)) as [d|].
    + rewrite H. rewrite IH.
      2:{ rewrite length_drop, length_app. simpl. lia. }
      set (e := {| timestamp := at_time c; level := with_level c;
                   component := from c; event := about c; data := d |}).
      rewrite <- drop_app_le by (rewrite length_app; simpl; lia).
      rewrite drop_drop. rewrite <- app_assoc. simpl.
      f_equal. rewrite !length_app, length_drop, !length_app. simpl. lia.
    + destruct H as [message ->]. by apply IH.
Qed.

(** Property X1.
    The log is a sliding window: after any sequence of calls made on an
    empty log, it holds the last 1000 of the entries that were recorded,
    in the order of the calls, the calls that threw having recorded
    nothing; in particular it never holds more than 1000 entries. *)
Theorem addLog_keeps_the_last_1000 (calls : list (call any)) :
  addLogs truthy json_copy calls []
  = drop (length (recorded truthy json_copy calls) - 1000)
         (recorded truthy json_copy calls)
  /\ (length (addLogs truthy json_copy calls []) <= 1000)%nat.
Proof.
  pose proof (addLogs_window calls []) as H. simpl in H.
  rewrite H by lia. split; [done |].
  rewrite length_drop. unfold maxLogs. lia.
Qed.

(** Property X2.
    [getRecentLogs(count)]: for a positive [count] the last [count]
    entries, or all of them when there are fewer; for [count = 0] the
    whole log, not the empty list; for a negative [count] the log without
    its first [-count] entries; with no argument the last 50. *)
Theorem getRecentLogs_counts (logs : list (LogEntry any)) :
  (forall n : nat, (0 < n)%nat ->
     getRecentLogs any (Some (Z.of_nat n)) logs = drop (length logs - n) logs)
  /\ getRecentLogs any (Some 0) logs = logs
  /\ (forall n : nat,
        getRecentLogs any (Some (- Z.of_nat n)) logs = drop n logs)
  /\ getRecentLogs any None logs = drop (length logs - 50) logs.
Proof.
  cbv [getRecentLogs default from_option id]. repeat split.
  - intros n Hn. by apply slice_from_last.
  - apply slice_from_zero.
  - intros n. unfold slice_from. rewrite Z.opp_involutive.
    destruct (Z.ltb_spec (Z.of_nat n) 0); [lia |].
    destruct (Nat.le_gt_cases n (length logs)).
    + f_equal. lia.
    + rewrite !drop_ge by lia. done.
  - apply (slice_from_last 50). lia.
Qed.

End WithData.

End LoggerFacts.

(** ** The pattern matcher *)

Module RegExpFacts.
Import JS RegExp TextSpec StringFacts.
Local Arguments String.append !_ _ / : simpl nomatch.

Lemma all_chars_skip p n s : all_chars p s = true -> all_chars p (skip n s) = true.
Proof.
  revert s. induction n as [|n IH]; intros [|c s]; simpl; try done.
  intros [_ Hs]%andb_prop. by apply IH.
Qed.

Lemma skip_app s t : skip (String.length s) (s ++ t) = t.
Proof. induction s as [|c s IH]; simpl; [by destruct t | done]. Qed.

Lemma take_app s t : take (String.length s) (s ++ t) = s.
Proof.
  induction s as [|c s IH]; simpl; [by destruct t | by rewrite IH].
Qed.

(** The equations of the matcher. *)
Lemma rounds_O {R} body greedy (k : nat -> string -> option R) i s :
  rounds body greedy k O i s
  = if greedy then k i s else k i s.
Proof. simpl. by destruct greedy, (k i s). Qed.

Lemma rounds_S {R} body greedy (k : nat -> string -> option R) n i s :
  rounds body greedy k (S n) i s
  = let more :=
      body i s (fun i' s' =>
                  if (String.length s' <? String.length s)%nat
                  then rounds body greedy k n i' s' else None) in
    if greedy then match more with Some x => Some x | None => k i s end
    else match k i s with Some x => Some x | None => more end.
Proof. reflexivity. Qed.

Lemma run_Chr {R} p i c s (k : nat -> string -> option R) :
  run (Chr p) i (String c s) k = if p c then k (S i) s else None.
Proof. reflexivity. Qed.

Lemma run_Chr_nil {R} p i (k : nat -> string -> option R) :
  run (Chr p) i "" k = None.
Proof. reflexivity. Qed.

Lemma run_Seq {R} r1 r2 i s (k : nat -> string -> option R) :
  run (Seq r1 r2) i s k = run r1 i s (fun i' s' => run r2 i' s' k).
Proof. reflexivity. Qed.

Lemma run_Star {R} greedy body i s (k : nat -> string -> option R) :
  run (Star greedy body) i s k
  = rounds (run body) greedy k (String.length s) i s.
Proof. reflexivity. Qed.

(** A pattern that opens with a character of the class [p] matches
    nothing in a text without such a character. *)
Lemma run_head {R} r p i s (k : nat -> string -> option R) x :
  head_class r = Some p -> run r i s k = Some x ->
  exists c s', s = String c s' /\ p c = true.
Proof.
  revert k. induction r as [| q | r1 IH1 r2 _ | | | |]; intros k; try done.
  - intros [= ->]. simpl. destruct s as [|c s']; [done |].
    destruct (p c) eqn:E; [| done]. by eauto.
  - simpl. intros H1 H. by apply (IH1 _ H1 H).
Qed.

Lemma exec_head_none r p i s :
  head_class r = Some p -> free_of p s = true -> exec r i s = None.
Proof.
  intros Hh. unfold free_of. revert i.
  induction s as [|c s IH]; intros i Hs; simpl.
  - destruct (run r i "" _) as [[j rest]|] eqn:E; [| done].
    by destruct (run_head _ _ _ _ _ _ Hh E) as (? & ? & ? & ?).
  - simpl in Hs. apply andb_prop in Hs as [Hc Hs].
    destruct (run r i (String c s) _) as [[j rest]|] eqn:E.
    + destruct (run_head _ _ _ _ _ _ Hh E) as (? & ? & [= <- <-] & Hp).
      by rewrite Hp in Hc.
    + by apply IH.
Qed.

Lemma test_g_head_none r p lastIndex s :
  head_class r = Some p -> free_of p s = true ->
  test_g r lastIndex s = (false, O).
Proof.
  intros Hh Hs. unfold test_g.
  destruct (String.length s <? lastIndex)%nat; [done |].
  rewrite (exec_head_none r p); [done | done |].
  by apply all_chars_skip.
Qed.

Lemma replace_from_none fuel r by_ i s :
  exec r i s = None -> replace_from fuel r by_ i s = s.
Proof. intros H. destruct fuel; simpl; [done | by rewrite H]. Qed.

Lemma replace_all_none r by_ s : exec r 0 s = None -> replace_all r by_ s = s.
Proof. apply replace_from_none. Qed.

Lemma count_matches_none r s : exec r 0 s = None -> count_matches r s = O.
Proof. intros H. unfold count_matches. simpl. by rewrite H. Qed.

(** The leftmost match of a single character class. *)
Lemma exec_chr p i s :
  match exec (Chr p) i s with
  | None => free_of p s = true
  | Some (b, e, rest) =>
      exists pre c, s = pre ++ String c rest /\ p c = true
                    /\ free_of p pre = true
                    /\ b = (i + String.length pre)%nat /\ e = S b
  end.
Proof.
  revert i. induction s as [|c s IH]; intros i; simpl; [done |].
  destruct (p c) eqn:Hc.
  - exists "", c. simpl. repeat split; try done; lia.
  - specialize (IH (S i)). destruct (exec (Chr p) (S i) s) as [[[b e] rest]|].
    + destruct IH as (pre & d & -> & Hd & Hpre & -> & ->).
      exists (String c pre), d. unfold free_of in *. simpl. rewrite Hc, Hpre.
      repeat split; try done; lia.
    + unfold free_of in *. simpl. by rewrite Hc.
Qed.

Lemma subst_class_free p by_ s : free_of p s = true -> subst_class p by_ s = s.
Proof.
  unfold free_of. induction s as [|c s IH]; simpl; [done |].
  intros [Hc Hs]%andb_prop. apply negb_true_iff in Hc. by rewrite Hc, IH.
Qed.

Lemma subst_class_app p by_ s t :
  subst_class p by_ (s ++ t) = subst_class p by_ s ++ subst_class p by_ t.
Proof.
  induction s as [|c s IH]; simpl; [done |].
  destruct (p c); simpl; rewrite IH; [by rewrite append_assoc | done].
Qed.

Lemma count_class_app p s t :
  count_class p (s ++ t) = (count_class p s + count_class p t)%nat.
Proof.
  induction s as [|c s IH]; simpl; [done |]. destruct (p c); simpl; by rewrite IH.
Qed.

Lemma count_class_free p s : free_of p s = true -> count_class p s = O.
Proof.
  unfold free_of. induction s as [|c s IH]; simpl; [done |].
  intros [Hc Hs]%andb_prop. apply negb_true_iff in Hc. by rewrite Hc, IH.
Qed.

(** Replacing every match of a character class, and counting them. *)
Lemma replace_from_chr p by_ fuel i s :
  (String.length s < fuel)%nat ->
  replace_from fuel (Chr p) by_ i s = subst_class p by_ s.
Proof.
  revert i s. induction fuel as [|fuel IH]; intros i s Hlen; [lia |].
  simpl. pose proof (exec_chr p i s) as H.
  destruct (exec (Chr p) i s) as [[[b e] rest]|].
  - destruct H as (pre & c & -> & Hc & Hpre & -> & ->).
    destruct (Nat.ltb_spec (i + String.length pre) (S (i + String.length pre)));
      [| lia].
    replace (i + String.length pre - i)%nat with (String.length pre) by lia.
    rewrite take_app, subst_class_app, (subst_class_free p by_ pre Hpre).
    simpl. rewrite Hc. rewrite IH; [done |].
    rewrite length_append in Hlen. simpl in Hlen. lia.
  - by rewrite subst_class_free.
Qed.

Lemma replace_all_chr p by_ s : replace_all (Chr p) by_ s = subst_class p by_ s.
Proof. apply replace_from_chr. lia. Qed.

Lemma count_from_chr p fuel i s :
  (String.length s < fuel)%nat -> count_from fuel (Chr p) i s = count_class p s.
Proof.
  revert i s. induction fuel as [|fuel IH]; intros i s Hlen; [lia |].
  simpl. pose proof (exec_chr p i s) as H.
  destruct (exec (Chr p) i s) as [[[b e] rest]|].
  - destruct H as (pre & c & -> & Hc & Hpre & -> & ->).
    destruct (Nat.ltb_spec (i + String.length pre) (S (i + String.length pre)));
      [| lia].
    rewrite count_class_app, (count_class_free p pre Hpre). simpl. rewrite Hc.
    rewrite IH; [done |].
    rewrite length_append in Hlen. simpl in Hlen. lia.
  - by rewrite count_class_free.
Qed.

Lemma count_matches_chr p s : count_matches (Chr p) s = count_class p s.
Proof. apply count_from_chr. lia. Qed.

End RegExpFacts.

(** ** The validator of tool responses *)

Module ValidatorFacts.
Import JS RegExp TextSpec ValidatorSpec StringFacts RegExpFacts FrontendValidator.
Local Arguments String.append !_ _ / : simpl nomatch.

(** *** Repetition of a character class *)

(** Greedy repetition takes the whole run when what follows matches. *)
Lemma rounds_class_greedy {R} p (k : nat -> string -> option R) s1 s2 n i x :
  all_chars p s1 = true -> Regex.stops p s2 ->
  (String.length (s1 ++ s2) <= n)%nat ->
  k (i + String.length s1)%nat s2 = Some x ->
  rounds (run (Chr p)) true k n i (s1 ++ s2) = Some x.
Proof.
  revert n i. induction s1 as [|c s1 IH]; intros n i Hall Hstop Hlen Hk.
  - change ("" ++ s2) with s2. simpl in Hk.
    replace (i + 0)%nat with i in Hk by lia.
    destruct n as [|n]; [by rewrite rounds_O |].
    rewrite rounds_S. cbv zeta.
    destruct s2 as [|d s2]; [by rewrite run_Chr_nil |].
    simpl in Hstop. by rewrite run_Chr, Hstop.
  - simpl in Hall. apply andb_prop in Hall as [Hc Hall].
    change (String c s1 ++ s2) with (String c (s1 ++ s2)) in *.
    simpl in Hlen. destruct n as [|n]; [lia |].
    rewrite rounds_S. cbv zeta. rewrite run_Chr, Hc.
    destruct (Nat.ltb_spec (String.length (s1 ++ s2))
                (String.length (String c (s1 ++ s2)))) as [_ | Hge];
      [| simpl in Hge; lia].
    rewrite (IH n (S i)); [done | done | done | lia |].
    by replace (S i + String.length s1)%nat
      with (i + String.length (String c s1))%nat by (simpl; lia).
Qed.

(** Repetition fails when the rest fails after every prefix of the run. *)
Lemma rounds_class_none {R} p (k : nat -> string -> option R) s1 s2 n i :
  all_chars p s1 = true -> Regex.stops p s2 ->
  (forall j, (j <= String.length s1)%nat ->
             k (i + j)%nat (skip j s1 ++ s2) = None) ->
  rounds (run (Chr p)) true k n i (s1 ++ s2) = None.
Proof.
  revert n i. induction s1 as [|c s1 IH]; intros n i Hall Hstop Hk.
  - pose proof (Hk O (Nat.le_0_l _)) as H0. simpl in H0.
    replace (i + 0)%nat with i in H0 by lia.
    change ("" ++ s2) with s2 in *.
    destruct n as [|n]; [by rewrite rounds_O, H0 |].
    rewrite rounds_S. cbv zeta.
    destruct s2 as [|d s2]; [by rewrite run_Chr_nil |].
    simpl in Hstop. by rewrite run_Chr, Hstop.
  - simpl in Hall. apply andb_prop in Hall as [Hc Hall].
    pose proof (Hk O (Nat.le_0_l _)) as H0. simpl in H0.
    replace (i + 0)%nat with i in H0 by lia.
    change (String c s1 ++ s2) with (String c (s1 ++ s2)) in *.
    destruct n as [|n]; [by rewrite rounds_O, H0 |].
    rewrite rounds_S. cbv zeta. rewrite run_Chr, Hc.
    destruct (String.length (s1 ++ s2) <? String.length (String c (s1 ++ s2)))%nat;
      [| done].
    rewrite (IH n (S i)); [done | done | done |].
    intros j Hj. specialize (Hk (S j)). simpl in Hk.
    replace (S i + j)%nat with (i + S j)%nat by lia. apply Hk. lia.
Qed.

(** A pattern anchored at the start matches at index 0 only. *)
Lemma exec_anchored r s :
  exec (Seq Bos r) 0 s
  = match run r 0 s (fun j rest => Some (j, rest)) with
    | Some (j, rest) => Some (O, j, rest)
    | None => None
    end.
Proof.
  assert (forall i s, exec (Seq Bos r) (S i) s = None) as Hlater.
  { clear s. intros i s. revert i. induction s as [|c s IH]; intros i; simpl; [done |].
    apply IH. }
  destruct s as [|c s]; simpl.
  - by destruct (run r 0 "" _) as [[? ?]|].
  - destruct (run r 0 (String c s) _) as [[? ?]|]; [done | apply Hlater].
Qed.

(** A run of the class up to the end of the text. *)
Lemma rounds_class_to_end {R} p (k : nat -> string -> option R) n i s :
  (String.length s <= n)%nat ->
  rounds (run (Chr p)) true (fun i' s' => run Eos i' s' k) n i s
  = if all_chars p s then k (i + String.length s)%nat "" else None.
Proof.
  revert n i. induction s as [|c s IH]; intros n i Hlen.
  - simpl all_chars. simpl String.length. replace (i + 0)%nat with i by lia.
    destruct n as [|n]; [by rewrite rounds_O |].
    by rewrite rounds_S.
  - simpl in Hlen. destruct n as [|n]; [lia |].
    rewrite rounds_S. cbv zeta. rewrite run_Chr. cbn [all_chars].
    destruct (p c); [| done]. cbn [andb].
    destruct (Nat.ltb_spec (String.length s) (String.length (String c s)))
      as [_ | Hge]; [| simpl in Hge; lia].
    rewrite IH by lia.
    replace (S i + String.length s)%nat
      with (i + String.length (String c s))%nat by (simpl; lia).
    by destruct (all_chars p s); [destruct (k _ _) |].
Qed.

(** [MATH_PATTERN] accepts the texts that are not empty and made of
    characters of its class. *)
Lemma test_MATH_PATTERN s :
  test MATH_PATTERN s = negb (String.eqb s "") && all_chars math_char s.
Proof.
  unfold test, MATH_PATTERN. cbn [seq]. rewrite exec_anchored.
  unfold plus. rewrite !run_Seq. destruct s as [|c s]; [done |].
  rewrite run_Chr. cbn [all_chars]. destruct (math_char c); [| done].
  rewrite run_Star, rounds_class_to_end by lia.
  by destruct (all_chars math_char s).
Qed.

(** *** Sanitizing *)

Lemma free_of_app p s t : free_of p (s ++ t) = free_of p s && free_of p t.
Proof. apply DemoRunFacts.all_chars_app. Qed.

Lemma free_of_subst_removes p by_ s :
  free_of p by_ = true -> free_of p (subst_class p by_ s) = true.
Proof.
  intros Hby. induction s as [|c s IH]; simpl; [done |].
  destruct (p c) eqn:Hc.
  - by rewrite free_of_app, Hby, IH.
  - unfold free_of in *. simpl. by rewrite Hc, IH.
Qed.

Lemma free_of_subst_keeps q p by_ s :
  free_of q by_ = true -> free_of q s = true ->
  free_of q (subst_class p by_ s) = true.
Proof.
  intros Hby. induction s as [|c s IH]; simpl; [done |].
  unfold free_of in *. simpl. intros [Hc Hs]%andb_prop.
  destruct (p c).
  - rewrite DemoRunFacts.all_chars_app, Hby. by apply IH.
  - simpl. rewrite Hc. by apply IH.
Qed.

Lemma all_chars_trimStart p s :
  all_chars p s = true -> all_chars p (trimStart s) = true.
Proof.
  induction s as [|c s IH]; simpl; [done |]. intros [Hc Hs]%andb_prop.
  destruct (is_space c); [by apply IH | simpl; by rewrite Hc, Hs].
Qed.

Lemma all_chars_trimEnd p s :
  all_chars p s = true -> all_chars p (trimEnd s) = true.
Proof.
  induction s as [|c s IH]; simpl; [done |]. intros [Hc Hs]%andb_prop.
  specialize (IH Hs). destruct (trimEnd s) as [|d r].
  - destruct (is_space c); simpl; [done | by rewrite Hc].
  - cbn [all_chars] in *. by rewrite Hc, IH.
Qed.

Lemma free_of_trim p s : free_of p s = true -> free_of p (trim s) = true.
Proof. intros H. by apply all_chars_trimEnd, all_chars_trimStart. Qed.

Lemma free_of_one_of cs s :
  (forall x, In x cs -> free_of (Ascii.eqb x) s = true) ->
  free_of (one_of cs) s = true.
Proof.
  unfold free_of. induction s as [|c s IH]; simpl; [done |].
  intros H. apply andb_true_intro. split.
  - apply negb_true_iff. unfold one_of.
    destruct (existsb (Ascii.eqb c) cs) eqn:E; [| done].
    apply existsb_exists in E as (x & Hin & Hx). apply Ascii.eqb_eq in Hx as <-.
    specialize (H c Hin). apply andb_prop in H as [H _].
    by rewrite Ascii.eqb_refl in H.
  - apply IH. intros x Hin. specialize (H x Hin). by apply andb_prop in H as [_ H].
Qed.

Lemma sanitizeString_long input limit lastIndexes :
  (limit < String.length input)%nat ->
  sanitizeString input (Some limit) lastIndexes
  = (Throw ("Input too long: " ++ show (String.length input) ++ " > "
            ++ show limit), lastIndexes).
Proof.
  intros Hlong. unfold sanitizeString. cbn [default from_option id].
  by apply Nat.ltb_lt in Hlong as ->.
Qed.

Lemma sanitizeString_short input limit lastIndexes :
  (String.length input <= limit)%nat ->
  exists clean, sanitizeString input (Some limit) lastIndexes = (Ok clean, fresh).
Proof.
  intros Hshort. unfold sanitizeString. cbn [default from_option id].
  apply Nat.ltb_ge in Hshort as ->. by eexists.
Qed.

(** Property X3.
    [sanitizeString] throws exactly when the text is longer than the
    limit (500 unless given), leaving the patterns as they were;
    otherwise it returns a text that holds none of the characters
    [<], [>], the double quote and the apostrophe, and leaves every
    [lastIndex] at 0. *)
Theorem sanitizeString_escapes (input : string) (maxLength : option nat)
        (lastIndexes : list nat) :
  let limit := default 500%nat maxLength in
  ((limit < String.length input)%nat ->
   sanitizeString input maxLength lastIndexes
   = (Throw ("Input too long: " ++ show (String.length input) ++ " > "
             ++ show limit), lastIndexes))
  /\ ((String.length input <= limit)%nat ->
      exists clean,
        sanitizeString input maxLength lastIndexes = (Ok clean, fresh)
        /\ free_of (one_of ["<"; ">"; double_quote; "'"]%char) clean = true).
Proof.
  intros limit. unfold sanitizeString. fold limit. split.
  - intros Hlong. by apply Nat.ltb_lt in Hlong as ->.
  - intros Hshort. apply Nat.ltb_ge in Hshort as ->.
    eexists. split; [reflexivity |].
    unfold chr. rewrite !replace_all_chr.
    apply free_of_trim, free_of_one_of.
    intros x [<- | [<- | [<- | [<- | []]]]].
    + do 3 (apply free_of_subst_keeps; [done |]). by apply free_of_subst_removes.
    + do 2 (apply free_of_subst_keeps; [done |]). by apply free_of_subst_removes.
    + do 1 (apply free_of_subst_keeps; [done |]). by apply free_of_subst_removes.
    + by apply free_of_subst_removes.
Qed.

(** *** Validated expressions *)

Lemma plain_of_math c :
  math_char c = true -> Ascii.eqb times c = false -> Ascii.eqb divide c = false ->
  plain_math_char c = true.
Proof.
  destruct c as [[] [] [] [] [] [] [] []]; vm_compute; by intros.
Qed.

Lemma all_plain_of_math s :
  all_chars math_char s = true ->
  free_of (Ascii.eqb times) s = true -> free_of (Ascii.eqb divide) s = true ->
  all_chars plain_math_char s = true.
Proof.
  unfold free_of. induction s as [|c s IH]; simpl; [done |].
  intros [Hc Hs]%andb_prop [Ht Hts]%andb_prop [Hd Hds]%andb_prop.
  apply negb_true_iff in Ht, Hd. by rewrite plain_of_math, IH.
Qed.

Lemma valid_cleaned_nonempty expression lastIndexes v lastIndexes' :
  validateMathExpression expression lastIndexes = (v, lastIndexes') ->
  isValid v = true ->
  exists cleaned, sanitizedData v = Some cleaned /\ cleaned <> "".
Proof.
  unfold validateMathExpression.
  destruct (MAX_PROBLEM_LENGTH <? String.length expression)%nat;
    [by intros [= <- <-] |].
  rewrite test_MATH_PATTERN.
  match goal with
  | |- context [negb (String.eqb ?c "") && all_chars math_char ?c] =>
      set (cleaned := c);
      destruct (negb (String.eqb cleaned "") && all_chars math_char cleaned)
        eqn:Hmath
  end.
  - destruct (if _ : bool then first_dangerous _ _ _ else _) as [? ?].
    intros [= <- <-] _. exists cleaned. split; [done |].
    apply andb_prop in Hmath as [Hne _]. intros E. by rewrite E in Hne.
  - rewrite andb_false_r. destruct (_ =? _)%nat; by intros [= <- <-].
Qed.

(** Property X4.
    What [validateMathExpression] guarantees of an expression it
    declares valid: the expression has at most 100 characters, there is
    no error message, and the cleaned text it returns is not empty, is
    made of digits, white space and the signs + - * / ( ) . = ? only
    (the signs [×] and [÷] have been replaced), and holds as many opening
    as closing parentheses. *)
Theorem validateMathExpression_valid
        (expression : string) (lastIndexes : list nat)
        (v : ValidationResult string) (lastIndexes' : list nat) :
  validateMathExpression expression lastIndexes = (v, lastIndexes') ->
  isValid v = true ->
  (String.length expression <= 100)%nat
  /\ errors v = []
  /\ exists cleaned,
       sanitizedData v = Some cleaned
       /\ cleaned <> ""
       /\ all_chars plain_math_char cleaned = true
       /\ count_class (Ascii.eqb "(") cleaned = count_class (Ascii.eqb ")") cleaned.
Proof.
  unfold validateMathExpression, MAX_PROBLEM_LENGTH.
  destruct (Nat.ltb_spec 100 (String.length expression)) as [Hlong | Hshort];
    [by intros [= <- <-] |].
  set (cleaned0 := replace_all script_element "" expression).
  unfold chr. rewrite !replace_all_chr, !count_matches_chr, test_MATH_PATTERN.
  set (cleaned := subst_class (Ascii.eqb divide) "/"
                    (subst_class (Ascii.eqb times) "*" cleaned0)).
  destruct (negb (String.eqb cleaned "") && all_chars math_char cleaned) eqn:Hmath.
  2:{ rewrite andb_false_r.
      destruct (count_class _ cleaned =? count_class _ cleaned)%nat;
        by intros [= <- <-]. }
  destruct (negb (existsb _ MATH_EQUATION_PATTERNS) && true);
    [destruct (first_dangerous _ _ _) as [[] ?] |];
    (destruct (Nat.eqb_spec (count_class (Ascii.eqb "(") cleaned)
                 (count_class (Ascii.eqb ")") cleaned)) as [Hp | Hp];
     intros [= <- <-]; cbn; try done; intros _);
    (split; [done |]; split; [done |]; exists cleaned; split; [done |]);
    apply andb_prop in Hmath as [Hne Hall];
    (split; [intros E; by rewrite E in Hne |]); (split; [| done]);
    (apply all_plain_of_math; [done | |]).
  all: subst cleaned.
  all: first [ by apply free_of_subst_removes
             | apply free_of_subst_keeps; [done |]; by apply free_of_subst_removes ].
Qed.

(** The expression [(4 × 3) = ?], with the sign [×] as code unit 215. *)
Lemma validateMathExpression_valid_witness :
  let expression := "(4 " ++ String times " 3) = ?" in
  exists cleaned,
    sanitizedData (fst (validateMathExpression expression fresh)) = Some cleaned
    /\ all_chars plain_math_char cleaned = true.
Proof.
  intros expression.
  destruct (validateMathExpression_valid expression fresh
              (fst (validateMathExpression expression fresh))
              (snd (validateMathExpression expression fresh)))
    as (_ & _ & cleaned & Hc & _ & Hall & _).
  - by destruct (validateMathExpression _ _).
  - vm_compute. reflexivity.
  - by exists cleaned.
Defined.

(** *** Recognized formats *)

Lemma run_star_class {R} p (k : nat -> string -> option R) s1 s2 i x :
  all_chars p s1 = true -> Regex.stops p s2 ->
  k (i + String.length s1)%nat s2 = Some x ->
  run (star (Chr p)) i (s1 ++ s2) k = Some x.
Proof.
  intros. unfold star. rewrite run_Star. by apply rounds_class_greedy.
Qed.

Lemma run_plus_class {R} p (k : nat -> string -> option R) s1 s2 i x :
  s1 <> "" -> all_chars p s1 = true -> Regex.stops p s2 ->
  k (i + String.length s1)%nat s2 = Some x ->
  run (plus (Chr p)) i (s1 ++ s2) k = Some x.
Proof.
  intros Hne Hall Hstop Hk. destruct s1 as [|c s1]; [done |].
  simpl in Hall. apply andb_prop in Hall as [Hc Hall].
  unfold plus. rewrite run_Seq.
  change (String c s1 ++ s2) with (String c (s1 ++ s2)).
  rewrite run_Chr, Hc, run_Star. apply rounds_class_greedy; try done.
  by replace (S i + String.length s1)%nat
    with (i + String.length (String c s1))%nat by (simpl; lia).
Qed.

Lemma run_plus_class_end {R} p (k : nat -> string -> option R) s i x :
  s <> "" -> all_chars p s = true ->
  k (i + String.length s)%nat "" = Some x ->
  run (plus (Chr p)) i s k = Some x.
Proof.
  intros Hne Hall Hk. rewrite <- (append_nil_r s) at 1.
  by apply run_plus_class.
Qed.

Lemma digit_not_operator c : is_digit c = true -> operator_char c = false.
Proof. destruct c as [[] [] [] [] [] [] [] []]; vm_compute; by intros. Qed.

Lemma space_not_digit c : is_space c = true -> is_digit c = false.
Proof. destruct c as [[] [] [] [] [] [] [] []]; vm_compute; by intros. Qed.

Lemma operator_not_digit c : operator_char c = true -> is_digit c = false.
Proof. destruct c as [[] [] [] [] [] [] [] []]; vm_compute; by intros. Qed.

Lemma operator_not_space c : operator_char c = true -> is_space c = false.
Proof. destruct c as [[] [] [] [] [] [] [] []]; vm_compute; by intros. Qed.

Lemma normalized_operator c :
  operator_char c = true ->
  operator_char (normalized c) = true
  /\ subst_class (Ascii.eqb divide) "/"
       (subst_class (Ascii.eqb times) "*" (String c ""))
     = String (normalized c) "".
Proof. destruct c as [[] [] [] [] [] [] [] []]; vm_compute; by intros. Qed.

Section BinaryProblem.
Variables (d1 w1 : string) (op : ascii) (w2 d2 : string).
Hypothesis Hd1 : d1 <> "".
Hypothesis Hdigits1 : all_chars is_digit d1 = true.
Hypothesis Hd2 : d2 <> "".
Hypothesis Hdigits2 : all_chars is_digit d2 = true.
Hypothesis Hw1 : all_chars is_space w1 = true.
Hypothesis Hw2 : all_chars is_space w2 = true.
Hypothesis Hop : operator_char op = true.

(** The second of the recognized formats matches the whole text. *)
Lemma test_binary_problem :
  test (seq [Bos; digits; spaces; Chr operator_char; spaces; digits; Eos])
       (binary_problem d1 w1 op w2 d2) = true.
Proof.
  unfold test, binary_problem. cbn [seq]. rewrite exec_anchored.
  assert (exists j,
            run (Seq digits (Seq spaces (Seq (Chr operator_char)
                   (Seq spaces (Seq digits Eos))))) 0
                (d1 ++ w1 ++ String op (w2 ++ d2))
                (fun j rest => Some (j, rest)) = Some (j, "")) as [j ->]; [| done].
  eexists. rewrite run_Seq. unfold digits at 1.
  apply run_plus_class; [done | done | |].
  { destruct w1 as [|c w]; simpl.
    - by apply operator_not_digit.
    - simpl in Hw1. apply andb_prop in Hw1 as [Hc _]. by apply space_not_digit. }
  rewrite run_Seq. unfold spaces at 1.
  apply run_star_class; [done | simpl; by apply operator_not_space |].
  rewrite run_Seq, run_Chr, Hop, run_Seq. unfold spaces.
  apply run_star_class; [done | |].
  { destruct d2 as [|c d]; [done |]. simpl in *.
    apply andb_prop in Hdigits2 as [Hc _].
    destruct (is_space c) eqn:E; [| done].
    apply space_not_digit in E. congruence. }
  rewrite run_Seq. unfold digits.
  apply run_plus_class_end; [done | done |]. reflexivity.
Qed.

End BinaryProblem.

Lemma all_chars_or_l (p q : ascii -> bool) s :
  all_chars p s = true -> all_chars (fun c => p c || q c) s = true.
Proof. apply DemoRunFacts.all_chars_impl. intros c ->. done. Qed.

(** Property X5.
    A problem of the form "a op b" -- two runs of digits around one of
    the operators + - * / × ÷, with optional white space -- of at most
    100 characters is declared valid whatever the state of the patterns,
    which it leaves as it is; the text returned is the problem with [×]
    replaced by [*] and [÷] by [/]. *)
Theorem validateMathExpression_binary_problem
        (d1 w1 : string) (op : ascii) (w2 d2 : string) (lastIndexes : list nat) :
  d1 <> "" -> all_chars is_digit d1 = true ->
  d2 <> "" -> all_chars is_digit d2 = true ->
  all_chars is_space w1 = true -> all_chars is_space w2 = true ->
  operator_char op = true ->
  (String.length (binary_problem d1 w1 op w2 d2) <= 100)%nat ->
  validateMathExpression (binary_problem d1 w1 op w2 d2) lastIndexes
  = ({| isValid := true; errors := []; warnings := [];
        sanitizedData := Some (binary_problem d1 w1 (normalized op) w2 d2) |},
     lastIndexes).
Proof.
  intros Hd1 Hdig1 Hd2 Hdig2 Hw1 Hw2 Hop Hlen.
  set (simple := fun c => is_digit c || is_space c || operator_char c).
  assert (forall o, operator_char o = true ->
            all_chars simple (binary_problem d1 w1 o w2 d2) = true) as Hsimple.
  { intros o Ho. unfold binary_problem.
    rewrite !DemoRunFacts.all_chars_app. cbn [all_chars]. rewrite DemoRunFacts.all_chars_app.
    assert (forall s, all_chars is_digit s = true -> all_chars simple s = true)
      as Hd by (intros s; apply DemoRunFacts.all_chars_impl; unfold simple; by intros c ->).
    assert (forall s, all_chars is_space s = true -> all_chars simple s = true)
      as Hs by (intros s; apply DemoRunFacts.all_chars_impl; unfold simple; intros c ->;
                by rewrite orb_true_r).
    rewrite (Hd d1), (Hd d2), (Hs w1), (Hs w2) by done.
    unfold simple at 1. rewrite Ho. by rewrite !orb_true_r. }
  assert (forall (h : ascii -> bool) s,
            (forall c, simple c = true -> h c = false) ->
            all_chars simple s = true -> free_of h s = true) as Hfree.
  { intros h s Hh. apply DemoRunFacts.all_chars_impl. intros c Hc. by rewrite (Hh c Hc). }
  unfold validateMathExpression, MAX_PROBLEM_LENGTH.
  apply Nat.ltb_ge in Hlen as ->.
  (* no script element *)
  rewrite (replace_all_none script_element).
  2:{ eapply exec_head_none; [reflexivity |].
      apply Hfree; [| by apply Hsimple].
      intros c. destruct c as [[] [] [] [] [] [] [] []]; vm_compute; by intros. }
  (* the operator is normalized *)
  unfold chr. rewrite !replace_all_chr.
  assert (subst_class (Ascii.eqb divide) "/"
            (subst_class (Ascii.eqb times) "*" (binary_problem d1 w1 op w2 d2))
          = binary_problem d1 w1 (normalized op) w2 d2) as ->.
  { assert (forall s, all_chars is_digit s = true \/ all_chars is_space s = true ->
              subst_class (Ascii.eqb divide) "/"
                (subst_class (Ascii.eqb times) "*" s) = s) as Hid.
    { intros s Hs.
      assert (forall x, x = times \/ x = divide -> free_of (Ascii.eqb x) s = true)
        as Hx.
      { intros x Hx. destruct Hs as [Hs | Hs];
          (eapply DemoRunFacts.all_chars_impl; [| exact Hs]); intros c Hc;
          destruct Hx as [-> | ->]; revert Hc;
          destruct c as [[] [] [] [] [] [] [] []]; vm_compute; by intros. }
      rewrite (subst_class_free _ _ s) by (apply Hx; by left).
      apply subst_class_free, Hx. by right. }
    unfold binary_problem.
    change (String op (w2 ++ d2)) with (String op "" ++ w2 ++ d2).
    rewrite !subst_class_app.
    rewrite (Hid d1), (Hid w1), (Hid w2), (Hid d2) by auto.
    by destruct (normalized_operator op Hop) as [_ ->]. }
  destruct (normalized_operator op Hop) as [Hop' _].
  set (cleaned := binary_problem d1 w1 (normalized op) w2 d2).
  (* it is a mathematical expression of a recognized format *)
  rewrite test_MATH_PATTERN.
  assert (negb (String.eqb cleaned "") && all_chars math_char cleaned = true) as ->.
  { apply andb_true_intro. split.
    - subst cleaned. unfold binary_problem. by destruct d1.
    - eapply DemoRunFacts.all_chars_impl; [| by apply (Hsimple _ Hop')].
      intros c. destruct c as [[] [] [] [] [] [] [] []]; vm_compute; by intros. }
  assert (existsb (fun pattern => test pattern cleaned) MATH_EQUATION_PATTERNS
          = true) as ->.
  { pose proof (test_binary_problem d1 w1 (normalized op) w2 d2
                  Hd1 Hdig1 Hd2 Hdig2 Hw1 Hw2 Hop') as Hrec.
    fold cleaned in Hrec.
    unfold MATH_EQUATION_PATTERNS. cbn [existsb]. rewrite Hrec.
    by rewrite orb_true_r. }
  cbn [negb andb].
  (* it has no parenthesis *)
  rewrite !count_matches_chr, !count_class_free.
  - done.
  - apply Hfree; [| by apply Hsimple].
    intros c. destruct c as [[] [] [] [] [] [] [] []]; vm_compute; by intros.
  - apply Hfree; [| by apply Hsimple].
    intros c. destruct c as [[] [] [] [] [] [] [] []]; vm_compute; by intros.
Qed.

(** The problem [12 ÷ 4], with the sign [÷] as code unit 247. *)
Lemma validateMathExpression_binary_problem_witness :
  validateMathExpression (binary_problem "12" " " divide " " "4") [0; 7; 0; 0; 3; 0]%nat
  = ({| isValid := true; errors := []; warnings := [];
        sanitizedData := Some "12 / 4" |}, [0; 7; 0; 0; 3; 0]%nat).
Proof.
  apply (validateMathExpression_binary_problem "12" " " divide " " "4");
    first [ reflexivity | discriminate | vm_compute; lia ].
Defined.

(** *** The state of the patterns *)

Lemma star_class_stops {R} p (k : nat -> string -> option R) i s :
  Regex.stops p s -> run (star (Chr p)) i s k = k i s.
Proof.
  intros Hstop. unfold star. rewrite run_Star.
  destruct s as [|c s]; [by rewrite rounds_O |].
  simpl in Hstop. simpl String.length. by rewrite rounds_S, run_Chr, Hstop.
Qed.

Lemma exec_cons r i c s :
  exec r i (String c s)
  = match run r i (String c s) (fun j rest => Some (j, rest)) with
    | Some (j, rest) => Some (i, j, rest)
    | None => exec r (S i) s
    end.
Proof. reflexivity. Qed.

Section Dashes.
Variables d1 d2 : string.
Hypothesis Hdigits1 : all_chars is_digit d1 = true.
Hypothesis Hdigits2 : all_chars is_digit d2 = true.

Lemma dashes_chars : all_chars dash_or_digit (dashed d1 d2) = true.
Proof.
  unfold dashed. rewrite !DemoRunFacts.all_chars_app.
  assert (forall s, all_chars is_digit s = true ->
                    all_chars dash_or_digit s = true) as H.
  { intros s. apply DemoRunFacts.all_chars_impl. unfold dash_or_digit. by intros c ->. }
  by rewrite (H d1), (H d2).
Qed.

Lemma dashes_free (h : ascii -> bool) :
  (forall c, dash_or_digit c = true -> h c = false) ->
  free_of h (dashed d1 d2) = true.
Proof.
  intros Hh. eapply DemoRunFacts.all_chars_impl; [| apply dashes_chars].
  intros c Hc. by rewrite (Hh c Hc).
Qed.

Lemma dashes_head c s : (dashed d1 d2) = String c s -> dash_or_digit c = true.
Proof.
  intros H. pose proof dashes_chars as Hall. rewrite H in Hall.
  simpl in Hall. by apply andb_prop in Hall as [? _].
Qed.

(** No equation pattern matches: after the first operand and the first
    minus sign a digit is expected, and the second minus sign is found. *)
Lemma equation_prefix_none {R} rest (k : nat -> string -> option R) i :
  run (Seq digits (Seq spaces (Seq (Chr operator_char)
         (Seq spaces (Seq digits rest))))) i (dashed d1 d2) k = None.
Proof.
  assert (forall j,
            run (Seq spaces (Seq digits rest)) j (String "-" d2) k = None) as Hsecond.
  { intros j. rewrite run_Seq. unfold spaces. rewrite star_class_stops by done.
    unfold digits, plus. by rewrite !run_Seq, run_Chr. }
  assert (forall t j, all_chars is_digit t = true ->
            run (Seq spaces (Seq (Chr operator_char) (Seq spaces (Seq digits rest))))
                j (t ++ "--" ++ d2) k = None) as Hafter.
  { intros t j Ht. destruct t as [|c t].
    - change ("" ++ "--" ++ d2) with (String "-" (String "-" d2)).
      rewrite run_Seq. unfold spaces at 1. rewrite star_class_stops by done.
      rewrite run_Seq, run_Chr. change (operator_char "-") with true. cbv iota.
      apply Hsecond.
    - simpl in Ht. apply andb_prop in Ht as [Hc _].
      change (String c t ++ "--" ++ d2) with (String c (t ++ "--" ++ d2)).
      rewrite run_Seq. unfold spaces at 1. rewrite star_class_stops.
      + by rewrite run_Seq, run_Chr, (digit_not_operator c Hc).
      + simpl. destruct (is_space c) eqn:E; [| done].
        apply space_not_digit in E. congruence. }
  unfold dashed. destruct d1 as [|c d].
  - change ("" ++ "--" ++ d2) with (String "-" (String "-" d2)).
    unfold digits at 1, plus. by rewrite !run_Seq, run_Chr.
  - pose proof Hdigits1 as Hd. simpl in Hd. apply andb_prop in Hd as [Hc Hd].
    change (String c d ++ "--" ++ d2) with (String c (d ++ "--" ++ d2)).
    unfold digits at 1, plus. rewrite !run_Seq, run_Chr, Hc, run_Star.
    apply rounds_class_none; [done | done |].
    intros j Hj. apply Hafter. by apply all_chars_skip.
Qed.

Lemma dashes_not_recognized :
  existsb (fun pattern => test pattern (dashed d1 d2)) MATH_EQUATION_PATTERNS = false.
Proof.
  unfold MATH_EQUATION_PATTERNS, test. cbn [existsb seq].
  rewrite !exec_anchored, !equation_prefix_none.
  destruct (run _ 0 (dashed d1 d2) _) as [[j rest]|] eqn:E; [| done].
  apply run_head with (p := Ascii.eqb "?") in E as (c & s & He & Hc);
    [| reflexivity].
  apply dashes_head in He. apply Ascii.eqb_eq in Hc as <-. discriminate He.
Qed.

Lemma exec_dashes i :
  exec (lit "--") i (dashed d1 d2)
  = Some ((i + String.length d1)%nat, S (S (i + String.length d1)), d2).
Proof.
  unfold dashed. revert i Hdigits1.
  induction d1 as [|c d IH]; intros i Hd.
  - change ("" ++ "--" ++ d2) with (String "-" (String "-" d2)).
    rewrite exec_cons. simpl. by rewrite Nat.add_0_r.
  - simpl in Hd. apply andb_prop in Hd as [Hc Hd].
    change (String c d ++ "--" ++ d2) with (String c (d ++ "--" ++ d2)).
    rewrite exec_cons. cbn [lit]. rewrite run_Seq. unfold chr. rewrite run_Chr.
    assert (Ascii.eqb "-" c = false) as ->.
    { revert Hc. destruct c as [[] [] [] [] [] [] [] []]; vm_compute; by intros. }
    rewrite IH by done. simpl. do 3 f_equal; lia.
Qed.

Lemma dashes_length :
  String.length (dashed d1 d2) = (String.length d1 + 2 + String.length d2)%nat.
Proof. unfold dashed. rewrite !length_append. simpl. lia. Qed.

Lemma dashes_skip_found : skip (S (S (String.length d1))) (dashed d1 d2) = d2.
Proof.
  unfold dashed. clear. induction d1 as [|c d IH]; [done | exact IH].
Qed.

Lemma test_g_dashes_first :
  test_g (lit "--") 0 (dashed d1 d2) = (true, S (S (String.length d1))).
Proof. unfold test_g. simpl skip. by rewrite exec_dashes. Qed.

Lemma test_g_dashes_second :
  test_g (lit "--") (S (S (String.length d1))) (dashed d1 d2) = (false, O).
Proof.
  unfold test_g. rewrite dashes_length, dashes_skip_found.
  destruct (Nat.ltb_spec (String.length d1 + 2 + String.length d2)
              (S (S (String.length d1)))) as [? | _]; [lia |].
  rewrite (exec_head_none (lit "--") (Ascii.eqb "-")); [done | done |].
  eapply DemoRunFacts.all_chars_impl; [| exact Hdigits2].
  intros c. destruct c as [[] [] [] [] [] [] [] []]; vm_compute; by intros.
Qed.

(** The loop over the dangerous patterns: from the initial state the
    pattern of SQL comments is found and its index is left after the
    match; from that state nothing is found and the index is reset. *)
Lemma first_dangerous_dashes :
  first_dangerous DANGEROUS_PATTERNS fresh (dashed d1 d2)
  = (true, [O; O; O; O; S (S (String.length d1)); O])
  /\ first_dangerous DANGEROUS_PATTERNS
       [O; O; O; O; S (S (String.length d1)); O] (dashed d1 d2)
     = (false, fresh).
Proof.
  assert (forall (h : ascii -> bool),
            (forall c, dash_or_digit c = true -> h c = false) ->
            forall r, head_class r = Some h ->
                      test_g r 0 (dashed d1 d2) = (false, O)) as Hnone.
  { intros h Hh r Hr. apply (test_g_head_none r h); [done |]. by apply dashes_free. }
  change fresh with [O; O; O; O; O; O].
  unfold DANGEROUS_PATTERNS. cbn [first_dangerous].
  rewrite (Hnone (fun c => Ascii.eqb (fold_case c) (fold_case "<")) ) ;
    [| intros c; destruct c as [[] [] [] [] [] [] [] []]; vm_compute; by intros
     | reflexivity].
  rewrite (Hnone (fun c => Ascii.eqb (fold_case c) (fold_case "j")));
    [| intros c; destruct c as [[] [] [] [] [] [] [] []]; vm_compute; by intros
     | reflexivity].
  rewrite (Hnone (fun c => Ascii.eqb (fold_case c) (fold_case "o")));
    [| intros c; destruct c as [[] [] [] [] [] [] [] []]; vm_compute; by intros
     | reflexivity].
  rewrite (Hnone (one_of ["'"; double_quote; "`"; ";"]%char));
    [| intros c; destruct c as [[] [] [] [] [] [] [] []]; vm_compute; by intros
     | reflexivity].
  rewrite test_g_dashes_first, test_g_dashes_second.
  rewrite (Hnone (Ascii.eqb "/"));
    [| intros c; destruct c as [[] [] [] [] [] [] [] []]; vm_compute; by intros
     | reflexivity].
  done.
Qed.

(** The expression goes through the cleaning unchanged and is not of a
    recognized format: its validity is decided by the loop. *)
Lemma validateMathExpression_dashes lastIndexes :
  (String.length (dashed d1 d2) <= 100)%nat ->
  validateMathExpression (dashed d1 d2) lastIndexes
  = let '(dangerous, lastIndexes') :=
      first_dangerous DANGEROUS_PATTERNS lastIndexes (dashed d1 d2) in
    ({| isValid := negb dangerous;
        errors := if dangerous
                  then ["Potentially dangerous content detected in: " ++ (dashed d1 d2)]
                  else [];
        warnings := []; sanitizedData := Some (dashed d1 d2) |}, lastIndexes').
Proof.
  intros Hlen. unfold validateMathExpression, MAX_PROBLEM_LENGTH.
  apply Nat.ltb_ge in Hlen as ->.
  rewrite (replace_all_none script_element).
  2:{ eapply exec_head_none; [reflexivity |]. apply dashes_free.
      intros c; destruct c as [[] [] [] [] [] [] [] []]; vm_compute; by intros. }
  unfold chr. rewrite !replace_all_chr, !count_matches_chr.
  rewrite !(subst_class_free _ _ (dashed d1 d2)), !count_class_free, test_MATH_PATTERN;
    try (apply dashes_free;
         intros c; destruct c as [[] [] [] [] [] [] [] []]; vm_compute; by intros).
  rewrite dashes_not_recognized.
  assert (negb (String.eqb (dashed d1 d2) "") && all_chars math_char (dashed d1 d2) = true)
    as ->.
  { apply andb_true_intro. split.
    - unfold dashed. by destruct d1.
    - eapply DemoRunFacts.all_chars_impl; [| apply dashes_chars].
      intros c; destruct c as [[] [] [] [] [] [] [] []]; vm_compute; by intros. }
  cbn [negb andb]. by destruct (first_dangerous _ _ _) as [[] ?].
Qed.

End Dashes.

(** Property X6.
    The answer of [validateMathExpression] depends on the calls made
    before.  For an expression made of two runs of digits around two
    minus signs, such as [12--7]: called when the patterns are in their
    initial state, it reports dangerous content and leaves the index of
    the pattern of SQL comments after the signs; called again on the
    same expression, it finds nothing there, declares the expression
    valid and leaves the patterns in their initial state. *)
Theorem validateMathExpression_alternates (d1 d2 : string) :
  all_chars is_digit d1 = true -> all_chars is_digit d2 = true ->
  let expression := d1 ++ "--" ++ d2 in
  (String.length expression <= 100)%nat ->
  exists between,
    validateMathExpression expression fresh
    = ({| isValid := false;
          errors := ["Potentially dangerous content detected in: " ++ expression];
          warnings := []; sanitizedData := Some expression |}, between)
    /\ validateMathExpression expression between
       = ({| isValid := true; errors := []; warnings := [];
             sanitizedData := Some expression |}, fresh).
Proof.
  intros Hd1 Hd2 expression Hlen.
  destruct (first_dangerous_dashes d1 d2 Hd1 Hd2) as [Hfirst Hsecond].
  exists [O; O; O; O; S (S (String.length d1)); O]. subst expression.
  rewrite !(validateMathExpression_dashes d1 d2 Hd1 Hd2) by done.
  by rewrite Hfirst, Hsecond.
Qed.

Lemma validateMathExpression_alternates_witness :
  exists between,
    isValid (fst (validateMathExpression "12--7" fresh)) = false
    /\ snd (validateMathExpression "12--7" fresh) = between
    /\ isValid (fst (validateMathExpression "12--7" between)) = true.
Proof.
  destruct (validateMathExpression_alternates "12" "7") as (between & H1 & H2);
    [reflexivity | reflexivity | simpl; lia |].
  exists between. simpl in H1, H2. by rewrite H1, H2.
Defined.

End ValidatorFacts.

(** ** Numeric answers and the completion of a tool *)

Module ResponseFacts.
Import JS RegExp TextSpec ValidatorSpec ResponseSpec StringFacts RegExpFacts.
Import FrontendValidator.
Local Arguments String.append !_ _ / : simpl nomatch.

Section WithRendering.
Variable toString : number -> string.

(** The answers of the two validators are valid exactly when they carry
    no error message. *)
Lemma validateMathExpression_errors expression lastIndexes :
  isValid (fst (validateMathExpression expression lastIndexes))
  = no_errors (errors (fst (validateMathExpression expression lastIndexes))).
Proof.
  unfold validateMathExpression.
  destruct (MAX_PROBLEM_LENGTH <? String.length expression)%nat; [done |].
  by destruct (if _ : bool then first_dangerous _ _ _ else _) as [? ?].
Qed.

Lemma checked_cases x :
  let errors :=
    if num_lt MAX_ANSWER_VALUE (num_abs x)
    then ["Answer out of reasonable bounds: " ++ toString x] else [] in
  let errors :=
    if isFinite x then errors
    else (errors ++ [("Invalid numeric value: " ++ toString x)%string])%list in
  no_errors errors = true <-> acceptable x.
Proof.
  unfold acceptable.
  destruct (num_lt MAX_ANSWER_VALUE (num_abs x)), (isFinite x); cbn;
    intuition discriminate.
Qed.

Lemma validateNumericAnswer_errors answer lastIndexes :
  isValid (fst (validateNumericAnswer toString answer lastIndexes))
  = no_errors (errors (fst (validateNumericAnswer toString answer lastIndexes))).
Proof.
  unfold validateNumericAnswer. destruct answer as [x | s | t text]; try done.
  destruct (sanitizeString s (Some 20%nat) lastIndexes) as [[clean | message] st];
    [| done].
  by destruct (isNaN (parseFloat clean)).
Qed.

Lemma validateNumericAnswer_valid answer lastIndexes :
  isValid (fst (validateNumericAnswer toString answer lastIndexes)) = true ->
  exists x,
    sanitizedData (fst (validateNumericAnswer toString answer lastIndexes)) = Some x
    /\ acceptable x.
Proof.
  unfold validateNumericAnswer.
  destruct answer as [x | s | t text]; [| | done].
  - cbn. intros H%checked_cases. by exists x.
  - destruct (sanitizeString s (Some 20%nat) lastIndexes)
      as [[clean | message] st]; [| done].
    destruct (isNaN (parseFloat clean)); [done |].
    cbn. intros H%checked_cases. by eexists.
Qed.

(** Property X7.
    [validateNumericAnswer] declares an answer valid only when it has a
    number for it that is finite and no larger than 1000000 in absolute
    value, and returns that number.  A number is valid exactly under
    that condition, and the patterns are left as they are.  A text of
    more than 20 characters is refused with the message of
    [sanitizeString], the patterns being left as they are; a shorter
    text resets them.  A value of another type is refused. *)
Theorem validateNumericAnswer_bounds (answer : value) (lastIndexes : list nat) :
  let v := fst (validateNumericAnswer toString answer lastIndexes) in
  let lastIndexes' := snd (validateNumericAnswer toString answer lastIndexes) in
  (isValid v = true ->
   exists x, sanitizedData v = Some x /\ acceptable x)
  /\ (forall x, answer = Num x ->
        (isValid v = true <-> acceptable x)
        /\ sanitizedData v = Some x /\ lastIndexes' = lastIndexes)
  /\ (forall s, answer = Str s -> (20 < String.length s)%nat ->
        v = {| isValid := false;
               errors := ["Validation error: Input too long: "
                          ++ show (String.length s) ++ " > 20"];
               warnings := []; sanitizedData := None |}
        /\ lastIndexes' = lastIndexes)
  /\ (forall s, answer = Str s -> (String.length s <= 20)%nat ->
        lastIndexes' = fresh)
  /\ (forall t text, answer = Other t text ->
        isValid v = false /\ errors v = ["Invalid answer type: " ++ t]).
Proof.
  intros v st'. subst v st'.
  split; [| split; [| split; [| split]]]; [| unfold validateNumericAnswer ..].
  - apply validateNumericAnswer_valid.
  - intros x ->. cbn. split; [apply checked_cases | done].
  - intros s -> Hlong.
    by rewrite (ValidatorFacts.sanitizeString_long s 20 lastIndexes Hlong).
  - intros s -> Hshort.
    destruct (ValidatorFacts.sanitizeString_short s 20 lastIndexes Hshort)
      as [clean ->].
    by destruct (isNaN (parseFloat clean)).
  - by intros t text ->.
Qed.

Lemma no_errors_app (e1 e2 : list string) :
  no_errors (e1 ++ e2)%list = no_errors e1 && no_errors e2.
Proof. by destruct e1, e2. Qed.

Lemma no_errors_nil (e : list string) : no_errors e = true -> e = [].
Proof. by destruct e. Qed.

(** Property X8.
    [createSecureResponseMessage] in terms of the two validators, the
    problem being validated first and the answer next.  If one of them
    refuses, the call throws with the error messages of both.  If both
    accept, the message is made of the method as given, of the cleaned
    problem and of the answer: the number when it is not zero, and the
    answer as it was passed, not sanitized, when the number is zero. *)
Theorem createSecureResponseMessage_text
        (method problem : string) (answer : value) (lastIndexes : list nat) :
  exists pv between av lastIndexes',
    validateMathExpression problem lastIndexes = (pv, between)
    /\ validateNumericAnswer toString answer between = (av, lastIndexes')
    /\ snd (createSecureResponseMessage toString method problem answer lastIndexes)
       = lastIndexes'
    /\ (isValid pv = false \/ isValid av = false ->
        fst (createSecureResponseMessage toString method problem answer lastIndexes)
        = Throw ("Validation failed: "
                 ++ String.concat ", " (errors pv ++ errors av)%list))
    /\ (isValid pv = true -> isValid av = true ->
        exists cleaned x,
          sanitizedData pv = Some cleaned /\ sanitizedData av = Some x
          /\ fst (createSecureResponseMessage toString method problem answer
                    lastIndexes)
             = Ok (completion_message method cleaned
                     (if nonzero x then toString x else text_of toString answer))).
Proof.
  unfold createSecureResponseMessage, validateToolResponse.
  pose proof (validateMathExpression_errors problem lastIndexes) as Hpe.
  pose proof (ValidatorFacts.valid_cleaned_nonempty problem lastIndexes) as Hpc.
  destruct (validateMathExpression problem lastIndexes) as [pv between].
  pose proof (validateNumericAnswer_errors answer between) as Hae.
  pose proof (validateNumericAnswer_valid answer between) as Hab.
  exists pv, between.
  destruct (validateNumericAnswer toString answer between) as [av st'].
  cbn [fst snd] in Hpe, Hae, Hab. exists av, st'.
  split; [done |]. split; [done |].
  cbn [isValid errors sanitizedData].
  destruct (isValid pv) eqn:Hp, (isValid av) eqn:Ha.
  - destruct (Hpc pv between eq_refl Hp) as (cleaned & Hc & Hne).
    destruct (Hab eq_refl) as (x & Hx & _).
    cbn [no_errors negb fst snd]. split; [done |].
    split; [intros [? | ?]; done |]. intros _ _.
    exists cleaned, x. rewrite Hc, Hx. repeat split.
    apply String.eqb_neq in Hne as ->. by destruct (nonzero x).
  - symmetry in Hpe. apply no_errors_nil in Hpe. rewrite Hpe.
    destruct (errors av) as [|e es] eqn:Hea; [done |].
    cbn [app no_errors negb fst snd]. done.
  - destruct (errors pv) as [|e es] eqn:Hep; [done |].
    symmetry in Hae. apply no_errors_nil in Hae. rewrite Hae, app_nil_r.
    cbn [app no_errors negb fst snd]. done.
  - destruct (errors pv) as [|e es] eqn:Hep; [done |].
    cbn [app no_errors negb fst snd]. done.
Qed.

(** The practice answer ["0<b>"] to ["5 + 3"] is accepted as the number
    0 and goes into the message as it was typed. *)
Example createSecureResponseMessage_zero :
  fst (createSecureResponseMessage toString "practice" "5 + 3" (Str "0<b>") fresh)
  = Ok (completion_message "practice" "5 + 3" "0<b>").
Proof. vm_compute. reflexivity. Qed.

End WithRendering.

(** *** The completion of a tool *)

Section Completion.
Import ToolDisplay.
Variable toString : number -> string.

(** Property X9.
    [handleToolResponse] answers a completion exactly once, or not at
    all: when the limiter refuses the call (five admissions within the
    last 30 seconds) the user is alerted and [respond] is not called;
    otherwise [respond] is called once -- with the bare signal when a
    non-empty message history comes with the answer, whatever the problem
    and the answer, else with the message of
    [createSecureResponseMessage] when it returns one, and with the
    fallback text when it throws: a problem or an answer that fails
    validation is sent nonetheless, as it was passed. *)
Theorem handleToolResponse_responds
        (now later : Z) (method problem : string) (answer : answer)
        (messageHistory : option (list string)) (w : world) :
  let w' := handleToolResponse toString now later method problem answer
              messageHistory w in
  let live := FrontendRateLimiter.clean now (calls w) in
  ((5 <= length live)%nat ->
   out w' = (out w ++ [Alert "Please wait a moment before submitting another answer."])%list
   /\ lastIndexes w' = lastIndexes w)
  /\ ((length live < 5)%nat ->
      calls w' = (live ++ [now])%list
      /\ (forall m ms, messageHistory = Some (m :: ms) ->
            out w' = (out w ++ [Respond "✅"])%list
            /\ lastIndexes w' = lastIndexes w)
      /\ (messageHistory = None \/ messageHistory = Some [] ->
          out w'
          = (out w
             ++ [Respond
                   match fst (createSecureResponseMessage toString method problem
                                (value_of answer) (lastIndexes w)) with
                   | Ok responseMessage => responseMessage
                   | Throw _ =>
                       fallback_message (text_of toString (value_of answer))
                                        problem
                   end])%list
          /\ lastIndexes w'
             = snd (createSecureResponseMessage toString method problem
                      (value_of answer) (lastIndexes w)))).
Proof.
  intros w' live. subst w'. unfold handleToolResponse.
  unfold FrontendRateLimiter.isAllowed, FrontendRateLimiter.MAX_CALLS. fold live.
  split.
  - intros Hfull. apply Nat.leb_le in Hfull as ->. done.
  - intros Hfree. apply Nat.leb_gt in Hfree as ->. cbn [negb].
    split; [| split].
    + destruct messageHistory as [[|m ms]|]; try done;
        by destruct (createSecureResponseMessage _ _ _ _ _) as [[? | ?] ?].
    + by intros m ms ->.
    + intros [-> | ->];
        by destruct (createSecureResponseMessage _ _ _ _ _) as [[? | ?] ?].
Qed.

End Completion.

End ResponseFacts.

(** ** Dispatch of a validation and the action handler *)

Module ValidationFlowFacts.
Import JS Regex RegexFacts ValidationActions ValidationFlow Spec.

Section WithRendering.
Variable toString : number -> string.

Lemma step_problem_captures problem caps :
  search step_problem problem = Some caps ->
  exists m1 op m3, caps = [m1; op; m3].
Proof.
  intros (m1 & oc & m3 & -> & _)%search_problem_operator. by eauto.
Qed.

Lemma validateNumberLineStep_returns problem operation d :
  (exists v, validateNumberLineStep toString problem operation d = Ok v)
  <-> search step_problem problem <> None.
Proof.
  unfold validateNumberLineStep.
  destruct (search step_problem problem) as [caps|] eqn:E.
  - apply step_problem_captures in E as (m1 & op & m3 & ->).
    split; [done | intros _].
    repeat match goal with
           | |- context [match ?x with _ => _ end] => destruct x
           end; by eexists.
  - split; [intros [v H]; done | done].
Qed.

Lemma validatePracticeStep_returns problem operation d :
  (exists v, validatePracticeStep toString problem operation d = Ok v)
  <-> blank (user_input d) \/ search practice_problem problem <> None.
Proof.
  destruct d as [input step]. cbn [user_input].
  destruct (String.eqb input "" || String.eqb (trim input) "") eqn:Hblank.
  - apply PracticeGraderFacts.blank_test in Hblank.
    split; [by left | intros _].
    unfold validatePracticeStep. cbn [user_input step_number].
    apply PracticeGraderFacts.blank_test in Hblank as ->. by eexists.
  - assert (~ blank input) as Hnb.
    { intros H%PracticeGraderFacts.blank_test. congruence. }
    destruct (search practice_problem problem) as [caps|] eqn:E.
    + split; [by right | intros _].
      pose proof E as (m1 & oc & m3 & -> & _)%search_problem_operator.
      destruct (PracticeGraderFacts.validatePracticeStep_cases toString problem
                  operation input step _ _ _ E Hnb) as (v & Hv & _).
      by exists v.
    + split; [| intros [? | ?]; done].
      intros [v H]. unfold validatePracticeStep, call_parseFloat in H.
      cbn [user_input step_number] in H. by rewrite Hblank, E in H.
Qed.

(** Property X10.
    When [processValidationLocally] throws.  For the number line, when
    the problem holds no "digits, + or -, digits", or when the data hold
    no steps; for a practice problem, when the answer is not blank and
    the problem holds no "digits, operator, digits" -- a blank answer is
    answered before the problem is read; for the calculator, never, and
    the step is always reported correct; for any other tool type,
    always, with the message that names it. *)
Theorem processValidationLocally_throws (problem operation : string) :
  (forall d,
      (exists r, processValidationLocally toString "number_line" problem operation
                   (StepInput d) = Ok r)
      <-> search step_problem problem <> None)
  /\ (forall data, (forall d, data <> StepInput d) ->
        exists message,
          processValidationLocally toString "number_line" problem operation data
          = Throw message)
  /\ (forall d,
        (exists r, processValidationLocally toString "practice_problem" problem
                     operation (PracticeInput d) = Ok r)
        <-> blank (user_input d) \/ search practice_problem problem <> None)
  /\ (forall data,
        exists r,
          processValidationLocally toString "calculator" problem operation data
          = Ok r
          /\ result_of r = "correct" /\ is_correct_of r = true)
  /\ (forall tool_type data,
        tool_type <> "number_line" -> tool_type <> "practice_problem" ->
        tool_type <> "calculator" ->
        processValidationLocally toString tool_type problem operation data
        = Throw ("Unknown tool type: " ++ tool_type)).
Proof.
  split; [| split; [| split; [| split]]].
  - intros d. cbn [processValidationLocally String.eqb Ascii.eqb Bool.eqb].
    rewrite <- (validateNumberLineStep_returns problem operation d).
    unfold processValidationLocally. cbn [String.eqb].
    destruct (validateNumberLineStep toString problem operation d) as [v | m]; cbn.
    + split; intros _; by eexists.
    + split; intros [? ?]; done.
  - intros data Hdata. unfold processValidationLocally. cbn [String.eqb].
    destruct data as [d | | |]; [by destruct (Hdata d) | | |];
      destruct (search step_problem problem); by eexists.
  - intros d. rewrite <- (validatePracticeStep_returns problem operation d).
    unfold processValidationLocally. cbn [String.eqb].
    destruct (validatePracticeStep toString problem operation d) as [v | m]; cbn.
    + split; intros _; by eexists.
    + split; intros [? ?]; done.
  - intros data. unfold processValidationLocally. cbn [String.eqb].
    eexists. split; [reflexivity |]. unfold validateCalculatorStep.
    by destruct (String.eqb _ "" || _).
  - intros tool_type data H1 H2 H3. unfold processValidationLocally.
    apply String.eqb_neq in H1, H2, H3. by rewrite H1, H2, H3.
Qed.

(** Property X11.
    The handler of [validate_learning_step] never fails.  When the
    validation returns, the handler answers with its feedback, hands the
    result to the callback registered for the tool and the problem, if
    any, and the validation is no longer pending.  When the validation
    throws, the handler answers that it completed with fallback
    guidance, hands the fallback result (incorrect, mistake type
    [validation_error]) to that callback, and the identifier of the
    validation stays in the set of pending validations. *)
Theorem handler_never_fails
        (now : Z) (tool_type problem operation : string)
        (validation_data : validation_data) (w : world) :
  let answer := fst (handler toString now tool_type problem operation
                             validation_data w) in
  let w' := snd (handler toString now tool_type problem operation
                         validation_data w) in
  let id := validationId tool_type problem now in
  let calls (r : validation) :=
    match validationCallbacks w !! key tool_type problem with
    | Some callback => [(callback, r)]
    | None => []
    end in
  validationCallbacks w' = validationCallbacks w
  /\ match processValidationLocally toString tool_type problem operation
             validation_data with
     | Ok r =>
         answer = "Validation completed: " ++ feedback_of r
         /\ called w' = (called w ++ calls r)%list
         /\ id ∉ pendingValidations w'
     | Throw _ =>
         answer = "Validation completed with fallback guidance"
         /\ called w' = (called w ++ calls fallbackResult)%list
         /\ id ∈ pendingValidations w'
         /\ is_correct_of fallbackResult = false
         /\ mistake_type_of fallbackResult = Some "validation_error"
     end.
Proof.
  intros answer w' id calls. subst answer w' calls.
  unfold handler, handler_end, handler_begin, call_back.
  cbn [validationCallbacks pendingValidations called].
  destruct (processValidationLocally toString tool_type problem operation
              validation_data) as [r | message];
    cbn [validationCallbacks pendingValidations called];
    destruct (validationCallbacks w !! key tool_type problem) as [callback|];
    cbn [fst snd validationCallbacks pendingValidations called];
    rewrite ?app_nil_r; repeat split; try done;
    first [ apply not_elem_of_difference; right; by apply elem_of_singleton
          | apply elem_of_union; left; by apply elem_of_singleton ].
Qed.

(** Property X12.
    Registering, looking up and unregistering a callback.  A validation
    triggered for a tool and a problem calls the callback registered
    last under their key, once, with the result it returns; a callback
    registered earlier under that key is replaced and never called
    again; after the key is unregistered nobody is called; and a
    validation that throws calls nobody. *)
Theorem triggerValidation_calls_the_registered_callback
        (tool_type problem operation : string) (data : validation_data)
        (earlier callback : nat) (w : world) :
  let registered :=
    registerCallback tool_type problem callback
      (registerCallback tool_type problem earlier w) in
  let unregistered := unregisterCallback tool_type problem registered in
  match processValidationLocally toString tool_type problem operation data with
  | Ok r =>
      triggerValidation toString tool_type problem operation data registered
      = (Ok r,
         {| validationCallbacks := validationCallbacks registered;
            pendingValidations := pendingValidations w;
            called := called w ++ [(callback, r)] |})
      /\ triggerValidation toString tool_type problem operation data unregistered
         = (Ok r, unregistered)
      /\ called unregistered = called w
  | Throw message =>
      triggerValidation toString tool_type problem operation data registered
      = (Throw message, registered)
  end.
Proof.
  intros registered unregistered.
  unfold triggerValidation, call_back.
  destruct (processValidationLocally toString tool_type problem operation data)
    as [r | message]; [| done].
  subst unregistered registered.
  cbn [validationCallbacks pendingValidations called registerCallback
       unregisterCallback].
  by rewrite lookup_insert_eq, lookup_delete_eq.
Qed.

End WithRendering.

End ValidationFlowFacts.

(** ** Watching the chat for interruptions *)

Module MonitorFacts.
Import JS JSArray DemoInterruptionManager InterruptionMonitor MonitorSpec.
Import StringFacts ClassifierFacts Spec.
Local Open Scope list_scope.

(** In non-blocking mode the messages count through the filter of new
    user messages only. *)
Lemma detectInterruption_filter isActive now ms1 ms2 st :
  isNonBlockingMode st = true ->
  List.filter (is_new_user_message st) ms1 = List.filter (is_new_user_message st) ms2 ->
  detectInterruption isActive now ms1 st = detectInterruption isActive now ms2 st.
Proof.
  intros Hnb Hf. unfold detectInterruption. by rewrite Hnb, Hf.
Qed.

Lemma old_messages_filtered st batch :
  (forall m, In m batch ->
     exists t, createdAt m = Some t /\ t <= lastMessageTimestamp st) ->
  List.filter (is_new_user_message st) batch = [].
Proof.
  induction batch as [|m batch IH]; intros H; simpl; [done |].
  destruct (H m (or_introl eq_refl)) as (t & Ht & Hle).
  unfold is_new_user_message at 1. rewrite Ht.
  apply Z.ltb_ge in Hle as ->. rewrite andb_false_r.
  apply IH. intros m' Hin. apply H. by right.
Qed.

Lemma first_query_spec msgs message c :
  first_query msgs = Some (message, c) ->
  In message msgs /\ c = default "" (content message) /\ isUserQuery c = true.
Proof.
  induction msgs as [|m msgs IH]; simpl; [done |].
  destruct (isUserQuery (default "" (content m))) eqn:E.
  - intros [= <- <-]. auto.
  - intros H. destruct (IH H) as (? & ? & ?). auto.
Qed.

Lemma first_query_some msgs m :
  In m msgs -> isUserQuery (default "" (content m)) = true ->
  exists message c, first_query msgs = Some (message, c).
Proof.
  induction msgs as [|m' msgs IH]; simpl; [done |].
  intros [-> | Hin] Hq.
  - rewrite Hq. by eauto.
  - destruct (isUserQuery (default "" (content m'))); [by eauto | by apply IH].
Qed.

(** Property X13.
    A batch of chat messages is considered once.  When the messages
    given to a check were all created no later than the check, at most
    one interruption is raised, for the first new user message that is a
    query; and whatever the check did, these messages play no part in
    any later check: the other queries of the batch are never raised. *)
Theorem batch_considered_once
        (now later_on : Z) (batch later : list Message) (st : State) :
  isNonBlockingMode st = true ->
  (forall m, In m batch -> exists t, createdAt m = Some t /\ t <= now) ->
  let st' := fst (detectInterruption true now batch st) in
  let raised := snd (detectInterruption true now batch st) in
  isNonBlockingMode st' = true
  /\ (forall e, raised = Some e ->
        exists message c,
          first_query (List.filter (is_new_user_message st) batch)
          = Some (message, c)
          /\ e = Interruption c
          /\ pendingQueries st' = pendingQueries st ++ [c])
  /\ detectInterruption true later_on (batch ++ later) st'
     = detectInterruption true later_on later st'.
Proof.
  intros Hnb Hold.
  destruct (detectInterruption true now batch st) as [st' raised] eqn:E.
  cbn [fst snd]. revert E.
  unfold detectInterruption at 1. rewrite Hnb. cbn [negb orb].
  destruct (isMonitoring st) eqn:Hmon; cbn [negb].
  2:{ intros [= <- <-]. split; [done |]. split; [done |].
      unfold detectInterruption. by rewrite Hmon. }
  set (new := List.filter (is_new_user_message st) batch).
  assert (forall st1,
            lastMessageTimestamp st1 = now -> isNonBlockingMode st1 = true ->
            detectInterruption true later_on (batch ++ later) st1
            = detectInterruption true later_on later st1) as Hlater.
  { intros st1 Ht Hnb'. apply detectInterruption_filter; [done |].
    rewrite List.filter_app, old_messages_filtered; [done |].
    by rewrite Ht. }
  destruct (last new) as [lastMessage|] eqn:Hlast.
  - destruct (first_query new) as [[message c]|] eqn:Hq.
    + intros [= <- <-]. split; [done |]. split; [| by apply Hlater].
      intros e [= <-]. by exists message, c.
    + intros [= <- <-]. split; [done |]. split; [done | by apply Hlater].
  - intros [= <- <-]. split; [done |]. split; [done |].
    apply detectInterruption_filter; [done |].
    rewrite List.filter_app. fold new.
    destruct new as [|x new']; [done |].
    by rewrite last_cons in Hlast; destruct (last new').
Qed.

Lemma batch_considered_once_witness :
  let batch :=
    [ {| id := "m1"; role := "user"; content := Some "why is that?";
         createdAt := Some 50 |};
      {| id := "m2"; role := "user"; content := Some "how many steps?";
         createdAt := Some 60 |} ] in
  let st := set_monitoring true true (initial 0) in
  detectInterruption true 100 batch st
  = ({| isMonitoring := true; lastProcessedMessageId := Some "m2";
        isDemoActive := true; pendingQueries := ["why is that?"];
        isNonBlockingMode := true; lastMessageTimestamp := 100 |},
     Some (Interruption "why is that?"))
  /\ detectInterruption true 200 (batch ++ [])
       (fst (detectInterruption true 100 batch st))
     = detectInterruption true 200 []
         (fst (detectInterruption true 100 batch st)).
Proof.
  intros batch st. split; [reflexivity |].
  refine (proj2 (proj2 (batch_considered_once 100 200 batch [] st eq_refl _))).
  intros m [<- | [<- | []]]; [exists 50 | exists 60]; by split.
Defined.

Lemma query_not_empty c : isUserQuery c = true -> c <> "".
Proof. by intros H ->. Qed.

Lemma detectInterruption_keeps_mode isActive now ms st :
  isNonBlockingMode (fst (detectInterruption isActive now ms st))
  = isNonBlockingMode st.
Proof.
  unfold detectInterruption.
  destruct (negb isActive || negb (isMonitoring st)); [done |].
  cbv zeta.
  destruct (last _); [| done].
  by destruct (first_query _) as [[? ?]|].
Qed.

Lemma pass_interrupts now messages m c mgr :
  In m messages -> role m = "user" -> content m = Some c ->
  createdAt m = None -> isUserQuery c = true ->
  isNonBlockingMode (ref mgr) = true ->
  isNonBlockingMode (ref (fst (pass true now messages mgr))) = true
  /\ interrupts (snd (pass true now messages mgr)).
Proof.
  intros Hin Hrole Hc Ht Hq Hnb.
  unfold pass, monitorEffect. cbn [negb].
  set (st0 := set_monitoring true true _).
  assert (isNonBlockingMode st0 = true) as Hnb0.
  { subst st0. by destruct (monitoring_cleanup mgr). }
  assert (isMonitoring st0 = true) as Hmon0 by done.
  pose proof (detectInterruption_keeps_mode true now messages st0) as Hkeep.
  assert (exists userMessage,
            snd (detectInterruption true now messages st0)
            = Some (Interruption userMessage)) as [u Hu].
  { unfold detectInterruption. rewrite Hnb0, Hmon0. cbn [negb orb].
    set (new := List.filter (is_new_user_message st0) messages).
    assert (In m new) as Hnew.
    { apply List.filter_In. split; [done |].
      unfold is_new_user_message, text_content. rewrite Hrole, Hc, Ht.
      destruct (String.eqb_spec c ""); [by apply query_not_empty in Hq |].
      rewrite andb_true_r. cbn [String.eqb Ascii.eqb Bool.eqb andb].
      apply bool_decide_eq_true. by eexists. }
    destruct (first_query_some new m Hnew) as (message & c' & Hf).
    { by rewrite Hc. }
    rewrite Hf.
    destruct (last new) eqn:Hl.
    - by exists c'.
    - destruct new as [|x new']; [done |].
      by rewrite last_cons in Hl; destruct (last new'). }
  destruct (detectInterruption true now messages st0) as [st1 raised].
  cbn [fst snd] in Hkeep, Hu. subst raised.
  unfold resumeEffect. cbn [negb ref monitoring_cleanup].
  destruct (hasResumeRequest messages && _); cbn [fst snd ref events app];
    (split; [by rewrite <- Hnb0 | by eexists _, _]).
Qed.

(** Property X14.
    A user query that bears no creation date interrupts again and again.
    In non-blocking mode, as long as the message is among the messages
    shown, every pass of the effects of an active demonstration raises
    an interruption, also after the demonstration was resumed. *)
Theorem undated_query_interrupts_every_pass
        (m : Message) (c : string) (renders : list (Z * list Message))
        (mgr : manager) :
  role m = "user" -> content m = Some c -> createdAt m = None ->
  isUserQuery c = true ->
  isNonBlockingMode (ref mgr) = true ->
  Forall (fun render => In m (snd render)) renders ->
  Forall interrupts (passes renders mgr).
Proof.
  intros Hrole Hc Ht Hq Hnb Hall. revert mgr Hnb.
  induction Hall as [|[now messages] renders Hin _ IH]; intros mgr Hnb;
    cbn [passes]; [by constructor |].
  destruct (pass_interrupts now messages m c mgr Hin Hrole Hc Ht Hq Hnb)
    as [Hnb' Hint].
  destruct (pass true now messages mgr) as [mgr' raised].
  constructor; [done | by apply IH].
Qed.

Lemma undated_query_interrupts_every_pass_witness :
  let m := {| id := "m1"; role := "user"; content := Some "why is that?";
              createdAt := None |} in
  let reply := {| id := "m2"; role := "assistant";
                  content := Some "Because 3 + 4 is 7.";
                  createdAt := Some 150 |} in
  let go_on := {| id := "m3"; role := "user"; content := Some "continue";
                  createdAt := Some 250 |} in
  passes [(100, [m]); (200, [m; reply]); (300, [m; reply; go_on])] (mounted 0)
  = [ [Interruption "why is that?"];
      [Interruption "why is that?"];
      [Interruption "why is that?"; Resume] ]
  /\ Forall interrupts
       (passes [(100, [m]); (200, [m; reply]); (300, [m; reply; go_on])]
               (mounted 0)).
Proof.
  intros m reply go_on. split; [reflexivity |].
  apply (undated_query_interrupts_every_pass m "why is that?");
    try reflexivity.
  repeat constructor; cbn; auto.
Defined.

Lemma demo_keywords_plain keyword :
  In keyword DEMO_KEYWORDS -> plain_word keyword = true.
Proof.
  cbn. intros H.
  repeat (destruct H as [<- | H]; [reflexivity |]). done.
Qed.

(** Property X15.
    An interruption raised while one of the last three messages asks to
    go on is resumed in the same pass: the manager calls [onInterruption]
    and then [onResume], and forgets the query.  The request is never
    the query itself, which holds no demonstration keyword. *)
Theorem interruption_resumed_at_once
        (now : Z) (messages : list Message) (mgr mgr1 : manager) (c : string) :
  monitorEffect true now messages mgr = (mgr1, Some (Interruption c)) ->
  hasResumeRequest messages = true ->
  (exists mgr2,
      pass true now messages mgr = (mgr2, [Interruption c; Resume])
      /\ pendingQueries (ref mgr2) = [])
  /\ existsb (fun keyword => includes (toLowerCase c) keyword) DEMO_KEYWORDS
     = false.
Proof.
  intros Hm Hr.
  assert (isUserQuery c = true /\ pendingQueries (ref mgr1) <> []) as [Hq Hp].
  { revert Hm. unfold monitorEffect. cbn [negb].
    set (st0 := set_monitoring true true _).
    unfold detectInterruption.
    destruct (negb true || negb (isMonitoring st0)); [done |]. cbv zeta.
    destruct (last _); [| done].
    destruct (first_query _) as [[message c']|] eqn:Hf; [| done].
    intros [= <- <-]. apply first_query_spec in Hf as (_ & _ & Hq).
    split; [done |]. cbn [ref pendingQueries].
    intros Hnil. by apply app_eq_nil in Hnil as [_ ?]. }
  split.
  - unfold pass. rewrite Hm. unfold resumeEffect. cbn [negb]. rewrite Hr.
    destruct (bool_decide_reflect (pendingQueries (ref mgr1) = [])); [done |].
    cbn. by eexists.
  - apply not_true_is_false. intros He.
    apply existsb_exists in He as (keyword & Hin & Hinc).
    pose proof (demo_keywords_plain keyword Hin) as Hplain.
    pose proof (contains_content (toLowerCase c) keyword Hplain) as Hcc.
    rewrite toLowerCase_idemp in Hcc.
    unfold isUserQuery in Hq.
    destruct (String.length (trim (toLowerCase c)) <? 3)%nat; [done |].
    assert (existsb (fun keyword => includes (trim (toLowerCase c)) keyword)
                    DEMO_KEYWORDS = true) as Hk.
    { apply existsb_exists. exists keyword. split; [done |].
      by apply includes_spec, Hcc, includes_spec. }
    by rewrite Hk in Hq.
Qed.

Lemma interruption_resumed_at_once_witness :
  let messages :=
    [ {| id := "m1"; role := "user"; content := Some "please continue";
         createdAt := Some 10 |};
      {| id := "m2"; role := "assistant"; content := Some "Going on.";
         createdAt := Some 20 |};
      {| id := "m3"; role := "user"; content := Some "why is that?";
         createdAt := Some 50 |} ] in
  (exists mgr2,
      pass true 100 messages (mounted 0)
      = (mgr2, [Interruption "why is that?"; Resume])
      /\ pendingQueries (ref mgr2) = [])
  /\ existsb (fun keyword => includes (toLowerCase "why is that?") keyword)
             DEMO_KEYWORDS = false.
Proof.
  intros messages.
  eapply (interruption_resumed_at_once 100 messages (mounted 0));
    reflexivity.
Defined.

End MonitorFacts.

(** ** What the limiter guarantees *)

Module LimiterFacts.
Import FrontendRateLimiter LimiterSpec.
Local Open Scope list_scope.

Lemma admitted_later lo times calls :
  Forall (Z.le lo) times -> Forall (Z.le lo) (admitted times calls).
Proof.
  intros H. revert calls.
  induction H as [|now rest Hnow _ IH]; intros calls; cbn [admitted];
    [by constructor |].
  destruct (isAllowed now calls) as [[] calls']; [constructor |]; auto.
Qed.

Lemma within_none t lo times :
  t + WINDOW_MS <= lo -> Forall (Z.le lo) times -> within t times = [].
Proof.
  intros Hlo H. induction H as [|x rest Hx _ IH]; [done |].
  unfold within in *. cbn [List.filter].
  assert ((x <? t + WINDOW_MS) = false) as -> by (apply Z.ltb_ge; lia).
  by rewrite andb_false_r.
Qed.

Lemma within_length t times : (length (within t times) <= length times)%nat.
Proof. apply List.filter_length_le. Qed.

Lemma within_app t l1 l2 : within t (l1 ++ l2) = within t l1 ++ within t l2.
Proof. apply List.filter_app. Qed.

(** Either the cleaning drops nothing of the window, or the window is
    over at [now]. *)
Lemma within_clean t now calls :
  within t (clean now calls) = within t calls \/ t + WINDOW_MS <= now.
Proof.
  induction calls as [|c calls IH]; [by left |].
  destruct IH as [IH | IH]; [| by right].
  unfold within, clean in *. cbn [List.filter].
  destruct (Z.ltb_spec (now - c) WINDOW_MS) as [Hlive | Hstale].
  - left. cbn [List.filter]. by rewrite IH.
  - destruct (Z.leb_spec t c) as [Hin | Hout]; cbn [andb].
    + right. lia.
    + left. done.
Qed.

Lemma admitted_window t times calls :
  StronglySorted Z.le times -> (length calls <= MAX_CALLS)%nat ->
  (length (within t calls) + length (within t (admitted times calls))
   <= MAX_CALLS)%nat.
Proof.
  intros Hs. revert calls.
  induction Hs as [|now rest Hs IH Hnow]; intros calls Hlen; cbn [admitted].
  { cbn. pose proof (within_length t calls). lia. }
  pose proof (List.filter_length_le
                (fun timestamp => now - timestamp <? WINDOW_MS) calls) as Hcl.
  fold (clean now calls) in Hcl.
  destruct (within_clean t now calls) as [Hkeep | Hover].
  - unfold isAllowed.
    destruct (Nat.leb_spec MAX_CALLS (length (clean now calls))) as [Hfull | Hfree].
    + rewrite <- Hkeep. apply IH. lia.
    + specialize (IH (clean now calls ++ [now])).
      rewrite length_app, within_app, length_app, Hkeep in IH.
      cbn [length] in IH.
      change (now :: admitted rest (clean now calls ++ [now]))
        with ([now] ++ admitted rest (clean now calls ++ [now])).
      rewrite within_app, length_app. lia.
  - assert (within t (let '(ok, calls') := isAllowed now calls in
                      if ok then now :: admitted rest calls'
                      else admitted rest calls') = []) as ->.
    { apply (within_none t now); [done |].
      destruct (isAllowed now calls) as [[] calls'].
      - constructor; [lia | by apply admitted_later].
      - by apply admitted_later. }
    cbn. pose proof (within_length t calls). lia.
Qed.

(** Property X16.
    The limiter keeps its promise on a clock that does not run
    backwards: of the calls made at non-decreasing times from an empty
    record on, no more than five are admitted within any 30000
    milliseconds. *)
Theorem at_most_five_admitted_per_window (times : list Z) (t : Z) :
  Sorted Z.le times ->
  (length (within t (admitted times [])) <= 5)%nat.
Proof.
  intros Hs.
  apply Sorted_StronglySorted in Hs; [| intros x y z; apply Z.le_trans].
  pose proof (admitted_window t times [] Hs) as H.
  cbn [within List.filter length] in H. unfold MAX_CALLS in H.
  apply H. lia.
Qed.

Lemma at_most_five_admitted_per_window_witness :
  let times := [0; 1; 2; 3; 4; 5; 29999; 30000; 30001; 30002] in
  admitted times [] = [0; 1; 2; 3; 4; 30000; 30001; 30002]
  /\ within 1 (admitted times []) = [1; 2; 3; 4; 30000]
  /\ (length (within 1 (admitted times [])) <= 5)%nat.
Proof.
  intros times. split; [reflexivity |]. split; [reflexivity |].
  apply at_most_five_admitted_per_window.
  repeat (constructor; try lia).
Defined.

End LimiterFacts.

(** ** Pausing and resuming a demonstration *)

Module PauseResumeFacts.
Import JS NumberLine Spec PauseSpec StringFacts NumberLineFacts DemoRunFacts.
Local Open Scope list_scope.

Ltac run_pause :=
  cbv [paused resuming resumed interrupted pause_events resume_events saved];
  run_effects.

Lemma runDemo_resuming now s i :
  resumeRequested s = true -> runDemo now s i = i.
Proof.
  intros H. unfold runDemo. rewrite H, orb_true_r. by case_match.
Qed.

Section Run.
Variables (a b : N) (o : operator) (onPause onResume onComplete : bool).
Variables (now paused_at resumed_at : Z) (reason : string).

(** A pause after tick [k]: the state is saved, the pause message is
    sent and the timer of the next step is cleared. *)
Lemma pause_moving k :
  control_pause paused_at reason
    (moving a b o onPause onResume onComplete now k)
  = paused a b o onPause onResume onComplete paused_at reason k.
Proof.
  unfold control_pause.
  change (control (moving a b o onPause onResume onComplete now k))
    with (Some (rendered a b o k)).
  unfold pauseDemo.
  change (demoMode (props (moving a b o onPause onResume onComplete now k)))
    with true.
  change (isDemoComplete (rendered a b o k)) with false.
  cbn [negb orb].
  change ("📍 🛑 Demo paused - " ++ reason)%string
    with (pin ++ pause_message reason)%string.
  rewrite send_pin by (by destruct onPause).
  unfold commit.
  match goal with
  | |- effects false ?t (effects false ?t ?i) = ?r =>
      assert (effects false t i = r) as ->
  end.
  { unfold effects.
    destruct onPause; run_pause; rewrite !app_nil_r;
      (rewrite demoEffect_stale by (run_effects; by rewrite Z.eqb_refl));
      (rewrite runDemo_paused by reflexivity);
      run_effects; rewrite Nat.eqb_refl; cbn [negb app];
      rewrite <- ?app_assoc; reflexivity. }
  apply PauseFacts.effects_settled.
  split; eexists; (split; [reflexivity |]); [done |].
  by apply same_demo_deps_eq.
Qed.

(** The resumption is requested: the resume message is sent, and a
    timer is armed that will set the step to the saved one. *)
Lemma resume_paused k :
  control_resume resumed_at
    (paused a b o onPause onResume onComplete paused_at reason k)
  = resuming a b o onPause onResume onComplete paused_at resumed_at reason k.
Proof.
  unfold control_resume.
  change (control (paused a b o onPause onResume onComplete paused_at reason k))
    with (Some (interrupted a b o paused_at reason k false false []
                  (path a o (S k)))).
  unfold resumeDemo.
  change (savedDemoState
            (interrupted a b o paused_at reason k false false []
               (path a o (S k))))
    with (Some (saved paused_at reason k)).
  change (Demo.currentStep (saved paused_at reason k)) with (Z.of_nat k).
  change "📍 ▶️ Demo resuming..." with (pin ++ resume_message)%string.
  rewrite send_pin by (by destruct onResume).
  unfold commit.
  match goal with
  | |- effects false ?t (effects false ?t ?i) = ?r =>
      assert (effects false t i = r) as ->
  end.
  { unfold effects.
    destruct onResume; run_pause;
      (rewrite demoEffect_stale by (run_effects; by rewrite Z.eqb_refl));
      (rewrite runDemo_resuming by reflexivity);
      run_effects; cbn [app]; rewrite <- ?app_assoc; reflexivity. }
  apply PauseFacts.effects_settled.
  split; eexists; (split; [reflexivity |]); [done |].
  by apply same_demo_deps_eq.
Qed.

(** The resumption timer fires: the demo effect runs again for the step
    the number line is at, which is narrated and walked once more. *)
Lemma tick_resuming k :
  (k <= N.to_nat b)%nat ->
  tick (resuming a b o onPause onResume onComplete paused_at resumed_at reason k)
  = resumed a b o onPause onResume onComplete paused_at resumed_at reason k.
Proof.
  intros Hk. unfold tick.
  change (timers (resuming a b o onPause onResume onComplete paused_at
                    resumed_at reason k))
    with [ {| id := S (S k); due := resumed_at + 500;
              action := ResumeAt (Z.of_nat k) |} ].
  cbn [earliest action due id run_callback]. unfold commit.
  match goal with
  | |- effects false ?t (effects false ?t ?i) = ?r =>
      assert (effects false t i = r) as ->
  end.
  { unfold effects.
    rewrite (controlEffect_same _ _
               (interrupted a b o paused_at reason k true true [resume_message]
                  (path a o (S k)))) by reflexivity.
    rewrite demoEffect_stale by (run_pause; by rewrite Z.eqb_refl).
    rewrite (runDemo_playing a b o) by reflexivity.
    run_pause. rewrite !remove_first_prefix, Nat.eqb_refl.
    destruct k as [|k].
    - change (Z.of_nat 0 =? 0) with true. cbv iota. cbn [negb app].
      unfold path_again, sent. rewrite <- !app_assoc. reflexivity.
    - assert ((Z.of_nat (S k) =? 0) = false) as -> by (apply Z.eqb_neq; lia).
      assert ((Z.of_nat (S k) <=? Z.of_N b) = true) as -> by (apply Z.leb_le; lia).
      cbv iota. cbn [negb app].
      unfold path_again, sent. rewrite <- !app_assoc. reflexivity. }
  apply PauseFacts.effects_settled.
  split; eexists; (split; [reflexivity |]); [done |].
  by apply same_demo_deps_eq.
Qed.

End Run.

(** Property X17.
    A demonstration that is paused and resumed repeats the step it was
    at.  While it is paused no timer is pending; half a second after the
    resumption the step reached before the pause is narrated a second
    time, and, unless it is the start, its position is added to the path
    a second time; the timer of the next step is then armed anew.
    The operands and the result are safe integers. *)
Theorem pause_and_resume_repeat_the_step
        (a b : N) (o : operator) (onPause onResume onComplete : bool)
        (now paused_at resumed_at : Z) (reason : string) (k : nat) :
  safe_problem a b o -> (k <= N.to_nat b)%nat ->
  let playing :=
    Nat.iter k tick (mount (demo_props a b o onPause onResume onComplete) now) in
  let waiting := control_pause paused_at reason playing in
  let i := tick (control_resume resumed_at waiting) in
  let again := narration_message a b o (Z.of_nat k) in
  timers waiting = []
  /\ isDemoPaused (state waiting) = true
  /\ isDemoPaused (state i) = false
  /\ demoStep (state i) = Z.of_nat k
  /\ messageHistory (state i)
     = messageHistory (state playing)
       ++ [pause_message reason; resume_message; again]
  /\ last (messageHistory (state playing)) = Some again
  /\ steps (state i)
     = match k with
       | O => steps (state playing)
       | S _ => steps (state playing) ++ [Z.of_N a + direction o * Z.of_nat k]
       end
  /\ last (steps (state playing)) = Some (Z.of_N a + direction o * Z.of_nat k)
  /\ log i
     = log playing
       ++ (if onPause then [DemoPause (saved paused_at reason k)] else [])
       ++ [sent (pause_message reason)]
       ++ (if onResume then [DemoResume] else [])
       ++ [sent resume_message; sent again]
  /\ timers i
     = [ {| id := S (S (S k));
            due := resumed_at + 500 + (if Z.of_nat k =? 0 then 2000 else 1200);
            action := SetDemoStep (Z.of_nat k + 1) |} ].
Proof.
  intros _ Hk playing waiting i again. subst i waiting playing.
  rewrite run_moving, pause_moving, resume_paused, tick_resuming by done.
  cbn [timers state paused resumed moving narrated interrupted isDemoPaused
       demoStep messageHistory steps log negb].
  rewrite app_nil_r, history_S, path_S, !last_snoc.
  unfold resume_events, pause_events. rewrite history_S.
  subst again. repeat split.
  - destruct k as [|k]; [| by rewrite <- path_S].
    unfold path_again, path. cbn. by rewrite Z.mul_0_r, Z.add_0_r.
  - by rewrite <- !app_assoc.
Qed.

Lemma pause_and_resume_repeat_the_step_witness :
  let i := tick (control_resume 9000 (control_pause 2500 "why is that?"
             (Nat.iter 1 tick (mount (demo_props 4 2 Add true true true) 0)))) in
  messageHistory (state i)
  = [ "Watch as I demonstrate the solution step by step!";
      "Let's start at 4! 👈";
      "Now let's add 2 step by step...";
      "🛑 Demo paused - why is that?";
      "▶️ Demo resuming...";
      "Now let's add 2 step by step..." ]
  /\ steps (state i) = [4; 5; 5].
Proof.
  pose proof (pause_and_resume_repeat_the_step
                4 2 Add true true true 0 2500 9000 "why is that?" 1)
    as H.
  destruct H as (_ & _ & _ & _ & Hm & _ & Hs & _);
    [repeat split; reflexivity | cbn; lia |].
  cbv zeta. split; [rewrite Hm | rewrite Hs]; vm_compute; reflexivity.
Defined.

End PauseResumeFacts.

(** ** A pause requested through the tool context *)

Module ContextPauseFacts.
Import ToolContext ToolContextFacts.
Local Open Scope list_scope.

Lemma apply_keeps_paused w op :
  op <> ClearActiveTool -> demoState (ctx w) = None ->
  isDemoPaused (ctx w) = true -> isDemoPaused (ctx (apply w op)) = true.
Proof.
  intros Hop Hd Hp. destruct op; simpl; try done.
  - unfold pauseDemo. by destruct (negb _).
  - unfold resumeDemo. by rewrite Hd.
Qed.

Lemma fold_keeps_paused more w :
  Forall (fun op => op <> ClearActiveTool) more ->
  demoState (ctx w) = None -> isDemoPaused (ctx w) = true ->
  isDemoPaused (ctx (fold_left apply more w)) = true.
Proof.
  intros Hmore. revert w.
  induction Hmore as [|op more Hop _ IH]; intros w Hd Hp; simpl; [done |].
  apply IH; [by apply apply_keeps_no_demoState | by apply apply_keeps_paused].
Qed.

(** Property X18.
    The provider cannot undo its own pause.  Once [pauseDemo] has been
    called while a demonstration is the active tool, the provider stays
    paused whatever happens next, [resumeDemo] included, until the tool
    is cleared; and [resumeDemo] changes nothing at all, neither in the
    provider nor in the number line it controls. *)
Theorem context_pause_outlives_resume
        (ops : list operation) (config : ToolConfig) (now : Z)
        (reason : option string) (more : list operation) :
  activeToolConfig (ctx (run ops)) = Some config ->
  type config = demonstrate_number_line ->
  Forall (fun op => op <> ClearActiveTool) more ->
  let w := fold_left apply more (apply (run ops) (PauseDemo now reason)) in
  isDemoPaused (ctx w) = true
  /\ forall later, apply w (ResumeDemo later) = w.
Proof.
  intros Hconfig Htype Hmore w.
  assert (demoState (ctx (apply (run ops) (PauseDemo now reason))) = None) as Hd
      by apply apply_keeps_no_demoState, run_no_demoState.
  split.
  - apply fold_keeps_paused; [done.. |].
    cbn [apply]. unfold pauseDemo. rewrite Hconfig. cbn [demonstrates].
    by rewrite Htype.
  - intros later.
    pose proof (fold_keeps_no_demoState more _ Hd) as Hnone. fold w in Hnone.
    change (apply w (ResumeDemo later)) with (resumeDemo later w).
    unfold resumeDemo. by rewrite Hnone.
Qed.

Lemma context_pause_outlives_resume_witness :
  let config := {| type := demonstrate_number_line; props := ∅; respond := 0%nat;
                   sendIntermediateMessage := None; onDemoPause := None;
                   onDemoResume := None |} in
  let p := Spec.demo_props 4 2 Spec.Add false false true in
  let w := fold_left apply [ResumeDemo 3000; TimerFires]
             (apply (run [SetActiveTool (Some config); MountNumberLine p 0])
                    (PauseDemo 2500 None)) in
  isDemoPaused (ctx w) = true
  /\ (NumberLine.timers <$> numberLineDemoControl w) = Some []
  /\ forall later, apply w (ResumeDemo later) = w.
Proof.
  intros config p w.
  destruct (context_pause_outlives_resume
              [SetActiveTool (Some config); MountNumberLine p 0] config 2500 None
              [ResumeDemo 3000; TimerFires]) as [H1 H2].
  - reflexivity.
  - reflexivity.
  - repeat constructor; discriminate.
  - split; [exact H1 |]. split; [vm_compute; reflexivity | exact H2].
Defined.

End ContextPauseFacts.

(** ** How the number line reads its problem *)

Module ProblemReadingFacts.
Import JS Regex NumberLine Spec DemoControl.
Import StringFacts RegexFacts NumberFacts ClassifierFacts.
Local Open Scope list_scope.

(** *** A problem that cannot be read *)

Lemma repeat_class_keeps {R} (f p : ascii -> bool) s m
      (k : string -> string -> option R) r :
  repeat_class p s m k = Some r ->
  exists m' s', k m' s' = Some r
                /\ (all_chars f s = true -> all_chars f s' = true).
Proof.
  revert m. induction s as [|c s IH]; intros m; simpl; [by eauto |].
  destruct (p c); [| by eauto].
  destruct (repeat_class p s (m ++ String c "") k) eqn:E; [| by eauto].
  intros [= ->]. apply IH in E as (m' & s' & Hk & Hall).
  exists m', s'. split; [done |]. by intros [_ ?]%andb_prop; auto.
Qed.

Lemma search_keeps (f : ascii -> bool) its s caps :
  search its s = Some caps ->
  exists s', match_here its s' [] = Some caps
             /\ (all_chars f s = true -> all_chars f s' = true).
Proof.
  induction s as [|c s IH]; simpl.
  - destruct (match_here its "" []) eqn:E; [| done]. intros [= ->]. by eauto.
  - destruct (match_here its (String c s) []) eqn:E; [intros [= ->]; by eauto |].
    intros H. apply IH in H as (s' & Hm & Hall).
    exists s'. split; [done |]. by intros [_ ?]%andb_prop; auto.
Qed.

Lemma problem_sign (captured : bool) s caps r :
  match_here
    [ Item is_digit Many1 true; Item is_space Many0 false;
      Item (one_of ["+"; "-"]%char) Once captured;
      Item is_space Many0 false; Item is_digit Many1 true ] s caps = Some r ->
  all_chars no_sign s = false.
Proof.
  cbn [match_here rep cls].
  destruct s as [|c s]; [done |]. destruct (is_digit c); [| done].
  intros H. apply not_true_is_false. intros Hall. revert H.
  cbn [all_chars] in Hall. apply andb_prop in Hall as [_ Hall].
  intros (m1 & s1 & H & H1)%(repeat_class_keeps no_sign).
  apply (repeat_class_keeps no_sign) in H as (w1 & s2 & H & H2).
  destruct s2 as [|oc s2]; [done |].
  destruct (one_of ["+"; "-"]%char oc) eqn:Hoc; [| done].
  specialize (H2 (H1 Hall)). cbn [all_chars] in H2.
  apply andb_prop in H2 as [H2 _]. unfold no_sign in H2. by rewrite Hoc in H2.
Qed.

Lemma search_needs_sign (captured : bool) problem :
  all_chars no_sign problem = true ->
  search
    [ Item is_digit Many1 true; Item is_space Many0 false;
      Item (one_of ["+"; "-"]%char) Once captured;
      Item is_space Many0 false; Item is_digit Many1 true ] problem = None.
Proof.
  intros Hall.
  destruct (search _ problem) as [caps|] eqn:E; [| done].
  apply (search_keeps no_sign) in E as (s' & Hm & Hs).
  apply problem_sign in Hm. by rewrite Hs in Hm.
Qed.

Lemma earliest_in ts t : earliest ts = Some t -> In t ts.
Proof.
  revert t. induction ts as [|t0 ts IH]; intros t; simpl; [done |].
  destruct (earliest ts) as [t'|].
  - destruct (due t' <? due t0); intros [= <-]; auto.
  - intros [= <-]. auto.
Qed.

Lemma forallb_filter_keeps {A} (p q : A -> bool) l :
  forallb p l = true -> forallb p (List.filter q l) = true.
Proof.
  induction l as [|x l IH]; simpl; [done |].
  intros [Hx Hl]%andb_prop. destruct (q x); simpl; [by rewrite Hx, IH | auto].
Qed.

Lemma demoEffect_unread now s i :
  numbers (props i) = None ->
  demoEffect now s i = i
  \/ demoEffect now s i = record_demo_render s (cleanup i).
Proof.
  intros Hn. unfold demoEffect, runDemo.
  change (props (record_demo_render s (cleanup i))) with (props i).
  rewrite Hn. case_match; auto.
Qed.

Lemma cleanup_idle s i : idle i -> idle (record_demo_render s (cleanup i)).
Proof.
  intros (Hn & Ht & Hl & Hs & Hsel & Hc). repeat split; try done.
  cbn [timers record_demo_render cleanup].
  destruct (timeoutId i); [by apply forallb_filter_keeps | done].
Qed.

Lemma idle_frame i j :
  props j = props i -> timers j = timers i -> log j = log i ->
  steps (state j) = steps (state i) ->
  selectedNumber (state j) = selectedNumber (state i) ->
  isDemoComplete (state j) = isDemoComplete (state i) ->
  idle i -> idle j.
Proof.
  intros Hp Ht Hl Hs Hsel Hc. unfold idle.
  by rewrite Hp, Ht, Hl, Hs, Hsel, Hc.
Qed.

Lemma effects_idle first now i : idle i -> idle (effects first now i).
Proof.
  intros Hi. unfold effects.
  set (i1 := controlEffect (state i) i).
  assert (idle i1) as H1.
  { pose proof (NumberLineFacts.controlEffect_frame (state i) i)
      as (Hp & Hst & _ & _ & Ht & _ & Hl & _).
    fold i1 in Hp, Hst, Ht, Hl.
    apply (idle_frame i); try done; by rewrite Hst. }
  assert ((if first then initialInstructionEffect i1 else i1) = i1) as ->.
  { destruct first; [| done]. unfold initialInstructionEffect.
    by destruct H1 as [-> _]. }
  destruct (demoEffect_unread now (state i) i1) as [-> | ->];
    [by destruct H1 | done | by apply cleanup_idle].
Qed.

Lemma commit_idle now i : idle i -> idle (commit now i).
Proof. intros H. unfold commit. by do 2 apply effects_idle. Qed.

Lemma mount_idle p now : numbers p = None -> idle (mount p now).
Proof.
  intros H. unfold mount. do 2 apply effects_idle. by repeat split.
Qed.

Lemma tick_idle i : idle i -> idle (tick i).
Proof.
  intros Hi. unfold tick.
  destruct (earliest (timers i)) as [t|] eqn:E; [| done].
  apply earliest_in in E.
  pose proof Hi as (Hn & Ht & Hl & Hs & Hsel & Hc).
  pose proof (proj1 (forallb_forall _ _) Ht t E) as Hres.
  unfold resumption in Hres.
  destruct (action t) as [| | |step]; try discriminate Hres.
  cbn [run_callback]. apply commit_idle.
  repeat split; try done.
  cbn [timers with_state drop_timer]. by apply forallb_filter_keeps.
Qed.

Lemma send_idle message i :
  idle i -> idle (sendAndCollectMessage message i).
Proof.
  intros (Hn & Ht & Hl & Hs & Hsel & Hc). unfold sendAndCollectMessage.
  cbn [props with_state].
  destruct (sendIntermediateMessage (props i)); repeat split; try done.
  cbn [log emit with_state]. by rewrite existsb_app, Hl.
Qed.

Lemma emit_idle e i : reports e = false -> idle i -> idle (emit e i).
Proof.
  intros He (Hn & Ht & Hl & Hs & Hsel & Hc). repeat split; try done.
  cbn [log emit]. rewrite existsb_app, Hl. cbn. by rewrite He.
Qed.

Lemma with_state_idle f i :
  steps (f (state i)) = steps (state i) ->
  selectedNumber (f (state i)) = selectedNumber (state i) ->
  isDemoComplete (f (state i)) = isDemoComplete (state i) ->
  idle i -> idle (with_state f i).
Proof. intros Hs Hsel Hc. by apply idle_frame. Qed.

Lemma control_pause_idle now reason i : idle i -> idle (control_pause now reason i).
Proof.
  intros Hi. unfold control_pause. destruct (control i) as [snap|]; [| done].
  unfold pauseDemo. destruct (negb _ || _); [done |].
  apply commit_idle, send_idle.
  assert (idle (with_state (setSavedDemoState
                  (Some {| Demo.currentStep := demoStep snap;
                           Demo.nextStepDelay :=
                             if demoStep snap =? 0 then 2000 else 1200;
                           Demo.pauseReason := Some reason;
                           Demo.resumeAt := Some now |}))
                  (with_state (setPauseReason reason)
                     (with_state (setIsDemoPaused true) i)))) as H
      by (by do 3 (apply with_state_idle; [done.. |])).
  cbn [props with_state]. destruct (onDemoPause (props i)); [| done].
  by apply emit_idle.
Qed.

Lemma control_resume_idle now i : idle i -> idle (control_resume now i).
Proof.
  intros Hi. unfold control_resume. destruct (control i) as [snap|]; [| done].
  unfold resumeDemo. destruct (savedDemoState snap) as [saved|]; [| done].
  apply commit_idle.
  assert (idle (with_state (setResumeRequested true)
                  (with_state (setPauseReason "")
                     (with_state (setIsDemoPaused false) i)))) as H
      by (by do 3 (apply with_state_idle; [done.. |])).
  match goal with
  | |- idle (setTimeout _ _ _ _ ?j) =>
      assert (idle j) as (Hn & Ht & Hl & Hs & Hsel & Hc)
  end.
  { apply send_idle. cbn [props with_state].
    destruct (onDemoResume (props i)); [by apply emit_idle | done]. }
  repeat split; try done.
  cbn [timers setTimeout]. rewrite forallb_app, Ht. reflexivity.
Qed.

Lemma perform_idle moves i : idle i -> idle (fold_left perform moves i).
Proof.
  revert i. induction moves as [|m moves IH]; intros i Hi; simpl; [done |].
  apply IH. destruct m; simpl;
    [by apply tick_idle | by apply control_pause_idle
     | by apply control_resume_idle].
Qed.

(** Property X19.
    A problem the number line cannot read is never answered.  When the
    problem holds no two numbers around a [+] or a [-] (in particular
    when it holds neither sign, as a product does), a demonstration
    walks no step and completes nothing: whatever timers fire and
    whatever pauses and resumptions are requested, the completion
    callbacks are never called. *)
Theorem unread_problem_is_never_answered
        (p : Props) (now : Z) (moves : list move) :
  numbers p = None ->
  let i := fold_left perform moves (mount p now) in
  existsb reports (log i) = false
  /\ steps (state i) = []
  /\ selectedNumber (state i) = None
  /\ isDemoComplete (state i) = false
  /\ forallb resumption (timers i) = true.
Proof.
  intros Hn i.
  destruct (perform_idle moves (mount p now) (mount_idle p now Hn))
    as (_ & Ht & Hl & Hs & Hsel & Hc).
  by repeat split.
Qed.

Lemma unread_problem_is_never_answered_witness :
  let p := {| problem := "3 * 4"; operation := "multiplication";
              demoMode := true; sendIntermediateMessage := true;
              onDemoPause := true; onDemoResume := true;
              onDemoComplete := true |} in
  let i := fold_left perform [Fire; Pause 2500 "why?"; Resume 3000; Fire; Fire]
             (mount p 0) in
  log i = [ DemoPause {| Demo.currentStep := 0; Demo.nextStepDelay := 2000;
                         Demo.pauseReason := Some "why?";
                         Demo.resumeAt := Some 2500 |};
            Sent "📍 🛑 Demo paused - why?";
            DemoResume;
            Sent "📍 ▶️ Demo resuming..." ]
  /\ existsb reports (log i) = false
  /\ steps (state i) = [].
Proof.
  intros p i. split; [vm_compute; reflexivity |].
  destruct (unread_problem_is_never_answered
              p 0 [Fire; Pause 2500 "why?"; Resume 3000; Fire; Fire])
    as (H1 & H2 & _).
  - reflexivity.
  - by split.
Defined.

(** *** The sign of the problem *)

(** Property X20.
    A problem that holds neither [+] nor [-] is read by neither reader
    of the number line: the demonstration finds no numbers in it, and
    the step grader throws. *)
Theorem problem_without_sign_is_not_read
        (toString : number -> string)
        (problem operation : string) (data : ValidationActions.StepData) :
  all_chars no_sign problem = true ->
  parseNumbers problem = None
  /\ ValidationActions.validateNumberLineStep toString problem operation data
     = Throw "Could not parse math problem".
Proof.
  intros Hall. split.
  - unfold parseNumbers. destruct (String.eqb problem ""); [done |].
    change demo_problem with
      [ Item is_digit Many1 true; Item is_space Many0 false;
        Item (one_of ["+"; "-"]%char) Once false;
        Item is_space Many0 false; Item is_digit Many1 true ].
    by rewrite search_needs_sign.
  - unfold ValidationActions.validateNumberLineStep.
    change step_problem with
      [ Item is_digit Many1 true; Item is_space Many0 false;
        Item (one_of ["+"; "-"]%char) Once true;
        Item is_space Many0 false; Item is_digit Many1 true ].
    by rewrite search_needs_sign.
Qed.

Lemma problem_without_sign_is_not_read_witness :
  parseNumbers "3 * 4" = None
  /\ ValidationActions.validateNumberLineStep decimal "3 * 4" "multiplication"
       {| ValidationActions.current_steps := [];
          ValidationActions.proposed_step := of_Z 3 |}
     = Throw "Could not parse math problem".
Proof.
  apply problem_without_sign_is_not_read. reflexivity.
Defined.

(** Two digit runs around an operator character are matched from the
    first character of the text, whatever follows the second run. *)
Lemma match_here_problem_then (it_op : item) d1 w1 oc w2 d2 rest :
  rep it_op = Once -> cls it_op oc = true ->
  is_digit oc = false -> is_space oc = false ->
  d1 <> "" -> all_chars is_digit d1 = true ->
  d2 <> "" -> all_chars is_digit d2 = true ->
  all_chars is_space w1 = true -> all_chars is_space w2 = true ->
  stops is_digit rest ->
  match_here
    [ Item is_digit Many1 true; Item is_space Many0 false; it_op;
      Item is_space Many0 false; Item is_digit Many1 true ]
    (d1 ++ w1 ++ String oc (w2 ++ d2 ++ rest)) []
  = Some (keep it_op (String oc "") [d1] ++ [d2]).
Proof.
  intros Hrep Hcls Hnd Hns Hd1 Hall1 Hd2 Hall2 Hw1 Hw2 Hrest.
  apply match_here_many1; [done.. | |].
  { destruct w1 as [|c w1]; simpl; [done |].
    simpl in Hw1. apply andb_prop in Hw1 as [Hc _].
    destruct (is_digit c) eqn:E; [|done].
    apply digit_not_space in E. congruence. }
  apply match_here_many0; [done.. | simpl; done |].
  rewrite match_here_once by done.
  apply match_here_many0; [done.. | by apply stops_space_digits |].
  apply match_here_many1; [done.. |].
  simpl. unfold keep at 1 3 4 5. simpl. done.
Qed.

Lemma minus_problem_text a b rest :
  (problem_text a Sub b ++ rest)%string
  = (showN a ++ " " ++ String "-" (" " ++ showN b ++ rest))%string.
Proof.
  unfold problem_text, op_text. by rewrite !append_assoc.
Qed.

(** Property X21.
    The demonstration takes the sign from anywhere in the text.  When
    the text goes on after ["a - b"], for safe integers [a] and [b], and
    holds a [+] further on, the demonstration reads the problem as
    [a + b], while the step grader reads the same text as a subtraction:
    after the start it accepts the step to the left and rejects the step
    to the right. *)
Theorem minus_problem_demonstrated_as_plus
        (toString : number -> string) (a b : N) (rest operation : string) :
  safe (Z.of_N a) -> safe (Z.of_N b) ->
  stops is_digit rest -> includes rest "+" = true ->
  let problem := (problem_text a Sub b ++ rest)%string in
  parseNumbers problem
  = Some {| firstNumber := Z.of_N a; secondNumber := Z.of_N b;
            NumberLine.operator := "+" |}
  /\ (exists v,
        ValidationActions.validateNumberLineStep toString problem operation
          {| ValidationActions.current_steps := [of_Z (Z.of_N a)];
             ValidationActions.proposed_step := of_Z (Z.of_N a - 1) |} = Ok v
        /\ ValidationActions.is_correct v = true)
  /\ (exists v,
        ValidationActions.validateNumberLineStep toString problem operation
          {| ValidationActions.current_steps := [of_Z (Z.of_N a)];
             ValidationActions.proposed_step := of_Z (Z.of_N a + 1) |} = Ok v
        /\ ValidationActions.is_correct v = false).
Proof.
  intros Ha Hb Hrest Hplus problem. unfold safe in Ha, Hb.
  assert (forall captured,
            search
              [ Item is_digit Many1 true; Item is_space Many0 false;
                Item (one_of ["+"; "-"]%char) Once captured;
                Item is_space Many0 false; Item is_digit Many1 true ] problem
            = Some (keep (Item (one_of ["+"; "-"]%char) Once captured) "-"
                         [showN a] ++ [showN b])) as Hsearch.
  { intros captured. apply search_here. subst problem.
    rewrite minus_problem_text.
    apply (match_here_problem_then
             (Item (one_of ["+"; "-"]%char) Once captured) (showN a) " " "-"
             " " (showN b) rest);
      auto using showN_nonempty, showN_digits. }
  split; [| split].
  - unfold parseNumbers.
    assert (String.eqb problem "" = false) as ->.
    { apply String.eqb_neq. subst problem. rewrite minus_problem_text.
      pose proof (showN_nonempty a). destruct (showN a); [done | discriminate]. }
    change demo_problem with
      [ Item is_digit Many1 true; Item is_space Many0 false;
        Item (one_of ["+"; "-"]%char) Once false;
        Item is_space Many0 false; Item is_digit Many1 true ].
    rewrite Hsearch. cbn [keep captured app].
    assert (includes problem "+" = true) as ->.
    { apply includes_spec, contains_app_l. by apply includes_spec. }
    by rewrite !digits_value_showN.
  - unfold ValidationActions.validateNumberLineStep.
    change step_problem with
      [ Item is_digit Many1 true; Item is_space Many0 false;
        Item (one_of ["+"; "-"]%char) Once true;
        Item is_space Many0 false; Item is_digit Many1 true ].
    rewrite Hsearch. cbn [keep captured app ValidationActions.current_steps
                          ValidationActions.proposed_step last].
    rewrite !parseInt_showN.
    change (ValidationActions.if_plus "-" (of_Z 1) (of_Z (-1))) with (of_Z (-1)).
    rewrite (add_exact (Z.of_N a) (-1)) by lia. rewrite eq_exact by lia.
    replace (Z.of_N a - 1 =? Z.of_N a + -1) with true
      by (symmetry; apply Z.eqb_eq; lia).
    destruct (num_le _ _); by eexists.
  - unfold ValidationActions.validateNumberLineStep.
    change step_problem with
      [ Item is_digit Many1 true; Item is_space Many0 false;
        Item (one_of ["+"; "-"]%char) Once true;
        Item is_space Many0 false; Item is_digit Many1 true ].
    rewrite Hsearch. cbn [keep captured app ValidationActions.current_steps
                          ValidationActions.proposed_step last].
    rewrite !parseInt_showN.
    change (ValidationActions.if_plus "-" (of_Z 1) (of_Z (-1))) with (of_Z (-1)).
    rewrite (add_exact (Z.of_N a) (-1)) by lia. rewrite eq_exact by lia.
    replace (Z.of_N a + 1 =? Z.of_N a + -1) with false
      by (symmetry; apply Z.eqb_neq; lia).
    change (String.eqb "-" "+") with false. cbn [andb].
    by eexists.
Qed.

Lemma minus_problem_demonstrated_as_plus_witness :
  parseNumbers "8 - 3 + 2"
  = Some {| firstNumber := 8; secondNumber := 3; NumberLine.operator := "+" |}
  /\ (exists v,
        ValidationActions.validateNumberLineStep decimal "8 - 3 + 2" "subtraction"
          {| ValidationActions.current_steps := [of_Z 8];
             ValidationActions.proposed_step := of_Z 7 |} = Ok v
        /\ ValidationActions.is_correct v = true)
  /\ (exists v,
        ValidationActions.validateNumberLineStep decimal "8 - 3 + 2" "subtraction"
          {| ValidationActions.current_steps := [of_Z 8];
             ValidationActions.proposed_step := of_Z 9 |} = Ok v
        /\ ValidationActions.is_correct v = false).
Proof.
  apply (minus_problem_demonstrated_as_plus decimal 8 3 " + 2" "subtraction");
    reflexivity.
Defined.

End ProblemReadingFacts.

(** ** The number line in manual mode *)

Module ManualFacts.
Import JS ValidationActions ManualLine Spec ManualSpec.
Import StringFacts RegexFacts NumberFacts StepGraderFacts.
Local Open Scope list_scope.

(** The verdict of the step grader on ["a op b"], for safe integers. *)
Lemma grader_verdict (toString : number -> string) a b o operation current p :
  safe (Z.of_N a) -> safe p -> (forall l, last current = Some l -> safe l) ->
  exists v,
    validateNumberLineStep toString (problem_text a o b) operation
      {| current_steps := map of_Z current; proposed_step := of_Z p |} = Ok v
    /\ is_correct v
       = match last current with
         | None => p =? Z.of_N a
         | Some l => p =? next_of o l
         end.
Proof.
  intros Ha Hp Hlast. unfold safe in Ha, Hp.
  unfold validateNumberLineStep. rewrite search_step_problem.
  cbn [current_steps proposed_step]. rewrite !parseInt_showN, !if_plus_op.
  rewrite last_map.
  destruct (last current) as [l|]; cbn [option_map].
  - pose proof (Hlast l eq_refl) as Hl. rewrite expected_next by done.
    unfold safe in Hl.
    rewrite eq_exact by (destruct o; unfold next_of, apply_op; lia).
    destruct (p =? next_of o l).
    + destruct (num_le _ _); by eexists.
    + destruct (String.eqb (op_text o) "+" && _); [by eexists |].
      destruct (String.eqb (op_text o) "+" && _); by eexists.
  - rewrite eq_exact by lia. destruct (p =? Z.of_N a); by eexists.
Qed.

Lemma last_snoc_safe (st : list Z) (l : Z) :
  safe l -> forall l', last (st ++ [l]) = Some l' -> safe l'.
Proof. intros Hl l'. rewrite last_snoc. by intros [= <-]. Qed.

Lemma numbers_manual a b o operation send :
  numbers (manual_props a b o operation send)
  = Some {| NumberLine.firstNumber := Z.of_N a;
            NumberLine.secondNumber := Z.of_N b;
            NumberLine.operator := op_text o |}.
Proof.
  apply (DemoRunFacts.numbers_of_problem
           {| NumberLine.problem := problem_text a o b;
              NumberLine.operation := operation;
              NumberLine.demoMode := false;
              NumberLine.sendIntermediateMessage := send;
              NumberLine.onDemoPause := false;
              NumberLine.onDemoResume := false;
              NumberLine.onDemoComplete := false |} a b o eq_refl).
Qed.

Lemma send_message m i :
  sendAndCollectMessage (NumberLine.pin ++ m) i
  = {| props := props i;
       state := setMessageHistory (fun prev => prev ++ [m]) (state i);
       timers := timers i; nextId := nextId i;
       log := log i ++ sent_if (sendIntermediateMessage (props i)) m |}.
Proof.
  unfold sendAndCollectMessage. rewrite remove_first_prefix.
  cbn [props with_state]. unfold sent_if.
  destruct (sendIntermediateMessage (props i)); cbn; by rewrite ?app_nil_r.
Qed.

(** The validation of an accepted step, whatever happened since the
    click. *)
Lemma validated_accepted (toString : number -> string)
      a b o send snap x st l now j :
  safe (Z.of_N a) -> safe l -> safe (next_of o l) ->
  props j = manual_props a b o (operation_of o) send ->
  selectedNumber snap = Some x -> steps snap = st ++ [l] ->
  let p := next_of o l in
  let remaining := Z.of_N b - Z.of_nat (S (length st)) in
  let said := if showValidationFeedback snap then []
              else [progress o remaining] in
  exists v,
    validateNumberLineStep toString (problem_text a o b) (operation_of o)
      {| current_steps := map of_Z (st ++ [l]); proposed_step := of_Z p |}
    = Ok v
    /\ is_correct v = true
    /\ validated toString snap p now j
       = {| props := props j;
            state :=
              {| selectedNumber := selectedNumber (state j);
                 steps := st ++ [l; p];
                 currentStep := currentStep (state j);
                 messageHistory := messageHistory (state j) ++ said;
                 validationInProgress := false;
                 stepFeedback := feedback v;
                 lastValidationResult := Some v;
                 validatedSteps := validatedSteps (state j) ∪ {[p]};
                 showValidationFeedback := true |};
            timers :=
              timers j
              ++ {| id := nextId j; due := now + 3000; action := HideFeedback |}
              :: (if remaining =? 0
                  then [ {| id := S (nextId j); due := now + 500;
                            action :=
                              Excellent
                                {| NumberLine.firstNumber := Z.of_N a;
                                   NumberLine.secondNumber := Z.of_N b;
                                   NumberLine.operator := op_text o |}
                                (op_text o) p (messageHistory snap) |} ]
                  else []);
            nextId := if remaining =? 0 then S (S (nextId j)) else S (nextId j);
            log := log j ++ flat_map (sent_if send) said |}.
Proof.
  intros Ha Hl Hnext Hprops Hsel Hsteps p remaining said.
  destruct (grader_verdict toString a b o (operation_of o) (st ++ [l]) p)
    as (v & Hv & Hc); [done | done | by apply last_snoc_safe |].
  rewrite last_snoc in Hc. subst p. rewrite Z.eqb_refl in Hc.
  exists v. split; [done |]. split; [done |].
  destruct j as [pj sj tj nj lj]. cbn [props] in Hprops. subst pj.
  unfold validated. cbn [props]. rewrite numbers_manual.
  cbn [problem operation manual_props]. rewrite Hsteps, Hv, Hc.
  unfold proceed. rewrite Hsel, Hsteps, last_snoc.
  cbn [props with_state setTimeout operation manual_props
       NumberLine.firstNumber NumberLine.secondNumber].
  rewrite length_app, length_app. cbn [length].
  replace (Z.of_N b - (Z.of_nat (length st + 1 + 1) - 1)) with remaining
    by (subst remaining; lia).
  replace (Z.of_nat (length st + 1 + 1) - 1 =? Z.of_N b) with (remaining =? 0)
    by (subst remaining; destruct (Z.eqb_spec (Z.of_N b - Z.of_nat (S (length st))) 0);
        symmetry; [apply Z.eqb_eq | apply Z.eqb_neq]; lia).
  subst said. unfold progress.
  change "📍 You did it! 🎉" with (NumberLine.pin ++ "You did it! 🎉")%string.
  destruct o; cbn [operation_of next_of apply_op String.eqb Ascii.eqb Bool.eqb
                   andb op_text];
    rewrite Z.eqb_refl; cbn [andb negb];
    destruct (showValidationFeedback snap); cbn [negb flat_map app];
    destruct (0 <? remaining);
    rewrite ?send_message; destruct (remaining =? 0);
    cbv [setTimeout with_state setSteps setMessageHistory setValidatedSteps
         setValidationInProgress setShowValidationFeedback setStepFeedback
         setLastValidationResult props state timers nextId log
         selectedNumber steps currentStep messageHistory validationInProgress
         stepFeedback lastValidationResult validatedSteps showValidationFeedback
         manual_props sendIntermediateMessage];
    rewrite ?app_nil_r, <- ?app_assoc; cbn [app]; reflexivity.
Qed.

(** A click on a quiescent number line: the handler waits for the
    validation. *)
Lemma click_quiescent a b o operation send i now num :
  props i = manual_props a b o operation send ->
  timers i = [] -> validationInProgress (state i) = false ->
  click now num i
  = {| props := props i;
       state := setShowValidationFeedback false
                  (setValidationInProgress true (state i));
       timers := [ {| id := nextId i; due := now + 200;
                      action := Validated (state i) num |} ];
       nextId := S (nextId i);
       log := log i |}.
Proof.
  intros Hprops Htimers Hidle. unfold click.
  rewrite Hprops, numbers_manual, Hidle.
  unfold setTimeout, with_state. cbn [props state timers nextId log].
  by rewrite Htimers, Hprops.
Qed.

Lemma tick_validation (toString : number -> string) i0 snap num t n :
  timers i0 = [ {| id := n; due := t; action := Validated snap num |} ] ->
  tick toString i0
  = validated toString snap num t
      {| props := props i0; state := state i0; timers := [];
         nextId := nextId i0; log := log i0 |}.
Proof.
  intros Ht. unfold tick. rewrite Ht.
  cbn [earliest action due id run_callback]. unfold drop_timer. rewrite Ht.
  cbn [List.filter id]. by rewrite Nat.eqb_refl.
Qed.

(** Property X22.
    An accepted step.  On a quiescent number line whose operation agrees
    with the problem, a click on the neighbour of the last position is
    validated 200 ms later and added to the path, and the feedback is
    shown for three seconds.  The progress message goes to the chat and
    to the history only when no feedback was showing at the time of the
    click: a step taken while the feedback of the step before is still
    up, or after a rejected step, is not reported.  The step that makes
    [b] steps arms the completion.  The operands and the positions
    are safe integers. *)
Theorem accepted_step_reports_unless_feedback_shows
        (toString : number -> string)
        (a b : N) (o : operator) (send : bool) (i : instance)
        (x : Z) (st : list Z) (l now : Z) :
  safe_problem a b o -> safe l -> safe (next_of o l) ->
  props i = manual_props a b o (operation_of o) send ->
  timers i = [] ->
  selectedNumber (state i) = Some x -> steps (state i) = st ++ [l] ->
  validationInProgress (state i) = false ->
  let p := next_of o l in
  let remaining := Z.of_N b - Z.of_nat (S (length st)) in
  let said := if showValidationFeedback (state i) then []
              else [progress o remaining] in
  let i' := tick toString (click now p i) in
  steps (state i') = st ++ [l; p]
  /\ selectedNumber (state i') = Some x
  /\ validationInProgress (state i') = false
  /\ showValidationFeedback (state i') = true
  /\ messageHistory (state i') = messageHistory (state i) ++ said
  /\ log i' = log i ++ flat_map (sent_if send) said
  /\ map (fun t => (due t, action t)) (timers i')
     = (now + 200 + 3000, HideFeedback)
       :: (if remaining =? 0
           then [ (now + 200 + 500,
                   Excellent
                     {| NumberLine.firstNumber := Z.of_N a;
                        NumberLine.secondNumber := Z.of_N b;
                        NumberLine.operator := op_text o |}
                     (op_text o) p (messageHistory (state i))) ]
           else []).
Proof.
  intros (Ha & _) Hl Hnext Hprops Htimers Hsel Hsteps Hidle p remaining said i'.
  subst i' p.
  rewrite (click_quiescent a b o (operation_of o) send) by done.
  erewrite tick_validation by reflexivity.
  cbn [props state timers nextId log].
  match goal with
  | |- context [validated toString ?snap ?q ?t ?j] =>
      destruct (validated_accepted toString a b o send snap x st l t j
                  Ha Hl Hnext Hprops Hsel Hsteps)
        as (v & _ & _ & ->)
  end.
  fold remaining. fold said.
  cbn [props state timers nextId log selectedNumber steps messageHistory
       validationInProgress showValidationFeedback setShowValidationFeedback
       setValidationInProgress app].
  repeat split; try done.
  by destruct (remaining =? 0).
Qed.

Lemma accepted_step_reports_unless_feedback_shows_witness :
  let i := tick decimal
             (tick decimal
                (click 0 5 (mount (manual_props 5 3 Add "addition" true)))) in
  let rejected := tick decimal (click 5000 8 i) in
  let i' := tick decimal (click 6000 (next_of Add 5) rejected) in
  showValidationFeedback (state rejected) = true
  /\ steps (state i') = [5; 6]
  /\ messageHistory (state i') = messageHistory (state rejected)
  /\ log i' = log rejected.
Proof.
  intros i rejected i'.
  pose proof (accepted_step_reports_unless_feedback_shows decimal
                5 3 Add true rejected 5 [] 5 6000) as H.
  cbv zeta in H.
  destruct H as (H1 & _ & _ & _ & H5 & H6 & _);
    try reflexivity; [repeat split; reflexivity |].
  split; [reflexivity |]. subst i'.
  split; [rewrite H1; reflexivity |].
  split; [rewrite H5 | rewrite H6]; vm_compute; reflexivity.
Defined.

Lemma earliest_pair t1 t2 :
  due t2 < due t1 -> earliest [t1; t2] = Some t2.
Proof.
  intros H. cbn [earliest]. by apply Z.ltb_lt in H as ->.
Qed.

Lemma path_length a o k : length (path a o k) = k.
Proof. unfold path. by rewrite length_map, length_seq. Qed.

(** Property X23.
    The completion in manual mode.  When the learner has walked the path
    up to the last step but one and clicks the result, the completion
    message is sent half a second after the validation and [onAnswer] is
    called 300 ms later with the result, and with the message history of
    the render in which the result was clicked: that history holds
    neither the message of the last step nor the completion message,
    which the number line has collected by then.  The operands and
    the result are safe integers. *)
Theorem manual_completion_hands_over_the_history_of_the_click
        (toString : number -> string)
        (a b : N) (o : operator) (send : bool) (i : instance) (x now : Z) :
  safe_problem a b o ->
  props i = manual_props a b o (operation_of o) send ->
  timers i = [] ->
  selectedNumber (state i) = Some x ->
  steps (state i) = path a o (N.to_nat b) -> (0 < b)%N ->
  validationInProgress (state i) = false ->
  let result := apply_op o (Z.of_N a) (Z.of_N b) in
  let said := if showValidationFeedback (state i) then []
              else ["You did it! 🎉"] in
  let r := Nat.iter 3 (tick toString) (click now result i) in
  steps (state r) = path a o (S (N.to_nat b))
  /\ messageHistory (state r)
     = messageHistory (state i) ++ said ++ [excellent a b o result]
  /\ log r
     = log i ++ flat_map (sent_if send) said
       ++ sent_if send (excellent a b o result)
       ++ [Answer result (messageHistory (state i))]
  /\ map (fun t => (due t, action t)) (timers r)
     = [(now + 200 + 3000, HideFeedback)].
Proof.
  intros (Ha & Hsb & Hab) Hprops Htimers Hsel Hsteps Hb Hidle result said r.
  destruct (N.to_nat b) as [|k] eqn:Hk; [lia |].
  rewrite (DemoRunFacts.path_S a o k) in Hsteps.
  assert (result = next_of o (Z.of_N a + direction o * Z.of_nat k)) as Hresult.
  { subst result. unfold next_of. destruct o; cbn [apply_op direction]; lia. }
  assert (exists v,
            r = {| props := manual_props a b o (operation_of o) send;
                   state :=
                     {| selectedNumber := Some x;
                        steps := path a o k
                                 ++ [Z.of_N a + direction o * Z.of_nat k; result];
                        currentStep := currentStep (state i);
                        messageHistory :=
                          (messageHistory (state i) ++ said)
                          ++ [excellent a b o result];
                        validationInProgress := false;
                        stepFeedback := feedback v;
                        lastValidationResult := Some v;
                        validatedSteps := validatedSteps (state i) ∪ {[result]};
                        showValidationFeedback := true |};
                   timers := [ {| id := S (nextId i); due := now + 200 + 3000;
                                  action := HideFeedback |} ];
                   nextId := S (S (S (S (nextId i))));
                   log := ((log i ++ flat_map (sent_if send) said)
                           ++ sent_if send (excellent a b o result))
                          ++ [Answer result (messageHistory (state i))] |})
    as [v ->].
  { assert (safe (Z.of_N a + direction o * Z.of_nat k)) as Hl
        by (unfold safe, apply_op in *; destruct o; cbn [direction]; lia).
    assert (safe (next_of o (Z.of_N a + direction o * Z.of_nat k))) as Hnext
        by (rewrite <- Hresult; exact Hab).
    subst r.
    change (Nat.iter 3 (tick toString) (click now result i))
      with (tick toString (tick toString (tick toString (click now result i)))).
    replace (click now result i)
      with (click now (next_of o (Z.of_N a + direction o * Z.of_nat k)) i)
      by congruence.
    rewrite (click_quiescent a b o (operation_of o) send) by done.
    match goal with
    | |- context [tick toString (tick toString (tick toString ?c))] =>
        rewrite (tick_validation toString c _ _ _ _ eq_refl)
    end.
    match goal with
    | |- context [validated toString ?snap ?q ?t ?j] =>
        destruct (validated_accepted toString a b o send snap x (path a o k) _ t j
                    Ha Hl Hnext Hprops Hsel Hsteps) as (v & _ & _ & ->)
    end.
    exists v.
    rewrite path_length.
    replace (Z.of_N b - Z.of_nat (S k)) with 0 by lia.
    change (0 =? 0) with true. cbv iota.
    unfold progress. change (0 <? 0) with false. cbv iota. fold said.
    rewrite <- Hresult.
    cbn [props state timers nextId log app selectedNumber currentStep
         messageHistory validatedSteps setShowValidationFeedback
         setValidationInProgress].
    rewrite Hprops, Hsel.
    (* the completion message *)
    unfold tick at 2. cbn [timers].
    rewrite earliest_pair by (cbn [due]; lia).
    cbn [action due id run_callback]. unfold drop_timer.
    cbn [timers List.filter id].
    rewrite Nat.eqb_refl, (proj2 (Nat.eqb_neq _ _) (Nat.neq_succ_diag_r _)).
    cbn [negb props state nextId log NumberLine.firstNumber
         NumberLine.secondNumber].
    change ("📍 ✅ Excellent! You successfully solved "
            ++ showZ (Z.of_N a) ++ " " ++ op_text o ++ " " ++ showZ (Z.of_N b)
            ++ " = " ++ showZ result ++ "!")%string
      with (NumberLine.pin ++ excellent a b o result)%string.
    rewrite send_message.
    unfold setTimeout.
    cbn [props state timers nextId log manual_props sendIntermediateMessage
         app].
    (* the answer *)
    unfold tick. cbn [timers].
    rewrite earliest_pair by (cbn [due]; lia).
    cbn [action due id run_callback]. unfold drop_timer.
    cbn [timers List.filter id].
    rewrite Nat.eqb_refl.
    rewrite (proj2 (Nat.eqb_neq (S (nextId i)) (S (S (S (nextId i)))))) by lia.
    cbn [negb emit props state timers nextId log setMessageHistory
         selectedNumber steps currentStep messageHistory validationInProgress
         stepFeedback lastValidationResult validatedSteps
         showValidationFeedback].
    reflexivity. }
  cbn [props state timers nextId log steps messageHistory map due action].
  rewrite (DemoRunFacts.path_S a o (S k)), (DemoRunFacts.path_S a o k).
  repeat split.
  - rewrite <- app_assoc. cbn [app]. do 3 f_equal.
    subst result. destruct o; cbn [apply_op direction]; lia.
  - by rewrite <- !app_assoc.
  - by rewrite <- !app_assoc.
Qed.


Lemma manual_completion_hands_over_the_history_of_the_click_witness :
  let i := tick decimal
             (tick decimal
                (click 0 4 (mount (manual_props 4 1 Add "addition" true)))) in
  let r := Nat.iter 3 (tick decimal)
             (click 5000 (apply_op Add (Z.of_N 4) (Z.of_N 1)) i) in
  log r
  = [ Sent "📍 Click on 4 to start!";
      Sent "📍 Great! Now count forward 1 more step";
      Sent "📍 You did it! 🎉";
      Sent "📍 ✅ Excellent! You successfully solved 4 + 1 = 5!";
      Answer 5 ["Click on 4 to start!"; "Great! Now count forward 1 more step"] ]
  /\ messageHistory (state r)
     = [ "Click on 4 to start!"; "Great! Now count forward 1 more step";
         "You did it! 🎉"; "✅ Excellent! You successfully solved 4 + 1 = 5!" ].
Proof.
  intros i r.
  pose proof (manual_completion_hands_over_the_history_of_the_click decimal
                4 1 Add true i 4 5000) as H.
  cbv zeta in H.
  destruct H as (_ & H2 & H3 & _);
    try reflexivity; [repeat split; reflexivity |].
  subst r. split; [rewrite H3 | rewrite H2]; vm_compute; reflexivity.
Defined.

(** Property X24.
    A rejected click changes nothing but the feedback.  The path, the
    selection, the history and the chat are as before and no timer is
    armed: the feedback of a rejected step stays up until it is closed
    or another number is clicked.  The operands and the positions are
    safe integers. *)
Theorem rejected_click_only_shows_feedback
        (toString : number -> string)
        (a b : N) (o : operator) (operation : string) (send : bool)
        (i : instance) (now num : Z) :
  safe_problem a b o -> Forall safe (steps (state i)) -> safe num ->
  props i = manual_props a b o operation send ->
  timers i = [] -> validationInProgress (state i) = false ->
  match last (steps (state i)) with
  | None => num <> Z.of_N a
  | Some l => num <> next_of o l
  end ->
  let i' := tick toString (click now num i) in
  exists v,
    validateNumberLineStep toString (problem_text a o b) operation
      {| current_steps := map of_Z (steps (state i));
         proposed_step := of_Z num |} = Ok v
    /\ is_correct v = false
    /\ i' = {| props := props i;
               state :=
                 setValidationInProgress false
                   (setShowValidationFeedback true
                      (setStepFeedback (feedback v)
                         (setLastValidationResult (Some v) (state i))));
               timers := [];
               nextId := S (nextId i);
               log := log i |}.
Proof.
  intros (Ha & _) Hsafe Hnum Hprops Htimers Hidle Hwrong i'. subst i'.
  destruct (grader_verdict toString a b o operation (steps (state i)) num)
    as (v & Hv & Hc);
    [done | done | intros l Hl; by apply (last_safe (steps (state i))) |].
  assert (is_correct v = false) as Hfalse.
  { rewrite Hc. destruct (last (steps (state i))); by apply Z.eqb_neq. }
  exists v. split; [done |]. split; [done |].
  rewrite (click_quiescent a b o operation send) by done.
  erewrite tick_validation by reflexivity.
  unfold validated. cbn [props]. rewrite Hprops, numbers_manual.
  cbn [problem ManualLine.operation manual_props]. rewrite Hv, Hfalse.
  reflexivity.
Qed.

Lemma rejected_click_only_shows_feedback_witness :
  let i := tick decimal
             (tick decimal
                (click 0 5 (mount (manual_props 5 3 Add "addition" true)))) in
  let i' := tick decimal (click 5000 8 i) in
  steps (state i') = [5]
  /\ log i' = log i
  /\ timers i' = []
  /\ showValidationFeedback (state i') = true
  /\ stepFeedback (state i') = "Slow down! Let's count one step at a time.".
Proof.
  intros i i'.
  destruct (rejected_click_only_shows_feedback decimal 5 3 Add "addition" true
              i 5000 8) as (v & Hv & _ & Hi');
    [ repeat split; reflexivity
    | replace (steps (state i)) with [5] by (vm_compute; reflexivity);
      repeat constructor
    | reflexivity
    | vm_compute; reflexivity | vm_compute; reflexivity
    | vm_compute; reflexivity | vm_compute; discriminate |].
  vm_compute in Hv. injection Hv as <-.
  subst i'. rewrite Hi'. vm_compute. repeat split; reflexivity.
Defined.

(** Property X25.
    Resetting while a validation is pending does not cancel it.  When
    the validation of an accepted step returns after the reset, the step
    is added to the path of the render in which it was clicked: the
    number line shows that path again, with no number selected.  The
    operands and the positions are safe integers. *)
Theorem reset_during_validation_restores_the_path
        (toString : number -> string)
        (a b : N) (o : operator) (send : bool) (i : instance)
        (x : Z) (st : list Z) (l now : Z) :
  safe_problem a b o -> safe l -> safe (next_of o l) ->
  props i = manual_props a b o (operation_of o) send ->
  timers i = [] ->
  selectedNumber (state i) = Some x -> steps (state i) = st ++ [l] ->
  validationInProgress (state i) = false ->
  let p := next_of o l in
  let waiting := reset (click now p i) in
  let i' := tick toString waiting in
  steps (state waiting) = []
  /\ selectedNumber (state waiting) = None
  /\ steps (state i') = st ++ [l; p]
  /\ selectedNumber (state i') = None
  /\ validatedSteps (state i') = {[p]}.
Proof.
  intros (Ha & _) Hl Hnext Hprops Htimers Hsel Hsteps Hidle p waiting i'.
  subst i' waiting p.
  rewrite (click_quiescent a b o (operation_of o) send) by done.
  split; [done |]. split; [done |].
  erewrite tick_validation by reflexivity.
  match goal with
  | |- context [validated toString ?snap ?q ?t ?j] =>
      destruct (validated_accepted toString a b o send snap x st l t j
                  Ha Hl Hnext Hprops Hsel Hsteps)
        as (v & _ & _ & ->)
  end.
  cbn [state steps selectedNumber validatedSteps reset with_state
       setSelectedNumber setSteps setCurrentStep setValidatedSteps
       setShowValidationFeedback setStepFeedback setLastValidationResult].
  repeat split. apply (left_id_L ∅ (∪)).
Qed.

Lemma reset_during_validation_restores_the_path_witness :
  let i := tick decimal
             (tick decimal
                (click 0 5 (mount (manual_props 5 3 Add "addition" true)))) in
  let i' := tick decimal (reset (click 5000 (next_of Add 5) i)) in
  steps (state i') = [5; 6] /\ selectedNumber (state i') = None.
Proof.
  intros i i'.
  pose proof (reset_during_validation_restores_the_path decimal
                5 3 Add true i 5 [] 5 5000) as H.
  cbv zeta in H.
  destruct H as (_ & _ & H3 & H4 & _);
    try reflexivity; [repeat split; reflexivity |].
  subst i'. split; [rewrite H3; reflexivity | exact H4].
Defined.

(** *** An operation that disagrees with the problem *)

Lemma earliest_pending ts t : earliest ts = Some t -> In t ts.
Proof.
  revert t. induction ts as [|t0 ts IH]; intros t; simpl; [done |].
  destruct (earliest ts) as [t'|].
  - destruct (due t' <? due t0); intros [= <-]; auto.
  - intros [= <-]. auto.
Qed.

Lemma started_frame a s s' :
  selectedNumber s' = selectedNumber s -> steps s' = steps s ->
  at_most_started a s -> at_most_started a s'.
Proof. unfold at_most_started. by intros -> ->. Qed.

Lemma stuck_frame a b o i j :
  props j = props i ->
  selectedNumber (state j) = selectedNumber (state i) ->
  steps (state j) = steps (state i) ->
  timers j = timers i -> log j = log i ->
  stuck a b o i -> stuck a b o j.
Proof.
  intros Hp Hsel Hst Ht Hl (Hn & Hpr & Hop & Hs & Hts & Hlog & Ha).
  unfold stuck. rewrite Hp, Ht, Hl.
  repeat split; try done. by apply (started_frame a (state i)).
Qed.

Lemma stuck_send a b o m i :
  stuck a b o i -> stuck a b o (sendAndCollectMessage m i).
Proof.
  intros (Hn & Hpr & Hop & Hs & Hts & Hlog & Ha). unfold sendAndCollectMessage.
  cbn [props with_state].
  destruct (sendIntermediateMessage (props i)); repeat split; try done.
  cbn [log emit with_state]. by rewrite existsb_app, Hlog.
Qed.

Lemma stuck_timer a b o f now delay i :
  harmless a {| id := nextId i; due := now + delay; action := f |} ->
  stuck a b o i -> stuck a b o (setTimeout f now delay i).
Proof.
  intros Hf (Hn & Hpr & Hop & Hs & Hts & Hlog & Ha). repeat split; try done.
  cbn [timers setTimeout]. apply Forall_app. split; [done |]. by constructor.
Qed.

Lemma stuck_mount a b o operation send :
  safe (Z.of_N a) -> operation <> operation_of o ->
  stuck a b o (mount (manual_props a b o operation send)).
Proof.
  intros Ha Hop. unfold mount. rewrite numbers_manual.
  assert (stuck a b o
            {| props := manual_props a b o operation send;
               state := initialState; timers := []; nextId := 1; log := [] |})
    as H.
  { repeat split; try done; [apply numbers_manual | by left]. }
  cbn [sendIntermediateMessage manual_props]. destruct send; [| done].
  by apply stuck_send.
Qed.

Lemma stuck_click a b o now num i :
  safe num -> stuck a b o i -> stuck a b o (click now num i).
Proof.
  intros Hnum Hi. pose proof Hi as (Hn & Hpr & Hop & Hs & Hts & Hlog & Ha).
  unfold click. rewrite Hn.
  destruct (validationInProgress (state i)); [done |].
  apply stuck_timer; [by split |].
  by apply (stuck_frame a b o i).
Qed.

Lemma stuck_reset a b o i : stuck a b o i -> stuck a b o (reset i).
Proof.
  intros (Hn & Hpr & Hop & Hs & Hts & Hlog & Ha).
  repeat split; try done. by left.
Qed.

Lemma stuck_submit a b o now i : stuck a b o i -> stuck a b o (submit now i).
Proof.
  intros Hi. pose proof Hi as (Hn & Hpr & Hop & Hs & Hts & Hlog & Ha).
  unfold submit. by destruct Hs as [[_ ->] | [_ ->]].
Qed.

Lemma stuck_dismiss a b o i : stuck a b o i -> stuck a b o (dismiss i).
Proof.
  intros Hi. unfold dismiss. destruct (_ && _); [| done].
  by apply (stuck_frame a b o i).
Qed.

Lemma stuck_proceed (toString : number -> string) a b o snap num now i v :
  validateNumberLineStep toString (problem_text a o b) (operation (props i))
    {| current_steps := map of_Z (steps snap); proposed_step := of_Z num |}
  = Ok v ->
  is_correct v = true ->
  at_most_started a snap -> safe num ->
  stuck a b o i ->
  stuck a b o
    (proceed {| NumberLine.firstNumber := Z.of_N a;
                NumberLine.secondNumber := Z.of_N b;
                NumberLine.operator := op_text o |} snap num now i).
Proof.
  intros Hv Hc Hsnap Hsafe Hi.
  pose proof Hi as (Hn & Hpr & Hop & Hs & Hts & Hlog & Ha).
  destruct (grader_verdict toString a b o (operation (props i)) (steps snap) num)
    as (v' & Hv' & Hc'); [done | done | |].
  { intros l. destruct Hsnap as [[_ ->] | [_ ->]]; [done |]. by intros [= <-]. }
  rewrite Hv in Hv'. injection Hv' as <-. rewrite Hc in Hc'.
  unfold proceed. destruct Hsnap as [[Hsel Hst] | [Hsel Hst]];
    rewrite Hsel, Hst in *; cbn [last NumberLine.firstNumber] in *.
  - rewrite <- Hc'. symmetry in Hc'. apply Z.eqb_eq in Hc' as ->.
    apply stuck_send. repeat split; try done. by right.
  - symmetry in Hc'. apply Z.eqb_eq in Hc'.
    destruct (String.eqb_spec (operation (props i)) "addition") as [Hadd | _];
      cbn [andb].
    + destruct (Z.eqb_spec num (Z.of_N a + 1)) as [Hnum | _]; [exfalso |].
      * destruct o; [by apply Hop | unfold next_of, apply_op in Hc'; lia].
      * destruct (String.eqb_spec (operation (props i)) "subtraction");
          [congruence | done].
    + destruct (String.eqb_spec (operation (props i)) "subtraction")
        as [Hsub | _]; cbn [andb]; [| done].
      destruct (Z.eqb_spec num (Z.of_N a - 1)) as [Hnum | _]; [exfalso | done].
      destruct o; [unfold next_of, apply_op in Hc'; lia | by apply Hop].
Qed.

Lemma stuck_tick (toString : number -> string) a b o i :
  stuck a b o i -> stuck a b o (tick toString i).
Proof.
  intros Hi. pose proof Hi as (Hn & Hpr & Hop & Hs & Hts & Hlog & Ha).
  unfold tick. destruct (earliest (timers i)) as [t|] eqn:E; [| done].
  apply earliest_pending in E.
  pose proof (proj1 (List.Forall_forall _ _) Hts t E) as Ht.
  assert (stuck a b o (drop_timer (id t) i)) as Hd.
  { repeat split; try done. cbn [timers drop_timer].
    apply List.Forall_forall. intros t' [Hin _]%List.filter_In.
    by apply (proj1 (List.Forall_forall _ _) Hts). }
  unfold harmless in Ht.
  destruct (action t) as [snap num | | |]; cbn [run_callback];
    [| by apply (stuck_frame a b o (drop_timer (id t) i)) | done | done].
  destruct Ht as [Ht Hnum].
  unfold validated. cbn [props drop_timer]. rewrite Hn, Hpr.
  destruct (grader_verdict toString a b o (operation (props i)) (steps snap) num)
    as (v & Hv & Hc); [done | done | |].
  { intros l. destruct Ht as [[_ ->] | [_ ->]]; [done |]. by intros [= <-]. }
  rewrite Hv.
  destruct (is_correct v) eqn:Hcorrect.
  - apply (stuck_proceed toString) with (v := v); [done.. |].
    apply (stuck_frame a b o
             (setTimeout HideFeedback (due t) 3000 (drop_timer (id t) i)));
      try done.
    apply stuck_timer; [done |].
    by apply (stuck_frame a b o (drop_timer (id t) i)).
  - by apply (stuck_frame a b o (drop_timer (id t) i)).
Qed.

Lemma stuck_run (toString : number -> string) a b o moves i :
  Forall safe_click moves ->
  stuck a b o i -> stuck a b o (fold_left (perform toString) moves i).
Proof.
  intros Hmoves. revert i.
  induction Hmoves as [|m moves Hm _ IH]; intros i Hi; simpl; [done |].
  apply IH. destruct m; simpl;
    auto using stuck_click, stuck_reset, stuck_submit, stuck_dismiss, stuck_tick.
Qed.

(** Property X26.
    A number line whose operation disagrees with the sign of its problem
    cannot be completed.  Whatever the learner clicks, resets, submits or
    closes, and whatever timers fire, the path never goes beyond the
    starting number and [onAnswer] is never called: the step that the
    validation accepts is the one the click handler refuses.  The
    operands and the numbers clicked are safe integers. *)
Theorem mismatched_operation_never_completes
        (toString : number -> string)
        (a b : N) (o : operator) (operation : string) (send : bool)
        (moves : list move) :
  safe_problem a b o -> Forall safe_click moves ->
  operation <> operation_of o ->
  let i := fold_left (perform toString) moves
             (mount (manual_props a b o operation send)) in
  existsb is_answer (log i) = false
  /\ (steps (state i) = [] \/ steps (state i) = [Z.of_N a]).
Proof.
  intros (Ha & _) Hmoves Hop i.
  destruct (stuck_run toString a b o moves _ Hmoves
              (stuck_mount a b o operation send Ha Hop))
    as (_ & _ & _ & Hs & _ & Hlog & _).
  split; [done |]. destruct Hs as [[_ ?] | [_ ?]]; auto.
Qed.

Lemma mismatched_operation_never_completes_witness :
  let moves := [ Click 0 8; Fire; Fire; Click 5000 7; Fire; Fire;
                 Click 10000 9; Fire; Submit 11000; Fire ] in
  let i := fold_left (perform decimal) moves
             (mount (manual_props 8 3 Sub "addition" true)) in
  steps (state i) = [8]
  /\ existsb is_answer (log i) = false
  /\ (steps (state i) = [] \/ steps (state i) = [Z.of_N 8]).
Proof.
  intros moves i. split; [vm_compute; reflexivity |].
  apply (mismatched_operation_never_completes decimal 8 3 Sub "addition" true
           moves).
  - repeat split; reflexivity.
  - repeat constructor.
  - discriminate.
Defined.

End ManualFacts.
